(** * Device simulator: frame codec, ring buffers and device state engine

    A shallow embedding of [protocol/protocol.c], [protocol/io_buffer.c]
    and [app.c] in Rocq, with the properties of the specification stated
    and proved (or refuted) over that embedding.

    Conventions.
    - C unsigned integers are [Z] with the wrap-around written out
      ([u8], [u16], [u32]).
    - A pointer to bytes is a flat memory [mem = Z -> Z], indexed from
      the pointer; [shift m k] is [&m[k]].  The model has no bounds: an
      access outside the C object is not flagged, it reads or writes the
      cell at that index.
    - A pointer that the code compares with NULL is an [option].
    - Output parameters are passed in and returned. *)

From Stdlib Require Import ZArith List Lia Bool.
Import ListNotations.
Open Scope Z_scope.

(** ** Machine integers *)

Definition u8 (x : Z) : Z := x mod 256.
Definition u16 (x : Z) : Z := x mod 65536.
Definition u32 (x : Z) : Z := x mod 4294967296.

Definition is_u8 (x : Z) : Prop := 0 <= x < 256.
Definition is_u16 (x : Z) : Prop := 0 <= x < 65536.
Definition is_u32 (x : Z) : Prop := 0 <= x < 4294967296.

(** ** Flat byte memory *)

Definition mem := Z -> Z.

Definition store (m : mem) (i v : Z) : mem :=
  fun j => if j =? i then v else m j.

(** [memcpy(&dst[off], src, n)] *)
Definition memcpy (dst : mem) (off : Z) (src : mem) (n : Z) : mem :=
  fun j => if (off <=? j) && (j <? off + n) then src (j - off) else dst j.

(** [&m[k]] *)
Definition shift (m : mem) (k : Z) : mem := fun j => m (j + k).

(** The bytes of a list, as a memory (cells past the end read 0). *)
Definition of_list (l : list Z) : mem := fun i => nth (Z.to_nat i) l 0.

(** The first [n] cells of a memory, as a list. *)
Definition to_list (m : mem) (n : Z) : list Z :=
  map (fun k => m (Z.of_nat k)) (seq 0 (Z.to_nat n)).

Definition bytes_upto (m : mem) (n : Z) : Prop :=
  forall i, 0 <= i < n -> is_u8 (m i).

(** ** protocol.h / protocol.c *)

Definition FRAME_HEAD_0 : Z := 0xAA.
Definition FRAME_HEAD_1 : Z := 0x55.
Definition FRAME_TAIL_0 : Z := 0x55.
Definition FRAME_TAIL_1 : Z := 0xAA.
Definition MAX_FRAME_SIZE : Z := 8192.

(** One pass of the inner [for (j = 0; j < 8; j++)] body. *)
Definition crc_shift (crc : Z) : Z :=
  if negb (Z.land crc 0x0001 =? 0)
  then Z.lxor (Z.shiftr crc 1) 0xA001
  else Z.shiftr crc 1.

(** One pass of the outer loop body, for the byte [b = data[i]]. *)
Definition crc_byte (crc b : Z) : Z :=
  Nat.iter 8 crc_shift (Z.lxor crc b).

(** [for (i = ...; i < length; i++)], with [n] passes left. *)
Fixpoint crc_loop (data : mem) (n : nat) (i crc : Z) : Z :=
  match n with
  | O => crc
  | S n' => crc_loop data n' (i + 1) (crc_byte crc (data i))
  end.

Definition CRC16_Calc (data : mem) (length initVal : Z) : Z :=
  crc_loop data (Z.to_nat length) 0 initVal.

(** [buildFrame]: returns the return value, the output buffer and
    [*outBufLen]. *)
Definition buildFrame (commandID seq : Z) (payload : option mem)
    (payloadLen : Z) (outBuf : mem) (outBufLen : Z) : Z * mem * Z :=
  let lengthField := u16 (1 + 1 + payloadLen + 2) in
  let totalFrameSize := u16 (2 + 2 + lengthField + 2) in
  if totalFrameSize >? outBufLen then (-1, outBuf, outBufLen)
  else
    let offset := 0 in
    let outBuf := store outBuf offset FRAME_HEAD_0 in
    let offset := u16 (offset + 1) in
    let outBuf := store outBuf offset FRAME_HEAD_1 in
    let offset := u16 (offset + 1) in
    let outBuf := store outBuf offset (u8 (Z.land lengthField 0xFF)) in
    let offset := u16 (offset + 1) in
    let outBuf :=
      store outBuf offset (u8 (Z.land (Z.shiftr lengthField 8) 0xFF)) in
    let offset := u16 (offset + 1) in
    let outBuf := store outBuf offset commandID in
    let offset := u16 (offset + 1) in
    let outBuf := store outBuf offset seq in
    let offset := u16 (offset + 1) in
    let '(outBuf, offset) :=
      match payload with
      | Some p =>
          if payloadLen >? 0
          then (memcpy outBuf offset p payloadLen, u16 (offset + payloadLen))
          else (outBuf, offset)
      | None => (outBuf, offset)
      end in
    let crc := CRC16_Calc (shift outBuf 4) (u16 (2 + payloadLen)) 0xFFFF in
    let outBuf := store outBuf offset (u8 (Z.land crc 0xFF)) in
    let offset := u16 (offset + 1) in
    let outBuf := store outBuf offset (u8 (Z.land (Z.shiftr crc 8) 0xFF)) in
    let offset := u16 (offset + 1) in
    let outBuf := store outBuf offset FRAME_TAIL_0 in
    let offset := u16 (offset + 1) in
    let outBuf := store outBuf offset FRAME_TAIL_1 in
    let offset := u16 (offset + 1) in
    (0, outBuf, offset).

(** The output parameters of [parseFrame]: [pCmd] and [pSeq] are
    dereferenced unconditionally, [pPayload] and [pPayloadLen] are tested
    against NULL. *)
Record parse_out : Type := mkParseOut {
  pCmd : Z;
  pSeq : Z;
  pPayload : option mem;
  pPayloadLen : option Z
}.

Definition parseFrame (inBuf : mem) (inLen : Z) (o : parse_out)
    : Z * parse_out :=
  if inLen <? 8 then (-3, o)
  else if negb (inBuf 0 =? FRAME_HEAD_0) || negb (inBuf 1 =? FRAME_HEAD_1)
  then (-1, o)
  else if negb (inBuf (inLen - 2) =? FRAME_TAIL_0)
          || negb (inBuf (inLen - 1) =? FRAME_TAIL_1)
  then (-2, o)
  else
    let lengthField := u16 (Z.lor (inBuf 2) (Z.shiftl (inBuf 3) 8)) in
    let expectedFrameSize := u16 (6 + lengthField) in
    if negb (expectedFrameSize =? inLen) then (-3, o)
    else
      let offset := 4 in
      let cmd := inBuf offset in
      let offset := u16 (offset + 1) in
      let sq := inBuf offset in
      let offset := u16 (offset + 1) in
      let payloadLen := u16 (lengthField - 4) in
      let pl :=
        match pPayload o with
        | Some dst =>
            if payloadLen >? 0
            then Some (memcpy dst 0 (shift inBuf offset) payloadLen)
            else Some dst
        | None => None
        end in
      let plen :=
        match pPayloadLen o with
        | Some _ => Some payloadLen
        | None => None
        end in
      let o := mkParseOut cmd sq pl plen in
      let offset := u16 (offset + payloadLen) in
      let recvCRC := u16 (Z.lor (inBuf offset) (Z.shiftl (inBuf (offset + 1)) 8)) in
      let calcCRC := CRC16_Calc (shift inBuf 4) (u16 (2 + payloadLen)) 0xFFFF in
      if negb (recvCRC =? calcCRC) then (-4, o)
      else (0, o).


(** ** Specification vocabulary for the codec *)

(** Two memories hold the same first [n] cells. *)
Definition agree_upto (a b : mem) (n : Z) : Prop :=
  forall i, 0 <= i < n -> a i = b i.

(** The byte of a payload pointer at index [i] (a NULL payload has none;
    it is only read at no index). *)
Definition payload_at (payload : option mem) (i : Z) : Z :=
  match payload with
  | Some p => p i
  | None => 0
  end.

(** A payload pointer that [buildFrame] can serialise: [payloadLen]
    bytes behind a non-NULL pointer, or NULL with length 0. *)
Definition payload_ok (payload : option mem) (payloadLen : Z) : Prop :=
  match payload with
  | Some p => bytes_upto p payloadLen
  | None => payloadLen = 0
  end.

(** The least [buildFrame] needs of its payload pointer: NULL only with
    length 0. *)
Definition payload_present (payload : option mem) (payloadLen : Z) : Prop :=
  match payload with
  | Some _ => True
  | None => payloadLen = 0
  end.

(** The wire layout of a frame with [len] payload bytes, read off a
    memory [f]. *)
Definition frame_layout (cmd sq : Z) (payload : option mem) (len : Z)
    (f : mem) : Prop :=
  f 0 = FRAME_HEAD_0 /\ f 1 = FRAME_HEAD_1 /\
  f 2 = (len + 4) mod 256 /\ f 3 = ((len + 4) / 256) mod 256 /\
  f 4 = cmd /\ f 5 = sq /\
  (forall i, 0 <= i < len -> f (6 + i) = payload_at payload i) /\
  f (6 + len) = CRC16_Calc (shift f 4) (2 + len) 0xFFFF mod 256 /\
  f (7 + len) = (CRC16_Calc (shift f 4) (2 + len) 0xFFFF / 256) mod 256 /\
  f (8 + len) = FRAME_TAIL_0 /\ f (9 + len) = FRAME_TAIL_1.

(** What [parseFrame] leaves in its output parameters when it gets past
    the length check of a frame with [len] payload bytes. *)
Definition parsed (inBuf : mem) (cmd sq len : Z) (o : parse_out) : parse_out :=
  mkParseOut cmd sq
    match pPayload o with
    | Some dst =>
        if len >? 0 then Some (memcpy dst 0 (shift inBuf 6) len) else Some dst
    | None => None
    end
    match pPayloadLen o with
    | Some _ => Some len
    | None => None
    end.


(** The memory [m] with bit [bit] of byte [k] inverted. *)
Definition flip_bit (m : mem) (k bit : Z) : mem :=
  store m k (Z.lxor (m k) (Z.shiftl 1 bit)).

(** ** io_buffer.h / io_buffer.c *)

Definition RX_BUFFER_SIZE : Z := 65535.
Definition TX_BUFFER_SIZE : Z := 65535.
Definition MIN_FRAME_LEN : Z := 8.

Record RxBuffer_t : Type := mkRx {
  rx_buf : mem;
  rx_head : Z;
  rx_tail : Z
}.

Record TxBuffer_t : Type := mkTx {
  tx_buf : mem;
  tx_head : Z;
  tx_tail : Z
}.

(** The cursors of a ring stay below its size: every assignment to them
    is reduced modulo the size. *)
Definition rx_wf (r : RxBuffer_t) : Prop :=
  0 <= rx_head r < RX_BUFFER_SIZE /\ 0 <= rx_tail r < RX_BUFFER_SIZE.

Definition tx_wf (t : TxBuffer_t) : Prop :=
  0 <= tx_head t < TX_BUFFER_SIZE /\ 0 <= tx_tail t < TX_BUFFER_SIZE.

Definition initRxBuffer (r : RxBuffer_t) : RxBuffer_t :=
  mkRx (rx_buf r) 0 0.

(** The operands of [%] are [int]s after promotion: [Z.rem] is C's [%]. *)
Definition rxBufferFreeSpace (r : RxBuffer_t) : Z :=
  u16 (Z.rem (rx_head r + RX_BUFFER_SIZE - rx_tail r - 1) RX_BUFFER_SIZE).

(** [for (i = ...; i < toWrite; i++)] of [feedRxBuffer], [n] passes left. *)
Fixpoint feed_loop (n : nat) (i : Z) (buf : mem) (tail : Z) (data : mem)
    : mem * Z :=
  match n with
  | O => (buf, tail)
  | S n' =>
      let buf := store buf tail (data i) in
      let tail := u16 (Z.rem (tail + 1) RX_BUFFER_SIZE) in
      feed_loop n' (i + 1) buf tail data
  end.

Definition feedRxBuffer (r : RxBuffer_t) (data : mem) (len : Z)
    : Z * RxBuffer_t :=
  let freeSpace := rxBufferFreeSpace r in
  let toWrite := if len <=? freeSpace then len else freeSpace in
  let '(buf, tail) :=
    feed_loop (Z.to_nat toWrite) 0 (rx_buf r) (rx_tail r) data in
  (toWrite, mkRx buf (rx_head r) tail).

(** [for (i = ...; i < frameSize; i++) outFrame[i] = r->buf[(idx + i) % SIZE]] *)
Fixpoint copy_frame (n : nat) (i : Z) (buf : mem) (idx : Z) (outFrame : mem)
    : mem :=
  match n with
  | O => outFrame
  | S n' =>
      copy_frame n' (i + 1) buf idx
        (store outFrame i (buf (Z.rem (idx + i) RX_BUFFER_SIZE)))
  end.

(** One evaluation of the loop condition and body of the [while] of
    [tryExtractOneFrame]: go round again with a new [idx] and
    [available], or return. *)
Inductive scan_step : Type :=
  | Continue (idx available : Z)
  | Return (got : bool) (outFrame : mem) (outFrameLen : Z) (r : RxBuffer_t).

Definition scan_body (r : RxBuffer_t) (idx available : Z)
    (outFrame : mem) (outFrameLen : Z) : scan_step :=
  if available >=? MIN_FRAME_LEN then
    let b0 := rx_buf r idx in
    let b1 := rx_buf r (Z.rem (idx + 1) RX_BUFFER_SIZE) in
    if (b0 =? 0xAA) && (b1 =? 0x55) then
      if available <? MIN_FRAME_LEN then Return false outFrame outFrameLen r
      else
        let l0 := rx_buf r (Z.rem (idx + 2) RX_BUFFER_SIZE) in
        let l1 := rx_buf r (Z.rem (idx + 3) RX_BUFFER_SIZE) in
        let lengthField := u16 (Z.lor l0 (Z.shiftl l1 8)) in
        let frameSize := u16 (2 + 2 + lengthField + 2) in
        if frameSize >? MAX_FRAME_SIZE then
          Continue (u16 (Z.rem (idx + 1) RX_BUFFER_SIZE)) (u16 (available - 1))
        else if frameSize >? available then
          Return false outFrame outFrameLen r
        else
          let outFrame :=
            copy_frame (Z.to_nat frameSize) 0 (rx_buf r) idx outFrame in
          let head := u16 (Z.rem (idx + frameSize) RX_BUFFER_SIZE) in
          Return true outFrame frameSize (mkRx (rx_buf r) head (rx_tail r))
    else
      Continue (u16 (Z.rem (idx + 1) RX_BUFFER_SIZE)) (u16 (available - 1))
  else Return false outFrame outFrameLen r.

(** The [while] loop, with [fuel] passes allowed; [None] is "out of
    fuel". *)
Fixpoint scan (fuel : nat) (r : RxBuffer_t) (idx available : Z)
    (outFrame : mem) (outFrameLen : Z)
    : option (bool * mem * Z * RxBuffer_t) :=
  match fuel with
  | O => None
  | S fuel' =>
      match scan_body r idx available outFrame outFrameLen with
      | Continue idx' available' =>
          scan fuel' r idx' available' outFrame outFrameLen
      | Return got outFrame' outFrameLen' r' =>
          Some (got, outFrame', outFrameLen', r')
      end
  end.

(** [available] drops by one on every pass that continues, so
    [available + 1] passes are enough. *)
Definition tryExtractOneFrame (r : RxBuffer_t) (outFrame : mem)
    (outFrameLen : Z) : option (bool * mem * Z * RxBuffer_t) :=
  let available :=
    u16 (Z.rem (rx_tail r + RX_BUFFER_SIZE - rx_head r) RX_BUFFER_SIZE) in
  if available <? MIN_FRAME_LEN then Some (false, outFrame, outFrameLen, r)
  else
    let idx := rx_head r in
    scan (S (Z.to_nat available)) r idx available outFrame outFrameLen.

(** [tryParseFramesFromRx]: the handler [onFrame] acts on a state of type
    [St].  [tempFrame] and [frameLen] are the uninitialised locals.  The
    loop is [while (1)]; [fuel] bounds the number of extraction
    attempts and [None] is "out of fuel". *)
Fixpoint tryParseFramesFromRx {St : Type} (fuel : nat) (r : RxBuffer_t)
    (onFrame : mem -> Z -> St -> St) (tempFrame : mem) (frameLen : Z) (s : St)
    : option (RxBuffer_t * St) :=
  match fuel with
  | O => None
  | S fuel' =>
      match tryExtractOneFrame r tempFrame frameLen with
      | None => None
      | Some (got, tempFrame, frameLen, r) =>
          if negb got then Some (r, s)
          else
            tryParseFramesFromRx fuel' r onFrame tempFrame frameLen
              (onFrame tempFrame frameLen s)
      end
  end.

Definition initTxBuffer (t : TxBuffer_t) : TxBuffer_t :=
  mkTx (tx_buf t) 0 0.

Definition txBufferFreeSpace (t : TxBuffer_t) : Z :=
  u16 (Z.rem (tx_head t + TX_BUFFER_SIZE - tx_tail t - 1) TX_BUFFER_SIZE).

(** [for (i = ...; i < frameLen; i++)] of [enqueueTxFrame]. *)
Fixpoint enqueue_loop (n : nat) (i : Z) (buf : mem) (tail : Z) (frame : mem)
    : mem * Z :=
  match n with
  | O => (buf, tail)
  | S n' =>
      let buf := store buf tail (frame i) in
      let tail := u16 (Z.rem (tail + 1) TX_BUFFER_SIZE) in
      enqueue_loop n' (i + 1) buf tail frame
  end.

Definition enqueueTxFrame (t : TxBuffer_t) (frame : mem) (frameLen : Z)
    : Z * TxBuffer_t :=
  let needed := u16 (frameLen + 2) in
  if needed >? txBufferFreeSpace t then (-1, t)
  else
    let buf := store (tx_buf t) (tx_tail t) (u8 (Z.land frameLen 0xFF)) in
    let tail := u16 (Z.rem (tx_tail t + 1) TX_BUFFER_SIZE) in
    let buf := store buf tail (u8 (Z.shiftr frameLen 8)) in
    let tail := u16 (Z.rem (tail + 1) TX_BUFFER_SIZE) in
    let '(buf, tail) := enqueue_loop (Z.to_nat frameLen) 0 buf tail frame in
    (0, mkTx buf (tx_head t) tail).

(** [for (i = 0; i < copyLen; i++)] of [dequeueTxFrame]. *)
Fixpoint dequeue_copy (n : nat) (i : Z) (buf : mem) (head : Z)
    (outFrame : mem) : mem * Z :=
  match n with
  | O => (outFrame, head)
  | S n' =>
      let outFrame := store outFrame i (buf head) in
      let head := u16 (Z.rem (head + 1) TX_BUFFER_SIZE) in
      dequeue_copy n' (i + 1) buf head outFrame
  end.

(** [for (i = copyLen; i < frameLen; i++)] of [dequeueTxFrame]. *)
Fixpoint dequeue_skip (n : nat) (head : Z) : Z :=
  match n with
  | O => head
  | S n' => dequeue_skip n' (u16 (Z.rem (head + 1) TX_BUFFER_SIZE))
  end.

(** [dequeueTxFrame]: returns the return value, the ring and [outFrame]. *)
Definition dequeueTxFrame (t : TxBuffer_t) (outFrame : mem) (maxLen : Z)
    : Z * TxBuffer_t * mem :=
  let available :=
    u16 (Z.rem (tx_tail t + TX_BUFFER_SIZE - tx_head t) TX_BUFFER_SIZE) in
  if available <? 2 then (0, t, outFrame)
  else
    let l0 := tx_buf t (tx_head t) in
    let head := u16 (Z.rem (tx_head t + 1) TX_BUFFER_SIZE) in
    let l1 := tx_buf t head in
    let head := u16 (Z.rem (head + 1) TX_BUFFER_SIZE) in
    let frameLen := u16 (Z.lor l0 (Z.shiftl l1 8)) in
    let available := u16 (available - 2) in
    if frameLen >? available then
      let head := u16 (Z.rem (head + TX_BUFFER_SIZE - 2) TX_BUFFER_SIZE) in
      (0, mkTx (tx_buf t) head (tx_tail t), outFrame)
    else
      let copyLen := if frameLen <=? maxLen then frameLen else maxLen in
      let '(outFrame, head) :=
        dequeue_copy (Z.to_nat copyLen) 0 (tx_buf t) head outFrame in
      let head := dequeue_skip (Z.to_nat (frameLen - copyLen)) head in
      (frameLen, mkTx (tx_buf t) head (tx_tail t), outFrame).

(** The byte stream [FF FF AA 55 <the n bytes of F> FF]. *)
Definition noise_around (F : mem) (n : Z) : mem :=
  fun i =>
    if i <? 4 then of_list [0xFF; 0xFF; 0xAA; 0x55] i
    else if i <? 4 + n then F (i - 4)
    else 0xFF.

(** ** app.h / app.c *)

Inductive device_mode_t : Type := MODE_CONTINUOUS | MODE_TRIGGER.
Inductive stream_status_t : Type := STATUS_STOPPED | STATUS_RUNNING.

(** The enumerators' values. *)
Definition mode_value (m : device_mode_t) : Z :=
  match m with MODE_CONTINUOUS => 0 | MODE_TRIGGER => 1 end.
Definition status_value (s : stream_status_t) : Z :=
  match s with STATUS_STOPPED => 0 | STATUS_RUNNING => 1 end.

Definition SAMPLES_PER_PACKET : Z := 100.
Definition DATA_PAYLOAD_SIZE : Z := 2048.
Definition TX_FRAME_BUF_SIZE : Z := 8192.
Definition DATA_SEND_INTERVAL : Z := 10.

Definition CMD_PING : Z := 0x01.
Definition CMD_PONG : Z := 0x81.
Definition CMD_GET_STATUS : Z := 0x02.
Definition CMD_STATUS_RESPONSE : Z := 0x82.
Definition CMD_GET_DEVICE_INFO : Z := 0x03.
Definition CMD_DEVICE_INFO_RESPONSE : Z := 0x83.
Definition CMD_SET_MODE_CONTINUOUS : Z := 0x10.
Definition CMD_SET_MODE_TRIGGER : Z := 0x11.
Definition CMD_START_STREAM : Z := 0x12.
Definition CMD_STOP_STREAM : Z := 0x13.
Definition CMD_CONFIGURE_STREAM : Z := 0x14.
Definition CMD_ACK : Z := 0x90.
Definition CMD_NACK : Z := 0x91.
Definition CMD_DATA_PACKET : Z := 0x40.
Definition CMD_EVENT_TRIGGERED : Z := 0x41.
Definition CMD_REQUEST_BUFFERED_DATA : Z := 0x42.
Definition CMD_BUFFER_TRANSFER_COMPLETE : Z := 0x4F.
Definition CMD_LOG_MESSAGE : Z := 0xE0.

Record channel_t : Type := mkChannel {
  enabled : Z;
  sample_rate : Z;
  format : Z
}.

Record trigger_t : Type := mkTrigger {
  armed : Z;
  occurred : Z;
  sending : Z;
  timestamp : Z;
  packets_to_send : Z;
  packets_sent : Z;
  next_trigger_time : Z
}.

(** What [app_send_frame_with_seq] did with a frame: the branch it took. *)
Inductive tx_outcome : Type :=
  | Queued (frame_len : Z)
  | Dropped
  | BuildFailed (ret : Z).

(** One call of [app_send_frame_with_seq]: its arguments (the payload as
    the [len] bytes behind the pointer) and its outcome. *)
Record tx_event : Type := mkEvent {
  ev_cmd : Z;
  ev_seq : Z;
  ev_payload : list Z;
  ev_outcome : tx_outcome
}.

(** [app_context_t], without [sample_data] (never used) and [transport]
    (used only to drain the TX ring), and with two additions:
    [rand_src], the results that the C library's [rand()] will return,
    in order; and [tx_log], the calls of [app_send_frame_with_seq] so
    far, oldest first.  Multi-byte stores through casted pointers are
    little-endian. *)
Record app_context_t : Type := mkApp {
  mode : device_mode_t;
  status : stream_status_t;
  seq_counter : Z;
  channels : Z -> channel_t;
  num_channels : Z;
  trigger : trigger_t;
  last_data_send_time : Z;
  start_time : Z;
  tx_frame_buf : mem;
  data_payload : mem;
  rx_buffer : RxBuffer_t;
  tx_buffer : TxBuffer_t;
  rand_src : nat -> Z;
  tx_log : list tx_event
}.

Definition set_mode (v : device_mode_t) (g : app_context_t) : app_context_t :=
  mkApp v (status g) (seq_counter g) (channels g) (num_channels g)
    (trigger g) (last_data_send_time g) (start_time g) (tx_frame_buf g)
    (data_payload g) (rx_buffer g) (tx_buffer g) (rand_src g) (tx_log g).

Definition set_status (v : stream_status_t) (g : app_context_t)
    : app_context_t :=
  mkApp (mode g) v (seq_counter g) (channels g) (num_channels g)
    (trigger g) (last_data_send_time g) (start_time g) (tx_frame_buf g)
    (data_payload g) (rx_buffer g) (tx_buffer g) (rand_src g) (tx_log g).

Definition set_seq_counter (v : Z) (g : app_context_t) : app_context_t :=
  mkApp (mode g) (status g) v (channels g) (num_channels g)
    (trigger g) (last_data_send_time g) (start_time g) (tx_frame_buf g)
    (data_payload g) (rx_buffer g) (tx_buffer g) (rand_src g) (tx_log g).

Definition set_channels (v : Z -> channel_t) (g : app_context_t)
    : app_context_t :=
  mkApp (mode g) (status g) (seq_counter g) v (num_channels g)
    (trigger g) (last_data_send_time g) (start_time g) (tx_frame_buf g)
    (data_payload g) (rx_buffer g) (tx_buffer g) (rand_src g) (tx_log g).

Definition set_trigger (v : trigger_t) (g : app_context_t) : app_context_t :=
  mkApp (mode g) (status g) (seq_counter g) (channels g) (num_channels g)
    v (last_data_send_time g) (start_time g) (tx_frame_buf g)
    (data_payload g) (rx_buffer g) (tx_buffer g) (rand_src g) (tx_log g).

Definition set_last_data_send_time (v : Z) (g : app_context_t)
    : app_context_t :=
  mkApp (mode g) (status g) (seq_counter g) (channels g) (num_channels g)
    (trigger g) v (start_time g) (tx_frame_buf g)
    (data_payload g) (rx_buffer g) (tx_buffer g) (rand_src g) (tx_log g).

Definition set_start_time (v : Z) (g : app_context_t) : app_context_t :=
  mkApp (mode g) (status g) (seq_counter g) (channels g) (num_channels g)
    (trigger g) (last_data_send_time g) v (tx_frame_buf g)
    (data_payload g) (rx_buffer g) (tx_buffer g) (rand_src g) (tx_log g).

Definition set_data_payload (v : mem) (g : app_context_t) : app_context_t :=
  mkApp (mode g) (status g) (seq_counter g) (channels g) (num_channels g)
    (trigger g) (last_data_send_time g) (start_time g) (tx_frame_buf g)
    v (rx_buffer g) (tx_buffer g) (rand_src g) (tx_log g).

Definition set_rand_src (v : nat -> Z) (g : app_context_t) : app_context_t :=
  mkApp (mode g) (status g) (seq_counter g) (channels g) (num_channels g)
    (trigger g) (last_data_send_time g) (start_time g) (tx_frame_buf g)
    (data_payload g) (rx_buffer g) (tx_buffer g) v (tx_log g).

(** The three fields that sending a frame writes. *)
Definition set_tx (fb : mem) (tb : TxBuffer_t) (lg : list tx_event)
    (g : app_context_t) : app_context_t :=
  mkApp (mode g) (status g) (seq_counter g) (channels g) (num_channels g)
    (trigger g) (last_data_send_time g) (start_time g) fb
    (data_payload g) (rx_buffer g) tb (rand_src g) lg.

Definition set_armed (v : Z) (t : trigger_t) : trigger_t :=
  mkTrigger v (occurred t) (sending t) (timestamp t) (packets_to_send t)
    (packets_sent t) (next_trigger_time t).
Definition set_occurred (v : Z) (t : trigger_t) : trigger_t :=
  mkTrigger (armed t) v (sending t) (timestamp t) (packets_to_send t)
    (packets_sent t) (next_trigger_time t).
Definition set_sending (v : Z) (t : trigger_t) : trigger_t :=
  mkTrigger (armed t) (occurred t) v (timestamp t) (packets_to_send t)
    (packets_sent t) (next_trigger_time t).
Definition set_timestamp (v : Z) (t : trigger_t) : trigger_t :=
  mkTrigger (armed t) (occurred t) (sending t) v (packets_to_send t)
    (packets_sent t) (next_trigger_time t).
Definition set_packets_to_send (v : Z) (t : trigger_t) : trigger_t :=
  mkTrigger (armed t) (occurred t) (sending t) (timestamp t) v
    (packets_sent t) (next_trigger_time t).
Definition set_packets_sent (v : Z) (t : trigger_t) : trigger_t :=
  mkTrigger (armed t) (occurred t) (sending t) (timestamp t)
    (packets_to_send t) v (next_trigger_time t).
Definition set_next_trigger_time (v : Z) (t : trigger_t) : trigger_t :=
  mkTrigger (armed t) (occurred t) (sending t) (timestamp t)
    (packets_to_send t) (packets_sent t) v.

(** [rand()]: the next result, and the state with that result consumed. *)
Definition rand (g : app_context_t) : Z * app_context_t :=
  (rand_src g O, set_rand_src (fun k => rand_src g (S k)) g).

(** Little-endian stores and loads through casted pointers. *)
Definition store16 (m : mem) (off v : Z) : mem :=
  store (store m off (u8 v)) (off + 1) (u8 (Z.shiftr v 8)).

Definition store32 (m : mem) (off v : Z) : mem :=
  store (store (store (store m off (u8 v))
    (off + 1) (u8 (Z.shiftr v 8)))
    (off + 2) (u8 (Z.shiftr v 16)))
    (off + 3) (u8 (Z.shiftr v 24)).

Definition load32 (m : mem) (off : Z) : Z :=
  m off + 256 * m (off + 1) + 65536 * m (off + 2) + 16777216 * m (off + 3).

(** The payload bytes that a send call is given. *)
Definition payload_bytes (payload : option mem) (len : Z) : list Z :=
  match payload with
  | Some p => to_list p len
  | None => []
  end.

Definition app_send_frame_with_seq (cmd sq : Z) (payload : option mem)
    (len : Z) (g : app_context_t) : app_context_t :=
  let frame_len := TX_FRAME_BUF_SIZE in
  let '(ret, fb, frame_len) :=
    buildFrame cmd sq payload len (tx_frame_buf g) frame_len in
  let ev := mkEvent cmd sq (payload_bytes payload len) in
  if ret =? 0 then
    let '(r, tb) := enqueueTxFrame (tx_buffer g) fb frame_len in
    if r =? 0
    then set_tx fb tb (tx_log g ++ [ev (Queued frame_len)]) g
    else set_tx fb tb (tx_log g ++ [ev Dropped]) g
  else set_tx fb (tx_buffer g) (tx_log g ++ [ev (BuildFailed ret)]) g.

(** [app_send_frame_with_seq(cmd, g_app.seq_counter++, payload, len)] *)
Definition app_send_frame (cmd : Z) (payload : option mem) (len : Z)
    (g : app_context_t) : app_context_t :=
  let sq := seq_counter g in
  let g := set_seq_counter (u8 (sq + 1)) g in
  app_send_frame_with_seq cmd sq payload len g.

(** [app_init], given the future results of [rand()]. *)
Definition app_init (rnd : nat -> Z) : app_context_t :=
  mkApp MODE_CONTINUOUS STATUS_STOPPED 0
    (fun c =>
       if c =? 0 then mkChannel 1 10000 0x01
       else if c =? 1 then mkChannel 1 10000 0x01
       else mkChannel 0 0 0)
    2
    (mkTrigger 0 0 0 0 0 0 0)
    0 0
    (fun _ => 0) (fun _ => 0)
    (mkRx (fun _ => 0) 0 0) (mkTx (fun _ => 0) 0 0)
    rnd [].

(** The loop of [CMD_CONFIGURE_STREAM], with [n] of the [num_configs]
    passes left; it also stops when [offset + 6 <= payload_len] fails. *)
Fixpoint configure_loop (n : nat) (offset : Z) (payload : mem)
    (payload_len : Z) (g : app_context_t) : app_context_t :=
  match n with
  | O => g
  | S n' =>
      if offset + 6 <=? payload_len then
        let ch_id := payload offset in
        let rate := load32 payload (offset + 1) in
        let fmt := payload (offset + 5) in
        let offset := u16 (offset + 6) in
        let g :=
          if ch_id <? num_channels g then
            set_channels
              (fun c =>
                 if c =? ch_id
                 then mkChannel (if rate >? 0 then 1 else 0) rate fmt
                 else channels g c) g
          else g in
        configure_loop n' offset payload payload_len g
      else g
  end.

(** The channel loop of [CMD_GET_DEVICE_INFO]. *)
Fixpoint device_info_loop (n : nat) (i : Z) (info : mem) (offset : Z)
    : mem * Z :=
  match n with
  | O => (info, offset)
  | S n' =>
      let info := store info offset (u8 i) in
      let offset := u16 (offset + 1) in
      let info := store32 info offset 100000 in
      let offset := u16 (offset + 4) in
      let info := store16 info offset 0x03 in
      let offset := u16 (offset + 2) in
      let name :=
        if i =? 0
        then of_list [86; 111; 108; 116; 97; 103; 101]   (* "Voltage" *)
        else of_list [67; 117; 114; 114; 101; 110; 116] in (* "Current" *)
      let name_len := 7 in
      let info := store info offset name_len in
      let offset := u16 (offset + 1) in
      let info := memcpy info offset name name_len in
      let offset := u16 (offset + name_len) in
      device_info_loop n' (i + 1) info offset
  end.

Definition app_handle_command (cmd sq : Z) (payload : mem) (payload_len : Z)
    (g : app_context_t) : app_context_t :=
  if cmd =? CMD_PING then
    (* device_id = 0x11223344AABBCCDD, as stored *)
    let device_id :=
      of_list [0xDD; 0xCC; 0xBB; 0xAA; 0x44; 0x33; 0x22; 0x11] in
    app_send_frame_with_seq CMD_PONG sq (Some device_id) 8 g
  else if cmd =? CMD_GET_STATUS then
    let status_payload : mem := of_list [0; 0; 0; 0; 0; 0; 0; 0] in
    let status_payload := store status_payload 0 (mode_value (mode g)) in
    let status_payload := store status_payload 1 (status_value (status g)) in
    let status_payload := store status_payload 2 0 in
    let status_payload := store status_payload 3 0 in
    (* sizeof(status_payload) = 8 *)
    app_send_frame_with_seq CMD_STATUS_RESPONSE sq (Some status_payload) 8 g
  else if cmd =? CMD_GET_DEVICE_INFO then
    let info : mem := fun _ => 0 in
    let offset := 0 in
    let info := store info offset 6 in
    let offset := u16 (offset + 1) in
    let info := store16 info offset 0x0201 in
    let offset := u16 (offset + 2) in
    let info := store info offset (num_channels g) in
    let offset := u16 (offset + 1) in
    let '(info, offset) :=
      device_info_loop (Z.to_nat (num_channels g)) 0 info offset in
    app_send_frame_with_seq CMD_DEVICE_INFO_RESPONSE sq (Some info) offset g
  else if cmd =? CMD_SET_MODE_CONTINUOUS then
    let g := set_mode MODE_CONTINUOUS g in
    let g := set_trigger (set_armed 0 (trigger g)) g in
    app_send_frame_with_seq CMD_ACK sq None 0 g
  else if cmd =? CMD_SET_MODE_TRIGGER then
    let g := set_mode MODE_TRIGGER g in
    let g := set_trigger (set_armed 1 (trigger g)) g in
    let g := set_trigger (set_occurred 0 (trigger g)) g in
    let g := set_trigger (set_sending 0 (trigger g)) g in
    let '(r, g) := rand g in
    let g :=
      set_trigger
        (set_next_trigger_time (u32 (start_time g + 5000 + Z.rem r 5000))
           (trigger g)) g in
    app_send_frame_with_seq CMD_ACK sq None 0 g
  else if cmd =? CMD_START_STREAM then
    let g := set_status STATUS_RUNNING g in
    let g := set_last_data_send_time 0 g in
    app_send_frame_with_seq CMD_ACK sq None 0 g
  else if cmd =? CMD_STOP_STREAM then
    let g := set_status STATUS_STOPPED g in
    let g := set_trigger (set_sending 0 (trigger g)) g in
    app_send_frame_with_seq CMD_ACK sq None 0 g
  else if cmd =? CMD_CONFIGURE_STREAM then
    if payload_len <? 1 then
      let err := of_list [0x01; 0x01] in
      app_send_frame_with_seq CMD_NACK sq (Some err) 2 g
    else
      let num_configs := payload 0 in
      let offset := 1 in
      let g :=
        configure_loop (Z.to_nat num_configs) offset payload payload_len g in
      app_send_frame_with_seq CMD_ACK sq None 0 g
  else if cmd =? CMD_REQUEST_BUFFERED_DATA then
    if match mode g with MODE_TRIGGER => false | _ => true end
       || (occurred (trigger g) =? 0)
    then
      let err := of_list [0x02; 0x02] in
      app_send_frame_with_seq CMD_NACK sq (Some err) 2 g
    else app_send_frame_with_seq CMD_ACK sq None 0 g
  else
    let err := of_list [0x05; 0x00] in
    app_send_frame_with_seq CMD_NACK sq (Some err) 2 g.

(** [app_on_frame]; [payload] is the local array of [MAX_FRAME_SIZE]
    bytes.  [parseFrame] copies the payload into it once head, tail and
    length are accepted and before the checksum is compared: it has
    done so exactly when it returns 0 or -4, and [*pPayloadLen] then
    holds the number of bytes.  A copy of more than [MAX_FRAME_SIZE]
    bytes runs over the end of the array; that is [None]. *)
Definition app_on_frame (payload : mem) (frame : mem) (frameLen : Z)
    (g : app_context_t) : option app_context_t :=
  let '(ret, o) :=
    parseFrame frame frameLen (mkParseOut 0 0 (Some payload) (Some 0)) in
  let copied :=
    if (ret =? 0) || (ret =? -4) then
      match pPayloadLen o with
      | Some payload_len => payload_len
      | None => 0
      end
    else 0 in
  if copied >? MAX_FRAME_SIZE then None
  else if ret =? 0 then
    match pPayload o, pPayloadLen o with
    | Some payload, Some payload_len =>
        Some (app_handle_command (pCmd o) (pSeq o) payload payload_len g)
    | _, _ => Some g
    end
  else Some g.

(** [app_on_frame] as the callback of a loop: after an overrun there is
    no state to go on from. *)
Definition app_on_frame_callback (payload : mem) (frame : mem)
    (frameLen : Z) (s : option app_context_t) : option app_context_t :=
  match s with
  | Some g => app_on_frame payload frame frameLen g
  | None => None
  end.

Section Streaming.

(** [sample tm noise] stands for the float expression
    [(int16_t)(1000 * sin(2 * 3.14159 * 50 * (tm * 0.001)) + noise)];
    float arithmetic is left abstract. *)
Variable sample : Z -> Z -> Z.

(** [for (i = ...; i < SAMPLES_PER_PACKET; i++)] of [app_send_data_packet];
    [payload] is [g_app.data_payload]. *)
Fixpoint sample_loop (n : nat) (i : Z) (timestamp offset : Z)
    (g : app_context_t) : Z * app_context_t :=
  match n with
  | O => (offset, g)
  | S n' =>
      let tm := u32 (timestamp + i) in
      let '(r, g) := rand g in
      let value := sample tm (Z.rem r 100 - 50) in
      let g := set_data_payload (store16 (data_payload g) offset value) g in
      let offset := u16 (offset + 2) in
      sample_loop n' (i + 1) timestamp offset g
  end.

(** [for (ch = ...; ch < g_app.num_channels; ch++)] of
    [app_send_data_packet]. *)
Fixpoint channel_loop (n : nat) (ch : Z) (ch_mask timestamp offset : Z)
    (g : app_context_t) : Z * app_context_t :=
  match n with
  | O => (offset, g)
  | S n' =>
      let '(offset, g) :=
        if negb (Z.land ch_mask (Z.shiftl 1 ch) =? 0)
        then sample_loop (Z.to_nat SAMPLES_PER_PACKET) 0 timestamp offset g
        else (offset, g) in
      channel_loop n' (ch + 1) ch_mask timestamp offset g
  end.

(** The loop that collects the channel mask. *)
Fixpoint mask_loop (n : nat) (i : Z) (g : app_context_t) (ch_mask : Z) : Z :=
  match n with
  | O => ch_mask
  | S n' =>
      let ch_mask :=
        if negb (enabled (channels g i) =? 0)
        then u16 (Z.lor ch_mask (Z.shiftl 1 i))
        else ch_mask in
      mask_loop n' (i + 1) g ch_mask
  end.

Definition app_send_data_packet (timestamp : Z) (g : app_context_t)
    : app_context_t :=
  let offset := 0 in
  let g := set_data_payload (store32 (data_payload g) offset timestamp) g in
  let offset := u16 (offset + 4) in
  let ch_mask := mask_loop (Z.to_nat (num_channels g)) 0 g 0 in
  let g := set_data_payload (store16 (data_payload g) offset ch_mask) g in
  let offset := u16 (offset + 2) in
  let g :=
    set_data_payload (store16 (data_payload g) offset SAMPLES_PER_PACKET) g in
  let offset := u16 (offset + 2) in
  let '(offset, g) :=
    channel_loop (Z.to_nat (num_channels g)) 0 ch_mask timestamp offset g in
  app_send_frame CMD_DATA_PACKET (Some (data_payload g)) offset g.

Definition app_send_trigger_event (timestamp : Z) (g : app_context_t)
    : app_context_t :=
  let payload : mem := fun _ => 0 in
  let payload := store32 payload 0 timestamp in
  let payload := store16 payload 4 0 in
  let payload := store32 payload 6 1000 in
  let payload := store32 payload 10 1000 in
  app_send_frame CMD_EVENT_TRIGGERED (Some payload) 14 g.

Definition app_send_trigger_data_packet (g : app_context_t) : app_context_t :=
  let timestamp :=
    u32 (timestamp (trigger g)
         + packets_sent (trigger g) * DATA_SEND_INTERVAL) in
  app_send_data_packet timestamp g.

(** The "check trigger" block of [app_periodic_task]. *)
Definition check_trigger (current_time_ms : Z) (g : app_context_t)
    : app_context_t :=
  if negb (armed (trigger g) =? 0)
     && (occurred (trigger g) =? 0)
     && (current_time_ms >=? next_trigger_time (trigger g))
  then
    let g := app_send_trigger_event current_time_ms g in
    let g := set_trigger (set_occurred 1 (trigger g)) g in
    let g := set_trigger (set_sending 1 (trigger g)) g in
    let g := set_trigger (set_timestamp current_time_ms (trigger g)) g in
    let '(r, g) := rand g in
    let g := set_trigger (set_packets_to_send (5 + Z.rem r 6) (trigger g)) g in
    set_trigger (set_packets_sent 0 (trigger g)) g
  else g.

(** The "send trigger data" block of [app_periodic_task]. *)
Definition send_trigger_data (current_time_ms : Z) (g : app_context_t)
    : app_context_t :=
  if negb (sending (trigger g) =? 0) then
    if u32 (current_time_ms - last_data_send_time g) >=? DATA_SEND_INTERVAL
    then
      if packets_sent (trigger g) <? packets_to_send (trigger g)
      then
        let g := app_send_trigger_data_packet g in
        let g :=
          set_trigger
            (set_packets_sent (packets_sent (trigger g) + 1) (trigger g)) g in
        set_last_data_send_time current_time_ms g
      else
        let g := app_send_frame CMD_BUFFER_TRANSFER_COMPLETE None 0 g in
        let g := set_trigger (set_sending 0 (trigger g)) g in
        let g := set_trigger (set_occurred 0 (trigger g)) g in
        let '(r, g) := rand g in
        set_trigger
          (set_next_trigger_time
             (u32 (current_time_ms + 10000 + Z.rem r 5000)) (trigger g)) g
    else g
  else g.

Definition app_periodic_task (current_time_ms : Z) (g : app_context_t)
    : app_context_t :=
  let g :=
    if start_time g =? 0 then set_start_time current_time_ms g else g in
  match status g with
  | STATUS_STOPPED => g
  | STATUS_RUNNING =>
      match mode g with
      | MODE_TRIGGER =>
          let g := check_trigger current_time_ms g in
          send_trigger_data current_time_ms g
      | MODE_CONTINUOUS =>
          if u32 (current_time_ms - last_data_send_time g)
             >=? DATA_SEND_INTERVAL
          then
            let g := app_send_data_packet current_time_ms g in
            set_last_data_send_time current_time_ms g
          else g
      end
  end.

(** The periodic task driven over a list of timestamps, oldest first. *)
Fixpoint run_ticks (ticks : list Z) (g : app_context_t) : app_context_t :=
  match ticks with
  | [] => g
  | t :: rest => run_ticks rest (app_periodic_task t g)
  end.

End Streaming.

(** ** Specification vocabulary for the device engine *)

(** Handling took the state from [g] to [g'] and sent one frame with
    command [cmd], sequence number [sq] and payload [bytes]. *)
Definition responds_with (g g' : app_context_t) (cmd sq : Z)
    (bytes : list Z) : Prop :=
  exists oc, tx_log g' = tx_log g ++ [mkEvent cmd sq bytes oc].

(** [rand()] returns non-negative values. *)
Definition rand_ok (g : app_context_t) : Prop :=
  forall k, 0 <= rand_src g k.

(** The [CMD_CONFIGURE_STREAM] loop without its length test: [n]
    records applied from [offset] on. *)
Fixpoint apply_configs (n : nat) (offset : Z) (payload : mem)
    (g : app_context_t) : app_context_t :=
  match n with
  | O => g
  | S n' =>
      let ch_id := payload offset in
      let rate := load32 payload (offset + 1) in
      let fmt := payload (offset + 5) in
      let g :=
        if ch_id <? num_channels g then
          set_channels
            (fun c =>
               if c =? ch_id
               then mkChannel (if rate >? 0 then 1 else 0) rate fmt
               else channels g c) g
        else g in
      apply_configs n' (offset + 6) payload g
  end.

(** The fields that sending frames and drawing random numbers leave
    alone. *)
Definition same_engine (g g' : app_context_t) : Prop :=
  mode g' = mode g /\ status g' = status g /\
  channels g' = channels g /\ num_channels g' = num_channels g /\
  trigger g' = trigger g /\
  last_data_send_time g' = last_data_send_time g /\
  start_time g' = start_time g.

(** The trigger sub-state is consistent: a burst is only being sent
    after a trigger occurred. *)
Definition trigger_wf (g : app_context_t) : Prop :=
  sending (trigger g) <> 0 -> occurred (trigger g) <> 0.

(** A burst of [N] packets, triggered at time [ts], is being sent, [k]
    of them so far. *)
Definition bursting (ts N k : Z) (g : app_context_t) : Prop :=
  mode g = MODE_TRIGGER /\ status g = STATUS_RUNNING /\
  occurred (trigger g) = 1 /\ sending (trigger g) = 1 /\
  timestamp (trigger g) = ts /\
  packets_to_send (trigger g) = N /\ packets_sent (trigger g) = k.

(** The four bytes of a 32-bit value, as stored. *)
Definition le32 (v : Z) : list Z :=
  [u8 v; u8 (Z.shiftr v 8); u8 (Z.shiftr v 16); u8 (Z.shiftr v 24)].

(** DataPackets whose payloads start with the timestamps
    [ts + k * 10], [ts + (k + 1) * 10], ... in 32 bits. *)
Fixpoint stamped (ts k : Z) (evs : list tx_event) : Prop :=
  match evs with
  | [] => True
  | ev :: rest =>
      ev_cmd ev = CMD_DATA_PACKET /\
      firstn 4 (ev_payload ev) = le32 (u32 (ts + k * DATA_SEND_INTERVAL)) /\
      stamped ts (k + 1) rest
  end.

(** The events that a step from [g] to [g'] appended to the log. *)
Definition emitted (g g' : app_context_t) : list tx_event :=
  skipn (length (tx_log g)) (tx_log g').



Section Trace.

Variable sample : Z -> Z -> Z.

(** The frames sent while the periodic task is driven over [ticks]:
    each with the tick at which it was sent, in order. *)
Fixpoint run_trace (ticks : list Z) (g : app_context_t)
    : list (Z * tx_event) :=
  match ticks with
  | [] => []
  | t :: rest =>
      let g' := app_periodic_task sample t g in
      map (fun ev => (t, ev)) (emitted g g') ++ run_trace rest g'
  end.

End Trace.

Section Busy.

Variable sample : Z -> Z -> Z.

(** After each of the ticks, a burst is still being sent. *)
Fixpoint busy_during (ticks : list Z) (g : app_context_t) : Prop :=
  match ticks with
  | [] => True
  | t :: rest =>
      let g' := app_periodic_task sample t g in
      sending (trigger g') <> 0 /\ busy_during rest g'
  end.

End Busy.


(** Timestamps in [uint32_t] range, each at least the send interval
    after the one before, the first one after [prev]. *)
Fixpoint paced (prev : Z) (ticks : list Z) : Prop :=
  match ticks with
  | [] => True
  | t :: rest =>
      prev + DATA_SEND_INTERVAL <= t < 4294967296 /\ paced t rest
  end.





(** ** Vocabulary for the further properties *)

(** The payload pointers two calls leave behind hold the same bytes. *)
Definition same_payload (p q : option mem) : Prop :=
  match p, q with
  | Some m, Some m' => forall j, m j = m' j
  | None, None => True
  | _, _ => False
  end.

(** The [count] cells of a ring of [size] cells from the cursor [head]
    on, in the order in which they are read. *)
Definition ring_slice (size : Z) (buf : mem) (head count : Z) : list Z :=
  map (fun k => buf ((head + Z.of_nat k) mod size)) (seq 0 (Z.to_nat count)).

(** The bytes waiting in the RX ring, oldest first: the cells from the
    read cursor up to the write cursor. *)
Definition rx_available (r : RxBuffer_t) : Z :=
  (rx_tail r - rx_head r) mod RX_BUFFER_SIZE.

Definition rx_bytes (r : RxBuffer_t) : list Z :=
  ring_slice RX_BUFFER_SIZE (rx_buf r) (rx_head r) (rx_available r).

(** The same for the TX ring. *)
Definition tx_available (t : TxBuffer_t) : Z :=
  (tx_tail t - tx_head t) mod TX_BUFFER_SIZE.

Definition tx_bytes (t : TxBuffer_t) : list Z :=
  ring_slice TX_BUFFER_SIZE (tx_buf t) (tx_head t) (tx_available t).

(** A frame as it lies in the TX ring: its length in two bytes, low byte
    first, then its bytes. *)
Definition tx_record (f : list Z) : list Z :=
  let n := Z.of_nat (length f) in
  n mod 256 :: n / 256 :: f.

(** The TX ring holds exactly the frames [fs], oldest first. *)
Definition tx_holds (t : TxBuffer_t) (fs : list (list Z)) : Prop :=
  tx_wf t /\ tx_bytes t = concat (map tx_record fs).

(** The frame size that the extractor reads off the length field of a
    header at the start of [bs]. *)
Definition declared_size (bs : list Z) : Z :=
  u16 (2 + 2 + u16 (Z.lor (nth 2 bs 0) (Z.shiftl (nth 3 bs 0) 8)) + 2).

(** No frame is taken from the start of [bs]: there is no [AA 55] there,
    or its length field declares more than [MAX_FRAME_SIZE]. *)
Definition false_start (bs : list Z) : Prop :=
  nth 0 bs 0 <> 0xAA \/ nth 1 bs 0 <> 0x55 \/ MAX_FRAME_SIZE < declared_size bs.

(** What the extractor takes for a frame: [AA 55], and a length field
    that declares the size of [f], between [MIN_FRAME_LEN] and
    [MAX_FRAME_SIZE].  The checksum and the tail are not looked at. *)
Definition framed (f : list Z) : Prop :=
  nth 0 f 0 = 0xAA /\ nth 1 f 0 = 0x55 /\
  declared_size f = Z.of_nat (length f) /\
  MIN_FRAME_LEN <= Z.of_nat (length f) <= MAX_FRAME_SIZE.

(** The bytes of the frame that carries [payload]: what [buildFrame]
    writes into a buffer that is large enough. *)
Definition frame_bytes (cmd sq : Z) (payload : list Z) : list Z :=
  let '(_, f, n) :=
    buildFrame cmd sq (Some (of_list payload)) (Z.of_nat (length payload))
      (fun _ => 0) 65535 in
  to_list f n.

(** What a send call leaves alone. *)
Definition same_but_tx (g g' : app_context_t) : Prop :=
  same_engine g g' /\ seq_counter g' = seq_counter g /\
  rx_buffer g' = rx_buffer g /\ rand_src g' = rand_src g /\
  data_payload g' = data_payload g.

(** Trigger mode with a trigger on record but no burst being sent: the
    state in which neither block of the periodic task does anything. *)
Definition trigger_stalled (g : app_context_t) : Prop :=
  mode g = MODE_TRIGGER /\ occurred (trigger g) <> 0 /\
  sending (trigger g) = 0.

(** The events [evs] of a step from [g] to [g'] carry consecutive
    sequence numbers modulo 256, starting at the counter of [g], and
    the counter of [g'] is the next number. *)
Definition numbered (g g' : app_context_t) (evs : list tx_event) : Prop :=
  map ev_seq evs
  = map (fun i => u8 (seq_counter g + Z.of_nat i)) (seq 0 (length evs)) /\
  seq_counter g' = u8 (seq_counter g + Z.of_nat (length evs)).

(** The step from [g] to [g'] made the send calls logged as [evs], and
    numbered them. *)
Definition step_numbered (g g' : app_context_t) (evs : list tx_event)
    : Prop :=
  tx_log g' = tx_log g ++ evs /\ numbered g g' evs /\
  is_u8 (seq_counter g').

(** ** transport.h: the transport interface *)

(** [transport_t] is a table of function pointers and a pointer
    [impl_ctx] to the implementation's state.  Here the table is a
    record of functions over the type [C] of that state, and the state
    is passed in and returned; each function returns its C return value
    first.  [recv] and [send] are given the caller's buffer; [init]'s
    [config] string is only printed. *)
Record transport_t (C : Type) : Type := mkTransport {
  init : C -> Z * C;
  wait_connection : C -> Z * C;
  recv : C -> mem -> Z -> Z * C * mem;
  send : C -> mem -> Z -> Z * C;
  cleanup : C -> C
}.

Arguments init {C} _ _.
Arguments wait_connection {C} _ _.
Arguments recv {C} _ _ _ _.
Arguments send {C} _ _ _ _.
Arguments cleanup {C} _ _.

(** ** app.c: the remaining entry points *)

Definition set_rx_buffer (v : RxBuffer_t) (g : app_context_t)
    : app_context_t :=
  mkApp (mode g) (status g) (seq_counter g) (channels g) (num_channels g)
    (trigger g) (last_data_send_time g) (start_time g) (tx_frame_buf g)
    (data_payload g) v (tx_buffer g) (rand_src g) (tx_log g).

Definition set_tx_buffer (v : TxBuffer_t) (g : app_context_t)
    : app_context_t :=
  mkApp (mode g) (status g) (seq_counter g) (channels g) (num_channels g)
    (trigger g) (last_data_send_time g) (start_time g) (tx_frame_buf g)
    (data_payload g) (rx_buffer g) v (rand_src g) (tx_log g).

Definition app_get_rx_buffer (g : app_context_t) : RxBuffer_t := rx_buffer g.

Definition app_cleanup (g : app_context_t) : app_context_t :=
  set_status STATUS_STOPPED g.

(** The [while] loop of [app_process_tx_buffer]; [frame] is the local
    array, [sizeof(frame)] is [MAX_FRAME_SIZE].  [fuel] bounds the
    number of passes and [None] is "out of fuel". *)
Fixpoint process_tx_loop {C : Type} (fuel : nat) (transport : transport_t C)
    (ctx : C) (t : TxBuffer_t) (frame : mem) (send_count : Z)
    : option (C * TxBuffer_t * mem * Z) :=
  match fuel with
  | O => None
  | S fuel' =>
      let '(frame_len, t, frame) := dequeueTxFrame t frame MAX_FRAME_SIZE in
      if frame_len >? 0 then
        let '(sent, ctx) := send transport ctx frame frame_len in
        if negb (sent =? frame_len) then Some (ctx, t, frame, send_count)
        else process_tx_loop fuel' transport ctx t frame (send_count + 1)
      else Some (ctx, t, frame, send_count)
  end.

(** [app_process_tx_buffer].  [g_app.transport] is the argument
    [transport] ([None] for NULL) and the state behind its [impl_ctx] is
    [ctx]; [frame] is the uninitialised local array. *)
Definition app_process_tx_buffer {C : Type} (fuel : nat)
    (transport : option (transport_t C)) (ctx : C) (frame : mem)
    (g : app_context_t) : option (C * app_context_t) :=
  match transport with
  | None => Some (ctx, g)
  | Some tr =>
      match process_tx_loop fuel tr ctx (tx_buffer g) frame 0 with
      | Some (ctx, t, _, _) => Some (ctx, set_tx_buffer t g)
      | None => None
      end
  end.

(** The state of a transport after [send] was called once for each of
    the frames [fs], oldest first, the bytes of each frame lying in the
    matching memory of [ms]. *)
Definition send_all {C : Type} (transport : transport_t C) (ctx : C)
    (ms : list mem) (fs : list (list Z)) : C :=
  fold_left
    (fun c mf => snd (send transport c (fst mf) (Z.of_nat (length (snd mf)))))
    (combine ms fs) ctx.

(** ** transport_test.c: the simulated transport *)

Module TestTransport.

Definition TEST_BUF_SIZE : Z := 4096.

(** [test_context_t], with one addition: [sent], the byte strings that
    [test_send] was given so far, oldest first (the C function prints
    them and keeps nothing).  The [int] fields are unbounded here;
    the cursors stay below [TEST_BUF_SIZE], and the counters would need
    2^31 calls to overflow. *)
Record test_context_t : Type := mkTest {
  rx_queue : mem;
  rx_head : Z;
  rx_tail : Z;
  connected : Z;
  recv_calls : Z;
  send_calls : Z;
  sent : list (list Z)
}.

(** [for (i = ...; i < len; i++)] of [test_inject_data]. *)
Fixpoint inject_loop (n : nat) (i : Z) (data : mem) (ctx : test_context_t)
    : test_context_t :=
  match n with
  | O => ctx
  | S n' =>
      let next := Z.rem (rx_tail ctx + 1) TEST_BUF_SIZE in
      let ctx :=
        if negb (next =? rx_head ctx) then
          mkTest (store (rx_queue ctx) (rx_tail ctx) (data i)) (rx_head ctx)
            next (connected ctx) (recv_calls ctx) (send_calls ctx) (sent ctx)
        else ctx in
      inject_loop n' (i + 1) data ctx
  end.

Definition test_inject_data (data : mem) (len : Z) (ctx : test_context_t)
    : test_context_t :=
  inject_loop (Z.to_nat len) 0 data ctx.

(** [memset(t, 0, sizeof(test_context_t))] *)
Definition test_init (ctx : test_context_t) : Z * test_context_t :=
  (0, mkTest (fun _ => 0) 0 0 0 0 0 (sent ctx)).

(** [ping_frame] is the uninitialised local array of 64 bytes. *)
Definition test_wait_connection (ping_frame : mem) (ctx : test_context_t)
    : Z * test_context_t :=
  if connected ctx =? 0 then
    let ctx :=
      mkTest (rx_queue ctx) (rx_head ctx) (rx_tail ctx) 1 (recv_calls ctx)
        (send_calls ctx) (sent ctx) in
    let '(ret, ping_frame, frame_len) :=
      buildFrame 0x01 0 None 0 ping_frame 64 in
    if ret =? 0 then (0, test_inject_data ping_frame frame_len ctx)
    else (0, ctx)
  else (0, ctx).

(** The [while (count < len && t->rx_head != t->rx_tail)] loop of
    [test_recv], with at most [n] passes left before [count] reaches
    [len]. *)
Fixpoint recv_loop (n : nat) (count : Z) (buf : mem) (ctx : test_context_t)
    : Z * test_context_t * mem :=
  match n with
  | O => (count, ctx, buf)
  | S n' =>
      if negb (rx_head ctx =? rx_tail ctx) then
        let buf := store buf count (rx_queue ctx (rx_head ctx)) in
        let count := count + 1 in
        let ctx :=
          mkTest (rx_queue ctx) (Z.rem (rx_head ctx + 1) TEST_BUF_SIZE)
            (rx_tail ctx) (connected ctx) (recv_calls ctx) (send_calls ctx)
            (sent ctx) in
        recv_loop n' count buf ctx
      else (count, ctx, buf)
  end.

Definition test_recv (ctx : test_context_t) (buf : mem) (len : Z)
    : Z * test_context_t * mem :=
  let '(count, ctx, buf) := recv_loop (Z.to_nat len) 0 buf ctx in
  let ctx :=
    if count >? 0 then
      mkTest (rx_queue ctx) (rx_head ctx) (rx_tail ctx) (connected ctx)
        (recv_calls ctx + 1) (send_calls ctx) (sent ctx)
    else ctx in
  (count, ctx, buf).

Definition test_send (ctx : test_context_t) (buf : mem) (len : Z)
    : Z * test_context_t :=
  (len,
   mkTest (rx_queue ctx) (rx_head ctx) (rx_tail ctx) (connected ctx)
     (recv_calls ctx) (send_calls ctx + 1) (sent ctx ++ [to_list buf len])).

Definition test_cleanup (ctx : test_context_t) : test_context_t :=
  mkTest (fun _ => 0) 0 0 0 0 0 (sent ctx).

(** [frame] is the uninitialised local array of 512 bytes. *)
Definition test_inject_command (frame : mem) (cmd sq : Z)
    (payload : option mem) (payload_len : Z) (ctx : test_context_t)
    : test_context_t :=
  let '(ret, frame, frame_len) :=
    buildFrame cmd sq payload payload_len frame 512 in
  if ret =? 0 then test_inject_data frame frame_len ctx else ctx.

(** [transport_test_create]: the table of the simulated transport.
    [test_wait_connection]'s local array is part of the table here. *)
Definition transport_test_create (ping_frame : mem)
    : transport_t test_context_t :=
  mkTransport test_context_t test_init (test_wait_connection ping_frame)
    test_recv test_send test_cleanup.

(** The bytes waiting in the simulated receive queue, oldest first. *)
Definition queued_bytes (ctx : test_context_t) : list Z :=
  ring_slice TEST_BUF_SIZE (rx_queue ctx) (rx_head ctx)
    ((rx_tail ctx - rx_head ctx) mod TEST_BUF_SIZE).

Definition test_wf (ctx : test_context_t) : Prop :=
  0 <= rx_head ctx < TEST_BUF_SIZE /\ 0 <= rx_tail ctx < TEST_BUF_SIZE.

End TestTransport.

(** ** main.c: one pass of the main loop *)

(** The state that the main loop works on: the transport's state, the
    application, [g_recv_raw_buf], [loop_count] and
    [last_status_time]. *)
Record main_state (C : Type) : Type := mkMain {
  m_ctx : C;
  m_app : app_context_t;
  g_recv_raw_buf : mem;
  loop_count : Z;
  last_status_time : Z
}.

Arguments mkMain {C} _ _ _ _ _.
Arguments m_ctx {C} _.
Arguments m_app {C} _.
Arguments g_recv_raw_buf {C} _.
Arguments loop_count {C} _.
Arguments last_status_time {C} _.

(** The uninitialised local arrays of the functions that one pass calls:
    [tempFrame] and [frameLen] of [tryParseFramesFromRx], [payload] of
    [app_on_frame], [frame] of [app_process_tx_buffer]. *)
Record locals : Type := mkLocals {
  l_tempFrame : mem;
  l_frameLen : Z;
  l_payload : mem;
  l_frame : mem
}.

Section MainLoop.

Variable sample : Z -> Z -> Z.
Variable C : Type.

(** The body of [while (g_running)], at time [now = get_time_ms()].  The
    result says whether the loop goes on ([false] after [break]);
    [None] is a pass without result: an inner loop out of fuel, or the
    array of [app_on_frame] overrun.  [rx_buffer] points to
    [g_app.rx_buffer]: the ring is taken out of the application state
    for the drain loop, whose handler never touches it, and put back
    afterwards.  [fuel] is the fuel of the two inner loops. *)
Definition main_loop_body (fuel : nat) (transport : transport_t C)
    (lc : locals) (now : Z) (st : main_state C)
    : option (bool * main_state C) :=
  let '(n, ctx, buf) := recv transport (m_ctx st) (g_recv_raw_buf st) 4096 in
  let received :=
    if n >? 0 then
      let '(fed, r) := feedRxBuffer (rx_buffer (m_app st)) buf (u16 n) in
      match tryParseFramesFromRx fuel r
              (app_on_frame_callback (l_payload lc))
              (l_tempFrame lc) (l_frameLen lc) (Some (m_app st)) with
      | Some (r, Some g) => Some (true, set_rx_buffer r g)
      | Some (_, None) => None
      | None => None
      end
    else if n <? 0 then Some (false, m_app st)
    else Some (true, m_app st) in
  match received with
  | None => None
  | Some (false, g) =>
      Some (false, mkMain ctx g buf (loop_count st) (last_status_time st))
  | Some (true, g) =>
      let g := app_periodic_task sample now g in
      match app_process_tx_buffer fuel (Some transport) ctx (l_frame lc) g with
      | None => None
      | Some (ctx, g) =>
          let last :=
            if u32 (now - last_status_time st) >=? 5000 then now
            else last_status_time st in
          Some (true, mkMain ctx g buf (u32 (loop_count st + 1)) last)
      end
  end.

End MainLoop.

Arguments main_loop_body _ {C} _ _ _ _ _.
Example crc_check_123456789 :
  CRC16_Calc (of_list [0x31;0x32;0x33;0x34;0x35;0x36;0x37;0x38;0x39]) 9 0xFFFF
  = 0x4B37.
Proof. reflexivity. Qed.

Example build_ping :
  let '(r, b, n) := buildFrame 0x01 7 None 0 (fun _ => 0) 8192 in
  (r, to_list b n, n)
  = (0, [0xAA; 0x55; 4; 0; 1; 7; 0x41; 0xE2; 0x55; 0xAA], 10).
Proof. vm_compute. reflexivity. Qed.

(** ** Basic facts: machine integers and memory *)

Lemma u16_small x : 0 <= x < 65536 -> u16 x = x.
Proof. intros H. unfold u16. apply Z.mod_small. exact H. Qed.

Lemma u8_small x : 0 <= x < 256 -> u8 x = x.
Proof. intros H. unfold u8. apply Z.mod_small. exact H. Qed.

Lemma u16_range x : is_u16 (u16 x).
Proof. unfold is_u16, u16. apply Z.mod_pos_bound. lia. Qed.

Lemma u8_range x : is_u8 (u8 x).
Proof. unfold is_u8, u8. apply Z.mod_pos_bound. lia. Qed.

Lemma lxor_below n a b :
  0 <= n -> 0 <= a < 2 ^ n -> 0 <= b < 2 ^ n -> 0 <= Z.lxor a b < 2 ^ n.
Proof.
  intros Hn Ha Hb.
  assert (H0 : 0 <= Z.lxor a b) by (apply Z.lxor_nonneg; intuition lia).
  split; [exact H0|].
  destruct (Z.eq_dec (Z.lxor a b) 0) as [E|E].
  - rewrite E. apply Z.pow_pos_nonneg; lia.
  - assert (Hpos : 0 < n).
    { destruct (Z.eq_dec n 0) as [->|]; [|lia]. exfalso. apply E.
      change (2 ^ 0) with 1 in *.
      replace a with 0 by lia. replace b with 0 by lia. reflexivity. }
    apply Z.log2_lt_pow2; [lia|].
    eapply Z.le_lt_trans; [apply Z.log2_lxor; lia|].
    apply Z.max_lub_lt.
    + destruct (Z.eq_dec a 0) as [->|]; [simpl; lia|].
      apply Z.log2_lt_pow2; lia.
    + destruct (Z.eq_dec b 0) as [->|]; [simpl; lia|].
      apply Z.log2_lt_pow2; lia.
Qed.

Lemma lor_below n a b :
  0 <= n -> 0 <= a < 2 ^ n -> 0 <= b < 2 ^ n -> 0 <= Z.lor a b < 2 ^ n.
Proof.
  intros Hn Ha Hb.
  assert (H0 : 0 <= Z.lor a b) by (apply Z.lor_nonneg; intuition lia).
  split; [exact H0|].
  destruct (Z.eq_dec (Z.lor a b) 0) as [E|E].
  - rewrite E. apply Z.pow_pos_nonneg; lia.
  - assert (Hpos : 0 < n).
    { destruct (Z.eq_dec n 0) as [->|]; [|lia]. exfalso. apply E.
      change (2 ^ 0) with 1 in *.
      replace a with 0 by lia. replace b with 0 by lia. reflexivity. }
    apply Z.log2_lt_pow2; [lia|].
    rewrite Z.log2_lor by lia.
    apply Z.max_lub_lt.
    + destruct (Z.eq_dec a 0) as [->|]; [simpl; lia|].
      apply Z.log2_lt_pow2; lia.
    + destruct (Z.eq_dec b 0) as [->|]; [simpl; lia|].
      apply Z.log2_lt_pow2; lia.
Qed.


Lemma lor_low_high lo hi :
  0 <= lo < 256 -> 0 <= hi -> Z.lor lo (Z.shiftl hi 8) = lo + 256 * hi.
Proof.
  intros Hlo Hhi.
  assert (D : Z.land lo (Z.shiftl hi 8) = 0).
  { apply Z.bits_inj'. intros n Hn.
    rewrite Z.land_spec, Z.bits_0.
    destruct (Z.ltb_spec n 8) as [L|L].
    - rewrite (Z.shiftl_spec_low _ _ _ L). apply andb_false_r.
    - rewrite <- (Z.mod_small lo (2 ^ 8)) by (change (2 ^ 8) with 256; lia).
      rewrite Z.mod_pow2_bits_high by lia. reflexivity. }
  rewrite <- Z.lxor_lor by exact D.
  rewrite <- Z.add_nocarry_lxor by exact D.
  rewrite Z.shiftl_mul_pow2 by lia. change (2 ^ 8) with 256. lia.
Qed.

Lemma split_join_u16 c :
  is_u16 c ->
  u16 (Z.lor (u8 (Z.land c 0xFF)) (Z.shiftl (u8 (Z.land (Z.shiftr c 8) 0xFF)) 8))
  = c.
Proof.
  intros Hc. unfold is_u16 in Hc.
  change 0xFF with (Z.ones 8).
  rewrite !Z.land_ones by lia.
  rewrite Z.shiftr_div_pow2 by lia.
  change (2 ^ 8) with 256.
  assert (Hq : 0 <= c / 256 < 256)
    by (split; [apply Z.div_pos; lia | apply Z.div_lt_upper_bound; lia]).
  pose proof (Z.mod_pos_bound c 256 ltac:(lia)) as Hr.
  rewrite (Z.mod_small (c / 256) 256) by exact Hq.
  rewrite (u8_small (c mod 256)) by exact Hr.
  rewrite (u8_small (c / 256)) by exact Hq.
  rewrite lor_low_high by lia.
  rewrite u16_small; pose proof (Z.div_mod c 256 ltac:(lia)); lia.
Qed.

(** ** CRC16: range and locality *)

Lemma crc_shift_range c : is_u16 c -> is_u16 (crc_shift c).
Proof.
  unfold is_u16, crc_shift. intros Hc.
  rewrite Z.shiftr_div_pow2 by lia. change (2 ^ 1) with 2.
  assert (Hq : 0 <= c / 2 < 32768)
    by (split; [apply Z.div_pos; lia | apply Z.div_lt_upper_bound; lia]).
  destruct (negb (Z.land c 1 =? 0)); [|lia].
  change 65536 with (2 ^ 16). apply lxor_below; change (2 ^ 16) with 65536; lia.
Qed.

Lemma crc_byte_range c b : is_u16 c -> is_u8 b -> is_u16 (crc_byte c b).
Proof.
  intros Hc Hb. unfold crc_byte.
  assert (Hx : is_u16 (Z.lxor c b)).
  { unfold is_u16, is_u8 in *. change 65536 with (2 ^ 16).
    apply lxor_below; change (2 ^ 16) with 65536; lia. }
  simpl. repeat apply crc_shift_range. exact Hx.
Qed.

Lemma crc_loop_range data n : forall i c,
  is_u16 c ->
  (forall k, i <= k < i + Z.of_nat n -> is_u8 (data k)) ->
  is_u16 (crc_loop data n i c).
Proof.
  induction n as [|n IH]; intros i c Hc Hd; simpl.
  - exact Hc.
  - apply IH.
    + apply crc_byte_range; [exact Hc | apply Hd; lia].
    + intros k Hk. apply Hd. lia.
Qed.

Lemma crc_loop_ext d1 d2 n : forall i c,
  (forall k, i <= k < i + Z.of_nat n -> d1 k = d2 k) ->
  crc_loop d1 n i c = crc_loop d2 n i c.
Proof.
  induction n as [|n IH]; intros i c H; simpl.
  - reflexivity.
  - rewrite (H i) by lia. apply IH. intros k Hk. apply H. lia.
Qed.

Lemma CRC16_Calc_ext d1 d2 len init :
  agree_upto d1 d2 len ->
  CRC16_Calc d1 len init = CRC16_Calc d2 len init.
Proof.
  intros H. unfold CRC16_Calc. apply crc_loop_ext.
  intros k Hk. apply H. lia.
Qed.

Lemma CRC16_Calc_range data len init :
  is_u16 init -> bytes_upto data len -> is_u16 (CRC16_Calc data len init).
Proof.
  intros Hi Hd. unfold CRC16_Calc. apply crc_loop_range; [exact Hi|].
  intros k Hk. apply Hd. lia.
Qed.

(** ** buildFrame lays the frame out *)

Ltac mem_cases :=
  unfold store, memcpy, shift;
  repeat match goal with
    | |- context [?a =? ?b] => destruct (Z.eqb_spec a b); try lia
    | |- context [?a <=? ?b] => destruct (Z.leb_spec a b); try lia
    | |- context [?a <? ?b] => destruct (Z.ltb_spec a b); try lia
    end;
  cbn [andb orb negb]; try reflexivity; try lia.

Lemma low_byte x : u8 (Z.land x 0xFF) = x mod 256.
Proof.
  change 0xFF with (Z.ones 8). rewrite Z.land_ones by lia.
  change (2 ^ 8) with 256. apply u8_small. apply Z.mod_pos_bound. lia.
Qed.

Lemma high_byte x : u8 (Z.land (Z.shiftr x 8) 0xFF) = (x / 256) mod 256.
Proof.
  rewrite low_byte. rewrite Z.shiftr_div_pow2 by lia. reflexivity.
Qed.

(** The four stores that close a frame whose first [6 + len] bytes are
    already in [B]. *)
Lemma frame_closed cmd sq payload len (B outBuf : mem) :
  0 <= len -> len + 10 <= 65535 ->
  B 0 = FRAME_HEAD_0 -> B 1 = FRAME_HEAD_1 ->
  B 2 = (len + 4) mod 256 -> B 3 = ((len + 4) / 256) mod 256 ->
  B 4 = cmd -> B 5 = sq ->
  (forall i, 0 <= i < len -> B (6 + i) = payload_at payload i) ->
  (forall i, 6 + len <= i -> B i = outBuf i) ->
  forall f,
  f = store (store (store (store B (6 + len)
        (u8 (Z.land (CRC16_Calc (shift B 4) (2 + len) 0xFFFF) 0xFF)))
        (u16 (6 + len + 1))
        (u8 (Z.land (Z.shiftr (CRC16_Calc (shift B 4) (2 + len) 0xFFFF) 8) 0xFF)))
        (u16 (u16 (6 + len + 1) + 1)) FRAME_TAIL_0)
        (u16 (u16 (u16 (6 + len + 1) + 1) + 1)) FRAME_TAIL_1 ->
  frame_layout cmd sq payload len f /\
  (forall i, 10 + len <= i -> f i = outBuf i) /\
  u16 (u16 (u16 (u16 (6 + len + 1) + 1) + 1) + 1) = 10 + len.
Proof.
  intros H0 Hfit B0 B1 B2 B3 B4 B5 Bp Brest f ->.
  rewrite low_byte, high_byte.
  replace (u16 (6 + len + 1)) with (7 + len) by (rewrite u16_small; lia).
  replace (u16 (7 + len + 1)) with (8 + len) by (rewrite u16_small; lia).
  replace (u16 (8 + len + 1)) with (9 + len) by (rewrite u16_small; lia).
  replace (u16 (9 + len + 1)) with (10 + len) by (rewrite u16_small; lia).
  set (crc := CRC16_Calc (shift B 4) (2 + len) 0xFFFF).
  set (f := store _ _ _).
  assert (Hcrc : CRC16_Calc (shift f 4) (2 + len) 0xFFFF = crc).
  { apply CRC16_Calc_ext. intros i Hi. subst f. mem_cases. }
  unfold frame_layout. rewrite Hcrc.
  repeat split; try (subst f; mem_cases; fail).
  - intros i Hi. rewrite <- Bp by lia. subst f. mem_cases.
  - intros i Hi. rewrite <- Brest by lia. subst f. mem_cases.
Qed.

Lemma buildFrame_layout_present cmd sq payload payloadLen outBuf outBufLen :
  payload_present payload payloadLen ->
  0 <= payloadLen -> 10 + payloadLen <= outBufLen -> outBufLen <= 65535 ->
  exists f,
    buildFrame cmd sq payload payloadLen outBuf outBufLen
      = (0, f, 10 + payloadLen) /\
    frame_layout cmd sq payload payloadLen f /\
    (forall i, 10 + payloadLen <= i -> f i = outBuf i).
Proof.
  intros Hp H0 Hfit Hcap.
  unfold buildFrame.
  replace (u16 (1 + 1 + payloadLen + 2)) with (payloadLen + 4)
    by (rewrite u16_small; lia).
  replace (u16 (2 + 2 + (payloadLen + 4) + 2)) with (payloadLen + 10)
    by (rewrite u16_small; lia).
  destruct (Z.gtb_spec (payloadLen + 10) outBufLen) as [G|G]; [lia|].
  cbv zeta.
  change (u16 (0 + 1)) with 1. change (u16 (1 + 1)) with 2.
  change (u16 (2 + 1)) with 3. change (u16 (3 + 1)) with 4.
  change (u16 (4 + 1)) with 5. change (u16 (5 + 1)) with 6.
  replace (u16 (2 + payloadLen)) with (2 + payloadLen)
    by (rewrite u16_small; lia).
  rewrite low_byte, high_byte.
  set (hdr := store (store _ 4 cmd) 5 sq).
  assert (E : exists B,
    match payload with
    | Some p =>
        if payloadLen >? 0
        then (memcpy hdr 6 p payloadLen, u16 (6 + payloadLen))
        else (hdr, 6)
    | None => (hdr, 6)
    end = (B, 6 + payloadLen) /\
    B 0 = FRAME_HEAD_0 /\ B 1 = FRAME_HEAD_1 /\
    B 2 = (payloadLen + 4) mod 256 /\ B 3 = ((payloadLen + 4) / 256) mod 256 /\
    B 4 = cmd /\ B 5 = sq /\
    (forall i, 0 <= i < payloadLen -> B (6 + i) = payload_at payload i) /\
    (forall i, 6 + payloadLen <= i -> B i = outBuf i)).
  { unfold payload_at, payload_present in *. destruct payload as [p|].
    - destruct (Z.gtb_spec payloadLen 0) as [P|P].
      + exists (memcpy hdr 6 p payloadLen).
        rewrite u16_small by lia.
        repeat split; try (subst hdr; mem_cases; fail).
        * intros i Hi. subst hdr. mem_cases. f_equal. lia.
        * intros i Hi. subst hdr. mem_cases.
      + exists hdr. assert (Z : payloadLen = 0) by lia.
        split; [f_equal; lia|].
        repeat split; try (subst hdr; mem_cases; fail).
        intros i Hi. subst hdr. mem_cases.
    - exists hdr.
      split; [f_equal; lia|].
      repeat split; try (subst hdr; mem_cases; fail).
      intros i Hi. subst hdr. mem_cases. }
  destruct E as (B & -> & B0 & B1 & B2 & B3 & B4 & B5 & Bp & Brest).
  edestruct (frame_closed cmd sq payload payloadLen B outBuf)
    as (L & R & O); try eassumption; try lia; [reflexivity|].
  eexists. split; [|split; [exact L | exact R]].
  rewrite O. reflexivity.
Qed.

Lemma payload_ok_present payload payloadLen :
  payload_ok payload payloadLen -> payload_present payload payloadLen.
Proof. destruct payload; [intros _; exact I | intros H; exact H]. Qed.

Lemma buildFrame_layout cmd sq payload payloadLen outBuf outBufLen :
  payload_ok payload payloadLen ->
  0 <= payloadLen -> 10 + payloadLen <= outBufLen -> outBufLen <= 65535 ->
  exists f,
    buildFrame cmd sq payload payloadLen outBuf outBufLen
      = (0, f, 10 + payloadLen) /\
    frame_layout cmd sq payload payloadLen f /\
    (forall i, 10 + payloadLen <= i -> f i = outBuf i).
Proof.
  intros Hp. apply buildFrame_layout_present.
  apply payload_ok_present. exact Hp.
Qed.

Lemma join_bytes x :
  is_u16 x -> u16 (Z.lor (x mod 256) (Z.shiftl ((x / 256) mod 256) 8)) = x.
Proof.
  intros Hx. unfold is_u16 in Hx.
  pose proof (Z.mod_pos_bound x 256 ltac:(lia)) as Hr.
  pose proof (Z.mod_pos_bound (x / 256) 256 ltac:(lia)) as Hq.
  rewrite lor_low_high by lia.
  assert (Hd : 0 <= x / 256 < 256)
    by (split; [apply Z.div_pos; lia | apply Z.div_lt_upper_bound; lia]).
  rewrite (Z.mod_small (x / 256) 256) by exact Hd.
  rewrite u16_small; pose proof (Z.div_mod x 256 ltac:(lia)); lia.
Qed.

Lemma frame_layout_agree cmd sq payload len a f :
  0 <= len ->
  agree_upto a f (10 + len) ->
  frame_layout cmd sq payload len f -> frame_layout cmd sq payload len a.
Proof.
  intros H0 A (F0 & F1 & F2 & F3 & F4 & F5 & Fp & Fc0 & Fc1 & Ft0 & Ft1).
  assert (C : CRC16_Calc (shift a 4) (2 + len) 0xFFFF
              = CRC16_Calc (shift f 4) (2 + len) 0xFFFF).
  { apply CRC16_Calc_ext. intros i Hi. unfold shift. apply A. lia. }
  unfold frame_layout. rewrite C.
  repeat split; try (rewrite A by lia; assumption).
  intros i Hi. rewrite A by lia. apply Fp. exact Hi.
Qed.

(** The bytes the checksum covers are bytes. *)
Lemma frame_layout_crc_range cmd sq payload len f :
  is_u8 cmd -> is_u8 sq -> payload_ok payload len -> 0 <= len ->
  frame_layout cmd sq payload len f ->
  is_u16 (CRC16_Calc (shift f 4) (2 + len) 0xFFFF).
Proof.
  intros Hc Hs Hp H0 (F0 & F1 & F2 & F3 & F4 & F5 & Fp & _).
  apply CRC16_Calc_range; [unfold is_u16; lia|].
  intros i Hi. unfold shift.
  destruct (Z.eq_dec i 0) as [->|]; [simpl; rewrite F4; exact Hc|].
  destruct (Z.eq_dec i 1) as [->|]; [simpl; rewrite F5; exact Hs|].
  replace (i + 4) with (6 + (i - 2)) by lia.
  rewrite Fp by lia.
  unfold payload_ok, payload_at in *. destruct payload as [p|].
  - apply Hp. lia.
  - lia.
Qed.

Lemma parseFrame_layout cmd sq payload len inBuf o :
  is_u8 cmd -> is_u8 sq -> payload_ok payload len ->
  0 <= len -> 10 + len <= 65535 ->
  frame_layout cmd sq payload len inBuf ->
  parseFrame inBuf (10 + len) o = (0, parsed inBuf cmd sq len o).
Proof.
  intros Hc Hs Hp H0 Hfit L.
  pose proof (frame_layout_crc_range _ _ _ _ _ Hc Hs Hp H0 L) as Hcrc.
  destruct L as (F0 & F1 & F2 & F3 & F4 & F5 & Fp & Fc0 & Fc1 & Ft0 & Ft1).
  unfold parseFrame.
  destruct (Z.ltb_spec (10 + len) 8) as [?|_]; [lia|].
  rewrite F0, F1. rewrite !Z.eqb_refl. cbn [negb orb].
  replace (10 + len - 2) with (8 + len) by lia.
  replace (10 + len - 1) with (9 + len) by lia.
  rewrite Ft0, Ft1. rewrite !Z.eqb_refl. cbn [negb orb].
  rewrite F2, F3. rewrite join_bytes by (unfold is_u16; lia).
  cbv zeta.
  replace (u16 (6 + (len + 4))) with (10 + len) by (rewrite u16_small; lia).
  rewrite Z.eqb_refl. cbn [negb].
  change (u16 (4 + 1)) with 5. change (u16 (5 + 1)) with 6.
  replace (u16 (len + 4 - 4)) with len by (rewrite u16_small; lia).
  replace (u16 (6 + len)) with (6 + len) by (rewrite u16_small; lia).
  replace (u16 (2 + len)) with (2 + len) by (rewrite u16_small; lia).
  replace (6 + len + 1) with (7 + len) by lia.
  rewrite Fc0, Fc1. rewrite join_bytes by exact Hcrc.
  rewrite Z.eqb_refl. cbn [negb].
  rewrite F4, F5. reflexivity.
Qed.

(** ** C1: round trip *)

(** C1.  For every command id, sequence number and payload whose length
    keeps the frame within the 16-bit bounds, [buildFrame] into a buffer
    that is large enough succeeds and emits [10 + payloadLen] bytes, and
    [parseFrame] on exactly those bytes (any memory that agrees with the
    output on the emitted range) succeeds and returns the original
    command id, sequence number, payload length and payload bytes. *)
Theorem buildFrame_parseFrame_roundtrip
    cmd sq payload payloadLen outBuf outBufLen :
  is_u8 cmd -> is_u8 sq -> payload_ok payload payloadLen ->
  0 <= payloadLen -> 10 + payloadLen <= outBufLen -> outBufLen <= 65535 ->
  exists f,
    buildFrame cmd sq payload payloadLen outBuf outBufLen
      = (0, f, 10 + payloadLen) /\
    forall inBuf c0 s0 dst l0,
      agree_upto inBuf f (10 + payloadLen) ->
      exists dst',
        parseFrame inBuf (10 + payloadLen)
                   (mkParseOut c0 s0 (Some dst) (Some l0))
          = (0, mkParseOut cmd sq (Some dst') (Some payloadLen)) /\
        forall i, 0 <= i < payloadLen -> dst' i = payload_at payload i.
Proof.
  intros Hc Hs Hp H0 Hfit Hcap.
  destruct (buildFrame_layout cmd sq payload payloadLen outBuf outBufLen)
    as (f & Hb & L & _); try assumption.
  exists f. split; [exact Hb|].
  intros inBuf c0 s0 dst l0 A.
  pose proof (frame_layout_agree _ _ _ _ _ _ H0 A L) as La.
  rewrite (parseFrame_layout cmd sq payload payloadLen) by (assumption || lia).
  unfold parsed. cbn [pPayload pPayloadLen].
  destruct (Z.gtb_spec payloadLen 0) as [P|P];
    (eexists; split; [reflexivity|]); intros i Hi; [|lia].
  destruct La as (_ & _ & _ & _ & _ & _ & Fp & _).
  rewrite <- Fp by exact Hi. mem_cases. f_equal. lia.
Qed.

Lemma buildFrame_parseFrame_roundtrip_witness :
  exists f,
    buildFrame 0x02 7 (Some (of_list [1; 2; 3])) 3 (fun _ => 0) 8192
      = (0, f, 13) /\
    forall inBuf c0 s0 dst l0,
      agree_upto inBuf f 13 ->
      exists dst',
        parseFrame inBuf 13 (mkParseOut c0 s0 (Some dst) (Some l0))
          = (0, mkParseOut 0x02 7 (Some dst') (Some 3)) /\
        forall i, 0 <= i < 3 -> dst' i = payload_at (Some (of_list [1; 2; 3])) i.
Proof.
  apply (buildFrame_parseFrame_roundtrip 0x02 7 (Some (of_list [1; 2; 3])) 3
           (fun _ => 0) 8192); unfold is_u8; try lia.
  intros i Hi. unfold is_u8, of_list.
  assert (i = 0 \/ i = 1 \/ i = 2) as [ -> | [ -> | -> ] ] by lia; simpl; lia.
Defined.

(** ** CRC16 separates inputs that differ in one byte *)

Lemma lxor_cancel_r a b c : Z.lxor a c = Z.lxor b c -> a = b.
Proof.
  intros H.
  assert (E : Z.lxor (Z.lxor a c) c = Z.lxor (Z.lxor b c) c) by (rewrite H; reflexivity).
  rewrite !Z.lxor_assoc, !Z.lxor_nilpotent, !Z.lxor_0_r in E. exact E.
Qed.

Lemma lxor_cancel_l a b c : Z.lxor c a = Z.lxor c b -> a = b.
Proof. rewrite !(Z.lxor_comm c). apply lxor_cancel_r. Qed.

Lemma land_1_parity x : Z.land x 1 = x mod 2.
Proof. change 1 with (Z.ones 1). rewrite Z.land_ones by lia. reflexivity. Qed.

Lemma below_pow2_bit x n : 0 <= n -> 0 <= x < 2 ^ n -> Z.testbit x n = false.
Proof.
  intros Hn Hx. rewrite <- (Z.mod_small x (2 ^ n)) by exact Hx.
  apply Z.mod_pow2_bits_high. lia.
Qed.

(** The feedback polynomial sets bit 15, which a shifted value never has. *)
Lemma poly_sets_top q : 0 <= q < 32768 -> 32768 <= Z.lxor q 0xA001.
Proof.
  intros Hq.
  destruct (Z.lt_ge_cases (Z.lxor q 0xA001) 32768) as [L|G]; [exfalso|exact G].
  assert (N : 0 <= Z.lxor q 0xA001) by (apply Z.lxor_nonneg; intuition lia).
  assert (B : Z.testbit (Z.lxor q 0xA001) 15 = false)
    by (apply below_pow2_bit; [lia | change (2 ^ 15) with 32768; lia]).
  rewrite Z.lxor_spec in B.
  rewrite (below_pow2_bit q 15) in B
    by (try lia; change (2 ^ 15) with 32768; lia).
  discriminate B.
Qed.

Lemma crc_shift_inj a b :
  is_u16 a -> is_u16 b -> crc_shift a = crc_shift b -> a = b.
Proof.
  unfold is_u16, crc_shift. intros Ha Hb.
  rewrite !land_1_parity, !Z.shiftr_div_pow2 by lia. change (2 ^ 1) with 2.
  pose proof (Z.div_mod a 2 ltac:(lia)) as Da.
  pose proof (Z.div_mod b 2 ltac:(lia)) as Db.
  pose proof (Z.mod_pos_bound a 2 ltac:(lia)) as Ma.
  pose proof (Z.mod_pos_bound b 2 ltac:(lia)) as Mb.
  assert (Qa : 0 <= a / 2 < 32768)
    by (split; [apply Z.div_pos; lia | apply Z.div_lt_upper_bound; lia]).
  assert (Qb : 0 <= b / 2 < 32768)
    by (split; [apply Z.div_pos; lia | apply Z.div_lt_upper_bound; lia]).
  destruct (Z.eqb_spec (a mod 2) 0) as [Ea|Ea];
    destruct (Z.eqb_spec (b mod 2) 0) as [Eb|Eb]; cbn [negb]; intros E.
  - lia.
  - pose proof (poly_sets_top (b / 2) Qb). lia.
  - pose proof (poly_sets_top (a / 2) Qa). lia.
  - apply lxor_cancel_r in E. lia.
Qed.

Lemma iter_crc_shift_range n c : is_u16 c -> is_u16 (Nat.iter n crc_shift c).
Proof.
  intros Hc. induction n as [|n IH]; simpl; [exact Hc|].
  apply crc_shift_range. exact IH.
Qed.

Lemma iter_crc_shift_inj n a b :
  is_u16 a -> is_u16 b ->
  Nat.iter n crc_shift a = Nat.iter n crc_shift b -> a = b.
Proof.
  intros Ha Hb. induction n as [|n IH]; simpl; intros E; [exact E|].
  apply IH. apply crc_shift_inj; [apply iter_crc_shift_range..|]; assumption.
Qed.

Lemma lxor_u16_u8 c b : is_u16 c -> is_u8 b -> is_u16 (Z.lxor c b).
Proof.
  unfold is_u16, is_u8. intros Hc Hb. change 65536 with (2 ^ 16).
  apply lxor_below; change (2 ^ 16) with 65536; lia.
Qed.

Lemma crc_byte_inj_state a b x :
  is_u16 a -> is_u16 b -> is_u8 x -> crc_byte a x = crc_byte b x -> a = b.
Proof.
  intros Ha Hb Hx E. unfold crc_byte in E.
  apply iter_crc_shift_inj in E; [|apply lxor_u16_u8; assumption..].
  apply lxor_cancel_r in E. exact E.
Qed.

Lemma crc_byte_inj_byte c x y :
  is_u16 c -> is_u8 x -> is_u8 y -> crc_byte c x = crc_byte c y -> x = y.
Proof.
  intros Hc Hx Hy E. unfold crc_byte in E.
  apply iter_crc_shift_inj in E; [|apply lxor_u16_u8; assumption..].
  apply lxor_cancel_l in E. exact E.
Qed.

(** Different running checksums stay different over the same bytes. *)
Lemma crc_loop_inj_state data n : forall i a b,
  is_u16 a -> is_u16 b ->
  (forall k, i <= k < i + Z.of_nat n -> is_u8 (data k)) ->
  crc_loop data n i a = crc_loop data n i b -> a = b.
Proof.
  induction n as [|n IH]; intros i a b Ha Hb Hd; simpl; intros E; [exact E|].
  apply IH in E.
  - apply crc_byte_inj_state in E; try assumption. apply Hd. lia.
  - apply crc_byte_range; [exact Ha | apply Hd; lia].
  - apply crc_byte_range; [exact Hb | apply Hd; lia].
  - intros k Hk. apply Hd. lia.
Qed.

(** Two byte strings that differ in exactly one position have different
    checksums. *)
Lemma crc_loop_one_byte d1 d2 n : forall i c j,
  is_u16 c ->
  (forall k, i <= k < i + Z.of_nat n -> is_u8 (d1 k)) ->
  (forall k, i <= k < i + Z.of_nat n -> is_u8 (d2 k)) ->
  i <= j < i + Z.of_nat n ->
  d1 j <> d2 j ->
  (forall k, i <= k < i + Z.of_nat n -> k <> j -> d1 k = d2 k) ->
  crc_loop d1 n i c <> crc_loop d2 n i c.
Proof.
  induction n as [|n IH]; intros i c j Hc H1 H2 Hj Hne Heq; [lia|].
  simpl. destruct (Z.eq_dec i j) as [<-|Hij].
  - intros E.
    rewrite (crc_loop_ext d1 d2 n (i + 1)) in E
      by (intros k Hk; apply Heq; lia).
    apply crc_loop_inj_state in E.
    + apply crc_byte_inj_byte in E; try assumption;
        [contradiction | apply H1; lia | apply H2; lia].
    + apply crc_byte_range; [exact Hc | apply H1; lia].
    + apply crc_byte_range; [exact Hc | apply H2; lia].
    + intros k Hk. apply H2. lia.
  - rewrite (Heq i) by lia.
    apply (IH (i + 1) _ j).
    + apply crc_byte_range; [exact Hc | apply H2; lia].
    + intros k Hk. apply H1. lia.
    + intros k Hk. apply H2. lia.
    + lia.
    + exact Hne.
    + intros k Hk Hkj. apply Heq; lia.
Qed.

(** ** Single-bit corruption *)

Lemma shiftl_1_pos bit : 0 <= bit -> 0 < Z.shiftl 1 bit.
Proof.
  intros H. rewrite Z.shiftl_mul_pow2 by lia.
  pose proof (Z.pow_pos_nonneg 2 bit ltac:(lia) H). lia.
Qed.

Lemma flip_changes x bit : 0 <= bit -> Z.lxor x (Z.shiftl 1 bit) <> x.
Proof.
  intros H E.
  assert (Z : Z.lxor x (Z.shiftl 1 bit) = Z.lxor x 0)
    by (rewrite Z.lxor_0_r; exact E).
  apply lxor_cancel_l in Z. pose proof (shiftl_1_pos bit H). lia.
Qed.

Lemma flip_u8 x bit : is_u8 x -> 0 <= bit < 8 -> is_u8 (Z.lxor x (Z.shiftl 1 bit)).
Proof.
  unfold is_u8. intros Hx Hb. change 256 with (2 ^ 8).
  apply lxor_below; [lia | change (2 ^ 8) with 256; lia |].
  rewrite Z.shiftl_mul_pow2 by lia. split.
  - pose proof (Z.pow_pos_nonneg 2 bit ltac:(lia) ltac:(lia)). lia.
  - rewrite Z.mul_1_l. apply Z.pow_lt_mono_r; lia.
Qed.

Lemma join_val lo hi :
  is_u8 lo -> is_u8 hi -> u16 (Z.lor lo (Z.shiftl hi 8)) = lo + 256 * hi.
Proof.
  unfold is_u8. intros Hl Hh.
  rewrite lor_low_high by lia. apply u16_small. lia.
Qed.

Lemma flip_bit_same m k bit :
  flip_bit m k bit k = Z.lxor (m k) (Z.shiftl 1 bit).
Proof. unfold flip_bit, store. rewrite Z.eqb_refl. reflexivity. Qed.

Lemma flip_bit_other m k bit i : i <> k -> flip_bit m k bit i = m i.
Proof.
  intros H. unfold flip_bit, store.
  destruct (Z.eqb_spec i k); [contradiction | reflexivity].
Qed.

(** Every byte of a laid-out frame is a byte. *)
Lemma frame_layout_bytes cmd sq payload len f :
  is_u8 cmd -> is_u8 sq -> payload_ok payload len -> 0 <= len ->
  frame_layout cmd sq payload len f -> bytes_upto f (10 + len).
Proof.
  intros Hc Hs Hp H0 (F0 & F1 & F2 & F3 & F4 & F5 & Fp & Fc0 & Fc1 & Ft0 & Ft1).
  intros i Hi. unfold is_u8 in *.
  destruct (Z.eq_dec i 0) as [->|]; [rewrite F0; unfold FRAME_HEAD_0; lia|].
  destruct (Z.eq_dec i 1) as [->|]; [rewrite F1; unfold FRAME_HEAD_1; lia|].
  destruct (Z.eq_dec i 2) as [->|]; [rewrite F2; apply Z.mod_pos_bound; lia|].
  destruct (Z.eq_dec i 3) as [->|]; [rewrite F3; apply Z.mod_pos_bound; lia|].
  destruct (Z.eq_dec i 4) as [->|]; [rewrite F4; exact Hc|].
  destruct (Z.eq_dec i 5) as [->|]; [rewrite F5; exact Hs|].
  destruct (Z.eq_dec i (6 + len)) as [->|];
    [rewrite Fc0; apply Z.mod_pos_bound; lia|].
  destruct (Z.eq_dec i (7 + len)) as [->|];
    [rewrite Fc1; apply Z.mod_pos_bound; lia|].
  destruct (Z.eq_dec i (8 + len)) as [->|];
    [rewrite Ft0; unfold FRAME_TAIL_0; lia|].
  destruct (Z.eq_dec i (9 + len)) as [->|];
    [rewrite Ft1; unfold FRAME_TAIL_1; lia|].
  replace i with (6 + (i - 6)) by lia. rewrite Fp by lia.
  unfold payload_ok, payload_at in *. destruct payload as [p|].
  - apply Hp. lia.
  - lia.
Qed.

Lemma parseFrame_flip_layout cmd sq payload len f k bit o :
  is_u8 cmd -> is_u8 sq -> payload_ok payload len ->
  0 <= len -> 10 + len <= 65535 ->
  frame_layout cmd sq payload len f ->
  0 <= k < 10 + len -> 0 <= bit < 8 ->
  fst (parseFrame (flip_bit f k bit) (10 + len) o)
  = if k <? 2 then -1
    else if k <? 4 then -3
    else if k <? 8 + len then -4
    else -2.
Proof.
  intros Hc Hs Hp H0 Hfit L Hk Hbit.
  pose proof (frame_layout_bytes _ _ _ _ _ Hc Hs Hp H0 L) as Hbytes.
  pose proof (frame_layout_crc_range _ _ _ _ _ Hc Hs Hp H0 L) as Hcrc.
  destruct L as (F0 & F1 & F2 & F3 & F4 & F5 & Fp & Fc0 & Fc1 & Ft0 & Ft1).
  set (g := flip_bit f k bit).
  assert (Gk : g k <> f k)
    by (unfold g; rewrite flip_bit_same; apply flip_changes; lia).
  assert (Gb : is_u8 (g k))
    by (unfold g; rewrite flip_bit_same; apply flip_u8; [apply Hbytes|]; lia).
  assert (Go : forall i, i <> k -> g i = f i)
    by (intros i Hi; unfold g; apply flip_bit_other; exact Hi).
  unfold parseFrame.
  destruct (Z.ltb_spec (10 + len) 8) as [?|_]; [lia|].
  replace (10 + len - 2) with (8 + len) by lia.
  replace (10 + len - 1) with (9 + len) by lia.
  destruct (Z.ltb_spec k 2) as [K2|K2].
  { (* header *)
    destruct (Z.eq_dec k 0) as [->|K0].
    - destruct (Z.eqb_spec (g 0) FRAME_HEAD_0) as [E|E];
        [rewrite <- F0 in E; contradiction | reflexivity].
    - assert (k = 1) by lia. subst k.
      destruct (Z.eqb_spec (g 1) FRAME_HEAD_1) as [E|E];
        [rewrite <- F1 in E; contradiction |].
      rewrite orb_true_r. reflexivity. }
  rewrite (Go 0), (Go 1), F0, F1 by lia.
  rewrite !Z.eqb_refl. cbn [negb orb].
  destruct (Z.ltb_spec k 4) as [K4|K4].
  { (* length field *)
    rewrite (Go (8 + len)), (Go (9 + len)), Ft0, Ft1 by lia.
    rewrite !Z.eqb_refl. cbn [negb orb]. cbv zeta.
    assert (B2 : is_u8 (f 2)) by (apply Hbytes; lia).
    assert (B3 : is_u8 (f 3)) by (apply Hbytes; lia).
    assert (J : f 2 + 256 * f 3 = len + 4).
    { rewrite <- (join_val _ _ B2 B3), F2, F3.
      apply join_bytes. unfold is_u16. lia. }
    assert (N : u16 (Z.lor (g 2) (Z.shiftl (g 3) 8)) <> len + 4).
    { destruct (Z.eq_dec k 2) as [->|K].
      - rewrite (Go 3) by lia. rewrite join_val by assumption. lia.
      - assert (k = 3) by lia. subst k.
        rewrite (Go 2) by lia. rewrite join_val by assumption. lia. }
    pose proof (u16_range (Z.lor (g 2) (Z.shiftl (g 3) 8))) as R.
    unfold is_u16 in R.
    set (lf := u16 (Z.lor (g 2) (Z.shiftl (g 3) 8))) in *.
    destruct (Z.eqb_spec (u16 (6 + lf)) (10 + len)) as [E|E];
      [|reflexivity].
    exfalso. unfold u16 in E.
    destruct (Z.lt_ge_cases (6 + lf) 65536) as [S|S].
    - rewrite Z.mod_small in E by lia. lia.
    - replace (6 + lf) with (6 + lf - 65536 + 1 * 65536) in E by lia.
      rewrite Z.mod_add in E by lia. rewrite Z.mod_small in E by lia. lia. }
  destruct (Z.ltb_spec k (8 + len)) as [K8|K8].
  2:{ (* tail *)
    destruct (Z.eq_dec k (8 + len)) as [->|K].
    - destruct (Z.eqb_spec (g (8 + len)) FRAME_TAIL_0) as [E|E];
        [rewrite <- Ft0 in E; contradiction | reflexivity].
    - assert (k = 9 + len) by lia. subst k.
      destruct (Z.eqb_spec (g (9 + len)) FRAME_TAIL_1) as [E|E];
        [rewrite <- Ft1 in E; contradiction |].
      rewrite orb_true_r. reflexivity. }
  (* command id, sequence number, payload or checksum *)
  rewrite (Go (8 + len)), (Go (9 + len)), Ft0, Ft1 by lia.
  rewrite !Z.eqb_refl. cbn [negb orb]. cbv zeta.
  rewrite (Go 2), (Go 3), F2, F3 by lia.
  rewrite join_bytes by (unfold is_u16; lia).
  replace (u16 (6 + (len + 4))) with (10 + len) by (rewrite u16_small; lia).
  rewrite Z.eqb_refl. cbn [negb].
  change (u16 (4 + 1)) with 5. change (u16 (5 + 1)) with 6.
  replace (u16 (len + 4 - 4)) with len by (rewrite u16_small; lia).
  replace (u16 (6 + len)) with (6 + len) by (rewrite u16_small; lia).
  replace (u16 (2 + len)) with (2 + len) by (rewrite u16_small; lia).
  replace (6 + len + 1) with (7 + len) by lia.
  set (crc := CRC16_Calc (shift f 4) (2 + len) 0xFFFF) in *.
  assert (Bc0 : is_u8 (f (6 + len))) by (apply Hbytes; lia).
  assert (Bc1 : is_u8 (f (7 + len))) by (apply Hbytes; lia).
  assert (J : f (6 + len) + 256 * f (7 + len) = crc).
  { rewrite <- (join_val _ _ Bc0 Bc1), Fc0, Fc1. apply join_bytes. exact Hcrc. }
  match goal with
  | |- fst (if negb (?r =? ?c) then _ else _) = _ =>
      assert (N : r <> c);
      [| destruct (Z.eqb_spec r c); [contradiction | reflexivity]]
  end.
  destruct (Z.ltb_spec k (6 + len)) as [K6|K6].
  - (* covered by the checksum *)
    rewrite (Go (6 + len)), (Go (7 + len)) by lia.
    rewrite join_val by assumption. rewrite J.
    intros E. symmetry in E. revert E.
    unfold crc, CRC16_Calc.
    apply (crc_loop_one_byte _ _ _ 0 _ (k - 4)).
    + unfold is_u16. lia.
    + intros i Hi. unfold shift.
      destruct (Z.eq_dec (i + 4) k) as [<-|D]; [exact Gb|].
      rewrite Go by exact D. apply Hbytes. lia.
    + intros i Hi. unfold shift. apply Hbytes. lia.
    + lia.
    + unfold shift. replace (k - 4 + 4) with k by lia. exact Gk.
    + intros i Hi D. unfold shift. apply Go. lia.
  - (* the checksum itself *)
    assert (C : CRC16_Calc (shift g 4) (2 + len) 0xFFFF = crc).
    { apply CRC16_Calc_ext. intros i Hi. unfold shift. apply Go. lia. }
    rewrite C.
    destruct (Z.eq_dec k (6 + len)) as [->|K].
    + rewrite (Go (7 + len)) by lia. rewrite join_val by assumption. lia.
    + assert (k = 7 + len) by lia. subst k.
      rewrite (Go (6 + len)) by lia. rewrite join_val by assumption. lia.
Qed.

(** C2.  Take any frame produced by [buildFrame] (payload within the
    16-bit frame bounds) and invert any single bit of it; [parseFrame]
    on the corrupted bytes with the original length returns an error:
    -1 for a bit of the header, -3 for a bit of the length field, -4 for
    a bit of the command id, sequence number, payload or checksum, -2
    for a bit of the tail.  It never returns 0. *)
Theorem parseFrame_rejects_single_bit_flip
    cmd sq payload payloadLen outBuf outBufLen r f n :
  is_u8 cmd -> is_u8 sq -> payload_ok payload payloadLen ->
  0 <= payloadLen -> 10 + payloadLen <= outBufLen -> outBufLen <= 65535 ->
  buildFrame cmd sq payload payloadLen outBuf outBufLen = (r, f, n) ->
  r = 0 /\ n = 10 + payloadLen /\
  forall k bit o,
    0 <= k < n -> 0 <= bit < 8 ->
    fst (parseFrame (flip_bit f k bit) n o)
    = (if k <? 2 then -1
       else if k <? 4 then -3
       else if k <? 8 + payloadLen then -4
       else -2) /\
    fst (parseFrame (flip_bit f k bit) n o) <> 0.
Proof.
  intros Hc Hs Hp H0 Hfit Hcap Hb.
  destruct (buildFrame_layout cmd sq payload payloadLen outBuf outBufLen)
    as (f' & Hb' & L & _); try assumption.
  rewrite Hb' in Hb. injection Hb as <- <- <-.
  split; [reflexivity|]. split; [reflexivity|].
  intros k bit o Hk Hbit.
  rewrite (parseFrame_flip_layout cmd sq payload payloadLen)
    by (assumption || lia).
  split; [reflexivity|].
  destruct (k <? 2); [lia|]. destruct (k <? 4); [lia|].
  destruct (k <? 8 + payloadLen); lia.
Qed.

Lemma parseFrame_rejects_single_bit_flip_witness :
  let F := snd (fst (buildFrame 0x02 7 (Some (of_list [1; 2; 3])) 3
                       (fun _ => 0) 8192)) in
  let o := mkParseOut 0 0 None None in
  fst (parseFrame (flip_bit F 0 0) 13 o) = -1 /\
  fst (parseFrame (flip_bit F 3 7) 13 o) = -3 /\
  fst (parseFrame (flip_bit F 7 2) 13 o) = -4 /\
  fst (parseFrame (flip_bit F 10 5) 13 o) = -4 /\
  fst (parseFrame (flip_bit F 12 1) 13 o) = -2.
Proof.
  intros F o.
  assert (Hp : payload_ok (Some (of_list [1; 2; 3])) 3).
  { intros i Hi. unfold is_u8, of_list.
    assert (i = 0 \/ i = 1 \/ i = 2) as [ -> | [ -> | -> ] ] by lia;
      simpl; lia. }
  destruct (parseFrame_rejects_single_bit_flip 0x02 7
              (Some (of_list [1; 2; 3])) 3 (fun _ => 0) 8192 0 F 13)
    as (_ & _ & H); unfold is_u8; try lia; try reflexivity; try exact Hp.
  refine (conj (proj1 (H 0 0 o _ _)) (conj (proj1 (H 3 7 o _ _))
            (conj (proj1 (H 7 2 o _ _)) (conj (proj1 (H 10 5 o _ _))
               (proj1 (H 12 1 o _ _)))))); lia.
Defined.

(** ** C7: the minimum-length guard *)

(** C7.  The guard of [parseFrame] lets lengths 8 and 9 through although
    a zero-payload frame has 10 bytes.  An input of length 8 or 9 that
    passes the head, tail and exact-length checks has [lengthField] 2 or
    3; [parseFrame] does not return -3 for it and sets [*pPayloadLen] to
    [(lengthField - 4) mod 2^16], which is 65534 or 65535. *)
Theorem parseFrame_short_input_wraps inBuf inLen o l0 :
  inLen = 8 \/ inLen = 9 ->
  inBuf 0 = FRAME_HEAD_0 -> inBuf 1 = FRAME_HEAD_1 ->
  inBuf (inLen - 2) = FRAME_TAIL_0 -> inBuf (inLen - 1) = FRAME_TAIL_1 ->
  u16 (6 + u16 (Z.lor (inBuf 2) (Z.shiftl (inBuf 3) 8))) = inLen ->
  pPayloadLen o = Some l0 ->
  let lengthField := u16 (Z.lor (inBuf 2) (Z.shiftl (inBuf 3) 8)) in
  (inLen <? 8) = false /\
  (forall cmd sq payload outBuf,
     snd (buildFrame cmd sq payload 0 outBuf 65535) = 10) /\
  lengthField = inLen - 6 /\
  (fst (parseFrame inBuf inLen o) = 0 \/ fst (parseFrame inBuf inLen o) = -4) /\
  pPayloadLen (snd (parseFrame inBuf inLen o))
    = Some ((lengthField - 4) mod 2 ^ 16) /\
  (lengthField - 4) mod 2 ^ 16 = 65526 + inLen.
Proof.
  intros Hlen F0 F1 Ft0 Ft1 Hexact Hl lengthField.
  pose proof (u16_range (Z.lor (inBuf 2) (Z.shiftl (inBuf 3) 8))) as R.
  fold lengthField in R, Hexact. unfold is_u16 in R.
  assert (Hlf : lengthField = inLen - 6).
  { unfold u16 in Hexact.
    destruct (Z.lt_ge_cases (6 + lengthField) 65536) as [S|S].
    - rewrite Z.mod_small in Hexact by lia. lia.
    - replace (6 + lengthField) with (6 + lengthField - 65536 + 1 * 65536)
        in Hexact by lia.
      rewrite Z.mod_add in Hexact by lia.
      rewrite Z.mod_small in Hexact by lia. lia. }
  assert (Hw : (lengthField - 4) mod 2 ^ 16 = 65526 + inLen).
  { rewrite Hlf. change (2 ^ 16) with 65536.
    replace (inLen - 6 - 4) with (65526 + inLen + (-1) * 65536) by lia.
    rewrite Z.mod_add by lia. apply Z.mod_small. lia. }
  split; [destruct (Z.ltb_spec inLen 8); [lia | reflexivity]|].
  split.
  { intros cmd sq payload outBuf.
    destruct (buildFrame_layout cmd sq payload 0 outBuf 65535)
      as (f & E & _); try lia.
    - unfold payload_ok. destruct payload; [intros i Hi; lia | reflexivity].
    - rewrite E. reflexivity. }
  split; [exact Hlf|].
  unfold parseFrame.
  destruct (Z.ltb_spec inLen 8) as [?|_]; [lia|].
  rewrite F0, F1, Ft0, Ft1. rewrite !Z.eqb_refl. cbn [negb orb]. cbv zeta.
  fold lengthField. rewrite Hexact, Z.eqb_refl. cbn [negb].
  rewrite Hl.
  match goal with
  | |- context [if ?c then (-4, ?a) else (0, ?b)] => destruct c
  end; cbn [fst snd pPayloadLen];
    (split; [auto|]); (split; [reflexivity | exact Hw]).
Qed.

Lemma parseFrame_short_input_wraps_witness :
  let inBuf := of_list [0xAA; 0x55; 2; 0; 0xFF; 0xFF; 0x55; 0xAA] in
  let o := mkParseOut 0 0 None (Some 0) in
  fst (parseFrame inBuf 8 o) = 0 /\
  pPayloadLen (snd (parseFrame inBuf 8 o)) = Some 65534.
Proof.
  intros inBuf o.
  pose proof (parseFrame_short_input_wraps inBuf 8 o 0
                (or_introl eq_refl) eq_refl eq_refl eq_refl eq_refl
                eq_refl eq_refl) as (_ & _ & _ & _ & P & _).
  split; [reflexivity | exact P].
Defined.

(** ** Ring arithmetic *)

(** C's [%] on a non-negative [int], stored back in a [uint16_t]. *)
Lemma ring_rem x : 0 <= x -> u16 (Z.rem x 65535) = x mod 65535.
Proof.
  intros Hx. rewrite Z.rem_mod_nonneg by lia.
  apply u16_small. pose proof (Z.mod_pos_bound x 65535 ltac:(lia)). lia.
Qed.

Lemma ring_mod_range x : 0 <= x mod 65535 < 65535.
Proof. apply Z.mod_pos_bound. lia. Qed.

Lemma ring_succ h k : ((h + k) mod 65535 + 1) mod 65535 = (h + (k + 1)) mod 65535.
Proof.
  rewrite Z.add_mod_idemp_l by lia. f_equal. lia.
Qed.

(** Offsets below the size reach different cells. *)
Lemma ring_offsets_differ h a b :
  0 <= a < 65535 -> 0 <= b < 65535 ->
  (h + a) mod 65535 = (h + b) mod 65535 -> a = b.
Proof.
  intros Ha Hb E.
  pose proof (Z.div_mod (h + a) 65535 ltac:(lia)).
  pose proof (Z.div_mod (h + b) 65535 ltac:(lia)).
  pose proof (ring_mod_range (h + a)).
  pose proof (ring_mod_range (h + b)).
  nia.
Qed.

(** ** feedRxBuffer *)

Lemma feed_loop_spec data n : forall i buf tail,
  0 <= tail < 65535 -> Z.of_nat n <= 65535 ->
  exists buf',
    feed_loop n i buf tail data = (buf', (tail + Z.of_nat n) mod 65535) /\
    (forall k, 0 <= k < Z.of_nat n ->
       buf' ((tail + k) mod 65535) = data (i + k)) /\
    (forall j, (forall k, 0 <= k < Z.of_nat n -> j <> (tail + k) mod 65535) ->
       buf' j = buf j).
Proof.
  induction n as [|n IH]; intros i buf tail Ht Hn.
  - exists buf. cbn [feed_loop Z.of_nat].
    rewrite Z.add_0_r, Z.mod_small by lia.
    split; [reflexivity|]. split; [intros; lia | reflexivity].
  - cbn [feed_loop]. unfold RX_BUFFER_SIZE.
    rewrite ring_rem by lia.
    destruct (IH (i + 1) (store buf tail (data i)) ((tail + 1) mod 65535))
      as (buf' & E & Hw & Ho); [apply ring_mod_range | lia |].
    exists buf'. split; [|split].
    + rewrite E. f_equal.
      rewrite Z.add_mod_idemp_l by lia. f_equal. lia.
    + intros k Hk. destruct (Z.eq_dec k 0) as [->|K0].
      * rewrite Ho.
        -- rewrite !Z.add_0_r, Z.mod_small by lia.
           unfold store. rewrite Z.eqb_refl. reflexivity.
        -- intros k' Hk' E'.
           rewrite Z.add_mod_idemp_l in E' by lia.
           replace (tail + 1 + k') with (tail + (1 + k')) in E' by lia.
           apply ring_offsets_differ in E'; lia.
      * specialize (Hw (k - 1) ltac:(lia)).
        rewrite Z.add_mod_idemp_l in Hw by lia.
        replace (tail + 1 + (k - 1)) with (tail + k) in Hw by lia.
        rewrite Hw. f_equal. lia.
    + intros j Hj. rewrite Ho.
      * unfold store. destruct (Z.eqb_spec j tail) as [->|]; [|reflexivity].
        exfalso. apply (Hj 0); [lia|].
        rewrite Z.add_0_r, Z.mod_small by lia. reflexivity.
      * intros k Hk E'. apply (Hj (k + 1)); [lia|].
        rewrite E'. rewrite Z.add_mod_idemp_l by lia. f_equal. lia.
Qed.

Lemma rxBufferFreeSpace_eq r :
  rx_wf r ->
  rxBufferFreeSpace r = (rx_head r + 65535 - rx_tail r - 1) mod 65535.
Proof.
  unfold rx_wf, rxBufferFreeSpace, RX_BUFFER_SIZE. intros [Hh Ht].
  apply ring_rem. lia.
Qed.

(** What one call of [feedRxBuffer] does to a well-formed ring. *)
Lemma feedRxBuffer_spec r data len :
  rx_wf r -> 0 <= len <= 65535 ->
  let free :=
    (rx_head r + RX_BUFFER_SIZE - rx_tail r - 1) mod RX_BUFFER_SIZE in
  let n := Z.min len free in
  let r' := snd (feedRxBuffer r data len) in
  fst (feedRxBuffer r data len) = n /\
  rx_head r' = rx_head r /\
  rx_tail r' = (rx_tail r + n) mod RX_BUFFER_SIZE /\
  (forall i, 0 <= i < n ->
     rx_buf r' ((rx_tail r + i) mod RX_BUFFER_SIZE) = data i) /\
  (forall j, (forall i, 0 <= i < n -> j <> (rx_tail r + i) mod RX_BUFFER_SIZE) ->
     rx_buf r' j = rx_buf r j) /\
  rx_wf r' /\
  free <= RX_BUFFER_SIZE - 1 /\
  (rx_head r = rx_tail r -> free = RX_BUFFER_SIZE - 1).
Proof.
  intros Hwf Hlen free n r'.
  pose proof (rxBufferFreeSpace_eq r Hwf) as Hfree.
  destruct Hwf as [Hh Ht]. unfold RX_BUFFER_SIZE in *.
  pose proof (ring_mod_range (rx_head r + 65535 - rx_tail r - 1)) as Hf.
  fold free in Hf, Hfree.
  assert (Hto : (if len <=? free then len else free) = n).
  { unfold n. destruct (Z.leb_spec len free); lia. }
  assert (Hn : 0 <= n <= 65534) by (unfold n; lia).
  destruct (feed_loop_spec data (Z.to_nat n) 0 (rx_buf r) (rx_tail r))
    as (buf' & E & Hw & Ho); [lia | lia |].
  rewrite Z2Nat.id in E, Hw, Ho by lia.
  assert (R : feedRxBuffer r data len
              = (n, mkRx buf' (rx_head r) ((rx_tail r + n) mod 65535))).
  { unfold feedRxBuffer. rewrite Hfree, Hto, E. reflexivity. }
  subst r'. rewrite R. cbn [fst snd rx_head rx_tail rx_buf].
  split; [reflexivity|]. split; [reflexivity|]. split; [reflexivity|].
  split; [intros i Hi; rewrite Hw by lia; reflexivity|].
  split; [exact Ho|].
  split; [unfold rx_wf, RX_BUFFER_SIZE; cbn [rx_head rx_tail];
          split; [lia | apply ring_mod_range]|].
  split; [lia|].
  intros Eq. unfold free. rewrite Eq.
  replace (rx_tail r + 65535 - rx_tail r - 1) with 65534 by lia.
  reflexivity.
Qed.

(** C9.  [feedRxBuffer] stores exactly [min len free] bytes at the tail
    and returns that count, where
    [free = (head + capacity - tail - 1) mod capacity]: the tail moves by
    that count, the stored bytes are the first bytes of the input in
    order, every other cell and the head are untouched, and the rest of
    the input is dropped.  [free] is at most [capacity - 1], and equals
    it on an empty ring. *)
Theorem feedRxBuffer_stores_min r data len :
  rx_wf r -> 0 <= len <= 65535 ->
  let free :=
    (rx_head r + RX_BUFFER_SIZE - rx_tail r - 1) mod RX_BUFFER_SIZE in
  let n := Z.min len free in
  let r' := snd (feedRxBuffer r data len) in
  fst (feedRxBuffer r data len) = n /\
  rx_head r' = rx_head r /\
  rx_tail r' = (rx_tail r + n) mod RX_BUFFER_SIZE /\
  (forall i, 0 <= i < n ->
     rx_buf r' ((rx_tail r + i) mod RX_BUFFER_SIZE) = data i) /\
  (forall j, (forall i, 0 <= i < n -> j <> (rx_tail r + i) mod RX_BUFFER_SIZE) ->
     rx_buf r' j = rx_buf r j) /\
  rx_wf r' /\
  free <= RX_BUFFER_SIZE - 1 /\
  (rx_head r = rx_tail r -> free = RX_BUFFER_SIZE - 1).
Proof. exact (feedRxBuffer_spec r data len). Qed.

Lemma feedRxBuffer_stores_min_witness :
  let r := mkRx (fun _ => 0) 5 2 in
  let data := of_list [1; 2; 3; 4] in
  fst (feedRxBuffer r data 4) = 2 /\
  rx_tail (snd (feedRxBuffer r data 4)) = 4.
Proof.
  intros r data.
  pose proof (feedRxBuffer_stores_min r data 4) as H.
  assert (W : rx_wf r) by (unfold rx_wf, RX_BUFFER_SIZE; simpl; lia).
  specialize (H W ltac:(lia)).
  destruct H as (H1 & _ & H3 & _).
  split; [exact H1 | exact H3].
Defined.

(** ** enqueueTxFrame *)

Lemma txBufferFreeSpace_eq t :
  tx_wf t ->
  txBufferFreeSpace t = (tx_head t + 65535 - tx_tail t - 1) mod 65535.
Proof.
  unfold tx_wf, txBufferFreeSpace, TX_BUFFER_SIZE. intros [Hh Ht].
  apply ring_rem. lia.
Qed.

Lemma txBufferFreeSpace_range t : 0 <= txBufferFreeSpace t < 65536.
Proof. unfold txBufferFreeSpace. apply u16_range. Qed.

(** As long as [frameLen + 2] fits in 16 bits, a frame that does not fit
    in the free space is refused and the ring is returned as it was. *)
Lemma enqueueTxFrame_full_unchanged t frame frameLen :
  0 <= frameLen <= 65533 ->
  frameLen + 2 > txBufferFreeSpace t ->
  enqueueTxFrame t frame frameLen = (-1, t).
Proof.
  intros Hl Hfull. unfold enqueueTxFrame.
  rewrite u16_small by lia.
  destruct (Z.gtb_spec (frameLen + 2) (txBufferFreeSpace t)); [reflexivity | lia].
Qed.

(** C5 (the code departs from the claim).  [needed] is a [uint16_t]: for
    [frameLen = 65534] the sum [frameLen + 2] wraps to 0, the free-space
    test passes on every ring, and the frame is written over the ring.
    On the empty ring: free space is 65534, less than [65534 + 2], yet
    the call returns 0, moves the tail and writes the buffer. *)
Theorem enqueueTxFrame_length_wraps :
  let t := mkTx (fun _ => 0) 0 0 in
  let frame : mem := fun _ => 0x5A in
  65534 + 2 > txBufferFreeSpace t /\
  fst (enqueueTxFrame t frame 65534) = 0 /\
  tx_tail (snd (enqueueTxFrame t frame 65534)) = 1 /\
  tx_buf (snd (enqueueTxFrame t frame 65534)) 0 = 0x5A /\
  tx_buf t 0 = 0.
Proof.
  vm_compute. repeat split; discriminate || reflexivity.
Qed.

(** On every ring, a 65534-byte frame is accepted. *)
Lemma enqueueTxFrame_65534_accepted t frame :
  fst (enqueueTxFrame t frame 65534) = 0.
Proof.
  unfold enqueueTxFrame. change (u16 (65534 + 2)) with 0.
  pose proof (txBufferFreeSpace_range t).
  destruct (Z.gtb_spec 0 (txBufferFreeSpace t)); [lia|].
  destruct (enqueue_loop _ _ _ _ _). reflexivity.
Qed.

(** ** dequeueTxFrame *)

Lemma dequeue_copy_spec buf n : forall i head outFrame,
  0 <= head < 65535 ->
  exists out',
    dequeue_copy n i buf head outFrame
      = (out', (head + Z.of_nat n) mod 65535) /\
    (forall k, 0 <= k < Z.of_nat n -> out' (i + k) = buf ((head + k) mod 65535)) /\
    (forall j, ~ (i <= j < i + Z.of_nat n) -> out' j = outFrame j).
Proof.
  induction n as [|n IH]; intros i head outFrame Hh.
  - exists outFrame. cbn [dequeue_copy Z.of_nat].
    rewrite Z.add_0_r, Z.mod_small by lia.
    split; [reflexivity|]. split; [intros; lia | reflexivity].
  - cbn [dequeue_copy]. unfold TX_BUFFER_SIZE. rewrite ring_rem by lia.
    destruct (IH (i + 1) ((head + 1) mod 65535) (store outFrame i (buf head)))
      as (out' & E & Hc & Ho); [apply ring_mod_range|].
    exists out'. split; [|split].
    + rewrite E. f_equal. rewrite Z.add_mod_idemp_l by lia. f_equal. lia.
    + intros k Hk. destruct (Z.eq_dec k 0) as [->|K0].
      * rewrite !Z.add_0_r, Z.mod_small by lia. rewrite Ho by lia.
        unfold store. rewrite Z.eqb_refl. reflexivity.
      * specialize (Hc (k - 1) ltac:(lia)).
        rewrite Z.add_mod_idemp_l in Hc by lia.
        replace (i + 1 + (k - 1)) with (i + k) in Hc by lia.
        replace (head + 1 + (k - 1)) with (head + k) in Hc by lia.
        exact Hc.
    + intros j Hj. rewrite Ho by lia.
      unfold store. destruct (Z.eqb_spec j i); [lia | reflexivity].
Qed.

Lemma dequeue_skip_spec n : forall head,
  0 <= head < 65535 ->
  dequeue_skip n head = (head + Z.of_nat n) mod 65535.
Proof.
  induction n as [|n IH]; intros head Hh.
  - cbn [dequeue_skip Z.of_nat]. rewrite Z.add_0_r, Z.mod_small by lia.
    reflexivity.
  - cbn [dequeue_skip]. unfold TX_BUFFER_SIZE. rewrite ring_rem by lia.
    rewrite IH by apply ring_mod_range.
    rewrite Z.add_mod_idemp_l by lia. f_equal. lia.
Qed.

(** C8.  When the next record of the TX ring is complete, has stored
    length [L], and the caller's capacity [maxLen] is less than [L],
    [dequeueTxFrame] moves the read cursor past the whole record (the two
    prefix bytes and all [L] bytes), copies exactly the first [maxLen]
    bytes of the record into [outFrame] (the cells from [maxLen] on keep
    their content), and returns [L]. *)
Theorem dequeueTxFrame_truncates t outFrame maxLen :
  tx_wf t ->
  let available :=
    (tx_tail t + TX_BUFFER_SIZE - tx_head t) mod TX_BUFFER_SIZE in
  let L :=
    u16 (Z.lor (tx_buf t (tx_head t))
               (Z.shiftl (tx_buf t ((tx_head t + 1) mod TX_BUFFER_SIZE)) 8)) in
  2 <= available -> L <= available - 2 ->
  0 <= maxLen < L ->
  exists out',
    dequeueTxFrame t outFrame maxLen
      = (L, mkTx (tx_buf t) ((tx_head t + 2 + L) mod TX_BUFFER_SIZE) (tx_tail t),
         out') /\
    (forall i, 0 <= i < maxLen ->
       out' i = tx_buf t ((tx_head t + 2 + i) mod TX_BUFFER_SIZE)) /\
    (forall i, ~ (0 <= i < maxLen) -> out' i = outFrame i).
Proof.
  intros [Hh Ht] available L Hav HL Hmax.
  unfold TX_BUFFER_SIZE in *.
  pose proof (ring_mod_range (tx_tail t + 65535 - tx_head t)) as Ra.
  fold available in Ra.
  unfold dequeueTxFrame, TX_BUFFER_SIZE.
  rewrite (ring_rem (tx_tail t + 65535 - tx_head t)) by lia.
  fold available.
  destruct (Z.ltb_spec available 2) as [?|_]; [lia|].
  cbv zeta.
  rewrite (ring_rem (tx_head t + 1)) by lia.
  pose proof (ring_mod_range (tx_head t + 1)) as R1.
  rewrite (ring_rem ((tx_head t + 1) mod 65535 + 1)) by lia.
  rewrite Z.add_mod_idemp_l by lia.
  replace (tx_head t + 1 + 1) with (tx_head t + 2) by lia.
  fold L.
  rewrite (u16_small (available - 2)) by lia.
  destruct (Z.gtb_spec L (available - 2)) as [?|_]; [lia|].
  destruct (Z.leb_spec L maxLen) as [?|_]; [lia|].
  destruct (dequeue_copy_spec (tx_buf t) (Z.to_nat maxLen) 0
              ((tx_head t + 2) mod 65535) outFrame)
    as (out' & E & Hc & Ho); [apply ring_mod_range|].
  rewrite Z2Nat.id in E, Hc, Ho by lia.
  rewrite E.
  rewrite dequeue_skip_spec by apply ring_mod_range.
  rewrite Z2Nat.id by lia.
  rewrite !Z.add_mod_idemp_l by lia.
  exists out'. split; [|split].
  - replace ((tx_head t + 2) mod 65535 + maxLen + (L - maxLen))
      with ((tx_head t + 2) mod 65535 + L) by lia.
    rewrite Z.add_mod_idemp_l by lia. reflexivity.
  - intros i Hi. specialize (Hc i Hi).
    rewrite Z.add_mod_idemp_l in Hc by lia. exact Hc.
  - intros i Hi. apply Ho. lia.
Qed.

Lemma dequeueTxFrame_truncates_witness :
  let t := mkTx (of_list [5; 0; 11; 12; 13; 14; 15]) 0 7 in
  exists out',
    dequeueTxFrame t (fun _ => 0) 3 = (5, mkTx (tx_buf t) 7 7, out') /\
    (forall i, 0 <= i < 3 -> out' i = tx_buf t ((0 + 2 + i) mod 65535)) /\
    (forall i, ~ (0 <= i < 3) -> out' i = 0).
Proof.
  intros t.
  apply (dequeueTxFrame_truncates t (fun _ => 0) 3).
  - unfold tx_wf, TX_BUFFER_SIZE. simpl. lia.
  - vm_compute. discriminate.
  - vm_compute. discriminate.
  - vm_compute. split; [discriminate | reflexivity].
Defined.

(** ** The frame extractor *)

Lemma copy_frame_spec buf idx n : forall i outFrame,
  exists out',
    copy_frame n i buf idx outFrame = out' /\
    (forall k, 0 <= k < Z.of_nat n ->
       out' (i + k) = buf (Z.rem (idx + (i + k)) RX_BUFFER_SIZE)) /\
    (forall j, ~ (i <= j < i + Z.of_nat n) -> out' j = outFrame j).
Proof.
  induction n as [|n IH]; intros i outFrame.
  - exists outFrame. cbn [copy_frame Z.of_nat].
    split; [reflexivity|]. split; [intros; lia | reflexivity].
  - cbn [copy_frame].
    destruct (IH (i + 1)
                (store outFrame i (buf (Z.rem (idx + i) RX_BUFFER_SIZE))))
      as (out' & E & Hc & Ho).
    exists out'. split; [exact E|]. split.
    + intros k Hk. destruct (Z.eq_dec k 0) as [->|K0].
      * rewrite Z.add_0_r. rewrite Ho by lia.
        unfold store. rewrite Z.eqb_refl. reflexivity.
      * specialize (Hc (k - 1) ltac:(lia)).
        replace (i + 1 + (k - 1)) with (i + k) in Hc by lia. exact Hc.
    + intros j Hj. rewrite Ho by lia.
      unfold store. destruct (Z.eqb_spec j i); [lia | reflexivity].
Qed.

Lemma scan_continue fuel r idx available outFrame outFrameLen idx' available' :
  scan_body r idx available outFrame outFrameLen = Continue idx' available' ->
  scan (S fuel) r idx available outFrame outFrameLen
  = scan fuel r idx' available' outFrame outFrameLen.
Proof. intros E. cbn [scan]. rewrite E. reflexivity. Qed.

Lemma scan_return fuel r idx available outFrame outFrameLen got o l r' :
  scan_body r idx available outFrame outFrameLen = Return got o l r' ->
  scan (S fuel) r idx available outFrame outFrameLen = Some (got, o, l, r').
Proof. intros E. cbn [scan]. rewrite E. reflexivity. Qed.

(** A pass that continues has consumed one available byte. *)
Lemma scan_body_continue r idx available outFrame outFrameLen idx' available' :
  0 <= available < 65536 ->
  scan_body r idx available outFrame outFrameLen = Continue idx' available' ->
  8 <= available /\ available' = available - 1.
Proof.
  intros Ha. unfold scan_body, MIN_FRAME_LEN.
  destruct (Z.geb_spec available 8) as [G|G]; [|discriminate].
  destruct (_ && _).
  - destruct (Z.ltb_spec available 8); [discriminate|].
    cbv zeta. destruct (_ >? MAX_FRAME_SIZE).
    + intros E. injection E as _ <-. rewrite u16_small by lia. lia.
    + destruct (_ >? available); discriminate.
  - intros E. injection E as _ <-. rewrite u16_small by lia. lia.
Qed.

(** The scan loop always returns: it never runs out of the fuel that
    [tryExtractOneFrame] gives it. *)
Lemma scan_total fuel : forall r idx available outFrame outFrameLen,
  0 <= available < 65536 ->
  (Z.to_nat available < fuel)%nat ->
  scan fuel r idx available outFrame outFrameLen <> None.
Proof.
  induction fuel as [|fuel IH]; intros r idx available outFrame outFrameLen Ha Hf;
    [lia|].
  cbn [scan].
  destruct (scan_body r idx available outFrame outFrameLen) as [i a|g o l r'] eqn:E.
  - apply scan_body_continue in E; [|exact Ha]. destruct E as [E8 ->].
    apply IH; lia.
  - discriminate.
Qed.

Lemma tryExtractOneFrame_total r outFrame outFrameLen :
  tryExtractOneFrame r outFrame outFrameLen <> None.
Proof.
  unfold tryExtractOneFrame. cbv zeta.
  destruct (_ <? MIN_FRAME_LEN); [discriminate|].
  apply scan_total; [apply u16_range | lia].
Qed.

Lemma noise_around_frame F n k :
  0 <= k < n -> noise_around F n (4 + k) = F k.
Proof.
  intros Hk. unfold noise_around.
  destruct (Z.ltb_spec (4 + k) 4); [lia|].
  destruct (Z.ltb_spec (4 + k) (4 + n)); [|lia].
  f_equal. lia.
Qed.

(** C3.  Let [F] be a frame built by [buildFrame] whose size [n] is
    within [MAX_FRAME_SIZE].  Feeding [FF FF AA 55 F FF] into an empty RX
    ring stores all [n + 5] bytes.  The scan then advances one byte at a
    time over the two noise bytes, over the spurious [AA 55] (whose
    length field is oversized) and over its second byte, finds [F] at
    position 4 and returns it.  The drain loop, with any handler and any
    amount of fuel from 2 on, calls the handler exactly once, on [n]
    bytes equal to [F], and leaves the read cursor just after [F]. *)
Theorem resync_delivers_one_frame
    cmd sq payload payloadLen outBuf outBufLen F n r tempFrame frameLen :
  payload_ok payload payloadLen ->
  0 <= payloadLen -> 10 + payloadLen <= outBufLen -> outBufLen <= 65535 ->
  buildFrame cmd sq payload payloadLen outBuf outBufLen = (0, F, n) ->
  n <= MAX_FRAME_SIZE ->
  let data := noise_around F n in
  let r1 := snd (feedRxBuffer (initRxBuffer r) data (n + 5)) in
  let r2 := mkRx (rx_buf r1) (4 + n) (n + 5) in
  fst (feedRxBuffer (initRxBuffer r) data (n + 5)) = n + 5 /\
  scan_body r1 0 (n + 5) tempFrame frameLen = Continue 1 (n + 4) /\
  scan_body r1 1 (n + 4) tempFrame frameLen = Continue 2 (n + 3) /\
  scan_body r1 2 (n + 3) tempFrame frameLen = Continue 3 (n + 2) /\
  scan_body r1 3 (n + 2) tempFrame frameLen = Continue 4 (n + 1) /\
  exists fr,
    agree_upto fr F n /\
    scan_body r1 4 (n + 1) tempFrame frameLen = Return true fr n r2 /\
    forall (St : Type) (onFrame : mem -> Z -> St -> St) (s : St) (fuel : nat),
      (2 <= fuel)%nat ->
      tryParseFramesFromRx fuel r1 onFrame tempFrame frameLen s
      = Some (r2, onFrame fr n s).
Proof.
  intros Hp H0 Hfit Hcap Hb Hmax data r1 r2.
  destruct (buildFrame_layout cmd sq payload payloadLen outBuf outBufLen)
    as (F' & Hb' & L & _); try assumption.
  assert (EF : F' = F) by congruence.
  assert (En : n = 10 + payloadLen) by congruence.
  subst F' n. clear Hb'.
  unfold MAX_FRAME_SIZE in Hmax.
  destruct L as (F0 & F1 & F2 & F3 & _).
  assert (W0 : rx_wf (initRxBuffer r))
    by (unfold rx_wf, RX_BUFFER_SIZE; simpl; lia).
  pose proof (feedRxBuffer_spec (initRxBuffer r) data
                (10 + payloadLen + 5) W0 ltac:(lia)) as Hfeed.
  cbv zeta in Hfeed. fold r1 in Hfeed.
  cbn [initRxBuffer rx_head rx_tail] in Hfeed.
  change ((0 + RX_BUFFER_SIZE - 0 - 1) mod RX_BUFFER_SIZE) with 65534 in Hfeed.
  rewrite Z.min_l in Hfeed by lia.
  destruct Hfeed as (Hn & Hh & Ht & Hd & _).
  rewrite Z.add_0_l, Z.mod_small in Ht by (unfold RX_BUFFER_SIZE; lia).
  assert (Hbuf : forall i, 0 <= i < 10 + payloadLen + 5 ->
                   rx_buf r1 i = data i).
  { intros i Hi. rewrite <- (Hd i Hi).
    rewrite Z.add_0_l, Z.mod_small by (unfold RX_BUFFER_SIZE; lia).
    reflexivity. }
  assert (Hfr : forall k, 0 <= k < 10 + payloadLen -> rx_buf r1 (4 + k) = F k).
  { intros k Hk. rewrite Hbuf by lia. apply noise_around_frame. exact Hk. }
  assert (B0 : rx_buf r1 0 = 0xFF) by (rewrite Hbuf by lia; reflexivity).
  assert (B1 : rx_buf r1 1 = 0xFF) by (rewrite Hbuf by lia; reflexivity).
  assert (B2 : rx_buf r1 2 = 0xAA) by (rewrite Hbuf by lia; reflexivity).
  assert (B3 : rx_buf r1 3 = 0x55) by (rewrite Hbuf by lia; reflexivity).
  assert (B4 : rx_buf r1 4 = 0xAA)
    by (change 0xAA with FRAME_HEAD_0; rewrite <- F0; apply (Hfr 0); lia).
  assert (B5 : rx_buf r1 5 = 0x55)
    by (change 0x55 with FRAME_HEAD_1; rewrite <- F1; apply (Hfr 1); lia).
  assert (B6 : rx_buf r1 6 = (payloadLen + 4) mod 256)
    by (rewrite <- F2; apply (Hfr 2); lia).
  assert (B7 : rx_buf r1 7 = ((payloadLen + 4) / 256) mod 256)
    by (rewrite <- F3; apply (Hfr 3); lia).
  split; [exact Hn|].
  assert (S0 : scan_body r1 0 (10 + payloadLen + 5) tempFrame frameLen
               = Continue 1 (10 + payloadLen + 4)).
  { unfold scan_body, MIN_FRAME_LEN.
    destruct (Z.geb_spec (10 + payloadLen + 5) 8); [|lia].
    rewrite B0. cbn [Z.eqb andb Pos.eqb].
    f_equal. rewrite u16_small by lia. lia. }
  assert (S1 : scan_body r1 1 (10 + payloadLen + 4) tempFrame frameLen
               = Continue 2 (10 + payloadLen + 3)).
  { unfold scan_body, MIN_FRAME_LEN.
    destruct (Z.geb_spec (10 + payloadLen + 4) 8); [|lia].
    rewrite B1. cbn [Z.eqb andb Pos.eqb].
    f_equal. rewrite u16_small by lia. lia. }
  assert (S2 : scan_body r1 2 (10 + payloadLen + 3) tempFrame frameLen
               = Continue 3 (10 + payloadLen + 2)).
  { unfold scan_body, MIN_FRAME_LEN.
    destruct (Z.geb_spec (10 + payloadLen + 3) 8); [|lia].
    destruct (Z.ltb_spec (10 + payloadLen + 3) 8); [lia|].
    change (Z.rem (2 + 1) RX_BUFFER_SIZE) with 3.
    change (Z.rem (2 + 2) RX_BUFFER_SIZE) with 4.
    change (Z.rem (2 + 3) RX_BUFFER_SIZE) with 5.
    rewrite B2, B3, B4, B5. cbn [Z.eqb andb Pos.eqb]. cbv zeta.
    change (u16 (2 + 2 + u16 (Z.lor 170 (Z.shiftl 85 8)) + 2) >? MAX_FRAME_SIZE)
      with true. cbv iota.
    f_equal. rewrite u16_small by lia. lia. }
  assert (S3 : scan_body r1 3 (10 + payloadLen + 2) tempFrame frameLen
               = Continue 4 (10 + payloadLen + 1)).
  { unfold scan_body, MIN_FRAME_LEN.
    destruct (Z.geb_spec (10 + payloadLen + 2) 8); [|lia].
    rewrite B3. cbn [Z.eqb andb Pos.eqb].
    f_equal. rewrite u16_small by lia. lia. }
  split; [exact S0|]. split; [exact S1|]. split; [exact S2|]. split; [exact S3|].
  destruct (copy_frame_spec (rx_buf r1) 4 (Z.to_nat (10 + payloadLen)) 0 tempFrame)
    as (fr & Ec & Hc & Ho).
  rewrite Z2Nat.id in Hc, Ho by lia.
  exists fr.
  assert (A : agree_upto fr F (10 + payloadLen)).
  { intros i Hi. specialize (Hc i Hi). rewrite Z.add_0_l in Hc. rewrite Hc.
    unfold RX_BUFFER_SIZE. rewrite Z.rem_small by lia. apply Hfr. exact Hi. }
  assert (S4 : scan_body r1 4 (10 + payloadLen + 1) tempFrame frameLen
               = Return true fr (10 + payloadLen) r2).
  { unfold scan_body, MIN_FRAME_LEN.
    destruct (Z.geb_spec (10 + payloadLen + 1) 8); [|lia].
    destruct (Z.ltb_spec (10 + payloadLen + 1) 8); [lia|].
    change (Z.rem (4 + 1) RX_BUFFER_SIZE) with 5.
    change (Z.rem (4 + 2) RX_BUFFER_SIZE) with 6.
    change (Z.rem (4 + 3) RX_BUFFER_SIZE) with 7.
    rewrite B4, B5, B6, B7. cbn [Z.eqb andb Pos.eqb]. cbv zeta.
    rewrite join_bytes by (unfold is_u16; lia).
    replace (u16 (2 + 2 + (payloadLen + 4) + 2)) with (10 + payloadLen)
      by (rewrite u16_small; lia).
    unfold MAX_FRAME_SIZE.
    destruct (Z.gtb_spec (10 + payloadLen) 8192); [lia|].
    destruct (Z.gtb_spec (10 + payloadLen) (10 + payloadLen + 1)); [lia|].
    rewrite Ec. unfold r2, RX_BUFFER_SIZE.
    rewrite ring_rem by lia. rewrite Z.mod_small by lia.
    rewrite Ht. reflexivity. }
  split; [exact A|]. split; [exact S4|].
  intros St onFrame s fuel Hfuel.
  destruct fuel as [|[|fuel]]; [lia | lia |].
  assert (E1 : tryExtractOneFrame r1 tempFrame frameLen
               = Some (true, fr, 10 + payloadLen, r2)).
  { unfold tryExtractOneFrame, MIN_FRAME_LEN, RX_BUFFER_SIZE.
    rewrite Hh, Ht. cbn [initRxBuffer rx_head].
    rewrite ring_rem by lia.
    replace (10 + payloadLen + 5 + 65535 - 0)
      with (10 + payloadLen + 5 + 1 * 65535) by lia.
    rewrite Z.mod_add, Z.mod_small by lia. cbv zeta.
    destruct (Z.ltb_spec (10 + payloadLen + 5) 8); [lia|].
    replace (Z.to_nat (10 + payloadLen + 5))
      with (S (S (S (S (Z.to_nat (10 + payloadLen + 1)))))) by lia.
    rewrite (scan_continue _ _ _ _ _ _ _ _ S0).
    rewrite (scan_continue _ _ _ _ _ _ _ _ S1).
    rewrite (scan_continue _ _ _ _ _ _ _ _ S2).
    rewrite (scan_continue _ _ _ _ _ _ _ _ S3).
    apply (scan_return _ _ _ _ _ _ _ _ _ _ S4). }
  assert (E2 : tryExtractOneFrame r2 fr (10 + payloadLen)
               = Some (false, fr, 10 + payloadLen, r2)).
  { unfold tryExtractOneFrame, MIN_FRAME_LEN, RX_BUFFER_SIZE.
    unfold r2 at 1 2. cbn [rx_head rx_tail].
    rewrite ring_rem by lia.
    replace (10 + payloadLen + 5 + 65535 - (4 + (10 + payloadLen)))
      with (1 + 1 * 65535) by lia.
    rewrite Z.mod_add, Z.mod_small by lia. reflexivity. }
  cbn [tryParseFramesFromRx]. rewrite E1. cbn [negb]. rewrite E2. reflexivity.
Qed.

Lemma resync_delivers_one_frame_witness :
  let F := snd (fst (buildFrame 0x01 7 None 0 (fun _ => 0) 8192)) in
  let r1 := snd (feedRxBuffer (initRxBuffer (mkRx (fun _ => 0) 9 9))
                   (noise_around F 10) 15) in
  exists fr,
    agree_upto fr F 10 /\
    forall (St : Type) (onFrame : mem -> Z -> St -> St) (s : St) (fuel : nat),
      (2 <= fuel)%nat ->
      tryParseFramesFromRx fuel r1 onFrame (fun _ => 0) 0 s
      = Some (mkRx (rx_buf r1) 14 15, onFrame fr 10 s).
Proof.
  intros F r1.
  destruct (resync_delivers_one_frame 0x01 7 None 0 (fun _ => 0) 8192 F 10
              (mkRx (fun _ => 0) 9 9) (fun _ => 0) 0)
    as (_ & _ & _ & _ & _ & fr & A & _ & D).
  - reflexivity.
  - lia.
  - lia.
  - lia.
  - reflexivity.
  - unfold MAX_FRAME_SIZE. lia.
  - exists fr. split; [exact A | exact D].
Defined.

Example resync_run :
  let F := snd (fst (buildFrame 0x01 7 None 0 (fun _ => 0) 8192)) in
  let r1 := snd (feedRxBuffer (initRxBuffer (mkRx (fun _ => 0) 9 9))
                   (noise_around F 10) 15) in
  option_map snd
    (tryParseFramesFromRx 3 r1 (fun f n s => s ++ [to_list f n])
       (fun _ => 0) 0 [])
  = Some [[0xAA; 0x55; 4; 0; 1; 7; 0x41; 0xE2; 0x55; 0xAA]].
Proof. vm_compute. reflexivity. Qed.

(** ** enqueueTxFrame when the frame fits *)

Lemma enqueue_loop_tail frame n : forall i buf tail,
  0 <= tail < 65535 ->
  snd (enqueue_loop n i buf tail frame) = (tail + Z.of_nat n) mod 65535.
Proof.
  induction n as [|n IH]; intros i buf tail Ht.
  - cbn [enqueue_loop snd Z.of_nat]. rewrite Z.add_0_r, Z.mod_small by lia.
    reflexivity.
  - cbn [enqueue_loop]. unfold TX_BUFFER_SIZE. rewrite ring_rem by lia.
    rewrite IH by apply ring_mod_range.
    rewrite Z.add_mod_idemp_l by lia. f_equal. lia.
Qed.

(** Taking [c] cells at the tail takes [c] off the free space. *)
Lemma ring_free_after head tail c :
  0 <= head < 65535 -> 0 <= tail < 65535 ->
  0 <= c <= (head + 65535 - tail - 1) mod 65535 ->
  (head + 65535 - (tail + c) mod 65535 - 1) mod 65535
  = (head + 65535 - tail - 1) mod 65535 - c.
Proof.
  intros Hh Ht Hc.
  pose proof (Z.div_mod (tail + c) 65535 ltac:(lia)) as D1.
  pose proof (Z.div_mod (head + 65535 - tail - 1) 65535 ltac:(lia)) as D2.
  pose proof (ring_mod_range (tail + c)) as R1.
  pose proof (ring_mod_range (head + 65535 - tail - 1)) as R2.
  set (f := (head + 65535 - tail - 1) mod 65535) in *.
  replace (head + 65535 - (tail + c) mod 65535 - 1)
    with (f - c + ((tail + c) / 65535 + (head + 65535 - tail - 1) / 65535)
                  * 65535) by lia.
  rewrite Z.mod_add by lia. apply Z.mod_small. lia.
Qed.

(** A frame that fits is queued: the call returns 0, the ring stays
    well formed and its free space shrinks by [frameLen + 2]. *)
Lemma enqueueTxFrame_fits t frame frameLen :
  tx_wf t -> 0 <= frameLen ->
  frameLen + 2 <= txBufferFreeSpace t ->
  fst (enqueueTxFrame t frame frameLen) = 0 /\
  tx_wf (snd (enqueueTxFrame t frame frameLen)) /\
  txBufferFreeSpace (snd (enqueueTxFrame t frame frameLen))
  = txBufferFreeSpace t - (frameLen + 2).
Proof.
  intros W Hl Hfit.
  pose proof (txBufferFreeSpace_eq t W) as Hfree.
  pose proof (txBufferFreeSpace_range t) as Hr.
  destruct W as [Hh Ht]. unfold TX_BUFFER_SIZE in *.
  pose proof (ring_mod_range (tx_head t + 65535 - tx_tail t - 1)) as Hf.
  unfold enqueueTxFrame.
  rewrite (u16_small (frameLen + 2)) by lia.
  destruct (Z.gtb_spec (frameLen + 2) (txBufferFreeSpace t)) as [?|_]; [lia|].
  cbv zeta. unfold TX_BUFFER_SIZE.
  rewrite (ring_rem (tx_tail t + 1)) by lia.
  pose proof (ring_mod_range (tx_tail t + 1)) as R1.
  rewrite (ring_rem ((tx_tail t + 1) mod 65535 + 1)) by lia.
  rewrite Z.add_mod_idemp_l by lia.
  match goal with
  | |- context [enqueue_loop ?n ?i ?b ?tl frame] =>
      pose proof (enqueue_loop_tail frame n i b tl (ring_mod_range _)) as E;
      destruct (enqueue_loop n i b tl frame) as [buf' tail']
  end.
  cbn [fst snd] in *. rewrite Z2Nat.id in E by lia.
  rewrite Z.add_mod_idemp_l in E by lia.
  replace (tx_tail t + 1 + 1 + frameLen) with (tx_tail t + (frameLen + 2))
    in E by lia.
  subst tail'.
  split; [reflexivity|]. split.
  - unfold tx_wf, TX_BUFFER_SIZE. cbn [tx_head tx_tail].
    split; [lia | apply ring_mod_range].
  - rewrite txBufferFreeSpace_eq
      by (unfold tx_wf, TX_BUFFER_SIZE; cbn [tx_head tx_tail];
          split; [lia | apply ring_mod_range]).
    cbn [tx_head tx_tail]. rewrite Hfree.
    apply ring_free_after; lia.
Qed.

(** ** The device engine: sending a frame *)

(** Whatever happens to the frame, a send call leaves one event in the
    log and writes only the TX side of the state. *)
Lemma app_send_frame_with_seq_log cmd sq payload len g :
  exists fb tb oc,
    app_send_frame_with_seq cmd sq payload len g
    = set_tx fb tb
        (tx_log g ++ [mkEvent cmd sq (payload_bytes payload len) oc]) g.
Proof.
  unfold app_send_frame_with_seq.
  destruct (buildFrame cmd sq payload len (tx_frame_buf g) TX_FRAME_BUF_SIZE)
    as [[ret fb] n].
  destruct (ret =? 0).
  - destruct (enqueueTxFrame (tx_buffer g) fb n) as [r tb].
    destruct (r =? 0); eauto.
  - eauto.
Qed.

(** A payload that fits: the frame is built in [tx_frame_buf], and
    queued when the TX ring has [10 + len + 2] free bytes, dropped
    otherwise. *)
Lemma app_send_frame_with_seq_spec cmd sq payload len g :
  payload_present payload len -> 0 <= len <= 8182 ->
  exists F,
    buildFrame cmd sq payload len (tx_frame_buf g) TX_FRAME_BUF_SIZE
      = (0, F, 10 + len) /\
    frame_layout cmd sq payload len F /\
    app_send_frame_with_seq cmd sq payload len g
    = if 10 + len + 2 >? txBufferFreeSpace (tx_buffer g)
      then set_tx F (tx_buffer g)
             (tx_log g ++ [mkEvent cmd sq (payload_bytes payload len) Dropped])
             g
      else set_tx F (snd (enqueueTxFrame (tx_buffer g) F (10 + len)))
             (tx_log g
              ++ [mkEvent cmd sq (payload_bytes payload len)
                    (Queued (10 + len))]) g.
Proof.
  intros Hp Hl.
  destruct (buildFrame_layout_present cmd sq payload len (tx_frame_buf g)
              TX_FRAME_BUF_SIZE) as (F & Hb & L & _);
    try assumption; unfold TX_FRAME_BUF_SIZE; try lia.
  exists F. split; [exact Hb|]. split; [exact L|].
  unfold app_send_frame_with_seq. unfold TX_FRAME_BUF_SIZE in Hb |- *.
  rewrite Hb. cbn [Z.eqb].
  unfold enqueueTxFrame.
  rewrite (u16_small (10 + len + 2)) by lia.
  destruct (10 + len + 2 >? txBufferFreeSpace (tx_buffer g)).
  - reflexivity.
  - cbv zeta. destruct (enqueue_loop _ _ _ _ _). reflexivity.
Qed.

(** ** Frames that find room in the TX ring are queued *)







Lemma length_to_list m n : 0 <= n -> Z.of_nat (length (to_list m n)) = n.
Proof.
  intros H. unfold to_list. rewrite length_map, length_seq. lia.
Qed.

Lemma length_payload_bytes payload len :
  payload_present payload len -> 0 <= len ->
  Z.of_nat (length (payload_bytes payload len)) = len.
Proof.
  intros Hp Hl. destruct payload as [p|]; cbn [payload_bytes].
  - apply length_to_list. exact Hl.
  - cbn in Hp |- *. lia.
Qed.


Lemma frame_layout_payload_ext cmd sq p q len F :
  (forall i, 0 <= i < len -> payload_at p i = payload_at q i) ->
  frame_layout cmd sq p len F -> frame_layout cmd sq q len F.
Proof.
  intros E (F0 & F1 & F2 & F3 & F4 & F5 & Fp & Fc0 & Fc1 & Ft0 & Ft1).
  unfold frame_layout. repeat split; try assumption.
  intros i Hi. rewrite Fp by exact Hi. apply E. exact Hi.
Qed.

(** ** C10: GetStatus *)

(** C10 (as the code has it).  In Continuous mode with the stream
    Stopped, handling GetStatus sends one StatusResponse with the
    request's sequence number whose payload is the eight bytes
    [0,0,0,0,0,0,0,0]: mode, stream status, error flag, error code and
    the four remaining bytes of the 8-byte array that is sent whole.  The
    frame built in [tx_frame_buf] has that layout (18 bytes), and it is
    queued whenever the TX ring has 20 free bytes. *)
Theorem get_status_reply_eight_bytes g sq payload payload_len :
  mode g = MODE_CONTINUOUS -> status g = STATUS_STOPPED ->
  let g' := app_handle_command CMD_GET_STATUS sq payload payload_len g in
  responds_with g g' CMD_STATUS_RESPONSE sq [0; 0; 0; 0; 0; 0; 0; 0] /\
  frame_layout CMD_STATUS_RESPONSE sq
    (Some (of_list [0; 0; 0; 0; 0; 0; 0; 0])) 8 (tx_frame_buf g') /\
  (20 <= txBufferFreeSpace (tx_buffer g) ->
   tx_log g'
   = tx_log g
     ++ [mkEvent CMD_STATUS_RESPONSE sq [0; 0; 0; 0; 0; 0; 0; 0] (Queued 18)] /\
   tx_buffer g'
   = snd (enqueueTxFrame (tx_buffer g) (tx_frame_buf g') 18)).
Proof.
  intros Hm Hs.
  set (sp := store (store (store (store
               (of_list [0; 0; 0; 0; 0; 0; 0; 0]) 0 0) 1 0) 2 0) 3 0).
  assert (Hg : app_handle_command CMD_GET_STATUS sq payload payload_len g
               = app_send_frame_with_seq CMD_STATUS_RESPONSE sq (Some sp) 8 g).
  { unfold app_handle_command.
    change (CMD_GET_STATUS =? CMD_PING) with false.
    change (CMD_GET_STATUS =? CMD_GET_STATUS) with true.
    cbv iota zeta. rewrite Hm, Hs. reflexivity. }
  intros g'. subst g'. rewrite Hg. clear Hg.
  assert (Hsp : payload_ok (Some sp) 8).
  { intros i Hi. unfold is_u8.
    assert (i = 0 \/ i = 1 \/ i = 2 \/ i = 3 \/ i = 4 \/ i = 5 \/ i = 6 \/ i = 7)
      as [ -> | [ -> | [ -> | [ -> | [ -> | [ -> | [ -> | -> ] ] ] ] ] ] ]
      by lia; vm_compute; split; discriminate || reflexivity. }
  destruct (app_send_frame_with_seq_spec CMD_STATUS_RESPONSE sq (Some sp) 8 g
              (payload_ok_present _ _ Hsp) ltac:(lia)) as (F & Hb & L & E).
  change (10 + 8 + 2) with 20 in E. change (10 + 8) with 18 in E.
  change (payload_bytes (Some sp) 8) with [0; 0; 0; 0; 0; 0; 0; 0] in E.
  assert (L' : frame_layout CMD_STATUS_RESPONSE sq
                 (Some (of_list [0; 0; 0; 0; 0; 0; 0; 0])) 8 F).
  { apply (frame_layout_payload_ext _ _ (Some sp)); [|exact L].
    intros i Hi.
    assert (i = 0 \/ i = 1 \/ i = 2 \/ i = 3 \/ i = 4 \/ i = 5 \/ i = 6 \/ i = 7)
      as [ -> | [ -> | [ -> | [ -> | [ -> | [ -> | [ -> | -> ] ] ] ] ] ] ]
      by lia; reflexivity. }
  destruct (Z.gtb_spec 20 (txBufferFreeSpace (tx_buffer g))) as [G|G];
    rewrite E; cbn [tx_log tx_frame_buf tx_buffer set_tx].
  - split; [eexists; reflexivity|]. split; [exact L'|]. intros; lia.
  - split; [eexists; reflexivity|]. split; [exact L'|]. intros _.
    split; reflexivity.
Qed.

Lemma get_status_reply_eight_bytes_witness :
  let g := app_init (fun _ => 0) in
  let g' := app_handle_command CMD_GET_STATUS 7 (fun _ => 0) 0 g in
  responds_with g g' CMD_STATUS_RESPONSE 7 [0; 0; 0; 0; 0; 0; 0; 0].
Proof.
  intros g g'.
  exact (proj1 (get_status_reply_eight_bytes g 7 (fun _ => 0) 0
                  eq_refl eq_refl)).
Defined.

(** The claim as written asks for a four-byte payload; on the freshly
    initialised device the reply to GetStatus does not have it. *)
Lemma get_status_reply_not_four_bytes :
  let g := app_init (fun _ => 0) in
  ~ responds_with g (app_handle_command CMD_GET_STATUS 7 (fun _ => 0) 0 g)
      CMD_STATUS_RESPONSE 7 [0; 0; 0; 0].
Proof.
  intros g [oc H]. vm_compute in H. discriminate H.
Qed.

(** ** C6: ConfigureStream *)

(** The loop applies the records that are complete, and no more than
    announced. *)
Lemma configure_loop_apply payload payload_len n : forall offset g,
  0 <= offset -> payload_len <= 65535 ->
  configure_loop n offset payload payload_len g
  = apply_configs (Nat.min n (Z.to_nat ((payload_len - offset) / 6)))
      offset payload g.
Proof.
  induction n as [|n IH]; intros offset g Ho Hl; [reflexivity|].
  cbn [configure_loop].
  destruct (Z.leb_spec (offset + 6) payload_len) as [Hfit|Hshort].
  - cbv zeta. rewrite (u16_small (offset + 6)) by lia.
    rewrite IH by lia.
    replace (Z.to_nat ((payload_len - offset) / 6))
      with (S (Z.to_nat ((payload_len - (offset + 6)) / 6))).
    + reflexivity.
    + replace (payload_len - offset)
        with (payload_len - (offset + 6) + 1 * 6) by lia.
      rewrite Z.div_add by lia.
      assert (0 <= (payload_len - (offset + 6)) / 6)
        by (apply Z.div_pos; lia).
      lia.
  - replace (Z.to_nat ((payload_len - offset) / 6)) with O.
    + rewrite Nat.min_0_r. reflexivity.
    + assert ((payload_len - offset) / 6 <= 0); [|lia].
      destruct (Z.lt_ge_cases (payload_len - offset) 0) as [N|N].
      * pose proof (Z.div_lt_upper_bound (payload_len - offset) 6 0
                      ltac:(lia) ltac:(lia)). lia.
      * rewrite Z.div_small by lia. lia.
Qed.

Lemma app_send_frame_with_seq_channels cmd sq payload len g :
  channels (app_send_frame_with_seq cmd sq payload len g) = channels g.
Proof.
  destruct (app_send_frame_with_seq_log cmd sq payload len g)
    as (fb & tb & oc & E).
  rewrite E. reflexivity.
Qed.

Lemma app_send_frame_with_seq_responds cmd sq payload len g :
  responds_with g (app_send_frame_with_seq cmd sq payload len g) cmd sq
    (payload_bytes payload len).
Proof.
  destruct (app_send_frame_with_seq_log cmd sq payload len g)
    as (fb & tb & oc & E).
  exists oc. rewrite E. reflexivity.
Qed.

Lemma configure_loop_tx_log payload payload_len n : forall offset g,
  tx_log (configure_loop n offset payload payload_len g) = tx_log g.
Proof.
  induction n as [|n IH]; intros offset g; [reflexivity|].
  cbn [configure_loop]. destruct (offset + 6 <=? payload_len); [|reflexivity].
  cbv zeta. rewrite IH. destruct (_ <? _); reflexivity.
Qed.

(** The claim as written asks for a Nack when the count byte promises
    more records than the payload holds.  Count 2 with one record: the
    reply is not a Nack. *)
Lemma configure_stream_short_payload_not_nack :
  let g := app_init (fun _ => 0) in
  let payload := of_list [2; 0; 0x10; 0x27; 0; 0; 1] in
  ~ responds_with g (app_handle_command CMD_CONFIGURE_STREAM 9 payload 7 g)
      CMD_NACK 9 [0x01; 0x01].
Proof.
  intros g payload [oc H]. vm_compute in H. discriminate H.
Qed.

Example configure_stream_test_payload :
  let g := app_init (fun _ => 0) in
  let payload :=
    of_list [2; 0; 0x10; 0x27; 0; 0; 1; 1; 0x10; 0x27; 0; 0; 1] in
  let g' := app_handle_command CMD_CONFIGURE_STREAM 2 payload 13 g in
  (channels g' 0, channels g' 1, tx_log g')
  = (mkChannel 1 10000 1, mkChannel 1 10000 1,
     [mkEvent CMD_ACK 2 [] (Queued 10)]).
Proof. vm_compute. reflexivity. Qed.

(** ** The streaming engine: what each helper touches *)

Lemma same_engine_refl g : same_engine g g.
Proof. unfold same_engine. repeat split. Qed.

Lemma same_engine_trans a b c :
  same_engine a b -> same_engine b c -> same_engine a c.
Proof.
  unfold same_engine.
  intros (A1 & A2 & A3 & A4 & A5 & A6 & A7) (B1 & B2 & B3 & B4 & B5 & B6 & B7).
  repeat split; congruence.
Qed.

Lemma rand_effect g :
  same_engine g (snd (rand g)) /\
  tx_log (snd (rand g)) = tx_log g /\
  (rand_ok g -> 0 <= fst (rand g) /\ rand_ok (snd (rand g))).
Proof.
  unfold rand, same_engine, rand_ok. cbn.
  repeat split; auto.
Qed.

Lemma app_send_frame_effect cmd payload len g :
  exists ev,
    ev_cmd ev = cmd /\ ev_seq ev = seq_counter g /\
    ev_payload ev = payload_bytes payload len /\
    tx_log (app_send_frame cmd payload len g) = tx_log g ++ [ev] /\
    same_engine g (app_send_frame cmd payload len g) /\
    rand_src (app_send_frame cmd payload len g) = rand_src g.
Proof.
  unfold app_send_frame. cbv zeta.
  destruct (app_send_frame_with_seq_log cmd (seq_counter g) payload len
              (set_seq_counter (u8 (seq_counter g + 1)) g))
    as (fb & tb & oc & E).
  rewrite E.
  exists (mkEvent cmd (seq_counter g) (payload_bytes payload len) oc).
  cbn. unfold same_engine. cbn. repeat split.
Qed.

Lemma sample_loop_effect sample n : forall i ts off g,
  same_engine g (snd (sample_loop sample n i ts off g)) /\
  tx_log (snd (sample_loop sample n i ts off g)) = tx_log g /\
  tx_buffer (snd (sample_loop sample n i ts off g)) = tx_buffer g /\
  (rand_ok g -> rand_ok (snd (sample_loop sample n i ts off g))).
Proof.
  induction n as [|n IH]; intros i ts off g.
  - cbn. split; [apply same_engine_refl|]. repeat split; auto.
  - cbn [sample_loop]. unfold rand. cbv zeta.
    match goal with
    | |- context [sample_loop sample n ?i' ?ts' ?off' ?g'] =>
        destruct (IH i' ts' off' g') as (E & L & T & R)
    end.
    split; [|split; [|split]].
    + eapply same_engine_trans; [|exact E]. unfold same_engine. cbn.
      repeat split.
    + rewrite L. reflexivity.
    + rewrite T. reflexivity.
    + intros Hr. apply R. unfold rand_ok in *. cbn. intros k. apply Hr.
Qed.

Lemma channel_loop_effect sample n : forall ch m ts off g,
  same_engine g (snd (channel_loop sample n ch m ts off g)) /\
  tx_log (snd (channel_loop sample n ch m ts off g)) = tx_log g /\
  tx_buffer (snd (channel_loop sample n ch m ts off g)) = tx_buffer g /\
  (rand_ok g -> rand_ok (snd (channel_loop sample n ch m ts off g))).
Proof.
  induction n as [|n IH]; intros ch m ts off g.
  - cbn. split; [apply same_engine_refl|]. repeat split; auto.
  - cbn [channel_loop].
    destruct (negb (Z.land m (Z.shiftl 1 ch) =? 0)).
    + destruct (sample_loop_effect sample (Z.to_nat SAMPLES_PER_PACKET)
                  0 ts off g) as (E1 & L1 & T1 & R1).
      destruct (sample_loop sample (Z.to_nat SAMPLES_PER_PACKET) 0 ts off g)
        as [off1 g1].
      cbn [snd] in *.
      destruct (IH (ch + 1) m ts off1 g1) as (E2 & L2 & T2 & R2).
      split; [|split; [|split]].
      * eapply same_engine_trans; eassumption.
      * congruence.
      * congruence.
      * auto.
    + apply IH.
Qed.

Lemma app_send_data_packet_effect sample ts g :
  exists ev,
    ev_cmd ev = CMD_DATA_PACKET /\
    tx_log (app_send_data_packet sample ts g) = tx_log g ++ [ev] /\
    same_engine g (app_send_data_packet sample ts g) /\
    (rand_ok g -> rand_ok (app_send_data_packet sample ts g)).
Proof.
  unfold app_send_data_packet. cbv zeta.
  match goal with
  | |- context [channel_loop sample ?n ?ch ?m ?t ?off ?g0] =>
      destruct (channel_loop_effect sample n ch m t off g0) as (E & L & _ & R);
      destruct (channel_loop sample n ch m t off g0) as [off1 g1]
  end.
  cbn [snd] in *.
  destruct (app_send_frame_effect CMD_DATA_PACKET (Some (data_payload g1))
              off1 g1) as (ev & C & _ & _ & Lg & Es & Rs).
  exists ev. split; [exact C|]. split; [|split].
  - rewrite Lg, L. reflexivity.
  - eapply same_engine_trans; [|exact Es].
    eapply same_engine_trans; [|exact E].
    unfold same_engine. cbn. repeat split.
  - intros Hr. unfold rand_ok. rewrite Rs. apply R.
    unfold rand_ok in *. cbn. exact Hr.
Qed.

(** Reduce the projections of updated records, and nothing else. *)
Ltac rec_simpl :=
  cbn [mode status seq_counter channels num_channels trigger
       last_data_send_time start_time tx_frame_buf data_payload rx_buffer
       tx_buffer rand_src tx_log
       set_mode set_status set_seq_counter set_channels set_trigger
       set_last_data_send_time set_start_time set_data_payload set_rand_src
       set_tx
       armed occurred sending timestamp packets_to_send packets_sent
       next_trigger_time
       set_armed set_occurred set_sending set_timestamp set_packets_to_send
       set_packets_sent set_next_trigger_time fst snd].

Ltac rec_simpl_in H :=
  cbn [mode status seq_counter channels num_channels trigger
       last_data_send_time start_time tx_frame_buf data_payload rx_buffer
       tx_buffer rand_src tx_log
       set_mode set_status set_seq_counter set_channels set_trigger
       set_last_data_send_time set_start_time set_data_payload set_rand_src
       set_tx
       armed occurred sending timestamp packets_to_send packets_sent
       next_trigger_time
       set_armed set_occurred set_sending set_timestamp set_packets_to_send
       set_packets_sent set_next_trigger_time fst snd] in H.

(** ** The payload of a data packet starts with its timestamp *)

Lemma store16_below m off v j : j < off -> store16 m off v j = m j.
Proof.
  intros H. unfold store16, store.
  destruct (Z.eqb_spec j (off + 1)); [lia|].
  destruct (Z.eqb_spec j off); [lia | reflexivity].
Qed.

Lemma sample_loop_payload sample n : forall i ts off g,
  0 <= off -> off + 2 * Z.of_nat n <= 65535 ->
  fst (sample_loop sample n i ts off g) = off + 2 * Z.of_nat n /\
  forall j, j < off ->
    data_payload (snd (sample_loop sample n i ts off g)) j = data_payload g j.
Proof.
  induction n as [|n IH]; intros i ts off g H0 Hfit.
  - cbn [sample_loop fst snd]. split; [lia | reflexivity].
  - cbn [sample_loop]. unfold rand. cbv zeta.
    rewrite (u16_small (off + 2)) by lia.
    match goal with
    | |- context [sample_loop sample n ?i' ?ts' ?off' ?g'] =>
        destruct (IH i' ts' off' g') as (E & P); [lia | lia |]
    end.
    split; [rewrite E; lia|].
    intros j Hj. rewrite P by lia. rec_simpl.
    apply store16_below. exact Hj.
Qed.

Lemma channel_loop_payload sample n : forall ch m ts off g,
  0 <= off -> off + 200 * Z.of_nat n <= 65535 ->
  off <= fst (channel_loop sample n ch m ts off g)
      <= off + 200 * Z.of_nat n /\
  forall j, j < off ->
    data_payload (snd (channel_loop sample n ch m ts off g)) j
    = data_payload g j.
Proof.
  induction n as [|n IH]; intros ch m ts off g H0 Hfit.
  - cbn [channel_loop fst snd]. split; [lia | reflexivity].
  - cbn [channel_loop].
    destruct (negb (Z.land m (Z.shiftl 1 ch) =? 0)).
    + destruct (sample_loop_payload sample (Z.to_nat SAMPLES_PER_PACKET)
                  0 ts off g) as (E1 & P1);
        [lia | change (Z.of_nat (Z.to_nat SAMPLES_PER_PACKET)) with 100; lia |].
      change (Z.of_nat (Z.to_nat SAMPLES_PER_PACKET)) with 100 in E1.
      destruct (sample_loop sample (Z.to_nat SAMPLES_PER_PACKET) 0 ts off g)
        as [off1 g1].
      cbn [fst snd] in *.
      destruct (IH (ch + 1) m ts off1 g1) as (E2 & P2); [lia | lia |].
      split; [lia|].
      intros j Hj. rewrite P2 by lia. apply P1. exact Hj.
    + destruct (IH (ch + 1) m ts off g) as (E2 & P2); [lia | lia |].
      split; [lia | exact P2].
Qed.

Lemma firstn_4_to_list m n :
  4 <= n -> firstn 4 (to_list m n) = [m 0; m 1; m 2; m 3].
Proof.
  intros H. unfold to_list.
  replace (Z.to_nat n) with (4 + Z.to_nat (n - 4))%nat by lia.
  rewrite seq_app, map_app. reflexivity.
Qed.

Lemma app_send_data_packet_stamp sample ts g :
  0 <= num_channels g <= 255 ->
  exists ev,
    ev_cmd ev = CMD_DATA_PACKET /\
    firstn 4 (ev_payload ev) = le32 ts /\
    tx_log (app_send_data_packet sample ts g) = tx_log g ++ [ev] /\
    same_engine g (app_send_data_packet sample ts g) /\
    (rand_ok g -> rand_ok (app_send_data_packet sample ts g)).
Proof.
  intros Hn. unfold app_send_data_packet. cbv zeta.
  change (u16 (0 + 4)) with 4. change (u16 (4 + 2)) with 6.
  change (u16 (6 + 2)) with 8. rec_simpl.
  match goal with
  | |- context [channel_loop sample ?n ?ch ?m ?t ?off ?g0] =>
      destruct (channel_loop_effect sample n ch m t off g0) as (E & L & _ & R);
      destruct (channel_loop_payload sample n ch m t off g0) as (Ho & P);
      [lia | rewrite Z2Nat.id by lia; lia |];
      destruct (channel_loop sample n ch m t off g0) as [off1 g1]
  end.
  cbn [fst snd] in *. rec_simpl_in P.
  destruct (app_send_frame_effect CMD_DATA_PACKET (Some (data_payload g1))
              off1 g1) as (ev & C & _ & Pl & Lg & Es & Rs).
  exists ev. split; [exact C|]. split; [|split; [|split]].
  - rewrite Pl. unfold payload_bytes. rewrite firstn_4_to_list by lia.
    rewrite !P by lia. reflexivity.
  - rewrite Lg, L. reflexivity.
  - eapply same_engine_trans; [|exact Es].
    eapply same_engine_trans; [|exact E].
    unfold same_engine. rec_simpl. repeat split.
  - intros Hr. unfold rand_ok. rewrite Rs. apply R.
    unfold rand_ok in *. rec_simpl. exact Hr.
Qed.

(** ** The trigger blocks of the periodic task *)

Lemma skipn_app_exact {A : Type} (l m : list A) :
  skipn (length l) (l ++ m) = m.
Proof. induction l as [|a l IH]; [reflexivity | exact IH]. Qed.

Lemma emitted_app g g' l : tx_log g' = tx_log g ++ l -> emitted g g' = l.
Proof. intros E. unfold emitted. rewrite E. apply skipn_app_exact. Qed.

Lemma emitted_nil g g' : tx_log g' = tx_log g -> emitted g g' = [].
Proof.
  intros E. apply emitted_app. rewrite app_nil_r. exact E.
Qed.

Lemma check_trigger_idle t g :
  armed (trigger g) = 0 \/ occurred (trigger g) <> 0
  \/ t < next_trigger_time (trigger g) ->
  check_trigger t g = g.
Proof.
  intros H. unfold check_trigger.
  destruct (Z.eqb_spec (armed (trigger g)) 0) as [A|A]; [reflexivity|].
  destruct (Z.eqb_spec (occurred (trigger g)) 0) as [O|O]; [|reflexivity].
  destruct (Z.geb_spec t (next_trigger_time (trigger g))) as [T|T];
    [|reflexivity].
  lia.
Qed.


Section Burst.

Variable sample : Z -> Z -> Z.

Lemma send_trigger_data_idle t g :
  sending (trigger g) = 0 -> send_trigger_data sample t g = g.
Proof.
  intros H. unfold send_trigger_data. rewrite H. reflexivity.
Qed.

Lemma send_trigger_data_wait t g :
  u32 (t - last_data_send_time g) < DATA_SEND_INTERVAL ->
  send_trigger_data sample t g = g.
Proof.
  intros H. unfold send_trigger_data.
  destruct (negb _); [|reflexivity].
  destruct (Z.geb_spec (u32 (t - last_data_send_time g)) DATA_SEND_INTERVAL);
    [lia | reflexivity].
Qed.

Lemma send_trigger_data_packet t g :
  rand_ok g -> 0 <= num_channels g <= 255 ->
  sending (trigger g) <> 0 ->
  DATA_SEND_INTERVAL <= u32 (t - last_data_send_time g) ->
  packets_sent (trigger g) < packets_to_send (trigger g) ->
  exists ev,
    ev_cmd ev = CMD_DATA_PACKET /\
    firstn 4 (ev_payload ev)
    = le32 (u32 (timestamp (trigger g)
                 + packets_sent (trigger g) * DATA_SEND_INTERVAL)) /\
    tx_log (send_trigger_data sample t g) = tx_log g ++ [ev] /\
    trigger (send_trigger_data sample t g)
    = set_packets_sent (packets_sent (trigger g) + 1) (trigger g) /\
    mode (send_trigger_data sample t g) = mode g /\
    status (send_trigger_data sample t g) = status g /\
    num_channels (send_trigger_data sample t g) = num_channels g /\
    last_data_send_time (send_trigger_data sample t g) = t /\
    rand_ok (send_trigger_data sample t g).
Proof.
  intros Hr Hn S D P. unfold send_trigger_data.
  destruct (Z.eqb_spec (sending (trigger g)) 0) as [?|_]; [contradiction|].
  cbn [negb].
  destruct (Z.geb_spec (u32 (t - last_data_send_time g)) DATA_SEND_INTERVAL)
    as [_|?]; [|lia].
  destruct (Z.ltb_spec (packets_sent (trigger g)) (packets_to_send (trigger g)))
    as [_|?]; [|lia].
  unfold app_send_trigger_data_packet. cbv zeta.
  match goal with
  | |- context [app_send_data_packet sample ?ts g] =>
      destruct (app_send_data_packet_stamp sample ts g Hn)
        as (ev & C & St & L & (E1 & E2 & E3 & E4 & E5 & E6 & E7) & R);
      remember (app_send_data_packet sample ts g) as g1 eqn:Hg1 in *;
      clear Hg1
  end.
  exists ev. rec_simpl.
  split; [exact C|]. split; [exact St|]. split; [exact L|].
  split; [rewrite E5; reflexivity|].
  split; [exact E1|]. split; [exact E2|]. split; [exact E4|].
  split; [reflexivity|].
  unfold rand_ok. rec_simpl. apply R. exact Hr.
Qed.

Lemma send_trigger_data_complete t g :
  rand_ok g ->
  sending (trigger g) <> 0 ->
  DATA_SEND_INTERVAL <= u32 (t - last_data_send_time g) ->
  packets_to_send (trigger g) <= packets_sent (trigger g) ->
  exists ev r,
    ev_cmd ev = CMD_BUFFER_TRANSFER_COMPLETE /\
    ev_payload ev = [] /\
    tx_log (send_trigger_data sample t g) = tx_log g ++ [ev] /\
    0 <= r < 5000 /\
    trigger (send_trigger_data sample t g)
    = set_next_trigger_time (u32 (t + 10000 + r))
        (set_occurred 0 (set_sending 0 (trigger g))) /\
    mode (send_trigger_data sample t g) = mode g /\
    status (send_trigger_data sample t g) = status g /\
    last_data_send_time (send_trigger_data sample t g)
    = last_data_send_time g /\
    rand_ok (send_trigger_data sample t g).
Proof.
  intros Hr S D P. unfold send_trigger_data.
  destruct (Z.eqb_spec (sending (trigger g)) 0) as [?|_]; [contradiction|].
  cbn [negb].
  destruct (Z.geb_spec (u32 (t - last_data_send_time g)) DATA_SEND_INTERVAL)
    as [_|?]; [|lia].
  destruct (Z.ltb_spec (packets_sent (trigger g)) (packets_to_send (trigger g)))
    as [?|_]; [lia|].
  cbv zeta.
  destruct (app_send_frame_effect CMD_BUFFER_TRANSFER_COMPLETE None 0 g)
    as (ev & C & _ & Pl & L & (E1 & E2 & E3 & E4 & E5 & E6 & E7) & R).
  remember (app_send_frame CMD_BUFFER_TRANSFER_COMPLETE None 0 g) as g1
    eqn:Hg1 in *.
  clear Hg1.
  unfold rand. rec_simpl.
  assert (Hb : 0 <= Z.rem (rand_src g1 0%nat) 5000 < 5000).
  { apply Z.rem_bound_pos; [|lia]. rewrite R. apply Hr. }
  exists ev, (Z.rem (rand_src g1 0%nat) 5000).
  split; [exact C|]. split; [exact Pl|]. split; [exact L|]. split; [exact Hb|].
  split; [rewrite E5; reflexivity|].
  split; [exact E1|]. split; [exact E2|]. split; [exact E6|].
  unfold rand_ok. rec_simpl. intros k. rewrite R. apply Hr.
Qed.

End Burst.

(** ** One tick of the periodic task in Trigger mode *)

Section Ticks.

Variable sample : Z -> Z -> Z.

Lemma periodic_trigger t g :
  mode g = MODE_TRIGGER -> status g = STATUS_RUNNING ->
  exists g0,
    app_periodic_task sample t g
    = send_trigger_data sample t (check_trigger t g0) /\
    trigger g0 = trigger g /\ mode g0 = mode g /\ status g0 = status g /\
    num_channels g0 = num_channels g /\
    last_data_send_time g0 = last_data_send_time g /\
    tx_log g0 = tx_log g /\ rand_src g0 = rand_src g.
Proof.
  intros M S. unfold app_periodic_task. cbv zeta.
  set (g0 := if start_time g =? 0 then set_start_time t g else g).
  assert (F : trigger g0 = trigger g /\ mode g0 = mode g /\ status g0 = status g /\
              num_channels g0 = num_channels g /\
              last_data_send_time g0 = last_data_send_time g /\
              tx_log g0 = tx_log g /\ rand_src g0 = rand_src g).
  { subst g0. destruct (start_time g =? 0); rec_simpl; repeat split. }
  exists g0. split; [|exact F].
  destruct F as (_ & M0 & S0 & _). rewrite S0, S, M0, M. reflexivity.
Qed.

Lemma rand_ok_ext g g' : rand_src g' = rand_src g -> rand_ok g -> rand_ok g'.
Proof. unfold rand_ok. intros -> H. exact H. Qed.



(** A tick during a burst: nothing before the send interval has passed;
    then one DataPacket while packets remain; then
    BufferTransferComplete, and the trigger is rearmed for a time 10000
    to 14999 ms later. *)
Lemma tick_bursting t g ts N k :
  rand_ok g -> 0 <= num_channels g <= 255 -> bursting ts N k g ->
  let g' := app_periodic_task sample t g in
  (u32 (t - last_data_send_time g) < DATA_SEND_INTERVAL ->
   tx_log g' = tx_log g /\ bursting ts N k g' /\
   last_data_send_time g' = last_data_send_time g /\ rand_ok g' /\
   num_channels g' = num_channels g /\
   armed (trigger g') = armed (trigger g)) /\
  (DATA_SEND_INTERVAL <= u32 (t - last_data_send_time g) -> k < N ->
   exists ev,
     stamped ts k [ev] /\ tx_log g' = tx_log g ++ [ev] /\
     bursting ts N (k + 1) g' /\ last_data_send_time g' = t /\ rand_ok g' /\
     num_channels g' = num_channels g /\
     armed (trigger g') = armed (trigger g)) /\
  (DATA_SEND_INTERVAL <= u32 (t - last_data_send_time g) -> N <= k ->
   exists ev r,
     ev_cmd ev = CMD_BUFFER_TRANSFER_COMPLETE /\ ev_payload ev = [] /\
     tx_log g' = tx_log g ++ [ev] /\
     sending (trigger g') = 0 /\ occurred (trigger g') = 0 /\
     0 <= r < 5000 /\
     next_trigger_time (trigger g') = u32 (t + 10000 + r) /\
     armed (trigger g') = armed (trigger g)).
Proof.
  intros Hr Hn (M & S & O & Sd & Hts & HN & Hk) g'. subst g'.
  destruct (periodic_trigger t g M S)
    as (g0 & E & T0 & M0 & S0 & N0 & L0 & Lg0 & R0).
  rewrite E.
  rewrite check_trigger_idle by (rewrite T0; lia).
  assert (Hr0 : rand_ok g0) by (eapply rand_ok_ext; eassumption).
  rewrite <- L0.
  split; [|split].
  - intros W. rewrite send_trigger_data_wait by exact W.
    unfold bursting. rewrite T0, M0, S0. repeat split; assumption.
  - intros D P.
    destruct (send_trigger_data_packet sample t g0)
      as (ev & C & St & Lg & Tr & M1 & S1 & N1 & L1 & R1); try assumption.
    { rewrite N0. exact Hn. }
    { rewrite T0. lia. }
    { rewrite T0. lia. }
    exists ev. unfold bursting. rewrite Lg, Tr, M1, S1, N1, T0, M0, S0, Lg0, N0.
    rec_simpl. cbn [stamped].
    rewrite T0, Hts, Hk in St.
    repeat split; try assumption. lia.
  - intros D P.
    destruct (send_trigger_data_complete sample t g0)
      as (ev & r & C & Pl & Lg & Hb & Tr & M1 & S1 & L1 & R1); try assumption.
    { rewrite T0. lia. }
    { rewrite T0. lia. }
    exists ev, r. rewrite Lg, Tr, T0, Lg0. rec_simpl.
    repeat split; try assumption; lia.
Qed.

End Ticks.

Lemma u32_small_diff t p :
  0 <= p <= t -> t < 4294967296 -> u32 (t - p) = t - p.
Proof. intros H1 H2. unfold u32. apply Z.mod_small. lia. Qed.

(** ** Every frame of the periodic task is queued when the ring has room *)






Section Sent.

Variable sample : Z -> Z -> Z.





Lemma map_snd_tagged {A B : Type} (t : A) (l : list B) :
  map snd (map (fun ev => (t, ev)) l) = l.
Proof.
  induction l as [|x l IH]; [reflexivity|].
  cbn [map snd]. rewrite IH. reflexivity.
Qed.


End Sent.

(** ** C4: the trigger burst *)

Section BurstRun.

Variable sample : Z -> Z -> Z.






(** A burst always ends: driven by ticks at least the send interval
    apart, a burst with [k] of [N] packets sent sends one packet per
    tick and is over after exactly [N - k + 1] ticks. *)
Lemma burst_finishes ticks : forall g ts N k,
  rand_ok g -> 0 <= num_channels g <= 255 ->
  bursting ts N k g -> 0 <= k <= N ->
  0 <= last_data_send_time g ->
  paced (last_data_send_time g) ticks ->
  Z.of_nat (length ticks) = N - k + 1 ->
  busy_during sample (removelast ticks) g /\
  sending (trigger (run_ticks sample ticks g)) = 0.
Proof.
  induction ticks as [|t ticks IH]; intros g ts N k Hr Hn B Hk Hl Hp Hlen.
  - cbn [length] in Hlen. lia.
  - cbn [paced] in Hp. destruct Hp as [Ht Hp].
    unfold DATA_SEND_INTERVAL in Ht.
    destruct (tick_bursting sample t g ts N k Hr Hn B) as (_ & P & C).
    assert (Hd : DATA_SEND_INTERVAL <= u32 (t - last_data_send_time g)).
    { rewrite u32_small_diff by lia. unfold DATA_SEND_INTERVAL. lia. }
    destruct ticks as [|t' ticks].
    + cbn [length] in Hlen. cbn [removelast busy_during run_ticks].
      destruct (C Hd ltac:(lia)) as (ev & r & _ & _ & _ & S1 & _).
      split; [exact I | exact S1].
    + cbn [length] in Hlen.
      destruct (P Hd ltac:(lia)) as (ev & _ & _ & B1 & L1 & R1 & N1 & _).
      change (removelast (t :: t' :: ticks))
        with (t :: removelast (t' :: ticks)).
      cbn [busy_during run_ticks]. cbv zeta.
      remember (app_periodic_task sample t g) as g1 eqn:Hg1 in *. clear Hg1.
      destruct (IH g1 ts N (k + 1) R1 ltac:(lia) B1 ltac:(lia))
        as (Hb & Hs).
      * lia.
      * rewrite L1. exact Hp.
      * cbn [length]. lia.
      * split; [|exact Hs]. split; [|exact Hb].
        destruct B1 as (_ & _ & _ & S1 & _). lia.
Qed.



End BurstRun.

(** ** The trigger sub-state stays consistent *)

Lemma app_send_frame_with_seq_trigger cmd sq payload len g :
  trigger (app_send_frame_with_seq cmd sq payload len g) = trigger g.
Proof.
  destruct (app_send_frame_with_seq_log cmd sq payload len g)
    as (fb & tb & oc & E).
  rewrite E. reflexivity.
Qed.

Lemma configure_loop_trigger payload payload_len n : forall offset g,
  trigger (configure_loop n offset payload payload_len g) = trigger g.
Proof.
  induction n as [|n IH]; intros offset g; [reflexivity|].
  cbn [configure_loop]. destruct (offset + 6 <=? payload_len); [|reflexivity].
  cbv zeta. rewrite IH. destruct (_ <? _); reflexivity.
Qed.

Lemma app_init_trigger_wf rnd : trigger_wf (app_init rnd).
Proof. unfold trigger_wf, app_init. rec_simpl. intros H. contradiction. Qed.

Lemma app_handle_command_trigger_wf cmd sq payload payload_len g :
  trigger_wf g ->
  trigger_wf (app_handle_command cmd sq payload payload_len g).
Proof.
  unfold trigger_wf, app_handle_command. intros W.
  repeat match goal with
    | |- context [if ?c =? ?d then _ else _] => destruct (c =? d)
    | |- context [if ?c <? ?d then _ else _] => destruct (c <? d)
    | |- context [if ?c || ?d then _ else _] => destruct (c || d)
    | |- context [let '(_, _) := device_info_loop ?a ?b ?c ?d in _] =>
        destruct (device_info_loop a b c d)
    end;
    cbv zeta; unfold rand;
    rewrite ?app_send_frame_with_seq_trigger, ?configure_loop_trigger;
    rec_simpl; auto; intros H; contradiction.
Qed.

Lemma app_periodic_task_trigger_wf sample t g :
  trigger_wf g -> trigger_wf (app_periodic_task sample t g).
Proof.
  unfold trigger_wf, app_periodic_task. cbv zeta. intros W.
  set (g0 := if start_time g =? 0 then set_start_time t g else g).
  assert (F : trigger g0 = trigger g)
    by (subst g0; destruct (start_time g =? 0); reflexivity).
  rewrite <- F in W. clearbody g0.
  destruct (status g0); [exact W|].
  destruct (mode g0).
  - destruct (_ >=? _); [|exact W].
    destruct (app_send_data_packet_effect sample t g0)
      as (ev & _ & _ & (_ & _ & _ & _ & E5 & _) & _).
    rec_simpl. rewrite E5. exact W.
  - assert (W1 : sending (trigger (check_trigger t g0)) <> 0 ->
                 occurred (trigger (check_trigger t g0)) <> 0).
    { unfold check_trigger. destruct (_ && _); [|exact W].
      unfold rand. cbv zeta. rec_simpl. intros _. discriminate. }
    remember (check_trigger t g0) as g1 eqn:Hg1. clear Hg1.
    unfold send_trigger_data.
    destruct (negb _); [|exact W1].
    destruct (_ >=? _); [|exact W1].
    destruct (_ <? _).
    + unfold app_send_trigger_data_packet. cbv zeta.
      match goal with
      | |- context [app_send_data_packet sample ?ts g1] =>
          destruct (app_send_data_packet_effect sample ts g1)
            as (ev & _ & _ & (_ & _ & _ & _ & E5 & _) & _);
          remember (app_send_data_packet sample ts g1) as g2 eqn:Hg2;
          clear Hg2
      end.
      rec_simpl. rewrite E5. exact W1.
    + unfold rand. cbv zeta. rec_simpl. intros H. contradiction.
Qed.


Example trigger_burst_run :
  let sample : Z -> Z -> Z := fun _ _ => 0 in
  let g :=
    app_handle_command CMD_START_STREAM 4 (fun _ => 0) 0
      (app_handle_command CMD_SET_MODE_TRIGGER 3 (fun _ => 0) 0
         (app_init (fun _ => 3))) in
  let ticks :=
    [1000; 5000; 5003; 5013; 5023; 5033; 5043; 5053; 5063; 5073; 5083] in
  map (fun p => (fst p, ev_cmd (snd p), firstn 4 (ev_payload (snd p))))
    (run_trace sample ticks g)
  = [(5003, 0x41, le32 5003);
     (5003, 0x40, le32 5003); (5013, 0x40, le32 5013);
     (5023, 0x40, le32 5023); (5033, 0x40, le32 5033);
     (5043, 0x40, le32 5043); (5053, 0x40, le32 5053);
     (5063, 0x40, le32 5063); (5073, 0x40, le32 5073);
     (5083, 0x4F, [])].
Proof. vm_compute. reflexivity. Qed.

(** In the same run every frame goes into the TX ring: 24 bytes for
    EventTriggered, 418 for each DataPacket of two channels, 10 for
    BufferTransferComplete, each with its two-byte length prefix. *)
Example trigger_burst_run_queued :
  let sample : Z -> Z -> Z := fun _ _ => 0 in
  let g :=
    app_handle_command CMD_START_STREAM 4 (fun _ => 0) 0
      (app_handle_command CMD_SET_MODE_TRIGGER 3 (fun _ => 0) 0
         (app_init (fun _ => 3))) in
  let ticks :=
    [1000; 5000; 5003; 5013; 5023; 5033; 5043; 5053; 5063; 5073; 5083] in
  map (fun p => ev_outcome (snd p)) (run_trace sample ticks g)
  = [Queued 24; Queued 418; Queued 418; Queued 418; Queued 418; Queued 418;
     Queued 418; Queued 418; Queued 418; Queued 10] /\
  txBufferFreeSpace (tx_buffer g) = 65510 /\
  txBufferFreeSpace (tx_buffer (run_ticks sample ticks g)) = 62112.
Proof. vm_compute. repeat split. Qed.

(** * Further properties of the codec *)

(** ** CRC16 over a split input *)

Lemma crc_loop_app data a : forall b i c,
  crc_loop data (a + b) i c
  = crc_loop data b (i + Z.of_nat a) (crc_loop data a i c).
Proof.
  induction a as [|a IH]; intros b i c.
  - cbn [Nat.add crc_loop]. f_equal. lia.
  - cbn [Nat.add crc_loop]. rewrite IH. f_equal. lia.
Qed.

Lemma crc_loop_shift data k n : forall i c,
  crc_loop (shift data k) n i c = crc_loop data n (i + k) c.
Proof.
  induction n as [|n IH]; intros i c; [reflexivity|].
  cbn [crc_loop]. rewrite IH. unfold shift.
  replace (i + 1 + k) with (i + k + 1) by lia. reflexivity.
Qed.

Lemma CRC16_Calc_split data n m initVal :
  0 <= n -> 0 <= m ->
  CRC16_Calc data (n + m) initVal
  = CRC16_Calc (shift data n) m (CRC16_Calc data n initVal).
Proof.
  intros Hn Hm. unfold CRC16_Calc.
  rewrite Z2Nat.inj_add by lia.
  rewrite crc_loop_app, crc_loop_shift.
  rewrite Z2Nat.id by lia. reflexivity.
Qed.

(** X1.  The checksum can be computed in pieces: the checksum of the first
    [n] bytes is the initial value for the remaining [m]. *)
Theorem CRC16_Calc_append data n m initVal :
  0 <= n -> 0 <= m ->
  CRC16_Calc data (n + m) initVal
  = CRC16_Calc (shift data n) m (CRC16_Calc data n initVal).
Proof. exact (CRC16_Calc_split data n m initVal). Qed.

Lemma CRC16_Calc_append_witness :
  let data := of_list [0x31; 0x32; 0x33; 0x34; 0x35; 0x36; 0x37; 0x38; 0x39] in
  CRC16_Calc data (4 + 5) 0xFFFF
  = CRC16_Calc (shift data 4) 5 (CRC16_Calc data 4 0xFFFF).
Proof.
  intros data. apply (CRC16_Calc_append data 4 5 0xFFFF); lia.
Defined.

(** ** The checksum of a frame with its own checksum appended is zero *)

Lemma crc_shift_even c : 0 <= c -> c mod 2 = 0 -> crc_shift c = c / 2.
Proof.
  intros H0 He. unfold crc_shift.
  rewrite land_1_parity, He. cbn [Z.eqb negb].
  rewrite Z.shiftr_div_pow2 by lia. reflexivity.
Qed.

Lemma iter_crc_shift_halves n : forall h,
  0 <= h -> Nat.iter n crc_shift (2 ^ Z.of_nat n * h) = h.
Proof.
  induction n as [|n IH]; intros h Hh.
  - change (2 ^ 0 * h = h). lia.
  - change (crc_shift (Nat.iter n crc_shift (2 ^ Z.of_nat (S n) * h)) = h).
    replace (2 ^ Z.of_nat (S n) * h) with (2 ^ Z.of_nat n * (2 * h)).
    + rewrite IH by lia. rewrite crc_shift_even.
      * rewrite Z.mul_comm. apply Z.div_mul. lia.
      * lia.
      * rewrite Z.mul_comm. apply Z.mod_mul. lia.
    + rewrite Nat2Z.inj_succ, Z.pow_succ_r by lia. ring.
Qed.

Lemma lxor_low_byte c : 0 <= c -> Z.lxor c (c mod 256) = 256 * (c / 256).
Proof.
  intros Hc. apply Z.bits_inj'. intros n Hn.
  rewrite Z.lxor_spec.
  replace (256 * (c / 256)) with (Z.shiftl (Z.shiftr c 8) 8)
    by (rewrite Z.shiftl_mul_pow2, Z.shiftr_div_pow2 by lia;
        change (2 ^ 8) with 256; lia).
  change 256 with (2 ^ 8).
  destruct (Z.ltb_spec n 8) as [L|L].
  - rewrite Z.mod_pow2_bits_low by lia.
    rewrite Z.shiftl_spec_low by lia. apply xorb_nilpotent.
  - rewrite Z.mod_pow2_bits_high by lia.
    rewrite Z.shiftl_spec by lia. rewrite Z.shiftr_spec by lia.
    rewrite xorb_false_r. f_equal. lia.
Qed.

(** Running the two checksum bytes, low byte first, through the CRC
    brings it to 0. *)
Lemma crc_byte_residue c :
  is_u16 c -> crc_byte (crc_byte c (c mod 256)) ((c / 256) mod 256) = 0.
Proof.
  unfold is_u16. intros Hc.
  assert (Hq : 0 <= c / 256 < 256)
    by (split; [apply Z.div_pos; lia | apply Z.div_lt_upper_bound; lia]).
  rewrite (Z.mod_small (c / 256) 256) by exact Hq.
  unfold crc_byte at 2. rewrite lxor_low_byte by lia.
  change 256 with (2 ^ Z.of_nat 8) at 1.
  rewrite iter_crc_shift_halves by lia.
  unfold crc_byte. rewrite Z.lxor_nilpotent. reflexivity.
Qed.

Lemma frame_layout_residue cmd sq payload len f :
  is_u8 cmd -> is_u8 sq -> payload_ok payload len -> 0 <= len ->
  frame_layout cmd sq payload len f ->
  CRC16_Calc (shift f 4) (2 + len + 2) 0xFFFF = 0.
Proof.
  intros Hc Hs Hp H0 L.
  pose proof (frame_layout_crc_range _ _ _ _ _ Hc Hs Hp H0 L) as Hcrc.
  destruct L as (_ & _ & _ & _ & _ & _ & _ & Fc0 & Fc1 & _).
  rewrite CRC16_Calc_split by lia.
  set (crc := CRC16_Calc (shift f 4) (2 + len) 0xFFFF) in *.
  unfold CRC16_Calc. change (Z.to_nat 2) with 2%nat. cbn [crc_loop].
  unfold shift.
  replace (0 + (2 + len) + 4) with (6 + len) by lia.
  replace (0 + 1 + (2 + len) + 4) with (7 + len) by lia.
  rewrite Fc0, Fc1. apply crc_byte_residue. exact Hcrc.
Qed.

(** X2.  A frame built by [buildFrame] checks to zero: the CRC over command
    id, sequence number, payload and the two checksum bytes (the [n - 6]
    bytes from offset 4) is 0. *)
Theorem buildFrame_crc_residue cmd sq payload payloadLen outBuf outBufLen f n :
  is_u8 cmd -> is_u8 sq -> payload_ok payload payloadLen ->
  0 <= payloadLen -> 10 + payloadLen <= outBufLen -> outBufLen <= 65535 ->
  buildFrame cmd sq payload payloadLen outBuf outBufLen = (0, f, n) ->
  CRC16_Calc (shift f 4) (n - 6) 0xFFFF = 0.
Proof.
  intros Hc Hs Hp H0 Hfit Hcap Hb.
  destruct (buildFrame_layout cmd sq payload payloadLen outBuf outBufLen)
    as (f' & Hb' & L & _); try assumption.
  rewrite Hb' in Hb. assert (f' = f) by congruence.
  assert (n = 10 + payloadLen) by congruence. subst f' n.
  replace (10 + payloadLen - 6) with (2 + payloadLen + 2) by lia.
  apply (frame_layout_residue cmd sq payload payloadLen f); assumption.
Qed.

Lemma buildFrame_crc_residue_witness :
  CRC16_Calc
    (shift (snd (fst (buildFrame 0x02 7 (Some (of_list [1; 2; 3])) 3
                        (fun _ => 0) 8192))) 4)
    (13 - 6) 0xFFFF = 0.
Proof.
  apply (buildFrame_crc_residue 0x02 7 (Some (of_list [1; 2; 3])) 3
           (fun _ => 0) 8192); unfold is_u8; try lia.
  - intros i Hi. unfold is_u8, of_list.
    assert (i = 0 \/ i = 1 \/ i = 2) as [ -> | [ -> | -> ] ] by lia; simpl; lia.
  - vm_compute. reflexivity.
Defined.

(** ** What buildFrame writes *)

(** Take a triple equation apart without reducing its components. *)
Ltac triple_inv E :=
  let E1 := fresh "E" in
  let E2 := fresh "E" in
  apply pair_equal_spec in E; destruct E as [E E2];
  apply pair_equal_spec in E; destruct E as [E E1];
  try (symmetry in E); try (symmetry in E1); try (symmetry in E2).

(** X3.  [buildFrame] stays inside the buffer it is given: when the frame
    does not fit it returns -1 and writes nothing, not even
    [*outBufLen]; otherwise it returns 0, reports a length [n] within the
    capacity ([10 + payloadLen] unless the payload pointer is NULL), and
    no cell outside [0 .. n - 1] is changed. *)
Theorem buildFrame_writes_within
    cmd sq payload payloadLen outBuf outBufLen r f n :
  0 <= payloadLen <= 65525 -> 0 <= outBufLen ->
  buildFrame cmd sq payload payloadLen outBuf outBufLen = (r, f, n) ->
  (r = 0 /\ 10 + payloadLen <= outBufLen /\ 10 <= n <= 10 + payloadLen /\
   (payload_present payload payloadLen -> n = 10 + payloadLen) /\
   forall i, i < 0 \/ n <= i -> f i = outBuf i)
  \/ (r = -1 /\ outBufLen < 10 + payloadLen /\ f = outBuf /\ n = outBufLen).
Proof.
  intros Hl Hcap. unfold buildFrame.
  replace (u16 (1 + 1 + payloadLen + 2)) with (payloadLen + 4)
    by (rewrite u16_small; lia).
  replace (u16 (2 + 2 + (payloadLen + 4) + 2)) with (payloadLen + 10)
    by (rewrite u16_small; lia).
  destruct (Z.gtb_spec (payloadLen + 10) outBufLen) as [G|G].
  - intros E. right. triple_inv E. subst r f n. repeat split; lia.
  - cbv zeta.
    change (u16 (0 + 1)) with 1. change (u16 (1 + 1)) with 2.
    change (u16 (2 + 1)) with 3. change (u16 (3 + 1)) with 4.
    change (u16 (4 + 1)) with 5. change (u16 (5 + 1)) with 6.
    intros E. left.
    destruct payload as [p|]; [destruct (Z.gtb_spec payloadLen 0) as [P|P]|].
    + rewrite (u16_small (6 + payloadLen)) in E by lia.
      rewrite (u16_small (6 + payloadLen + 1)) in E by lia.
      rewrite (u16_small (6 + payloadLen + 1 + 1)) in E by lia.
      rewrite (u16_small (6 + payloadLen + 1 + 1 + 1)) in E by lia.
      rewrite (u16_small (6 + payloadLen + 1 + 1 + 1 + 1)) in E by lia.
      triple_inv E. subst r f n.
      split; [reflexivity|]. split; [lia|]. split; [lia|].
      split; [unfold payload_present; lia|].
      intros i Hi. mem_cases.
    + change (u16 (6 + 1)) with 7 in E. change (u16 (7 + 1)) with 8 in E.
      change (u16 (8 + 1)) with 9 in E. change (u16 (9 + 1)) with 10 in E.
      triple_inv E. subst r f n.
      split; [reflexivity|]. split; [lia|]. split; [lia|].
      split; [unfold payload_present; lia|].
      intros i Hi. mem_cases.
    + change (u16 (6 + 1)) with 7 in E. change (u16 (7 + 1)) with 8 in E.
      change (u16 (8 + 1)) with 9 in E. change (u16 (9 + 1)) with 10 in E.
      triple_inv E. subst r f n.
      split; [reflexivity|]. split; [lia|]. split; [lia|].
      split; [unfold payload_present; lia|].
      intros i Hi. mem_cases.
Qed.

Lemma buildFrame_writes_within_witness :
  let outBuf : mem := fun _ => 0xEE in
  (exists f,
     buildFrame 0x02 7 (Some (of_list [1; 2; 3])) 3 outBuf 64 = (0, f, 13) /\
     forall i, i < 0 \/ 13 <= i -> f i = 0xEE) /\
  buildFrame 0x02 7 (Some (of_list [1; 2; 3])) 3 outBuf 12 = (-1, outBuf, 12).
Proof.
  intros outBuf. split.
  - destruct (buildFrame 0x02 7 (Some (of_list [1; 2; 3])) 3 outBuf 64)
      as [[r f] n] eqn:E.
    destruct (buildFrame_writes_within 0x02 7 (Some (of_list [1; 2; 3])) 3
                outBuf 64 r f n ltac:(lia) ltac:(lia) E)
      as [(-> & _ & _ & Hn & W)|(-> & Hc & _)]; [|lia].
    rewrite (Hn I) in *.
    exists f. split; [reflexivity | exact W].
  - destruct (buildFrame 0x02 7 (Some (of_list [1; 2; 3])) 3 outBuf 12)
      as [[r f] n] eqn:E.
    destruct (buildFrame_writes_within 0x02 7 (Some (of_list [1; 2; 3])) 3
                outBuf 12 r f n ltac:(lia) ltac:(lia) E)
      as [(-> & Hn & _)|(-> & _ & -> & ->)]; [lia | reflexivity].
Defined.

(** ** What parseFrame accepts *)

(** Two memories laid out as the same frame hold the same bytes. *)
Lemma frame_layout_unique cmd sq p q len a b :
  0 <= len ->
  (forall i, 0 <= i < len -> payload_at p i = payload_at q i) ->
  frame_layout cmd sq p len a -> frame_layout cmd sq q len b ->
  agree_upto a b (10 + len).
Proof.
  intros H0 Hpq (A0 & A1 & A2 & A3 & A4 & A5 & Ap & Ac0 & Ac1 & At0 & At1)
    (B0 & B1 & B2 & B3 & B4 & B5 & Bp & Bc0 & Bc1 & Bt0 & Bt1).
  assert (Low : forall i, 0 <= i < 6 + len -> a i = b i).
  { intros i Hi.
    destruct (Z.eq_dec i 0) as [->|]; [congruence|].
    destruct (Z.eq_dec i 1) as [->|]; [congruence|].
    destruct (Z.eq_dec i 2) as [->|]; [congruence|].
    destruct (Z.eq_dec i 3) as [->|]; [congruence|].
    destruct (Z.eq_dec i 4) as [->|]; [congruence|].
    destruct (Z.eq_dec i 5) as [->|]; [congruence|].
    replace i with (6 + (i - 6)) by lia.
    rewrite Ap, Bp by lia. apply Hpq. lia. }
  assert (C : CRC16_Calc (shift a 4) (2 + len) 0xFFFF
              = CRC16_Calc (shift b 4) (2 + len) 0xFFFF).
  { apply CRC16_Calc_ext. intros i Hi. unfold shift. apply Low. lia. }
  intros i Hi.
  destruct (Z.lt_ge_cases i (6 + len)) as [L|G]; [apply Low; lia|].
  destruct (Z.eq_dec i (6 + len)) as [->|]; [congruence|].
  destruct (Z.eq_dec i (7 + len)) as [->|]; [congruence|].
  destruct (Z.eq_dec i (8 + len)) as [->|]; [congruence|].
  assert (i = 9 + len) by lia. subst i. congruence.
Qed.

Lemma split_bytes lo hi x :
  is_u8 lo -> is_u8 hi -> lo + 256 * hi = x ->
  lo = x mod 256 /\ hi = (x / 256) mod 256.
Proof.
  unfold is_u8. intros Hl Hh <-.
  assert (E1 : (lo + 256 * hi) mod 256 = lo).
  { symmetry. apply (Z.mod_unique _ _ hi); lia. }
  assert (E2 : (lo + 256 * hi) / 256 = hi).
  { symmetry. apply (Z.div_unique _ _ _ lo); lia. }
  rewrite E1, E2. rewrite Z.mod_small by lia. split; reflexivity.
Qed.

(** An input of at least 10 bytes that [parseFrame] accepts is laid out
    as the frame of its command id, sequence number and payload. *)
Lemma parseFrame_accepts_layout inBuf inLen o o' :
  bytes_upto inBuf inLen -> 10 <= inLen ->
  parseFrame inBuf inLen o = (0, o') ->
  frame_layout (inBuf 4) (inBuf 5) (Some (shift inBuf 6)) (inLen - 10) inBuf /\
  o' = parsed inBuf (inBuf 4) (inBuf 5) (inLen - 10) o.
Proof.
  intros Hb Hlen. unfold parseFrame.
  destruct (Z.ltb_spec inLen 8) as [?|_]; [lia|].
  destruct (Z.eqb_spec (inBuf 0) FRAME_HEAD_0) as [F0|?];
    [|cbn [negb orb]; discriminate].
  destruct (Z.eqb_spec (inBuf 1) FRAME_HEAD_1) as [F1|?];
    [|cbn [negb orb]; discriminate].
  cbn [negb orb].
  destruct (Z.eqb_spec (inBuf (inLen - 2)) FRAME_TAIL_0) as [T0|?];
    [|cbn [negb orb]; discriminate].
  destruct (Z.eqb_spec (inBuf (inLen - 1)) FRAME_TAIL_1) as [T1|?];
    [|cbn [negb orb]; discriminate].
  cbn [negb orb]. cbv zeta.
  assert (B2 : is_u8 (inBuf 2)) by (apply Hb; lia).
  assert (B3 : is_u8 (inBuf 3)) by (apply Hb; lia).
  rewrite (join_val _ _ B2 B3).
  set (lf := inBuf 2 + 256 * inBuf 3).
  assert (Rlf : 0 <= lf < 65536) by (unfold is_u8 in *; subst lf; lia).
  destruct (Z.eqb_spec (u16 (6 + lf)) inLen) as [EL|?];
    [|cbn [negb]; discriminate].
  cbn [negb].
  assert (Elf : lf = inLen - 6 /\ inLen < 65536).
  { unfold u16 in EL.
    destruct (Z.lt_ge_cases (6 + lf) 65536) as [S|S].
    - rewrite Z.mod_small in EL by lia. lia.
    - replace (6 + lf) with (6 + lf - 65536 + 1 * 65536) in EL by lia.
      rewrite Z.mod_add in EL by lia. rewrite Z.mod_small in EL by lia. lia. }
  change (u16 (4 + 1)) with 5. change (u16 (5 + 1)) with 6.
  replace (u16 (lf - 4)) with (inLen - 10) by (rewrite u16_small; lia).
  replace (u16 (6 + (inLen - 10))) with (inLen - 4) by (rewrite u16_small; lia).
  replace (u16 (2 + (inLen - 10))) with (inLen - 8) by (rewrite u16_small; lia).
  assert (C0 : is_u8 (inBuf (inLen - 4))) by (apply Hb; lia).
  assert (C1 : is_u8 (inBuf (inLen - 4 + 1))) by (apply Hb; lia).
  rewrite (join_val _ _ C0 C1).
  set (crc := CRC16_Calc (shift inBuf 4) (inLen - 8) 0xFFFF).
  destruct (Z.eqb_spec (inBuf (inLen - 4) + 256 * inBuf (inLen - 4 + 1)) crc)
    as [EC|?]; [|cbn [negb]; discriminate].
  cbn [negb]. intros E.
  apply pair_equal_spec in E. destruct E as [_ <-].
  split; [|reflexivity].
  destruct (split_bytes _ _ _ B2 B3 (eq_refl lf)) as [S2 S3].
  destruct (split_bytes _ _ _ C0 C1 EC) as [SC0 SC1].
  unfold frame_layout.
  replace (inLen - 10 + 4) with lf by lia.
  replace (2 + (inLen - 10)) with (inLen - 8) by lia.
  replace (6 + (inLen - 10)) with (inLen - 4) by lia.
  replace (7 + (inLen - 10)) with (inLen - 4 + 1) by lia.
  replace (8 + (inLen - 10)) with (inLen - 2) by lia.
  replace (9 + (inLen - 10)) with (inLen - 1) by lia.
  fold crc.
  repeat split; try assumption.
  intros i Hi. unfold payload_at, shift. f_equal. lia.
Qed.

(** X4.  Decoding is inverse to encoding: from an input of at least 10 bytes
    that [parseFrame] accepts, [buildFrame] on the command id, sequence
    number and payload it returned gives back exactly the input bytes. *)
Theorem parseFrame_buildFrame_roundtrip
    inBuf inLen c0 s0 dst l0 o' outBuf outBufLen :
  bytes_upto inBuf inLen -> 10 <= inLen ->
  inLen <= outBufLen -> outBufLen <= 65535 ->
  parseFrame inBuf inLen (mkParseOut c0 s0 (Some dst) (Some l0)) = (0, o') ->
  exists p f,
    pPayload o' = Some p /\ pPayloadLen o' = Some (inLen - 10) /\
    buildFrame (pCmd o') (pSeq o') (Some p) (inLen - 10) outBuf outBufLen
      = (0, f, inLen) /\
    agree_upto f inBuf inLen.
Proof.
  intros Hb Hlen Hfit Hcap Hp.
  destruct (parseFrame_accepts_layout _ _ _ _ Hb Hlen Hp) as [L ->].
  unfold parsed. cbn [pCmd pSeq pPayload pPayloadLen].
  set (p := if inLen - 10 >? 0
            then memcpy dst 0 (shift inBuf 6) (inLen - 10) else dst).
  assert (Ep : forall i, 0 <= i < inLen - 10 ->
                 payload_at (Some p) i = payload_at (Some (shift inBuf 6)) i).
  { intros i Hi. unfold payload_at. subst p.
    destruct (Z.gtb_spec (inLen - 10) 0); [|lia]. mem_cases. f_equal. lia. }
  destruct (buildFrame_layout_present (inBuf 4) (inBuf 5) (Some p) (inLen - 10)
              outBuf outBufLen I ltac:(lia) ltac:(lia) Hcap)
    as (f & Hf & Lf & _).
  exists p, f.
  split; [subst p; destruct (inLen - 10 >? 0); reflexivity|].
  split; [reflexivity|].
  split; [rewrite Hf; f_equal; lia|].
  replace inLen with (10 + (inLen - 10)) at 1 by lia.
  eapply frame_layout_unique; [lia | exact Ep | exact Lf | exact L].
Qed.

Lemma parseFrame_buildFrame_roundtrip_witness :
  let inBuf := of_list [0xAA; 0x55; 4; 0; 1; 7; 0x41; 0xE2; 0x55; 0xAA] in
  exists p f,
    buildFrame 1 7 (Some p) 0 (fun _ => 0) 64 = (0, f, 10) /\
    agree_upto f inBuf 10.
Proof.
  intros inBuf.
  destruct (parseFrame_buildFrame_roundtrip inBuf 10 0 0 (fun _ => 0) 0
              (mkParseOut 1 7 (Some (fun _ => 0)) (Some 0)) (fun _ => 0) 64)
    as (p & f & _ & _ & B & A); try lia.
  - intros i Hi. unfold is_u8, inBuf, of_list.
    assert (i = 0 \/ i = 1 \/ i = 2 \/ i = 3 \/ i = 4 \/ i = 5 \/ i = 6
            \/ i = 7 \/ i = 8 \/ i = 9)
      as [ -> | [ -> | [ -> | [ -> | [ -> | [ -> | [ -> | [ -> | [ -> | -> ] ] ] ] ] ] ] ] ]
      by lia; simpl; lia.
  - vm_compute. reflexivity.
  - exists p, f. split; [exact B | exact A].
Defined.

(** ** What parseFrame reads *)

(** X5.  Except for the lengths 8 and 9, the result of [parseFrame] depends
    only on the [inLen] bytes it is given: return value and outputs are
    the same on two inputs that agree there. *)
Theorem parseFrame_reads_only_input a b inLen o :
  agree_upto a b inLen -> inLen < 8 \/ 10 <= inLen ->
  fst (parseFrame a inLen o) = fst (parseFrame b inLen o) /\
  pCmd (snd (parseFrame a inLen o)) = pCmd (snd (parseFrame b inLen o)) /\
  pSeq (snd (parseFrame a inLen o)) = pSeq (snd (parseFrame b inLen o)) /\
  pPayloadLen (snd (parseFrame a inLen o))
  = pPayloadLen (snd (parseFrame b inLen o)) /\
  same_payload (pPayload (snd (parseFrame a inLen o)))
               (pPayload (snd (parseFrame b inLen o))).
Proof.
  intros A Hlen.
  assert (Refl : same_payload (pPayload o) (pPayload o))
    by (unfold same_payload; destruct (pPayload o); auto).
  unfold parseFrame.
  destruct (Z.ltb_spec inLen 8) as [S|S]; [cbn [fst snd]; auto|].
  assert (H10 : 10 <= inLen) by lia. clear Hlen.
  rewrite <- (A 0), <- (A 1), <- (A (inLen - 2)), <- (A (inLen - 1)),
    <- (A 2), <- (A 3) by lia.
  destruct (negb (a 0 =? FRAME_HEAD_0) || negb (a 1 =? FRAME_HEAD_1));
    [cbn [fst snd]; auto|].
  destruct (negb (a (inLen - 2) =? FRAME_TAIL_0)
            || negb (a (inLen - 1) =? FRAME_TAIL_1));
    [cbn [fst snd]; auto|].
  cbv zeta.
  pose proof (u16_range (Z.lor (a 2) (Z.shiftl (a 3) 8))) as Rlf.
  set (lf := u16 (Z.lor (a 2) (Z.shiftl (a 3) 8))) in *.
  unfold is_u16 in Rlf.
  destruct (Z.eqb_spec (u16 (6 + lf)) inLen) as [EL|?];
    [|cbn [negb fst snd]; auto].
  cbn [negb].
  assert (Elf : lf = inLen - 6 /\ inLen < 65536).
  { unfold u16 in EL.
    destruct (Z.lt_ge_cases (6 + lf) 65536) as [L|L].
    - rewrite Z.mod_small in EL by lia. lia.
    - replace (6 + lf) with (6 + lf - 65536 + 1 * 65536) in EL by lia.
      rewrite Z.mod_add in EL by lia. rewrite Z.mod_small in EL by lia. lia. }
  change (u16 (4 + 1)) with 5. change (u16 (5 + 1)) with 6.
  replace (u16 (lf - 4)) with (inLen - 10) by (rewrite u16_small; lia).
  replace (u16 (6 + (inLen - 10))) with (inLen - 4) by (rewrite u16_small; lia).
  replace (u16 (2 + (inLen - 10))) with (inLen - 8) by (rewrite u16_small; lia).
  rewrite <- (A 4), <- (A 5), <- (A (inLen - 4)), <- (A (inLen - 4 + 1)) by lia.
  assert (C : CRC16_Calc (shift a 4) (inLen - 8) 0xFFFF
              = CRC16_Calc (shift b 4) (inLen - 8) 0xFFFF).
  { apply CRC16_Calc_ext. intros i Hi. unfold shift. apply A. lia. }
  rewrite <- C.
  assert (P : same_payload
    match pPayload o with
    | Some dst =>
        if inLen - 10 >? 0
        then Some (memcpy dst 0 (shift a 6) (inLen - 10)) else Some dst
    | None => None
    end
    match pPayload o with
    | Some dst =>
        if inLen - 10 >? 0
        then Some (memcpy dst 0 (shift b 6) (inLen - 10)) else Some dst
    | None => None
    end).
  { unfold same_payload. destruct (pPayload o) as [dst|]; [|exact I].
    destruct (inLen - 10 >? 0); [|reflexivity].
    intros j. unfold memcpy, shift.
    destruct (Z.leb_spec 0 j); destruct (Z.ltb_spec j (0 + (inLen - 10)));
      cbn [andb]; try reflexivity.
    apply A. lia. }
  destruct (negb _); cbn [fst snd pCmd pSeq pPayload pPayloadLen];
    repeat split; try reflexivity; exact P.
Qed.

Lemma parseFrame_reads_only_input_witness :
  let a := of_list [0xAA; 0x55; 4; 0; 1; 7; 0x41; 0xE2; 0x55; 0xAA; 1; 2; 3] in
  let b := of_list [0xAA; 0x55; 4; 0; 1; 7; 0x41; 0xE2; 0x55; 0xAA; 9; 9] in
  let o := mkParseOut 0 0 (Some (fun _ => 0)) (Some 0) in
  fst (parseFrame a 10 o) = fst (parseFrame b 10 o).
Proof.
  intros a b o.
  refine (proj1 (parseFrame_reads_only_input a b 10 o _ _)); [|lia].
  intros i Hi. unfold a, b, of_list.
  assert (i = 0 \/ i = 1 \/ i = 2 \/ i = 3 \/ i = 4 \/ i = 5 \/ i = 6
          \/ i = 7 \/ i = 8 \/ i = 9)
    as [ -> | [ -> | [ -> | [ -> | [ -> | [ -> | [ -> | [ -> | [ -> | -> ] ] ] ] ] ] ] ] ]
    by lia; reflexivity.
Defined.

(** ** Any single corrupted byte is detected *)

Lemma parseFrame_byte_error_layout cmd sq payload len f k v o :
  is_u8 cmd -> is_u8 sq -> payload_ok payload len ->
  0 <= len -> 10 + len <= 65535 ->
  frame_layout cmd sq payload len f ->
  0 <= k < 10 + len -> is_u8 v -> v <> f k ->
  fst (parseFrame (store f k v) (10 + len) o)
  = if k <? 2 then -1
    else if k <? 4 then -3
    else if k <? 8 + len then -4
    else -2.
Proof.
  intros Hc Hs Hp H0 Hfit L Hk Hv Hne.
  pose proof (frame_layout_bytes _ _ _ _ _ Hc Hs Hp H0 L) as Hbytes.
  pose proof (frame_layout_crc_range _ _ _ _ _ Hc Hs Hp H0 L) as Hcrc.
  destruct L as (F0 & F1 & F2 & F3 & F4 & F5 & Fp & Fc0 & Fc1 & Ft0 & Ft1).
  set (g := store f k v).
  assert (Gv : g k = v) by (unfold g, store; rewrite Z.eqb_refl; reflexivity).
  assert (Gk : g k <> f k) by (rewrite Gv; exact Hne).
  assert (Gb : is_u8 (g k)) by (rewrite Gv; exact Hv).
  assert (Go : forall i, i <> k -> g i = f i).
  { intros i Hi. unfold g, store.
    destruct (Z.eqb_spec i k); [contradiction | reflexivity]. }
  unfold parseFrame.
  destruct (Z.ltb_spec (10 + len) 8) as [?|_]; [lia|].
  replace (10 + len - 2) with (8 + len) by lia.
  replace (10 + len - 1) with (9 + len) by lia.
  destruct (Z.ltb_spec k 2) as [K2|K2].
  { (* header *)
    destruct (Z.eq_dec k 0) as [->|K0].
    - destruct (Z.eqb_spec (g 0) FRAME_HEAD_0) as [E|E];
        [rewrite <- F0 in E; contradiction | reflexivity].
    - assert (k = 1) by lia. subst k.
      destruct (Z.eqb_spec (g 1) FRAME_HEAD_1) as [E|E];
        [rewrite <- F1 in E; contradiction |].
      rewrite orb_true_r. reflexivity. }
  rewrite (Go 0), (Go 1), F0, F1 by lia.
  rewrite !Z.eqb_refl. cbn [negb orb].
  destruct (Z.ltb_spec k 4) as [K4|K4].
  { (* length field *)
    rewrite (Go (8 + len)), (Go (9 + len)), Ft0, Ft1 by lia.
    rewrite !Z.eqb_refl. cbn [negb orb]. cbv zeta.
    assert (B2 : is_u8 (f 2)) by (apply Hbytes; lia).
    assert (B3 : is_u8 (f 3)) by (apply Hbytes; lia).
    assert (J : f 2 + 256 * f 3 = len + 4).
    { rewrite <- (join_val _ _ B2 B3), F2, F3.
      apply join_bytes. unfold is_u16. lia. }
    assert (N : u16 (Z.lor (g 2) (Z.shiftl (g 3) 8)) <> len + 4).
    { destruct (Z.eq_dec k 2) as [->|K].
      - rewrite (Go 3) by lia. rewrite join_val by assumption. lia.
      - assert (k = 3) by lia. subst k.
        rewrite (Go 2) by lia. rewrite join_val by assumption. lia. }
    pose proof (u16_range (Z.lor (g 2) (Z.shiftl (g 3) 8))) as R.
    unfold is_u16 in R.
    set (lf := u16 (Z.lor (g 2) (Z.shiftl (g 3) 8))) in *.
    destruct (Z.eqb_spec (u16 (6 + lf)) (10 + len)) as [E|E];
      [|reflexivity].
    exfalso. unfold u16 in E.
    destruct (Z.lt_ge_cases (6 + lf) 65536) as [S|S].
    - rewrite Z.mod_small in E by lia. lia.
    - replace (6 + lf) with (6 + lf - 65536 + 1 * 65536) in E by lia.
      rewrite Z.mod_add in E by lia. rewrite Z.mod_small in E by lia. lia. }
  destruct (Z.ltb_spec k (8 + len)) as [K8|K8].
  2:{ (* tail *)
    destruct (Z.eq_dec k (8 + len)) as [->|K].
    - destruct (Z.eqb_spec (g (8 + len)) FRAME_TAIL_0) as [E|E];
        [rewrite <- Ft0 in E; contradiction | reflexivity].
    - assert (k = 9 + len) by lia. subst k.
      destruct (Z.eqb_spec (g (9 + len)) FRAME_TAIL_1) as [E|E];
        [rewrite <- Ft1 in E; contradiction |].
      rewrite orb_true_r. reflexivity. }
  (* command id, sequence number, payload or checksum *)
  rewrite (Go (8 + len)), (Go (9 + len)), Ft0, Ft1 by lia.
  rewrite !Z.eqb_refl. cbn [negb orb]. cbv zeta.
  rewrite (Go 2), (Go 3), F2, F3 by lia.
  rewrite join_bytes by (unfold is_u16; lia).
  replace (u16 (6 + (len + 4))) with (10 + len) by (rewrite u16_small; lia).
  rewrite Z.eqb_refl. cbn [negb].
  change (u16 (4 + 1)) with 5. change (u16 (5 + 1)) with 6.
  replace (u16 (len + 4 - 4)) with len by (rewrite u16_small; lia).
  replace (u16 (6 + len)) with (6 + len) by (rewrite u16_small; lia).
  replace (u16 (2 + len)) with (2 + len) by (rewrite u16_small; lia).
  replace (6 + len + 1) with (7 + len) by lia.
  set (crc := CRC16_Calc (shift f 4) (2 + len) 0xFFFF) in *.
  assert (Bc0 : is_u8 (f (6 + len))) by (apply Hbytes; lia).
  assert (Bc1 : is_u8 (f (7 + len))) by (apply Hbytes; lia).
  assert (J : f (6 + len) + 256 * f (7 + len) = crc).
  { rewrite <- (join_val _ _ Bc0 Bc1), Fc0, Fc1. apply join_bytes. exact Hcrc. }
  match goal with
  | |- fst (if negb (?r =? ?c) then _ else _) = _ =>
      assert (N : r <> c);
      [| destruct (Z.eqb_spec r c); [contradiction | reflexivity]]
  end.
  destruct (Z.ltb_spec k (6 + len)) as [K6|K6].
  - (* covered by the checksum *)
    rewrite (Go (6 + len)), (Go (7 + len)) by lia.
    rewrite join_val by assumption. rewrite J.
    intros E. symmetry in E. revert E.
    unfold crc, CRC16_Calc.
    apply (crc_loop_one_byte _ _ _ 0 _ (k - 4)).
    + unfold is_u16. lia.
    + intros i Hi. unfold shift.
      destruct (Z.eq_dec (i + 4) k) as [<-|D]; [exact Gb|].
      rewrite Go by exact D. apply Hbytes. lia.
    + intros i Hi. unfold shift. apply Hbytes. lia.
    + lia.
    + unfold shift. replace (k - 4 + 4) with k by lia. exact Gk.
    + intros i Hi D. unfold shift. apply Go. lia.
  - (* the checksum itself *)
    assert (C : CRC16_Calc (shift g 4) (2 + len) 0xFFFF = crc).
    { apply CRC16_Calc_ext. intros i Hi. unfold shift. apply Go. lia. }
    rewrite C.
    destruct (Z.eq_dec k (6 + len)) as [->|K].
    + rewrite (Go (7 + len)) by lia. rewrite join_val by assumption. lia.
    + assert (k = 7 + len) by lia. subst k.
      rewrite (Go (6 + len)) by lia. rewrite join_val by assumption. lia.
Qed.

(** X6.  Replace any one byte of a frame built by [buildFrame] by a different
    byte value: [parseFrame] on the result, with the original length,
    never returns 0.  It returns -1 for a header byte, -3 for a byte of
    the length field, -4 for the command id, the sequence number, a
    payload byte or a checksum byte, and -2 for a tail byte. *)
Theorem parseFrame_rejects_single_byte_error
    cmd sq payload payloadLen outBuf outBufLen f n k v o :
  is_u8 cmd -> is_u8 sq -> payload_ok payload payloadLen ->
  0 <= payloadLen -> 10 + payloadLen <= outBufLen -> outBufLen <= 65535 ->
  buildFrame cmd sq payload payloadLen outBuf outBufLen = (0, f, n) ->
  0 <= k < n -> is_u8 v -> v <> f k ->
  fst (parseFrame (store f k v) n o)
  = (if k <? 2 then -1
     else if k <? 4 then -3
     else if k <? 8 + payloadLen then -4
     else -2) /\
  fst (parseFrame (store f k v) n o) <> 0.
Proof.
  intros Hc Hs Hp H0 Hfit Hcap Hb Hk Hv Hne.
  destruct (buildFrame_layout cmd sq payload payloadLen outBuf outBufLen)
    as (f' & Hb' & L & _); try assumption.
  rewrite Hb' in Hb. assert (f' = f) by congruence.
  assert (n = 10 + payloadLen) by congruence. subst f' n.
  rewrite (parseFrame_byte_error_layout cmd sq payload payloadLen)
    by (assumption || lia).
  split; [reflexivity|].
  destruct (k <? 2); [lia|]. destruct (k <? 4); [lia|].
  destruct (k <? 8 + payloadLen); lia.
Qed.

Lemma parseFrame_rejects_single_byte_error_witness :
  let F := snd (fst (buildFrame 0x02 7 (Some (of_list [1; 2; 3])) 3
                       (fun _ => 0) 8192)) in
  let o := mkParseOut 0 0 None None in
  fst (parseFrame (store F 7 0xFF) 13 o) = -4.
Proof.
  intros F o.
  refine (proj1 (parseFrame_rejects_single_byte_error 0x02 7
                   (Some (of_list [1; 2; 3])) 3 (fun _ => 0) 8192 F 13 7 0xFF o
                   _ _ _ _ _ _ _ _ _ _));
    unfold is_u8; try lia; try reflexivity.
  - intros i Hi. unfold is_u8, of_list.
    assert (i = 0 \/ i = 1 \/ i = 2) as [ -> | [ -> | -> ] ] by lia;
      simpl; lia.
  - vm_compute. discriminate.
Defined.

(** ** The outputs of a rejected parse *)

(** X7.  [parseFrame] returns one of 0, -1, -2, -3, -4.  When it returns -1,
    -2 or -3 it has written none of its outputs.  When it returns -4 the
    checksum failed after the outputs were written: [*pCmd] and [*pSeq]
    hold bytes 4 and 5 of the rejected input, and [*pPayloadLen], when
    given, the length field less 4. *)
Theorem parseFrame_outputs_on_error inBuf inLen o r o' :
  parseFrame inBuf inLen o = (r, o') ->
  (r = 0 \/ r = -1 \/ r = -2 \/ r = -3 \/ r = -4) /\
  (r = -1 \/ r = -2 \/ r = -3 -> o' = o) /\
  (r = -4 ->
   pCmd o' = inBuf 4 /\ pSeq o' = inBuf 5 /\
   forall l0, pPayloadLen o = Some l0 ->
     pPayloadLen o'
     = Some (u16 (u16 (Z.lor (inBuf 2) (Z.shiftl (inBuf 3) 8)) - 4))).
Proof.
  unfold parseFrame.
  destruct (inLen <? 8).
  { intros E. apply pair_equal_spec in E. destruct E as [<- <-].
    split; [auto|]. split; [reflexivity | discriminate]. }
  destruct (negb (inBuf 0 =? FRAME_HEAD_0) || negb (inBuf 1 =? FRAME_HEAD_1)).
  { intros E. apply pair_equal_spec in E. destruct E as [<- <-].
    split; [auto|]. split; [reflexivity | discriminate]. }
  destruct (negb (inBuf (inLen - 2) =? FRAME_TAIL_0)
            || negb (inBuf (inLen - 1) =? FRAME_TAIL_1)).
  { intros E. apply pair_equal_spec in E. destruct E as [<- <-].
    split; [auto|]. split; [reflexivity | discriminate]. }
  cbv zeta.
  destruct (negb (_ =? inLen)).
  { intros E. apply pair_equal_spec in E. destruct E as [<- <-].
    split; [auto 6|]. split; [reflexivity | discriminate]. }
  change (u16 (4 + 1)) with 5.
  destruct (negb _); intros E; apply pair_equal_spec in E;
    destruct E as [<- <-].
  - split; [auto 6|]. split; [intros [?|[?|?]]; discriminate|].
    intros _. cbn [pCmd pSeq pPayloadLen].
    split; [reflexivity|]. split; [reflexivity|].
    intros l0 ->. reflexivity.
  - split; [auto|]. split; [intros [?|[?|?]]; discriminate | discriminate].
Qed.

Lemma parseFrame_outputs_on_error_witness :
  let inBuf := of_list [0xAA; 0x55; 4; 0; 1; 7; 0; 0; 0x55; 0xAA] in
  let o := mkParseOut 0x33 0x44 None (Some 0x55) in
  fst (parseFrame inBuf 10 o) = -4 /\
  pCmd (snd (parseFrame inBuf 10 o)) = 1 /\
  pSeq (snd (parseFrame inBuf 10 o)) = 7.
Proof.
  intros inBuf o.
  destruct (parseFrame inBuf 10 o) as [r o'] eqn:E.
  destruct (parseFrame_outputs_on_error inBuf 10 o r o' E) as (_ & _ & H).
  assert (Hr : r = -4) by (vm_compute in E; congruence).
  destruct (H Hr) as (Hc & Hs & _).
  cbn [fst snd]. rewrite Hc, Hs. split; [exact Hr|]. split; reflexivity.
Defined.

(** ** A payload length that wraps the size check *)

(** X8.  [lengthField] and [totalFrameSize] are [uint16_t].  For a payload of
    65526 to 65535 bytes the total wraps to [payloadLen - 65526], so
    the size check passes for any buffer of 9 bytes: [buildFrame]
    returns 0 and reports that small length, after copying payload
    bytes to the cells from 6 on, far past the reported length. *)
Theorem buildFrame_length_wraps cmd sq p payloadLen outBuf outBufLen :
  65526 <= payloadLen <= 65535 -> 9 <= outBufLen ->
  exists f,
    buildFrame cmd sq (Some p) payloadLen outBuf outBufLen
    = (0, f, payloadLen - 65526) /\
    forall i, 4 <= i < payloadLen -> f (6 + i) = p i.
Proof.
  intros Hl Hcap. unfold buildFrame.
  assert (W : forall x, 65536 <= x < 131072 -> u16 x = x - 65536).
  { intros x Hx. unfold u16.
    replace x with (x - 65536 + 1 * 65536) at 1 by lia.
    rewrite Z.mod_add by lia. apply Z.mod_small. lia. }
  assert (T : u16 (2 + 2 + u16 (1 + 1 + payloadLen + 2) + 2)
              = payloadLen - 65526).
  { destruct (Z.lt_ge_cases payloadLen 65532).
    - rewrite (u16_small (1 + 1 + payloadLen + 2)) by lia.
      rewrite W by lia. lia.
    - rewrite (W (1 + 1 + payloadLen + 2)) by lia.
      rewrite u16_small by lia. lia. }
  rewrite T.
  destruct (Z.gtb_spec (payloadLen - 65526) outBufLen) as [G|G]; [lia|].
  cbv zeta.
  change (u16 (0 + 1)) with 1. change (u16 (1 + 1)) with 2.
  change (u16 (2 + 1)) with 3. change (u16 (3 + 1)) with 4.
  change (u16 (4 + 1)) with 5. change (u16 (5 + 1)) with 6.
  destruct (Z.gtb_spec payloadLen 0) as [P|P]; [|lia].
  assert (I1 : forall a b, u16 (u16 a + b) = u16 (a + b))
    by (intros a b; unfold u16; apply Z.add_mod_idemp_l; lia).
  rewrite !I1.
  assert (O : forall j, 0 <= j <= 3 ->
            u16 (6 + payloadLen + j) < 10
            \/ 6 + payloadLen <= u16 (6 + payloadLen + j)).
  { intros j Hj. destruct (Z.lt_ge_cases (6 + payloadLen + j) 65536).
    - right. rewrite u16_small by lia. lia.
    - left. rewrite W by lia. lia. }
  pose proof (O 0 ltac:(lia)) as O0. pose proof (O 1 ltac:(lia)) as O1.
  pose proof (O 2 ltac:(lia)) as O2. pose proof (O 3 ltac:(lia)) as O3.
  replace (6 + payloadLen + 0) with (6 + payloadLen) in O0 by lia.
  replace (6 + payloadLen + 1 + 1) with (6 + payloadLen + 2) by lia.
  replace (6 + payloadLen + 2 + 1) with (6 + payloadLen + 3) by lia.
  replace (u16 (6 + payloadLen + 3 + 1)) with (payloadLen - 65526)
    by (rewrite W; lia).
  set (o0 := u16 (6 + payloadLen)) in *.
  set (o1 := u16 (6 + payloadLen + 1)) in *.
  set (o2 := u16 (6 + payloadLen + 2)) in *.
  set (o3 := u16 (6 + payloadLen + 3)) in *.
  eexists. split; [reflexivity|].
  intros i Hi. unfold store, memcpy.
  destruct (Z.eqb_spec (6 + i) o3); [lia|].
  destruct (Z.eqb_spec (6 + i) o2); [lia|].
  destruct (Z.eqb_spec (6 + i) o1); [lia|].
  destruct (Z.eqb_spec (6 + i) o0); [lia|].
  destruct (Z.leb_spec 6 (6 + i)); [|lia].
  destruct (Z.ltb_spec (6 + i) (6 + payloadLen)); [|lia].
  cbn [andb]. f_equal. lia.
Qed.

Lemma buildFrame_length_wraps_witness :
  exists f,
    buildFrame 0x40 0 (Some (fun i => i mod 256)) 65530 (fun _ => 0) 16
    = (0, f, 4) /\
    forall i, 4 <= i < 65530 -> f (6 + i) = i mod 256.
Proof.
  apply (buildFrame_length_wraps 0x40 0 (fun i => i mod 256) 65530
           (fun _ => 0) 16); lia.
Defined.

(** * Further properties of the ring buffers *)

(** ** The cells of a ring as a list *)

Lemma ring_slice_length size buf head count :
  length (ring_slice size buf head count) = Z.to_nat count.
Proof. unfold ring_slice. rewrite length_map, length_seq. reflexivity. Qed.

Lemma ring_slice_nth size buf head count k d :
  (k < Z.to_nat count)%nat ->
  nth k (ring_slice size buf head count) d = buf ((head + Z.of_nat k) mod size).
Proof.
  intros Hk. unfold ring_slice.
  rewrite (nth_indep _ d (buf ((head + Z.of_nat 0) mod size)))
    by (rewrite length_map, length_seq; exact Hk).
  rewrite (map_nth (fun k => buf ((head + Z.of_nat k) mod size))).
  rewrite seq_nth by exact Hk. reflexivity.
Qed.

Lemma map_seq_from {A : Type} (f : nat -> A) n : forall s,
  map f (seq s n) = map (fun k => f (s + k)%nat) (seq 0 n).
Proof.
  induction n as [|n IH]; intros s; [reflexivity|].
  cbn [seq map]. f_equal; [f_equal; lia|].
  rewrite IH. rewrite <- (seq_shift n 0), map_map.
  apply map_ext. intros k. f_equal. lia.
Qed.

Lemma ring_slice_app size buf head a b :
  0 < size -> 0 <= a -> 0 <= b ->
  ring_slice size buf head (a + b)
  = ring_slice size buf head a ++ ring_slice size buf ((head + a) mod size) b.
Proof.
  intros Hs Ha Hb. unfold ring_slice.
  rewrite Z2Nat.inj_add by lia. rewrite seq_app, map_app. f_equal.
  rewrite map_seq_from. apply map_ext. intros k.
  rewrite Z.add_mod_idemp_l by lia. f_equal. f_equal. lia.
Qed.

Lemma ring_slice_ext size buf buf' head count :
  (forall k, 0 <= k < count -> buf ((head + k) mod size) = buf' ((head + k) mod size)) ->
  ring_slice size buf head count = ring_slice size buf' head count.
Proof.
  intros H. unfold ring_slice. apply map_ext_in. intros k Hk.
  apply in_seq in Hk. apply H. lia.
Qed.

Lemma ring_slice_to_list size buf head count m :
  0 <= count ->
  (forall k, 0 <= k < count -> buf ((head + k) mod size) = m k) ->
  ring_slice size buf head count = to_list m count.
Proof.
  intros Hc H. unfold ring_slice, to_list. apply map_ext_in. intros k Hk.
  apply in_seq in Hk. apply H. lia.
Qed.

Lemma app_eq_length {A : Type} (a b c d : list A) :
  a ++ b = c ++ d -> length a = length c -> a = c /\ b = d.
Proof.
  revert c. induction a as [|x a IH]; intros [|y c] E L;
    try discriminate L.
  - split; [reflexivity | exact E].
  - cbn [app] in E. injection E as -> E. cbn [length] in L.
    destruct (IH c E ltac:(lia)) as [-> ->]. split; reflexivity.
Qed.

Lemma to_list_length m n : length (to_list m n) = Z.to_nat n.
Proof. unfold to_list. rewrite length_map, length_seq. reflexivity. Qed.

Lemma to_list_nth m n k d :
  (k < Z.to_nat n)%nat -> nth k (to_list m n) d = m (Z.of_nat k).
Proof.
  intros Hk. unfold to_list.
  rewrite (nth_indep _ d (m (Z.of_nat 0)))
    by (rewrite length_map, length_seq; exact Hk).
  rewrite (map_nth (fun k => m (Z.of_nat k))).
  rewrite seq_nth by exact Hk. reflexivity.
Qed.

Lemma to_list_of_list l : to_list (of_list l) (Z.of_nat (length l)) = l.
Proof.
  apply (nth_ext _ _ 0 0).
  - rewrite to_list_length. lia.
  - intros k Hk. rewrite to_list_length in Hk.
    rewrite to_list_nth by exact Hk. unfold of_list.
    rewrite Nat2Z.id. reflexivity.
Qed.

(** The distance from one cursor to another, moved forward. *)
Lemma ring_distance_after head tail m :
  0 <= head < 65535 -> 0 <= tail < 65535 ->
  0 <= m <= (tail - head) mod 65535 ->
  (tail - (head + m) mod 65535) mod 65535 = (tail - head) mod 65535 - m.
Proof.
  intros Hh Ht Hm.
  pose proof (ring_mod_range (tail - head)) as R.
  rewrite Zminus_mod_idemp_r.
  replace (tail - (head + m)) with (tail - head - m) by lia.
  rewrite <- Zminus_mod_idemp_l.
  apply Z.mod_small. lia.
Qed.

Lemma ring_distance_grown head tail m :
  0 <= head < 65535 -> 0 <= tail < 65535 ->
  0 <= m <= (head + 65535 - tail - 1) mod 65535 ->
  ((tail + m) mod 65535 - head) mod 65535 = (tail - head) mod 65535 + m.
Proof.
  intros Hh Ht Hm.
  rewrite Zminus_mod_idemp_l.
  destruct (Z.le_gt_cases head tail) as [L|G].
  - rewrite (Z.mod_small (tail - head)) by lia.
    assert (E : (head + 65535 - tail - 1) mod 65535 = head + 65534 - tail).
    { destruct (Z.eq_dec head tail) as [->|N].
      - replace (tail + 65535 - tail - 1) with 65534 by lia.
        rewrite Z.mod_small; lia.
      - replace (head + 65535 - tail - 1) with (head + 65534 - tail) by lia.
        rewrite Z.mod_small; lia. }
    rewrite E in Hm.
    replace (tail + m - head) with (tail - head + m) by lia.
    apply Z.mod_small. lia.
  - assert (E : (head + 65535 - tail - 1) mod 65535 = head - tail - 1).
    { replace (head + 65535 - tail - 1) with (head - tail - 1 + 1 * 65535)
        by lia.
      rewrite Z.mod_add by lia. apply Z.mod_small. lia. }
    rewrite E in Hm.
    assert (E2 : (tail - head) mod 65535 = tail - head + 65535).
    { symmetry. apply Z.mod_unique with (q := -1); lia. }
    rewrite E2.
    symmetry. apply Z.mod_unique with (q := -1); lia.
Qed.

(** Free cells and waiting cells make up the ring, less the one cell
    that is never used. *)
Lemma ring_free_available head tail :
  0 <= head < 65535 -> 0 <= tail < 65535 ->
  (head + 65535 - tail - 1) mod 65535 + (tail - head) mod 65535 = 65534.
Proof.
  intros Hh Ht.
  destruct (Z.le_gt_cases head tail) as [L|G].
  - rewrite (Z.mod_small (tail - head)) by lia.
    destruct (Z.eq_dec head tail) as [->|N].
    + replace (tail + 65535 - tail - 1) with 65534 by lia.
      rewrite Z.mod_small; lia.
    + rewrite (Z.mod_small (head + 65535 - tail - 1)) by lia. lia.
  - replace ((head + 65535 - tail - 1) mod 65535) with (head - tail - 1)
      by (apply Z.mod_unique with (q := 1); lia).
    replace ((tail - head) mod 65535) with (tail - head + 65535)
      by (apply Z.mod_unique with (q := -1); lia).
    lia.
Qed.

Lemma ring_tail_from_head head tail :
  0 <= head < 65535 -> 0 <= tail < 65535 ->
  (head + (tail - head) mod 65535) mod 65535 = tail.
Proof.
  intros Hh Ht. rewrite Z.add_mod_idemp_r by lia.
  replace (head + (tail - head)) with tail by lia.
  apply Z.mod_small. lia.
Qed.

(** Writing [m] cells at the write cursor, with room for them, appends
    them to what the ring holds. *)
Lemma ring_slice_written buf buf' head tail m w :
  0 <= head < 65535 -> 0 <= tail < 65535 ->
  0 <= m <= (head + 65535 - tail - 1) mod 65535 ->
  (forall j, 0 <= j < m -> buf' ((tail + j) mod 65535) = w j) ->
  (forall c, (forall j, 0 <= j < m -> c <> (tail + j) mod 65535) ->
     buf' c = buf c) ->
  ring_slice 65535 buf' head ((tail - head) mod 65535 + m)
  = ring_slice 65535 buf head ((tail - head) mod 65535) ++ to_list w m.
Proof.
  intros Hh Ht Hm Hw Ho.
  pose proof (ring_free_available head tail Hh Ht) as FA.
  pose proof (ring_mod_range (tail - head)) as Ra.
  rewrite ring_slice_app by lia. f_equal.
  - apply ring_slice_ext. intros k Hk. apply Ho. intros j Hj E.
    rewrite <- (ring_tail_from_head head tail Hh Ht) in E at 1.
    rewrite Z.add_mod_idemp_l in E by lia.
    rewrite <- Z.add_assoc in E.
    apply ring_offsets_differ in E; lia.
  - rewrite ring_tail_from_head by assumption.
    apply ring_slice_to_list; [lia | exact Hw].
Qed.

(** ** The TX ring is a queue of frames *)

Lemma enqueue_loop_feed n : forall i buf tail frame,
  enqueue_loop n i buf tail frame = feed_loop n i buf tail frame.
Proof.
  induction n as [|n IH]; intros i buf tail frame; [reflexivity|].
  cbn [enqueue_loop feed_loop]. apply IH.
Qed.

Lemma tx_available_range t : 0 <= tx_available t < 65535.
Proof. unfold tx_available, TX_BUFFER_SIZE. apply ring_mod_range. Qed.

Lemma tx_free_available t :
  tx_wf t -> txBufferFreeSpace t + tx_available t = 65534.
Proof.
  intros W. rewrite (txBufferFreeSpace_eq t W).
  destruct W as [Hh Ht]. unfold TX_BUFFER_SIZE in *.
  apply ring_free_available; assumption.
Qed.

(** The cells that a successful [enqueueTxFrame] writes. *)
Lemma enqueueTxFrame_cells t frame frameLen :
  tx_wf t -> 0 <= frameLen ->
  frameLen + 2 <= txBufferFreeSpace t ->
  exists buf',
    enqueueTxFrame t frame frameLen
    = (0, mkTx buf' (tx_head t) ((tx_tail t + (frameLen + 2)) mod 65535)) /\
    buf' (tx_tail t) = frameLen mod 256 /\
    buf' ((tx_tail t + 1) mod 65535) = frameLen / 256 /\
    (forall k, 0 <= k < frameLen ->
       buf' ((tx_tail t + (2 + k)) mod 65535) = frame k) /\
    (forall c, (forall j, 0 <= j < frameLen + 2 ->
                  c <> (tx_tail t + j) mod 65535) ->
       buf' c = tx_buf t c).
Proof.
  intros W Hl Hfit.
  pose proof (tx_free_available t W) as FA.
  pose proof (tx_available_range t) as RA.
  destruct W as [Hh Ht]. unfold TX_BUFFER_SIZE in *.
  unfold enqueueTxFrame.
  rewrite (u16_small (frameLen + 2)) by lia.
  destruct (Z.gtb_spec (frameLen + 2) (txBufferFreeSpace t)) as [?|_]; [lia|].
  cbv zeta. unfold TX_BUFFER_SIZE.
  rewrite (ring_rem (tx_tail t + 1)) by lia.
  pose proof (ring_mod_range (tx_tail t + 1)) as R1.
  rewrite (ring_rem ((tx_tail t + 1) mod 65535 + 1)) by lia.
  rewrite Z.add_mod_idemp_l by lia.
  rewrite low_byte.
  assert (Hhi : u8 (Z.shiftr frameLen 8) = frameLen / 256).
  { rewrite Z.shiftr_div_pow2 by lia. change (2 ^ 8) with 256.
    apply u8_small. split; [apply Z.div_pos; lia|].
    apply Z.div_lt_upper_bound; lia. }
  rewrite Hhi. rewrite enqueue_loop_feed.
  set (b2 := store (store (tx_buf t) (tx_tail t) (frameLen mod 256))
               ((tx_tail t + 1) mod 65535) (frameLen / 256)).
  destruct (feed_loop_spec frame (Z.to_nat frameLen) 0 b2
              ((tx_tail t + 1 + 1) mod 65535))
    as (buf' & E & Hw & Ho); [apply ring_mod_range | lia |].
  rewrite Z2Nat.id in E, Hw, Ho by lia.
  rewrite E. exists buf'.
  assert (Far : forall a b, 0 <= a < 65535 -> 0 <= b < 65535 -> a <> b ->
                  (tx_tail t + a) mod 65535 <> (tx_tail t + b) mod 65535).
  { intros a b Ha Hb N E'. apply ring_offsets_differ in E'; lia. }
  assert (T0 : tx_tail t = (tx_tail t + 0) mod 65535)
    by (rewrite Z.add_0_r, Z.mod_small; lia).
  assert (Hloop : forall k, ((tx_tail t + 1 + 1) mod 65535 + k) mod 65535
                            = (tx_tail t + (2 + k)) mod 65535).
  { intros k. rewrite Z.add_mod_idemp_l by lia. f_equal. lia. }
  split; [|split; [|split; [|split]]].
  - rewrite Z.add_mod_idemp_l by lia. do 3 f_equal. lia.
  - rewrite Ho.
    + unfold b2, store.
      destruct (Z.eqb_spec (tx_tail t) ((tx_tail t + 1) mod 65535)) as [E'|_].
      * exfalso. rewrite T0 in E' at 1. revert E'. apply Far; lia.
      * rewrite Z.eqb_refl. reflexivity.
    + intros k Hk. rewrite Hloop. rewrite T0 at 1. apply Far; lia.
  - rewrite Ho.
    + unfold b2, store. rewrite Z.eqb_refl. reflexivity.
    + intros k Hk. rewrite Hloop. apply Far; lia.
  - intros k Hk. rewrite <- Hloop. rewrite Hw by lia. f_equal; lia.
  - intros c Hc. rewrite Ho.
    + unfold b2, store.
      destruct (Z.eqb_spec c ((tx_tail t + 1) mod 65535)) as [E'|_];
        [exfalso; apply (Hc 1); [lia | exact E']|].
      destruct (Z.eqb_spec c (tx_tail t)) as [E'|_]; [|reflexivity].
      exfalso. apply (Hc 0); [lia|]. rewrite <- T0. exact E'.
    + intros k Hk. rewrite Hloop. apply Hc. lia.
Qed.

Lemma tx_record_to_list frame n :
  0 <= n ->
  tx_record (to_list frame n)
  = to_list (fun j => if j =? 0 then n mod 256
                      else if j =? 1 then n / 256 else frame (j - 2)) (n + 2).
Proof.
  intros Hn. unfold tx_record. rewrite to_list_length, Z2Nat.id by lia.
  unfold to_list.
  replace (Z.to_nat (n + 2)) with (S (S (Z.to_nat n))) by lia.
  cbn [seq map]. f_equal. f_equal.
  rewrite (map_seq_from _ _ 2). apply map_ext. intros k.
  destruct (Z.eqb_spec (Z.of_nat (2 + k)) 0); [lia|].
  destruct (Z.eqb_spec (Z.of_nat (2 + k)) 1); [lia|].
  f_equal. lia.
Qed.

Lemma enqueueTxFrame_queue t fs frame frameLen :
  tx_holds t fs -> 0 <= frameLen ->
  frameLen + 2 <= txBufferFreeSpace t ->
  exists t',
    enqueueTxFrame t frame frameLen = (0, t') /\
    tx_holds t' (fs ++ [to_list frame frameLen]) /\
    txBufferFreeSpace t' = txBufferFreeSpace t - (frameLen + 2).
Proof.
  intros [W Hb] Hl Hfit.
  destruct (enqueueTxFrame_cells t frame frameLen W Hl Hfit)
    as (buf' & E & H0 & H1 & Hk & Ho).
  destruct (enqueueTxFrame_fits t frame frameLen W Hl Hfit) as (_ & W' & Fr).
  rewrite E in W', Fr. cbn [snd] in W', Fr.
  eexists. split; [exact E|]. split; [|exact Fr].
  split; [exact W'|].
  pose proof (txBufferFreeSpace_eq t W) as Hfree.
  pose proof (tx_free_available t W) as FA.
  destruct W as [Hh Ht]. unfold TX_BUFFER_SIZE in *.
  rewrite map_app, concat_app. cbn [map concat]. rewrite app_nil_r.
  rewrite <- Hb. unfold tx_bytes, tx_available, TX_BUFFER_SIZE.
  cbn [tx_buf tx_head tx_tail].
  rewrite ring_distance_grown by lia.
  rewrite tx_record_to_list by lia.
  apply ring_slice_written; try assumption; try lia.
  - intros j Hj.
    destruct (Z.eqb_spec j 0) as [->|N0].
    { rewrite Z.add_0_r, Z.mod_small by lia. exact H0. }
    destruct (Z.eqb_spec j 1) as [->|N1]; [exact H1|].
    replace j with (2 + (j - 2)) at 1 by lia. apply Hk. lia.
Qed.

Lemma tx_available_eq t :
  tx_wf t ->
  u16 (Z.rem (tx_tail t + TX_BUFFER_SIZE - tx_head t) TX_BUFFER_SIZE)
  = tx_available t.
Proof.
  intros [Hh Ht]. unfold tx_available, TX_BUFFER_SIZE in *.
  rewrite ring_rem by lia.
  replace (tx_tail t + 65535 - tx_head t)
    with (tx_tail t - tx_head t + 1 * 65535) by lia.
  apply Z.mod_add. lia.
Qed.

Lemma tx_bytes_length t : Z.of_nat (length (tx_bytes t)) = tx_available t.
Proof.
  unfold tx_bytes. rewrite ring_slice_length.
  pose proof (tx_available_range t). lia.
Qed.

Lemma tx_bytes_nth t k :
  0 <= k < tx_available t ->
  nth (Z.to_nat k) (tx_bytes t) 0 = tx_buf t ((tx_head t + k) mod 65535).
Proof.
  intros Hk. unfold tx_bytes.
  rewrite ring_slice_nth by lia. rewrite Z2Nat.id by lia. reflexivity.
Qed.

(** The cells that [dequeueTxFrame] reads and writes when a whole
    record is waiting. *)
Lemma dequeueTxFrame_cells t outFrame maxLen :
  tx_wf t ->
  let L :=
    u16 (Z.lor (tx_buf t (tx_head t))
               (Z.shiftl (tx_buf t ((tx_head t + 1) mod 65535)) 8)) in
  2 <= tx_available t -> L <= tx_available t - 2 -> 0 <= maxLen ->
  exists out',
    dequeueTxFrame t outFrame maxLen
    = (L, mkTx (tx_buf t) ((tx_head t + (2 + L)) mod 65535) (tx_tail t), out') /\
    (forall i, 0 <= i < Z.min L maxLen ->
       out' i = tx_buf t ((tx_head t + (2 + i)) mod 65535)) /\
    (forall i, ~ (0 <= i < Z.min L maxLen) -> out' i = outFrame i).
Proof.
  intros W L Hav HL Hmax.
  pose proof (tx_available_eq t W) as Ea.
  pose proof (tx_available_range t) as Ra.
  destruct W as [Hh Ht].
  assert (RL : 0 <= L < 65536) by apply u16_range.
  unfold dequeueTxFrame. rewrite Ea.
  destruct (Z.ltb_spec (tx_available t) 2) as [?|_]; [lia|].
  cbv zeta. unfold TX_BUFFER_SIZE in *.
  rewrite (ring_rem (tx_head t + 1)) by lia.
  pose proof (ring_mod_range (tx_head t + 1)) as R1.
  rewrite (ring_rem ((tx_head t + 1) mod 65535 + 1)) by lia.
  rewrite Z.add_mod_idemp_l by lia.
  fold L.
  rewrite (u16_small (tx_available t - 2)) by lia.
  destruct (Z.gtb_spec L (tx_available t - 2)) as [?|_]; [lia|].
  set (copyLen := if L <=? maxLen then L else maxLen).
  assert (Hc : copyLen = Z.min L maxLen)
    by (unfold copyLen; destruct (Z.leb_spec L maxLen); lia).
  destruct (dequeue_copy_spec (tx_buf t) (Z.to_nat copyLen) 0
              ((tx_head t + 1 + 1) mod 65535) outFrame)
    as (out' & E & Hcp & Ho); [apply ring_mod_range|].
  rewrite Z2Nat.id in E, Hcp, Ho by lia.
  rewrite E.
  rewrite dequeue_skip_spec by apply ring_mod_range.
  rewrite Z2Nat.id by lia.
  rewrite !Z.add_mod_idemp_l by lia.
  exists out'. split; [|split].
  - replace ((tx_head t + 1 + 1) mod 65535 + copyLen + (L - copyLen))
      with ((tx_head t + 1 + 1) mod 65535 + L) by lia.
    rewrite Z.add_mod_idemp_l by lia.
    replace (tx_head t + 1 + 1 + L) with (tx_head t + (2 + L)) by lia.
    reflexivity.
  - intros i Hi. rewrite <- Hc in Hi. specialize (Hcp i Hi).
    rewrite Z.add_mod_idemp_l in Hcp by lia.
    change (0 + i) with i in Hcp. rewrite Hcp. do 2 f_equal. lia.
  - intros i Hi. apply Ho. lia.
Qed.

Lemma tx_record_length f :
  Z.of_nat (length (tx_record f)) = Z.of_nat (length f) + 2.
Proof. unfold tx_record. cbn [length]. lia. Qed.

Lemma dequeueTxFrame_queue t f fs outFrame maxLen :
  tx_holds t (f :: fs) -> 0 <= maxLen ->
  exists t' out',
    dequeueTxFrame t outFrame maxLen = (Z.of_nat (length f), t', out') /\
    tx_holds t' fs /\
    to_list out' (Z.min (Z.of_nat (length f)) maxLen)
    = firstn (Z.to_nat maxLen) f /\
    (forall i, ~ (0 <= i < Z.min (Z.of_nat (length f)) maxLen) ->
       out' i = outFrame i).
Proof.
  intros [W Hb] Hmax.
  pose proof (tx_bytes_length t) as Hlen.
  pose proof (tx_available_range t) as Ra.
  assert (Hh : 0 <= tx_head t < 65535) by (destruct W as [H _]; exact H).
  cbn [map concat] in Hb.
  set (n := Z.of_nat (length f)) in *.
  set (rest := concat (map tx_record fs)) in *.
  assert (Hav : tx_available t = n + 2 + Z.of_nat (length rest)).
  { rewrite <- Hlen, Hb, length_app, Nat2Z.inj_add, tx_record_length. lia. }
  assert (Hn : 0 <= n < 65533) by lia.
  assert (C0 : tx_buf t (tx_head t) = n mod 256).
  { pose proof (tx_bytes_nth t 0 ltac:(lia)) as N.
    rewrite Hb in N. unfold tx_record in N.
    change (Z.to_nat 0) with 0%nat in N. cbn [app nth] in N.
    rewrite Z.add_0_r, (Z.mod_small (tx_head t)) in N by exact Hh.
    symmetry. exact N. }
  assert (C1 : tx_buf t ((tx_head t + 1) mod 65535) = n / 256).
  { pose proof (tx_bytes_nth t 1 ltac:(lia)) as N.
    rewrite Hb in N. unfold tx_record in N.
    change (Z.to_nat 1) with 1%nat in N. cbn [app nth] in N.
    symmetry. exact N. }
  assert (EL : u16 (Z.lor (tx_buf t (tx_head t))
                  (Z.shiftl (tx_buf t ((tx_head t + 1) mod 65535)) 8)) = n).
  { rewrite C0, C1.
    pose proof (Z.mod_pos_bound n 256 ltac:(lia)).
    assert (0 <= n / 256 < 256)
      by (split; [apply Z.div_pos; lia | apply Z.div_lt_upper_bound; lia]).
    rewrite lor_low_high by lia.
    pose proof (Z.div_mod n 256 ltac:(lia)).
    rewrite u16_small; lia. }
  destruct (dequeueTxFrame_cells t outFrame maxLen W)
    as (out' & E & Hc & Ho); [lia | rewrite EL; lia | exact Hmax |].
  rewrite EL in E, Hc, Ho.
  assert (Cells : forall k, 0 <= k < n ->
            tx_buf t ((tx_head t + (2 + k)) mod 65535) = nth (Z.to_nat k) f 0).
  { intros k Hk.
    rewrite <- (tx_bytes_nth t (2 + k)) by lia.
    rewrite Hb. unfold tx_record. fold n.
    replace (Z.to_nat (2 + k)) with (S (S (Z.to_nat k))) by lia.
    cbn [app nth]. apply app_nth1. lia. }
  eexists. exists out'. split; [exact E|]. split; [|split; [|exact Ho]].
  - destruct W as [_ Ht]. unfold TX_BUFFER_SIZE in *.
    split; [unfold tx_wf, TX_BUFFER_SIZE; cbn [tx_head tx_tail];
            split; [apply ring_mod_range | lia]|].
    unfold tx_bytes, tx_available, TX_BUFFER_SIZE in *.
    cbn [tx_buf tx_head tx_tail].
    rewrite ring_distance_after by lia.
    rewrite Hav in Hb |- *.
    replace (n + 2 + Z.of_nat (length rest))
      with ((2 + n) + Z.of_nat (length rest)) in Hb by lia.
    rewrite ring_slice_app in Hb by lia.
    apply app_eq_length in Hb.
    + destruct Hb as [_ Hb].
      replace (n + 2 + Z.of_nat (length rest) - (2 + n))
        with (Z.of_nat (length rest)) by lia.
      exact Hb.
    + rewrite ring_slice_length.
      apply Nat2Z.inj. rewrite tx_record_length. fold n. lia.
  - apply (nth_ext _ _ 0 0).
    + rewrite to_list_length, length_firstn. lia.
    + intros k Hk. rewrite to_list_length in Hk.
      rewrite to_list_nth by exact Hk.
      rewrite nth_firstn.
      destruct (Nat.ltb_spec k (Z.to_nat maxLen)) as [_|?]; [|lia].
      rewrite Hc by lia. rewrite Cells by lia.
      rewrite Nat2Z.id. reflexivity.
Qed.

(** X9.  A frame that fits is appended to the queue: after a successful
    [enqueueTxFrame] the TX ring holds the frames it held, followed by
    the [frameLen] bytes of the new frame, and the free space is down by
    [frameLen + 2]. *)
Theorem enqueueTxFrame_appends t fs frame frameLen :
  tx_holds t fs -> 0 <= frameLen ->
  frameLen + 2 <= txBufferFreeSpace t ->
  exists t',
    enqueueTxFrame t frame frameLen = (0, t') /\
    tx_holds t' (fs ++ [to_list frame frameLen]) /\
    txBufferFreeSpace t' = txBufferFreeSpace t - (frameLen + 2).
Proof. exact (enqueueTxFrame_queue t fs frame frameLen). Qed.

Lemma tx_holds_init t : tx_holds (initTxBuffer t) [].
Proof.
  split; [unfold tx_wf, TX_BUFFER_SIZE; cbn; lia|]. reflexivity.
Qed.

Lemma enqueueTxFrame_appends_witness :
  exists t',
    enqueueTxFrame (initTxBuffer (mkTx (fun _ => 0) 7 9))
      (of_list [1; 2; 3]) 3 = (0, t') /\
    tx_holds t' ([] ++ [to_list (of_list [1; 2; 3]) 3]) /\
    txBufferFreeSpace t'
    = txBufferFreeSpace (initTxBuffer (mkTx (fun _ => 0) 7 9)) - (3 + 2).
Proof.
  apply (enqueueTxFrame_appends (initTxBuffer (mkTx (fun _ => 0) 7 9)) []
           (of_list [1; 2; 3]) 3).
  - apply tx_holds_init.
  - lia.
  - vm_compute. discriminate.
Defined.

(** X10.  The queue is first in, first out: [dequeueTxFrame] on a ring that
    holds the frames [f :: fs] returns the length of [f], leaves [fs] in
    the ring, and puts the first [min (length f) maxLen] bytes of [f]
    into [outFrame], whose other cells keep their content.  For an empty
    frame [f] the return value is 0, as for an empty ring. *)
Theorem dequeueTxFrame_pops t f fs outFrame maxLen :
  tx_holds t (f :: fs) -> 0 <= maxLen ->
  exists t' out',
    dequeueTxFrame t outFrame maxLen = (Z.of_nat (length f), t', out') /\
    tx_holds t' fs /\
    to_list out' (Z.min (Z.of_nat (length f)) maxLen)
    = firstn (Z.to_nat maxLen) f /\
    (forall i, ~ (0 <= i < Z.min (Z.of_nat (length f)) maxLen) ->
       out' i = outFrame i).
Proof. exact (dequeueTxFrame_queue t f fs outFrame maxLen). Qed.

Lemma dequeueTxFrame_pops_witness :
  let t := mkTx (of_list [3; 0; 11; 12; 13; 1; 0; 21]) 0 8 in
  exists t' out',
    dequeueTxFrame t (fun _ => 0) 8192 = (3, t', out') /\
    tx_holds t' [[21]] /\
    to_list out' 3 = [11; 12; 13] /\
    (forall i, ~ (0 <= i < 3) -> out' i = 0).
Proof.
  intros t.
  apply (dequeueTxFrame_pops t [11; 12; 13] [[21]] (fun _ => 0) 8192); [|lia].
  split; [unfold tx_wf, TX_BUFFER_SIZE; cbn; lia|].
  vm_compute. reflexivity.
Defined.

Lemma dequeueTxFrame_idle t outFrame maxLen :
  tx_wf t ->
  tx_available t < 2 \/
  tx_available t - 2
  < u16 (Z.lor (tx_buf t (tx_head t))
               (Z.shiftl (tx_buf t ((tx_head t + 1) mod 65535)) 8)) ->
  dequeueTxFrame t outFrame maxLen = (0, t, outFrame).
Proof.
  intros W H.
  pose proof (tx_available_eq t W) as Ea.
  pose proof (tx_available_range t) as Ra.
  destruct W as [Hh Ht].
  unfold dequeueTxFrame. rewrite Ea.
  destruct (Z.ltb_spec (tx_available t) 2) as [S|S]; [reflexivity|].
  destruct H as [?|H]; [lia|].
  cbv zeta. unfold TX_BUFFER_SIZE in *.
  rewrite (ring_rem (tx_head t + 1)) by lia.
  pose proof (ring_mod_range (tx_head t + 1)) as R1.
  rewrite (ring_rem ((tx_head t + 1) mod 65535 + 1)) by lia.
  rewrite Z.add_mod_idemp_l by lia.
  rewrite (u16_small (tx_available t - 2)) by lia.
  destruct (Z.gtb_spec
              (u16 (Z.lor (tx_buf t (tx_head t))
                      (Z.shiftl (tx_buf t ((tx_head t + 1) mod 65535)) 8)))
              (tx_available t - 2)) as [_|?]; [|lia].
  pose proof (ring_mod_range (tx_head t + 1 + 1)) as R2.
  rewrite ring_rem by lia.
  replace ((tx_head t + 1 + 1) mod 65535 + 65535 - 2)
    with ((tx_head t + 1 + 1) mod 65535 + 65533) by lia.
  rewrite Z.add_mod_idemp_l by lia.
  replace (tx_head t + 1 + 1 + 65533) with (tx_head t + 1 * 65535) by lia.
  rewrite Z.mod_add, Z.mod_small by lia.
  destruct t; reflexivity.
Qed.

(** X11.  With nothing complete to read, [dequeueTxFrame] returns 0 and
    leaves the ring and [outFrame] exactly as they were: when fewer than
    two bytes are waiting, and when the record at the read cursor
    declares more bytes than are waiting (the cursor is put back). *)
Theorem dequeueTxFrame_nothing_to_read t outFrame maxLen :
  tx_wf t ->
  tx_available t < 2 \/
  tx_available t - 2
  < u16 (Z.lor (tx_buf t (tx_head t))
               (Z.shiftl (tx_buf t ((tx_head t + 1) mod 65535)) 8)) ->
  dequeueTxFrame t outFrame maxLen = (0, t, outFrame).
Proof. exact (dequeueTxFrame_idle t outFrame maxLen). Qed.

Lemma dequeueTxFrame_nothing_to_read_witness :
  let t := mkTx (of_list [9; 0; 11; 12; 13]) 0 5 in
  dequeueTxFrame (initTxBuffer t) (fun _ => 0) 8192
  = (0, initTxBuffer t, fun _ => 0) /\
  dequeueTxFrame t (fun _ => 0) 8192 = (0, t, fun _ => 0).
Proof.
  intros t. split.
  - apply (dequeueTxFrame_nothing_to_read (initTxBuffer t)).
    + unfold tx_wf, TX_BUFFER_SIZE. cbn. lia.
    + left. vm_compute. reflexivity.
  - apply (dequeueTxFrame_nothing_to_read t).
    + unfold tx_wf, TX_BUFFER_SIZE. cbn. lia.
    + right. vm_compute. reflexivity.
Defined.

(** ** The RX ring as a byte stream *)

Lemma rx_available_range r : 0 <= rx_available r < 65535.
Proof. unfold rx_available, RX_BUFFER_SIZE. apply ring_mod_range. Qed.

Lemma rx_available_eq r :
  rx_wf r ->
  u16 (Z.rem (rx_tail r + RX_BUFFER_SIZE - rx_head r) RX_BUFFER_SIZE)
  = rx_available r.
Proof.
  intros [Hh Ht]. unfold rx_available, RX_BUFFER_SIZE in *.
  rewrite ring_rem by lia.
  replace (rx_tail r + 65535 - rx_head r)
    with (rx_tail r - rx_head r + 1 * 65535) by lia.
  apply Z.mod_add. lia.
Qed.

Lemma rx_bytes_length r : Z.of_nat (length (rx_bytes r)) = rx_available r.
Proof.
  unfold rx_bytes. rewrite ring_slice_length.
  pose proof (rx_available_range r). lia.
Qed.

Lemma rx_bytes_nth r k :
  0 <= k < rx_available r ->
  nth (Z.to_nat k) (rx_bytes r) 0 = rx_buf r ((rx_head r + k) mod 65535).
Proof.
  intros Hk. unfold rx_bytes.
  rewrite ring_slice_nth by lia. rewrite Z2Nat.id by lia. reflexivity.
Qed.

Lemma rx_free_available r :
  rx_wf r -> rxBufferFreeSpace r + rx_available r = 65534.
Proof.
  intros W. rewrite (rxBufferFreeSpace_eq r W).
  destruct W as [Hh Ht]. unfold RX_BUFFER_SIZE in *.
  apply ring_free_available; assumption.
Qed.

(** [feedRxBuffer] appends to the stream the bytes for which there is
    room. *)
Lemma feedRxBuffer_bytes r data len :
  rx_wf r -> 0 <= len <= 65535 ->
  let n := Z.min len (rxBufferFreeSpace r) in
  exists r',
    feedRxBuffer r data len = (n, r') /\
    rx_wf r' /\
    rx_bytes r' = rx_bytes r ++ to_list data n.
Proof.
  intros W Hlen n.
  pose proof (feedRxBuffer_spec r data len W Hlen) as H. cbv zeta in H.
  unfold RX_BUFFER_SIZE in H.
  rewrite <- (rxBufferFreeSpace_eq r W) in H. fold n in H.
  destruct H as (Hn & Hh & Ht & Hw & Ho & W' & _).
  pose proof (rx_free_available r W) as FA.
  pose proof (rx_available_range r) as RA.
  destruct (feedRxBuffer r data len) as [ret r'].
  cbn [fst snd] in *. subst ret.
  exists r'. split; [reflexivity|]. split; [exact W'|].
  pose proof (rxBufferFreeSpace_eq r W) as Hfree.
  destruct W as [Wh Wt]. unfold RX_BUFFER_SIZE in *.
  unfold rx_bytes, rx_available, RX_BUFFER_SIZE.
  rewrite Hh, Ht.
  assert (Hn : 0 <= n <= rxBufferFreeSpace r) by (unfold n; lia).
  rewrite ring_distance_grown by lia.
  apply ring_slice_written; try assumption; lia.
Qed.

(** ** The frame extractor: one pass of the scan *)

Lemma copy_frame_cells buf idx n outFrame :
  0 <= idx < 65535 ->
  (forall k, 0 <= k < Z.of_nat n ->
     copy_frame n 0 buf idx outFrame k = buf ((idx + k) mod 65535)) /\
  (forall j, ~ (0 <= j < Z.of_nat n) ->
     copy_frame n 0 buf idx outFrame j = outFrame j).
Proof.
  intros Hi.
  destruct (copy_frame_spec buf idx n 0 outFrame) as (out' & E & Hc & Ho).
  rewrite E. split.
  - intros k Hk. specialize (Hc k Hk). cbn [Z.add] in Hc.
    change (0 + k) with k in Hc. rewrite Hc.
    unfold RX_BUFFER_SIZE. rewrite Z.rem_mod_nonneg by lia. reflexivity.
  - intros j Hj. apply Ho. lia.
Qed.

Lemma scan_body_skip r idx available outFrame outFrameLen :
  8 <= available < 65536 -> 0 <= idx < 65535 ->
  rx_buf r idx <> 0xAA \/ rx_buf r ((idx + 1) mod 65535) <> 0x55
  \/ MAX_FRAME_SIZE
     < u16 (2 + 2
            + u16 (Z.lor (rx_buf r ((idx + 2) mod 65535))
                     (Z.shiftl (rx_buf r ((idx + 3) mod 65535)) 8)) + 2) ->
  scan_body r idx available outFrame outFrameLen
  = Continue ((idx + 1) mod 65535) (available - 1).
Proof.
  intros Ha Hi H. unfold scan_body, MIN_FRAME_LEN, RX_BUFFER_SIZE.
  destruct (Z.geb_spec available 8) as [_|?]; [|lia].
  rewrite !Z.rem_mod_nonneg by lia.
  rewrite (u16_small ((idx + 1) mod 65535))
    by (pose proof (ring_mod_range (idx + 1)); lia).
  rewrite (u16_small (available - 1)) by lia.
  destruct (Z.eqb_spec (rx_buf r idx) 0xAA) as [E0|N0];
    [|cbn [andb]; reflexivity].
  destruct (Z.eqb_spec (rx_buf r ((idx + 1) mod 65535)) 0x55) as [E1|N1];
    [|cbn [andb]; reflexivity].
  cbn [andb].
  destruct (Z.ltb_spec available 8) as [?|_]; [lia|].
  cbv zeta.
  destruct H as [?|[?|H]]; [contradiction | contradiction |].
  destruct (Z.gtb_spec
    (u16 (2 + 2
          + u16 (Z.lor (rx_buf r ((idx + 2) mod 65535))
                   (Z.shiftl (rx_buf r ((idx + 3) mod 65535)) 8)) + 2))
    MAX_FRAME_SIZE) as [_|?]; [reflexivity | lia].
Qed.

Lemma scan_body_take r idx available outFrame outFrameLen :
  8 <= available < 65536 -> 0 <= idx < 65535 ->
  rx_buf r idx = 0xAA -> rx_buf r ((idx + 1) mod 65535) = 0x55 ->
  let n :=
    u16 (2 + 2
         + u16 (Z.lor (rx_buf r ((idx + 2) mod 65535))
                  (Z.shiftl (rx_buf r ((idx + 3) mod 65535)) 8)) + 2) in
  n <= MAX_FRAME_SIZE -> n <= available ->
  scan_body r idx available outFrame outFrameLen
  = Return true (copy_frame (Z.to_nat n) 0 (rx_buf r) idx outFrame) n
      (mkRx (rx_buf r) ((idx + n) mod 65535) (rx_tail r)).
Proof.
  intros Ha Hi E0 E1 n Hmax Hav.
  assert (Rn : 0 <= n < 65536) by apply u16_range.
  unfold scan_body, MIN_FRAME_LEN, RX_BUFFER_SIZE.
  destruct (Z.geb_spec available 8) as [_|?]; [|lia].
  rewrite !Z.rem_mod_nonneg by lia.
  rewrite E0, E1. cbn [Z.eqb andb Pos.eqb].
  destruct (Z.ltb_spec available 8) as [?|_]; [lia|].
  cbv zeta. fold n.
  destruct (Z.gtb_spec n MAX_FRAME_SIZE) as [?|_]; [lia|].
  destruct (Z.gtb_spec n available) as [?|_]; [lia|].
  rewrite (u16_small ((idx + n) mod 65535))
    by (pose proof (ring_mod_range (idx + n)); lia).
  reflexivity.
Qed.

(** A run of [j] passes that each move on by one byte. *)
Lemma scan_skip_run r outFrame outFrameLen j : forall idx available fuel,
  0 <= idx < 65535 -> Z.of_nat j + 7 <= available < 65536 ->
  (forall k, 0 <= k < Z.of_nat j ->
     rx_buf r ((idx + k) mod 65535) <> 0xAA
     \/ rx_buf r ((idx + (k + 1)) mod 65535) <> 0x55
     \/ MAX_FRAME_SIZE
        < u16 (2 + 2
               + u16 (Z.lor (rx_buf r ((idx + (k + 2)) mod 65535))
                        (Z.shiftl (rx_buf r ((idx + (k + 3)) mod 65535)) 8))
               + 2)) ->
  scan (j + fuel) r idx available outFrame outFrameLen
  = scan fuel r ((idx + Z.of_nat j) mod 65535) (available - Z.of_nat j)
      outFrame outFrameLen.
Proof.
  induction j as [|j IH]; intros idx available fuel Hi Ha H.
  - cbn [Nat.add Z.of_nat]. rewrite !Z.add_0_r, Z.sub_0_r.
    rewrite Z.mod_small by lia. reflexivity.
  - cbn [Nat.add].
    rewrite (scan_continue _ _ _ _ _ _ ((idx + 1) mod 65535) (available - 1)).
    + rewrite IH.
      * rewrite Z.add_mod_idemp_l by lia. f_equal; [f_equal|]; lia.
      * apply ring_mod_range.
      * lia.
      * intros k Hk. specialize (H (k + 1) ltac:(lia)).
        rewrite !Z.add_mod_idemp_l by lia.
        replace (idx + 1 + k) with (idx + (k + 1)) by lia.
        replace (idx + 1 + (k + 1)) with (idx + (k + 1 + 1)) by lia.
        replace (idx + 1 + (k + 2)) with (idx + (k + 1 + 2)) by lia.
        replace (idx + 1 + (k + 3)) with (idx + (k + 1 + 3)) by lia.
        exact H.
    + apply scan_body_skip; [lia | lia |].
      specialize (H 0 ltac:(lia)).
      rewrite Z.add_0_r in H. rewrite (Z.mod_small idx) in H by lia.
      exact H.
Qed.

Lemma ring_slice_drop buf head a b (A B : list Z) :
  0 <= a -> 0 <= b -> Z.of_nat (length A) = a ->
  ring_slice 65535 buf head (a + b) = A ++ B ->
  ring_slice 65535 buf ((head + a) mod 65535) b = B.
Proof.
  intros Ha Hb HA E.
  rewrite ring_slice_app in E by lia.
  apply app_eq_length in E; [apply E|].
  rewrite ring_slice_length. lia.
Qed.

Lemma skipn_nth_rx r k c :
  0 <= k -> 0 <= c -> k + c < rx_available r ->
  nth (Z.to_nat c) (skipn (Z.to_nat k) (rx_bytes r)) 0
  = rx_buf r ((rx_head r + (k + c)) mod 65535).
Proof.
  intros Hk Hc H. rewrite nth_skipn.
  rewrite <- Z2Nat.inj_add by lia.
  apply rx_bytes_nth. lia.
Qed.

(** The condition under which the scan moves on by one byte, on the
    cells and on the stream. *)
Lemma false_start_cells r k :
  rx_wf r -> 0 <= k -> k + 3 < rx_available r ->
  false_start (skipn (Z.to_nat k) (rx_bytes r)) ->
  rx_buf r ((rx_head r + k) mod 65535) <> 0xAA
  \/ rx_buf r ((rx_head r + (k + 1)) mod 65535) <> 0x55
  \/ MAX_FRAME_SIZE
     < u16 (2 + 2
            + u16 (Z.lor (rx_buf r ((rx_head r + (k + 2)) mod 65535))
                     (Z.shiftl (rx_buf r ((rx_head r + (k + 3)) mod 65535)) 8))
            + 2).
Proof.
  intros W Hk Hav. unfold false_start, declared_size.
  pose proof (skipn_nth_rx r k 0 Hk ltac:(lia) ltac:(lia)) as N0.
  pose proof (skipn_nth_rx r k 1 Hk ltac:(lia) ltac:(lia)) as N1.
  pose proof (skipn_nth_rx r k 2 Hk ltac:(lia) ltac:(lia)) as N2.
  pose proof (skipn_nth_rx r k 3 Hk ltac:(lia) ltac:(lia)) as N3.
  change (Z.to_nat 0) with 0%nat in N0. change (Z.to_nat 1) with 1%nat in N1.
  change (Z.to_nat 2) with 2%nat in N2. change (Z.to_nat 3) with 3%nat in N3.
  rewrite N0, N1, N2, N3.
  rewrite Z.add_0_r. intros H. exact H.
Qed.

Lemma tryExtractOneFrame_scan r outFrame outFrameLen :
  rx_wf r -> 8 <= rx_available r ->
  tryExtractOneFrame r outFrame outFrameLen
  = scan (S (Z.to_nat (rx_available r))) r (rx_head r) (rx_available r)
      outFrame outFrameLen.
Proof.
  intros W H. unfold tryExtractOneFrame. cbv zeta.
  rewrite (rx_available_eq r W). unfold MIN_FRAME_LEN.
  destruct (Z.ltb_spec (rx_available r) 8); [lia | reflexivity].
Qed.

(** Resynchronisation, in general: the extractor moves over any bytes
    at which no frame can start and takes the first frame behind
    them. *)
Lemma tryExtractOneFrame_after_junk r junk f rest outFrame outFrameLen :
  rx_wf r ->
  rx_bytes r = junk ++ f ++ rest ->
  (forall k, (k < length junk)%nat -> false_start (skipn k (rx_bytes r))) ->
  framed f ->
  exists out' r',
    tryExtractOneFrame r outFrame outFrameLen
    = Some (true, out', Z.of_nat (length f), r') /\
    to_list out' (Z.of_nat (length f)) = f /\
    (forall i, ~ (0 <= i < Z.of_nat (length f)) -> out' i = outFrame i) /\
    rx_wf r' /\ rx_bytes r' = rest.
Proof.
  intros W Hb Hjunk (F0 & F1 & Fd & Fmin & Fmax).
  unfold MIN_FRAME_LEN in Fmin.
  pose proof (rx_bytes_length r) as Hlen.
  pose proof (rx_available_range r) as Ra.
  set (j := Z.of_nat (length junk)).
  set (n := Z.of_nat (length f)) in *.
  set (c := Z.of_nat (length rest)).
  assert (Hav : rx_available r = j + (n + c)).
  { rewrite <- Hlen, Hb, !length_app, !Nat2Z.inj_add. reflexivity. }
  assert (Hh : 0 <= rx_head r < 65535) by (destruct W as [H _]; exact H).
  assert (Ht : 0 <= rx_tail r < 65535) by (destruct W as [_ H]; exact H).
  (* the cells of the frame *)
  assert (Cells : forall k, 0 <= k < n ->
            rx_buf r ((rx_head r + (j + k)) mod 65535) = nth (Z.to_nat k) f 0).
  { intros k Hk. rewrite <- rx_bytes_nth by lia.
    rewrite Hb, app_nth2 by lia.
    replace (Z.to_nat (j + k) - length junk)%nat with (Z.to_nat k) by lia.
    apply app_nth1. lia. }
  rewrite tryExtractOneFrame_scan by (assumption || lia).
  replace (S (Z.to_nat (rx_available r)))
    with (length junk + S (Z.to_nat (n + c)))%nat by lia.
  rewrite scan_skip_run; [|lia|fold j; lia|].
  2:{ intros k Hk. apply false_start_cells; [exact W | lia | lia |].
      apply Hjunk. lia. }
  fold j.
  set (idx := (rx_head r + j) mod 65535).
  assert (Ri : 0 <= idx < 65535) by apply ring_mod_range.
  assert (Cidx : forall k, (idx + k) mod 65535
                           = (rx_head r + (j + k)) mod 65535).
  { intros k. unfold idx. rewrite Z.add_mod_idemp_l by lia. f_equal. lia. }
  assert (E0 : rx_buf r idx = 0xAA).
  { unfold idx. replace (rx_head r + j) with (rx_head r + (j + 0)) by lia.
    rewrite Cells by lia. exact F0. }
  assert (E1 : rx_buf r ((idx + 1) mod 65535) = 0x55).
  { rewrite Cidx, Cells by lia. exact F1. }
  assert (En : u16 (2 + 2
                 + u16 (Z.lor (rx_buf r ((idx + 2) mod 65535))
                          (Z.shiftl (rx_buf r ((idx + 3) mod 65535)) 8)) + 2)
               = n).
  { rewrite !Cidx, !Cells by lia. exact Fd. }
  pose proof (scan_body_take r idx (rx_available r - j) outFrame outFrameLen
                ltac:(lia) Ri E0 E1) as Hs.
  cbv zeta in Hs. rewrite En in Hs.
  specialize (Hs Fmax ltac:(lia)).
  rewrite (scan_return _ _ _ _ _ _ _ _ _ _ Hs).
  destruct (copy_frame_cells (rx_buf r) idx (Z.to_nat n) outFrame Ri)
    as [Hc Ho].
  rewrite Z2Nat.id in Hc, Ho by lia.
  eexists. eexists. split; [reflexivity|].
  split; [|split; [exact Ho|split]].
  - apply (nth_ext _ _ 0 0).
    + rewrite to_list_length. lia.
    + intros k Hk. rewrite to_list_length in Hk.
      rewrite to_list_nth by exact Hk.
      rewrite Hc by lia. rewrite Cidx, Cells by lia.
      rewrite Nat2Z.id. reflexivity.
  - unfold rx_wf, RX_BUFFER_SIZE. cbn [rx_head rx_tail].
    split; [apply ring_mod_range | exact Ht].
  - unfold rx_bytes, rx_available, RX_BUFFER_SIZE in *.
    cbn [rx_buf rx_head rx_tail].
    rewrite Cidx.
    rewrite ring_distance_after by lia.
    rewrite Hav in Hb |- *.
    replace (j + (n + c) - (j + n)) with c by lia.
    replace (j + (n + c)) with ((j + n) + c) in Hb by lia.
    rewrite app_assoc in Hb.
    apply (ring_slice_drop _ _ (j + n) c (junk ++ f) rest); try lia.
    + rewrite length_app, Nat2Z.inj_add. reflexivity.
    + exact Hb.
Qed.

(** X12.  Resynchronisation.  Let the RX ring hold [junk ++ f ++ rest], where
    no frame can start at any byte of [junk] (no [AA 55] there, or one
    whose length field declares more than [MAX_FRAME_SIZE]) and [f]
    starts with [AA 55] and a length field declaring its own size.
    Then [tryExtractOneFrame] returns [f]: it succeeds with the length
    of [f], copies the bytes of [f] to the start of [outFrame] (whose
    other cells keep their content), drops [junk], and leaves [rest]
    in the ring. *)
Theorem tryExtractOneFrame_resyncs r junk f rest outFrame outFrameLen :
  rx_wf r ->
  rx_bytes r = junk ++ f ++ rest ->
  (forall k, (k < length junk)%nat -> false_start (skipn k (rx_bytes r))) ->
  framed f ->
  exists out' r',
    tryExtractOneFrame r outFrame outFrameLen
    = Some (true, out', Z.of_nat (length f), r') /\
    to_list out' (Z.of_nat (length f)) = f /\
    (forall i, ~ (0 <= i < Z.of_nat (length f)) -> out' i = outFrame i) /\
    rx_wf r' /\ rx_bytes r' = rest.
Proof.
  exact (tryExtractOneFrame_after_junk r junk f rest outFrame outFrameLen).
Qed.

Lemma tryExtractOneFrame_resyncs_witness :
  let ping := [0xAA; 0x55; 4; 0; 1; 7; 0x41; 0xE2; 0x55; 0xAA] in
  let r := mkRx (of_list ([0xFF; 0x55] ++ ping ++ [0xAA])) 0 13 in
  exists out' r',
    tryExtractOneFrame r (fun _ => 0) 0 = Some (true, out', 10, r') /\
    to_list out' 10 = ping /\
    (forall i, ~ (0 <= i < 10) -> out' i = 0) /\
    rx_wf r' /\ rx_bytes r' = [0xAA].
Proof.
  intros ping r.
  apply (tryExtractOneFrame_resyncs r [0xFF; 0x55] ping [0xAA] (fun _ => 0) 0).
  - unfold rx_wf, RX_BUFFER_SIZE. cbn. lia.
  - vm_compute. reflexivity.
  - intros k Hk. cbn [length] in Hk.
    assert (k = 0 \/ k = 1)%nat as [ -> | -> ] by lia;
      left; vm_compute; discriminate.
  - vm_compute. repeat split; discriminate.
Defined.

(** ** When the extractor fails *)

Lemma scan_body_false r idx available outFrame outFrameLen o l r' :
  scan_body r idx available outFrame outFrameLen = Return false o l r' ->
  o = outFrame /\ l = outFrameLen /\ r' = r.
Proof.
  unfold scan_body.
  destruct (_ >=? _); [|intros E; injection E as <- <- <-; auto].
  destruct (_ && _); [|discriminate].
  destruct (_ <? _); [intros E; injection E as <- <- <-; auto|].
  cbv zeta.
  destruct (_ >? MAX_FRAME_SIZE); [discriminate|].
  destruct (_ >? available); [intros E; injection E as <- <- <-; auto|].
  discriminate.
Qed.

Lemma scan_body_true r idx available outFrame outFrameLen o l r' :
  scan_body r idx available outFrame outFrameLen = Return true o l r' ->
  8 <= available /\ rx_buf r idx = 0xAA.
Proof.
  unfold scan_body, MIN_FRAME_LEN.
  destruct (Z.geb_spec available 8) as [G|?]; [|discriminate].
  destruct (Z.eqb_spec (rx_buf r idx) 0xAA) as [E0|?];
    [|cbn [andb]; discriminate].
  intros _. split; assumption.
Qed.

Lemma scan_body_next r idx available outFrame outFrameLen idx' available' :
  0 <= idx < 65535 ->
  scan_body r idx available outFrame outFrameLen = Continue idx' available' ->
  idx' = (idx + 1) mod 65535.
Proof.
  intros Hi. unfold scan_body, RX_BUFFER_SIZE.
  assert (E : u16 (Z.rem (idx + 1) 65535) = (idx + 1) mod 65535)
    by (apply ring_rem; lia).
  destruct (_ >=? _); [|discriminate].
  destruct (_ && _).
  - destruct (_ <? _); [discriminate|]. cbv zeta.
    destruct (_ >? MAX_FRAME_SIZE).
    + rewrite E. intros H. injection H as <- _. reflexivity.
    + destruct (_ >? available); discriminate.
  - rewrite E. intros H. injection H as <- _. reflexivity.
Qed.

(** A scan that fails has changed nothing. *)
Lemma scan_false fuel r outFrame outFrameLen : forall idx available o l r',
  scan fuel r idx available outFrame outFrameLen = Some (false, o, l, r') ->
  o = outFrame /\ l = outFrameLen /\ r' = r.
Proof.
  induction fuel as [|fuel IH]; intros idx available o l r' E;
    [discriminate|].
  cbn [scan] in E.
  destruct (scan_body r idx available outFrame outFrameLen)
    as [i a|g o1 l1 r1] eqn:B.
  - eapply IH. exact E.
  - injection E as -> -> -> ->. eapply scan_body_false. exact B.
Qed.

(** A scan that succeeds has found [0xAA] among the waiting bytes. *)
Lemma scan_true_header fuel r outFrame outFrameLen :
  forall idx available o l r',
  0 <= idx < 65535 -> 0 <= available < 65536 ->
  scan fuel r idx available outFrame outFrameLen = Some (true, o, l, r') ->
  exists k, 0 <= k < available /\ rx_buf r ((idx + k) mod 65535) = 0xAA.
Proof.
  induction fuel as [|fuel IH]; intros idx available o l r' Hi Ha E;
    [discriminate|].
  cbn [scan] in E.
  destruct (scan_body r idx available outFrame outFrameLen)
    as [i a|g o1 l1 r1] eqn:B.
  - pose proof (scan_body_next _ _ _ _ _ _ _ Hi B) as ->.
    apply scan_body_continue in B; [|exact Ha]. destruct B as [B8 ->].
    destruct (IH ((idx + 1) mod 65535) (available - 1) o l r'
                (ring_mod_range _) ltac:(lia) E) as (k & Hk & Ek).
    exists (k + 1). split; [lia|].
    rewrite Z.add_mod_idemp_l in Ek by lia.
    replace (idx + (k + 1)) with (idx + 1 + k) by lia. exact Ek.
  - injection E as -> -> -> ->.
    apply scan_body_true in B. destruct B as [B8 B0].
    exists 0. split; [lia|].
    rewrite Z.add_0_r, Z.mod_small by lia. exact B0.
Qed.

Lemma tryExtractOneFrame_false r outFrame outFrameLen o l r' :
  tryExtractOneFrame r outFrame outFrameLen = Some (false, o, l, r') ->
  o = outFrame /\ l = outFrameLen /\ r' = r.
Proof.
  unfold tryExtractOneFrame. cbv zeta.
  destruct (_ <? MIN_FRAME_LEN).
  - intros E. injection E as <- <- <-. auto.
  - apply scan_false.
Qed.

Lemma tryExtractOneFrame_no_header r outFrame outFrameLen :
  rx_wf r ->
  (forall b, In b (rx_bytes r) -> b <> 0xAA) ->
  tryExtractOneFrame r outFrame outFrameLen
  = Some (false, outFrame, outFrameLen, r).
Proof.
  intros W Hno.
  pose proof (tryExtractOneFrame_total r outFrame outFrameLen) as T.
  destruct (tryExtractOneFrame r outFrame outFrameLen)
    as [[[[got o] l] r']|] eqn:E; [|contradiction].
  destruct got.
  - exfalso. revert E. unfold tryExtractOneFrame. cbv zeta.
    rewrite (rx_available_eq r W).
    destruct (_ <? MIN_FRAME_LEN); [discriminate|].
    intros E.
    pose proof (rx_available_range r) as Ra.
    apply scan_true_header in E;
      [|destruct W as [H _]; exact H | lia].
    destruct E as (k & Hk & Ek).
    apply (Hno (rx_buf r ((rx_head r + k) mod 65535))); [|exact Ek].
    rewrite <- rx_bytes_nth by exact Hk.
    apply nth_In. pose proof (rx_bytes_length r). lia.
  - apply tryExtractOneFrame_false in E. destruct E as (-> & -> & ->).
    reflexivity.
Qed.

(** X13.  Bytes are only ever removed from the RX ring together with a frame.
    A ring that holds no [0xAA] at all is left as it is by the drain
    loop, which calls the handler not once; and when such a ring is
    full, every later [feedRxBuffer] stores nothing, so the ring stays
    in that state for good. *)
Theorem rx_ring_stuck_on_noise r :
  rx_wf r ->
  (forall b, In b (rx_bytes r) -> b <> 0xAA) ->
  (forall (St : Type) (onFrame : mem -> Z -> St -> St) tempFrame frameLen
          (s : St) (fuel : nat),
     (1 <= fuel)%nat ->
     tryParseFramesFromRx fuel r onFrame tempFrame frameLen s = Some (r, s)) /\
  (rxBufferFreeSpace r = 0 ->
   forall data len, 0 <= len -> feedRxBuffer r data len = (0, r)).
Proof.
  intros W Hno. split.
  - intros St onFrame tempFrame frameLen s fuel Hf.
    destruct fuel as [|fuel]; [lia|].
    cbn [tryParseFramesFromRx].
    rewrite tryExtractOneFrame_no_header by assumption.
    reflexivity.
  - intros Hfull data len Hlen. unfold feedRxBuffer. rewrite Hfull.
    destruct (Z.leb_spec len 0) as [L|L].
    + assert (len = 0) by lia. subst len.
      cbn [Z.to_nat feed_loop]. destruct r; reflexivity.
    + cbn [Z.to_nat feed_loop]. destruct r; reflexivity.
Qed.

Lemma rx_ring_stuck_on_noise_witness :
  let r := mkRx (fun _ => 0x11) 5 4 in
  tryParseFramesFromRx 1 r (fun _ _ (s : nat) => S s) (fun _ => 0) 0 0%nat
  = Some (r, 0%nat) /\
  feedRxBuffer r (fun _ => 0x22) 100 = (0, r).
Proof.
  intros r.
  assert (W : rx_wf r) by (unfold rx_wf, RX_BUFFER_SIZE; cbn; lia).
  assert (Hno : forall b, In b (rx_bytes r) -> b <> 0xAA).
  { intros b Hb. unfold rx_bytes, ring_slice in Hb.
    apply in_map_iff in Hb. destruct Hb as (k & <- & _).
    cbn. discriminate. }
  destruct (rx_ring_stuck_on_noise r W Hno) as [D F].
  split.
  - apply D. lia.
  - apply F; [vm_compute; reflexivity | lia].
Defined.

(** ** The drain loop *)

Lemma tryParseFramesFromRx_stream (St : Type) (onFrame : mem -> Z -> St -> St)
    rest fs :
  forall r tempFrame frameLen (s : St) (fuel : nat),
  rx_wf r ->
  rx_bytes r = concat fs ++ rest ->
  Forall framed fs ->
  Z.of_nat (length rest) < MIN_FRAME_LEN ->
  (length fs < fuel)%nat ->
  exists ms r',
    Forall2 (fun m f => to_list m (Z.of_nat (length f)) = f) ms fs /\
    tryParseFramesFromRx fuel r onFrame tempFrame frameLen s
    = Some (r', fold_left
                  (fun s mf => onFrame (fst mf) (Z.of_nat (length (snd mf))) s)
                  (combine ms fs) s) /\
    rx_wf r' /\ rx_bytes r' = rest.
Proof.
  induction fs as [|f fs IH];
    intros r tempFrame frameLen s fuel W Hb Hf Hrest Hfuel.
  - destruct fuel as [|fuel]; [cbn [length] in Hfuel; lia|].
    cbn [concat app] in Hb.
    exists [], r. split; [constructor|]. split; [|split; assumption].
    cbn [tryParseFramesFromRx combine fold_left].
    unfold tryExtractOneFrame. cbv zeta.
    rewrite (rx_available_eq r W).
    pose proof (rx_bytes_length r) as Hlen. rewrite Hb in Hlen.
    destruct (Z.ltb_spec (rx_available r) MIN_FRAME_LEN); [reflexivity | lia].
  - destruct fuel as [|fuel]; [lia|]. cbn [length] in Hfuel.
    inversion Hf as [|? ? Ff Ffs]; subst.
    cbn [concat] in Hb. rewrite <- app_assoc in Hb.
    destruct (tryExtractOneFrame_after_junk r [] f (concat fs ++ rest)
                tempFrame frameLen W Hb) as (out' & r1 & E & Ho & _ & W1 & Hb1).
    { intros k Hk. cbn [length] in Hk. lia. }
    { exact Ff. }
    destruct (IH r1 out' (Z.of_nat (length f))
                (onFrame out' (Z.of_nat (length f)) s) fuel W1 Hb1 Ffs Hrest
                ltac:(lia)) as (ms & r' & Hms & Er & W' & Hb').
    exists (out' :: ms), r'.
    split; [constructor; assumption|].
    split; [|split; assumption].
    cbn [tryParseFramesFromRx]. rewrite E. cbn [negb].
    rewrite Er. reflexivity.
Qed.

(** X14.  When the RX ring holds whole frames back to back, followed by fewer
    than [MIN_FRAME_LEN] bytes, [tryParseFramesFromRx] calls the handler
    once for each frame, in order, each time on a buffer whose first
    bytes are that frame and with that frame's length; it returns
    (given fuel for one more attempt than there are frames) and leaves
    the remaining bytes in the ring. *)
Theorem tryParseFramesFromRx_delivers_in_order
    (St : Type) (onFrame : mem -> Z -> St -> St)
    r fs rest tempFrame frameLen (s : St) (fuel : nat) :
  rx_wf r ->
  rx_bytes r = concat fs ++ rest ->
  Forall framed fs ->
  Z.of_nat (length rest) < MIN_FRAME_LEN ->
  (length fs < fuel)%nat ->
  exists ms r',
    Forall2 (fun m f => to_list m (Z.of_nat (length f)) = f) ms fs /\
    tryParseFramesFromRx fuel r onFrame tempFrame frameLen s
    = Some (r', fold_left
                  (fun s mf => onFrame (fst mf) (Z.of_nat (length (snd mf))) s)
                  (combine ms fs) s) /\
    rx_wf r' /\ rx_bytes r' = rest.
Proof.
  exact (tryParseFramesFromRx_stream St onFrame rest fs r tempFrame frameLen
           s fuel).
Qed.

Lemma tryParseFramesFromRx_delivers_in_order_witness :
  let ping := [0xAA; 0x55; 4; 0; 1; 7; 0x41; 0xE2; 0x55; 0xAA] in
  let r := mkRx (of_list (ping ++ ping ++ [0xAA; 0x55])) 0 22 in
  exists ms r',
    Forall2 (fun m f => to_list m (Z.of_nat (length f)) = f) ms [ping; ping] /\
    tryParseFramesFromRx 3 r (fun m n (s : list Z) => s ++ [n; m 5])
      (fun _ => 0) 0 []
    = Some (r', fold_left
                  (fun s mf => s ++ [Z.of_nat (length (snd mf)); fst mf 5])
                  (combine ms [ping; ping]) []) /\
    rx_wf r' /\ rx_bytes r' = [0xAA; 0x55].
Proof.
  intros ping r.
  apply (tryParseFramesFromRx_delivers_in_order (list Z)
           (fun m n s => s ++ [n; m 5]) r [ping; ping] [0xAA; 0x55]
           (fun _ => 0) 0 [] 3).
  - unfold rx_wf, RX_BUFFER_SIZE. cbn. lia.
  - vm_compute. reflexivity.
  - assert (F : framed ping) by (vm_compute; repeat split; discriminate).
    constructor; [exact F|]. constructor; [exact F|]. constructor.
  - vm_compute. reflexivity.
  - cbn. lia.
Defined.

(** X15.  A header whose length field is [0xFFFA] declares a frame of size
    [(6 + 0xFFFA) mod 2^16 = 0].  With [AA 55 FA FF] at the read cursor
    and eight bytes waiting, [tryExtractOneFrame] reports a frame of
    length 0 and leaves the ring as it is, so the [while (1)] loop of
    [tryParseFramesFromRx] never ends: it is out of fuel whatever fuel
    it is given. *)
Theorem tryParseFramesFromRx_zero_size_frame_loops r :
  rx_wf r -> 8 <= rx_available r ->
  firstn 4 (rx_bytes r) = [0xAA; 0x55; 0xFA; 0xFF] ->
  (forall outFrame outFrameLen,
     tryExtractOneFrame r outFrame outFrameLen = Some (true, outFrame, 0, r)) /\
  forall (St : Type) (onFrame : mem -> Z -> St -> St) tempFrame frameLen
         (s : St) (fuel : nat),
    tryParseFramesFromRx fuel r onFrame tempFrame frameLen s = None.
Proof.
  intros W Hav H4.
  pose proof (rx_available_range r) as Ra.
  assert (Hh : 0 <= rx_head r < 65535) by (destruct W as [H _]; exact H).
  assert (Cell : forall k, 0 <= k < 4 ->
            rx_buf r ((rx_head r + k) mod 65535)
            = nth (Z.to_nat k) [0xAA; 0x55; 0xFA; 0xFF] 0).
  { intros k Hk. rewrite <- rx_bytes_nth by lia.
    rewrite <- H4, nth_firstn.
    destruct (Nat.ltb_spec (Z.to_nat k) 4); [reflexivity | lia]. }
  assert (X : forall outFrame outFrameLen,
            tryExtractOneFrame r outFrame outFrameLen
            = Some (true, outFrame, 0, r)).
  { intros outFrame outFrameLen.
    rewrite tryExtractOneFrame_scan by assumption.
    pose proof (scan_body_take r (rx_head r) (rx_available r) outFrame
                  outFrameLen ltac:(lia) Hh) as Hs.
    pose proof (Cell 0 ltac:(lia)) as C0.
    rewrite Z.add_0_r, Z.mod_small in C0 by lia.
    rewrite (Cell 1), (Cell 2), (Cell 3), C0 in Hs by lia.
    cbv zeta in Hs.
    change (Z.to_nat 0) with 0%nat in Hs. change (Z.to_nat 1) with 1%nat in Hs.
    change (Z.to_nat 2) with 2%nat in Hs. change (Z.to_nat 3) with 3%nat in Hs.
    cbn [nth] in Hs.
    change (u16 (2 + 2 + u16 (Z.lor 250 (Z.shiftl 255 8)) + 2)) with 0 in Hs.
    specialize (Hs eq_refl eq_refl ltac:(unfold MAX_FRAME_SIZE; lia)
                  ltac:(lia)).
    rewrite (scan_return _ _ _ _ _ _ _ _ _ _ Hs).
    cbn [Z.to_nat copy_frame].
    rewrite Z.add_0_r, Z.mod_small by lia.
    destruct r; reflexivity. }
  split; [exact X|].
  intros St onFrame tempFrame frameLen s fuel.
  revert tempFrame frameLen s.
  induction fuel as [|fuel IH]; intros tempFrame frameLen s; [reflexivity|].
  cbn [tryParseFramesFromRx]. rewrite X. cbn [negb]. apply IH.
Qed.

Lemma tryParseFramesFromRx_zero_size_frame_loops_witness :
  let r := mkRx (of_list [0xAA; 0x55; 0xFA; 0xFF; 1; 2; 3; 4]) 0 8 in
  tryParseFramesFromRx 1000 r (fun _ _ (s : nat) => S s) (fun _ => 0) 0 0%nat
  = None.
Proof.
  intros r.
  refine (proj2 (tryParseFramesFromRx_zero_size_frame_loops r _ _ _)
            nat _ _ _ _ _).
  - unfold rx_wf, RX_BUFFER_SIZE. cbn. lia.
  - vm_compute. discriminate.
  - vm_compute. reflexivity.
Defined.

(** * Further properties of the device engine *)

(** ** From a send call to the bytes in the TX ring *)

Lemma to_list_ext a b n :
  agree_upto a b n -> to_list a n = to_list b n.
Proof.
  intros H. unfold to_list. apply map_ext_in. intros k Hk.
  apply in_seq in Hk. apply H. lia.
Qed.

Lemma of_list_to_list p n i :
  0 <= i < n -> of_list (to_list p n) i = p i.
Proof.
  intros Hi. unfold of_list.
  rewrite to_list_nth by lia. rewrite Z2Nat.id by lia. reflexivity.
Qed.

(** A memory laid out as a frame holds the bytes of that frame. *)
Lemma frame_layout_bytes_eq cmd sq payload len F :
  payload_present payload len -> 0 <= len <= 65525 ->
  frame_layout cmd sq payload len F ->
  to_list F (10 + len) = frame_bytes cmd sq (payload_bytes payload len).
Proof.
  intros Hp Hl L. unfold frame_bytes.
  rewrite (length_payload_bytes payload len Hp) by lia.
  destruct (buildFrame_layout_present cmd sq
              (Some (of_list (payload_bytes payload len))) len
              (fun _ => 0) 65535 I ltac:(lia) ltac:(lia) ltac:(lia))
    as (f & -> & Lf & _).
  apply to_list_ext.
  apply (frame_layout_unique cmd sq payload
           (Some (of_list (payload_bytes payload len))) len F f);
    [lia | | exact L | exact Lf].
  intros i Hi. unfold payload_at, payload_bytes.
  destruct payload as [p|].
  - rewrite of_list_to_list by lia. reflexivity.
  - cbn in Hp. lia.
Qed.

Lemma app_send_frame_with_seq_wire cmd sq payload len g fs :
  payload_present payload len -> 0 <= len <= 8182 ->
  tx_holds (tx_buffer g) fs ->
  let g' := app_send_frame_with_seq cmd sq payload len g in
  let bytes := payload_bytes payload len in
  (12 + len <= txBufferFreeSpace (tx_buffer g) ->
   tx_log g' = tx_log g ++ [mkEvent cmd sq bytes (Queued (10 + len))] /\
   tx_holds (tx_buffer g') (fs ++ [frame_bytes cmd sq bytes]) /\
   txBufferFreeSpace (tx_buffer g')
   = txBufferFreeSpace (tx_buffer g) - (12 + len)) /\
  (txBufferFreeSpace (tx_buffer g) < 12 + len ->
   tx_log g' = tx_log g ++ [mkEvent cmd sq bytes Dropped] /\
   tx_buffer g' = tx_buffer g) /\
  same_engine g g' /\ seq_counter g' = seq_counter g /\
  rx_buffer g' = rx_buffer g /\ rand_src g' = rand_src g.
Proof.
  intros Hp Hl Hq g' bytes. subst g' bytes.
  destruct (app_send_frame_with_seq_spec cmd sq payload len g Hp Hl)
    as (F & Hb & L & E).
  rewrite E.
  destruct (Z.gtb_spec (10 + len + 2) (txBufferFreeSpace (tx_buffer g)))
    as [G|G]; cbn [tx_log tx_buffer set_tx seq_counter rx_buffer rand_src].
  - split; [intros; lia|].
    split; [intros _; split; reflexivity|].
    split; [unfold same_engine; cbn; repeat split|].
    repeat split.
  - split; [|split; [intros; lia|]].
    + intros _. split; [reflexivity|].
      destruct (enqueueTxFrame_queue (tx_buffer g) fs F (10 + len) Hq)
        as (t' & Et & Ht & Fr); [lia | lia |].
      rewrite Et. cbn [snd].
      rewrite (frame_layout_bytes_eq cmd sq payload len F Hp ltac:(lia) L)
        in Ht.
      split; [exact Ht|]. rewrite Fr. lia.
    + split; [unfold same_engine; cbn; repeat split|].
      repeat split.
Qed.

(** X16.  A frame is queued whole or not at all.  When the TX ring holds the
    frames [fs] and has room for [12 + len] bytes, a send call puts the
    bytes of the frame behind them and logs it as queued; otherwise it
    logs it as dropped and leaves the ring as it was.  Apart from the
    TX ring and the frame buffer the state does not change. *)
Theorem app_send_frame_with_seq_queues_or_drops cmd sq payload len g fs :
  payload_present payload len -> 0 <= len <= 8182 ->
  tx_holds (tx_buffer g) fs ->
  let g' := app_send_frame_with_seq cmd sq payload len g in
  let bytes := payload_bytes payload len in
  (12 + len <= txBufferFreeSpace (tx_buffer g) ->
   tx_log g' = tx_log g ++ [mkEvent cmd sq bytes (Queued (10 + len))] /\
   tx_holds (tx_buffer g') (fs ++ [frame_bytes cmd sq bytes]) /\
   txBufferFreeSpace (tx_buffer g')
   = txBufferFreeSpace (tx_buffer g) - (12 + len)) /\
  (txBufferFreeSpace (tx_buffer g) < 12 + len ->
   tx_log g' = tx_log g ++ [mkEvent cmd sq bytes Dropped] /\
   tx_buffer g' = tx_buffer g) /\
  same_engine g g' /\ seq_counter g' = seq_counter g /\
  rx_buffer g' = rx_buffer g /\ rand_src g' = rand_src g.
Proof. exact (app_send_frame_with_seq_wire cmd sq payload len g fs). Qed.

Lemma app_init_tx_holds rnd : tx_holds (tx_buffer (app_init rnd)) [].
Proof.
  split; [unfold tx_wf, TX_BUFFER_SIZE; cbn; lia | reflexivity].
Qed.

Lemma app_send_frame_with_seq_queues_or_drops_witness :
  let g := app_init (fun _ => 0) in
  let g' := app_send_frame_with_seq CMD_ACK 9 None 0 g in
  tx_log g' = [mkEvent CMD_ACK 9 [] (Queued 10)] /\
  tx_holds (tx_buffer g') [frame_bytes CMD_ACK 9 []].
Proof.
  intros g g'.
  destruct (app_send_frame_with_seq_queues_or_drops CMD_ACK 9 None 0 g []
              eq_refl ltac:(lia) (app_init_tx_holds _)) as (Q & _).
  destruct Q as (L & H & _); [vm_compute; discriminate|].
  split; [exact L | exact H].
Defined.

(** ** The command handler *)

Lemma same_but_tx_refl g : same_but_tx g g.
Proof. unfold same_but_tx, same_engine. repeat split. Qed.

Lemma app_send_frame_with_seq_reply cmd sq payload len g :
  exists oc,
    tx_log (app_send_frame_with_seq cmd sq payload len g)
    = tx_log g ++ [mkEvent cmd sq (payload_bytes payload len) oc] /\
    same_but_tx g (app_send_frame_with_seq cmd sq payload len g).
Proof.
  destruct (app_send_frame_with_seq_log cmd sq payload len g)
    as (fb & tb & oc & E).
  exists oc. rewrite E. split; [reflexivity|].
  unfold same_but_tx, same_engine. cbn. repeat split.
Qed.

Lemma configure_loop_same payload payload_len n : forall offset g,
  let g' := configure_loop n offset payload payload_len g in
  mode g' = mode g /\ status g' = status g /\
  seq_counter g' = seq_counter g /\ num_channels g' = num_channels g /\
  trigger g' = trigger g /\ rx_buffer g' = rx_buffer g /\
  tx_buffer g' = tx_buffer g /\ tx_log g' = tx_log g /\
  rand_src g' = rand_src g.
Proof.
  induction n as [|n IH]; intros offset g; [cbn; repeat split|].
  cbn [configure_loop].
  destruct (offset + 6 <=? payload_len); [|cbn; repeat split].
  cbv zeta.
  match goal with
  | |- context [configure_loop n ?o payload payload_len ?g1] =>
      pose proof (IH o g1) as H; cbv zeta in H;
      destruct H as (H1 & H2 & H3 & H4 & H5 & H6 & H7 & H8 & H9)
  end.
  rewrite H1, H2, H3, H4, H5, H6, H7, H8, H9.
  destruct (_ <? _); cbn; repeat split.
Qed.

(** A send call builds the frame in [tx_frame_buf] and, when the TX
    ring has room, queues its bytes behind the frames already there. *)
Lemma app_send_frame_with_seq_frame cmd sq payload len g :
  payload_present payload len -> 0 <= len <= 8182 ->
  let g' := app_send_frame_with_seq cmd sq payload len g in
  let bytes := payload_bytes payload len in
  responds_with g g' cmd sq bytes /\
  frame_layout cmd sq payload len (tx_frame_buf g') /\
  forall fs, tx_holds (tx_buffer g) fs ->
    12 + len <= txBufferFreeSpace (tx_buffer g) ->
    tx_log g' = tx_log g ++ [mkEvent cmd sq bytes (Queued (10 + len))] /\
    tx_holds (tx_buffer g') (fs ++ [frame_bytes cmd sq bytes]).
Proof.
  intros Hp Hl g' bytes. subst g' bytes.
  split; [apply app_send_frame_with_seq_responds|]. split.
  - destruct (app_send_frame_with_seq_spec cmd sq payload len g Hp Hl)
      as (F & _ & L & E).
    rewrite E. destruct (_ >? _); exact L.
  - intros fs Hq Hroom.
    destruct (app_send_frame_with_seq_wire cmd sq payload len g fs Hp Hl Hq)
      as (Q & _).
    destruct (Q Hroom) as (L & H & _). split; [exact L | exact H].
Qed.

(** ** C6: the reply to ConfigureStream *)

(** C6 (as the code has it).  ConfigureStream is answered with Nack
    {0x01, 0x01} exactly when the payload is empty, and no channel
    changes then.  Any payload with at least the count byte is answered
    with Ack (empty payload), also when the count byte promises more
    records than the payload contains: the records that are complete,
    at most [count] of them, are applied in order and the rest is
    ignored.  Both answers carry the request's sequence number.  The
    answer is a frame: it is built in [tx_frame_buf] with the layout of
    a Nack of 12 bytes or an Ack of 10 bytes, and when the TX ring has
    room for it and its two-byte length (14 or 12 free bytes) it is
    logged as queued and its bytes stand in the ring behind the frames
    that were waiting there. *)
Theorem configure_stream_reply g sq payload payload_len :
  0 <= payload_len <= 65535 ->
  let g' := app_handle_command CMD_CONFIGURE_STREAM sq payload payload_len g in
  (payload_len < 1 ->
   responds_with g g' CMD_NACK sq [0x01; 0x01] /\ channels g' = channels g /\
   frame_layout CMD_NACK sq (Some (of_list [0x01; 0x01])) 2
     (tx_frame_buf g') /\
   forall fs, tx_holds (tx_buffer g) fs ->
     14 <= txBufferFreeSpace (tx_buffer g) ->
     tx_log g' = tx_log g ++ [mkEvent CMD_NACK sq [0x01; 0x01] (Queued 12)] /\
     tx_holds (tx_buffer g') (fs ++ [frame_bytes CMD_NACK sq [0x01; 0x01]])) /\
  (1 <= payload_len ->
   responds_with g g' CMD_ACK sq [] /\
   channels g'
   = channels
       (apply_configs
          (Z.to_nat (Z.min (payload 0) ((payload_len - 1) / 6))) 1 payload g) /\
   frame_layout CMD_ACK sq None 0 (tx_frame_buf g') /\
   forall fs, tx_holds (tx_buffer g) fs ->
     12 <= txBufferFreeSpace (tx_buffer g) ->
     tx_log g' = tx_log g ++ [mkEvent CMD_ACK sq [] (Queued 10)] /\
     tx_holds (tx_buffer g') (fs ++ [frame_bytes CMD_ACK sq []])).
Proof.
  intros Hl g'. subst g'. unfold app_handle_command.
  change (CMD_CONFIGURE_STREAM =? CMD_PING) with false.
  change (CMD_CONFIGURE_STREAM =? CMD_GET_STATUS) with false.
  change (CMD_CONFIGURE_STREAM =? CMD_GET_DEVICE_INFO) with false.
  change (CMD_CONFIGURE_STREAM =? CMD_SET_MODE_CONTINUOUS) with false.
  change (CMD_CONFIGURE_STREAM =? CMD_SET_MODE_TRIGGER) with false.
  change (CMD_CONFIGURE_STREAM =? CMD_START_STREAM) with false.
  change (CMD_CONFIGURE_STREAM =? CMD_STOP_STREAM) with false.
  change (CMD_CONFIGURE_STREAM =? CMD_CONFIGURE_STREAM) with true.
  cbv iota zeta.
  destruct (Z.ltb_spec payload_len 1) as [Hs|Hs]; (split; [intros Hx|intros Hx]);
    try lia.
  - destruct (app_send_frame_with_seq_frame CMD_NACK sq
                (Some (of_list [0x01; 0x01])) 2 g I ltac:(lia))
      as (R & L & Q).
    split; [exact R|].
    split; [apply app_send_frame_with_seq_channels|].
    split; [exact L|]. intros fs Hq Hroom. apply (Q fs Hq). lia.
  - set (g1 := configure_loop (Z.to_nat (payload 0)) 1 payload payload_len g).
    pose proof (configure_loop_same payload payload_len
                  (Z.to_nat (payload 0)) 1 g) as S.
    cbv zeta in S. fold g1 in S.
    destruct S as (_ & _ & _ & _ & _ & _ & St & Sl & _).
    destruct (app_send_frame_with_seq_frame CMD_ACK sq None 0 g1
                eq_refl ltac:(lia)) as (R & L & Q).
    cbn [payload_bytes] in R, Q.
    split; [|split; [|split; [exact L|]]].
    + destruct R as [oc E]. exists oc. rewrite E, Sl. reflexivity.
    + rewrite app_send_frame_with_seq_channels. subst g1.
      rewrite configure_loop_apply by lia.
      rewrite <- Z2Nat.inj_min. reflexivity.
    + intros fs Hq Hroom. rewrite <- St in Hq, Hroom.
      destruct (Q fs Hq ltac:(lia)) as (E & H).
      split; [rewrite E, Sl; reflexivity | exact H].
Qed.

Lemma configure_stream_reply_witness :
  let g := app_init (fun _ => 0) in
  let payload := of_list [2; 0; 0x10; 0x27; 0; 0; 1] in
  let g' := app_handle_command CMD_CONFIGURE_STREAM 9 payload 7 g in
  responds_with g g' CMD_ACK 9 [] /\
  tx_log g' = [mkEvent CMD_ACK 9 [] (Queued 10)] /\
  tx_holds (tx_buffer g')
    [[0xAA; 0x55; 4; 0; 0x90; 9; 0xAD; 0xB6; 0x55; 0xAA]].
Proof.
  intros g payload g'.
  destruct (configure_stream_reply g 9 payload 7) as [_ A].
  - lia.
  - destruct (A ltac:(lia)) as (R & _ & _ & Q).
    destruct (Q [] (app_init_tx_holds _) ltac:(vm_compute; discriminate))
      as (E & H).
    split; [exact R|]. split; [exact E | exact H].
Defined.

(** X17.  Every command is answered by exactly one frame, which carries the
    sequence number of the request and is one of Pong, StatusResponse,
    DeviceInfoResponse, Ack and Nack.  Handling a command never changes
    the counter from which unsolicited frames are numbered, the number
    of channels or the RX ring. *)
Theorem app_handle_command_replies_once cmd sq payload payload_len g :
  let g' := app_handle_command cmd sq payload payload_len g in
  exists ev,
    tx_log g' = tx_log g ++ [ev] /\
    ev_seq ev = sq /\
    In (ev_cmd ev)
      [CMD_PONG; CMD_STATUS_RESPONSE; CMD_DEVICE_INFO_RESPONSE; CMD_ACK;
       CMD_NACK] /\
    seq_counter g' = seq_counter g /\
    num_channels g' = num_channels g /\
    rx_buffer g' = rx_buffer g.
Proof.
  cbv zeta. unfold app_handle_command.
  assert (R : forall c pl ln g0,
            tx_log g0 = tx_log g -> seq_counter g0 = seq_counter g ->
            num_channels g0 = num_channels g -> rx_buffer g0 = rx_buffer g ->
            In c [CMD_PONG; CMD_STATUS_RESPONSE; CMD_DEVICE_INFO_RESPONSE;
                  CMD_ACK; CMD_NACK] ->
            exists ev,
              tx_log (app_send_frame_with_seq c sq pl ln g0) = tx_log g ++ [ev]
              /\ ev_seq ev = sq /\
              In (ev_cmd ev)
                [CMD_PONG; CMD_STATUS_RESPONSE; CMD_DEVICE_INFO_RESPONSE;
                 CMD_ACK; CMD_NACK] /\
              seq_counter (app_send_frame_with_seq c sq pl ln g0)
              = seq_counter g /\
              num_channels (app_send_frame_with_seq c sq pl ln g0)
              = num_channels g /\
              rx_buffer (app_send_frame_with_seq c sq pl ln g0) = rx_buffer g).
  { intros c pl ln g0 E1 E2 E3 E4 Hc.
    destruct (app_send_frame_with_seq_reply c sq pl ln g0)
      as (oc & L & (_ & _ & _ & N & _) & S & Rx & _).
    eexists. split; [rewrite L, E1; reflexivity|].
    split; [reflexivity|]. split; [exact Hc|].
    repeat split; congruence. }
  destruct (cmd =? CMD_PING); [apply R; cbn; auto|].
  destruct (cmd =? CMD_GET_STATUS); [apply R; cbn; auto|].
  destruct (cmd =? CMD_GET_DEVICE_INFO).
  { cbv zeta. destruct (device_info_loop _ _ _ _) as [info off].
    apply R; cbn; auto. }
  destruct (cmd =? CMD_SET_MODE_CONTINUOUS); [apply R; cbn; auto 6|].
  destruct (cmd =? CMD_SET_MODE_TRIGGER); [apply R; cbn; auto 6|].
  destruct (cmd =? CMD_START_STREAM); [apply R; cbn; auto 6|].
  destruct (cmd =? CMD_STOP_STREAM); [apply R; cbn; auto 6|].
  destruct (cmd =? CMD_CONFIGURE_STREAM).
  { destruct (payload_len <? 1); [apply R; cbn; auto 6|].
    cbv zeta.
    pose proof (configure_loop_same payload payload_len
                  (Z.to_nat (payload 0)) 1 g) as H.
    cbv zeta in H. destruct H as (_ & _ & H3 & H4 & _ & H6 & _ & H8 & _).
    apply R; cbn [In]; auto 6. }
  destruct (cmd =? CMD_REQUEST_BUFFERED_DATA).
  { destruct (_ || _); apply R; cbn; auto 6. }
  apply R; cbn; auto 6.
Qed.

Lemma app_handle_command_ping g sq payload payload_len fs :
  tx_holds (tx_buffer g) fs ->
  20 <= txBufferFreeSpace (tx_buffer g) ->
  let g' := app_handle_command CMD_PING sq payload payload_len g in
  let id := [0xDD; 0xCC; 0xBB; 0xAA; 0x44; 0x33; 0x22; 0x11] in
  tx_log g' = tx_log g ++ [mkEvent CMD_PONG sq id (Queued 18)] /\
  tx_holds (tx_buffer g') (fs ++ [frame_bytes CMD_PONG sq id]) /\
  same_but_tx g g'.
Proof.
  intros Hq Hroom g' id. subst g'.
  unfold app_handle_command. change (CMD_PING =? CMD_PING) with true.
  cbv iota zeta.
  destruct (app_send_frame_with_seq_wire CMD_PONG sq (Some (of_list id)) 8 g fs
              I ltac:(lia) Hq) as (Q & _ & Se & Sq & Rx & Rn).
  destruct (Q ltac:(lia)) as (L & H & _).
  split; [exact L|]. split; [exact H|].
  destruct (app_send_frame_with_seq_reply CMD_PONG sq (Some (of_list id)) 8 g)
    as (_ & _ & S).
  exact S.
Qed.

(** X18.  Ping is answered with Pong: the reply echoes the sequence number
    and carries the eight bytes of the device id
    [0x11223344AABBCCDD], low byte first.  With 20 free bytes in the TX
    ring the 18-byte frame is queued behind the frames already there;
    nothing else in the device changes. *)
Theorem ping_answered_with_pong g sq payload payload_len fs :
  tx_holds (tx_buffer g) fs ->
  20 <= txBufferFreeSpace (tx_buffer g) ->
  let g' := app_handle_command CMD_PING sq payload payload_len g in
  let id := [0xDD; 0xCC; 0xBB; 0xAA; 0x44; 0x33; 0x22; 0x11] in
  tx_log g' = tx_log g ++ [mkEvent CMD_PONG sq id (Queued 18)] /\
  tx_holds (tx_buffer g') (fs ++ [frame_bytes CMD_PONG sq id]) /\
  same_but_tx g g'.
Proof. exact (app_handle_command_ping g sq payload payload_len fs). Qed.

Lemma ping_answered_with_pong_witness :
  let g := app_init (fun _ => 0) in
  let g' := app_handle_command CMD_PING 0 (fun _ => 0) 0 g in
  tx_holds (tx_buffer g')
    [[0xAA; 0x55; 12; 0; 0x81; 0;
      0xDD; 0xCC; 0xBB; 0xAA; 0x44; 0x33; 0x22; 0x11;
      0xD9; 0xE3; 0x55; 0xAA]].
Proof.
  intros g g'.
  destruct (ping_answered_with_pong g 0 (fun _ => 0) 0 []
              (app_init_tx_holds _)) as (_ & H & _).
  - vm_compute. discriminate.
  - exact H.
Defined.

(** X19.  A command id outside the nine that the handler knows is answered
    with Nack carrying [05 00] and the request's sequence number: with
    14 free bytes in the TX ring the 12-byte Nack frame is logged as
    queued and its bytes stand in the ring behind the frames already
    there; nothing else in the device changes. *)
Theorem unknown_command_nack cmd sq payload payload_len g fs :
  ~ In cmd [CMD_PING; CMD_GET_STATUS; CMD_GET_DEVICE_INFO;
            CMD_SET_MODE_CONTINUOUS; CMD_SET_MODE_TRIGGER; CMD_START_STREAM;
            CMD_STOP_STREAM; CMD_CONFIGURE_STREAM;
            CMD_REQUEST_BUFFERED_DATA] ->
  tx_holds (tx_buffer g) fs ->
  14 <= txBufferFreeSpace (tx_buffer g) ->
  let g' := app_handle_command cmd sq payload payload_len g in
  tx_log g' = tx_log g ++ [mkEvent CMD_NACK sq [0x05; 0x00] (Queued 12)] /\
  tx_holds (tx_buffer g') (fs ++ [frame_bytes CMD_NACK sq [0x05; 0x00]]) /\
  same_but_tx g g'.
Proof.
  intros Hn Hq Hroom g'. subst g'. unfold app_handle_command.
  repeat match goal with
  | |- context [cmd =? ?c] =>
      destruct (Z.eqb_spec cmd c) as [->|_];
      [exfalso; apply Hn; cbn; auto 12|]
  end.
  cbv zeta.
  destruct (app_send_frame_with_seq_frame CMD_NACK sq
              (Some (of_list [0x05; 0x00])) 2 g I ltac:(lia)) as (_ & _ & Q).
  destruct (Q fs Hq ltac:(lia)) as (L & H).
  destruct (app_send_frame_with_seq_reply CMD_NACK sq
              (Some (of_list [0x05; 0x00])) 2 g) as (oc & _ & S).
  split; [exact L|]. split; [exact H | exact S].
Qed.

Lemma unknown_command_nack_witness :
  let g := app_init (fun _ => 0) in
  let g' := app_handle_command CMD_LOG_MESSAGE 3 (fun _ => 0) 0 g in
  tx_log g' = [mkEvent CMD_NACK 3 [0x05; 0x00] (Queued 12)] /\
  tx_holds (tx_buffer g')
    [[0xAA; 0x55; 6; 0; 0x91; 3; 0x05; 0x00; 0xDF; 0x88; 0x55; 0xAA]].
Proof.
  intros g g'.
  destruct (unknown_command_nack CMD_LOG_MESSAGE 3 (fun _ => 0) 0 g [])
    as (L & H & _).
  - cbn. intros H.
    repeat (destruct H as [H|H]; [discriminate H|]). exact H.
  - apply app_init_tx_holds.
  - vm_compute. discriminate.
  - split; [exact L | exact H].
Defined.

(** X20.  RequestBufferedData is answered with Ack when the device is in
    Trigger mode and a trigger has occurred, and with Nack carrying
    [02 02] otherwise.  With 14 free bytes in the TX ring the answer, a
    frame of 10 or 12 bytes with the request's sequence number, is
    logged as queued and its bytes stand in the ring behind the frames
    already there; nothing else in the device changes, and the handler
    sends no data. *)
Theorem request_buffered_data_reply sq payload payload_len g fs :
  tx_holds (tx_buffer g) fs ->
  14 <= txBufferFreeSpace (tx_buffer g) ->
  let g' :=
    app_handle_command CMD_REQUEST_BUFFERED_DATA sq payload payload_len g in
  (mode g = MODE_TRIGGER /\ occurred (trigger g) <> 0 ->
   tx_log g' = tx_log g ++ [mkEvent CMD_ACK sq [] (Queued 10)] /\
   tx_holds (tx_buffer g') (fs ++ [frame_bytes CMD_ACK sq []])) /\
  (mode g = MODE_CONTINUOUS \/ occurred (trigger g) = 0 ->
   tx_log g' = tx_log g ++ [mkEvent CMD_NACK sq [0x02; 0x02] (Queued 12)] /\
   tx_holds (tx_buffer g') (fs ++ [frame_bytes CMD_NACK sq [0x02; 0x02]])) /\
  same_but_tx g g'.
Proof.
  intros Hq Hroom. cbv zeta. unfold app_handle_command.
  change (CMD_REQUEST_BUFFERED_DATA =? CMD_PING) with false.
  change (CMD_REQUEST_BUFFERED_DATA =? CMD_GET_STATUS) with false.
  change (CMD_REQUEST_BUFFERED_DATA =? CMD_GET_DEVICE_INFO) with false.
  change (CMD_REQUEST_BUFFERED_DATA =? CMD_SET_MODE_CONTINUOUS) with false.
  change (CMD_REQUEST_BUFFERED_DATA =? CMD_SET_MODE_TRIGGER) with false.
  change (CMD_REQUEST_BUFFERED_DATA =? CMD_START_STREAM) with false.
  change (CMD_REQUEST_BUFFERED_DATA =? CMD_STOP_STREAM) with false.
  change (CMD_REQUEST_BUFFERED_DATA =? CMD_CONFIGURE_STREAM) with false.
  change (CMD_REQUEST_BUFFERED_DATA =? CMD_REQUEST_BUFFERED_DATA) with true.
  cbv iota.
  destruct (app_send_frame_with_seq_reply CMD_NACK sq
              (Some (of_list [0x02; 0x02])) 2 g) as (ocn & _ & Sn).
  destruct (app_send_frame_with_seq_reply CMD_ACK sq None 0 g)
    as (oca & _ & Sa).
  destruct (app_send_frame_with_seq_frame CMD_NACK sq
              (Some (of_list [0x02; 0x02])) 2 g I ltac:(lia)) as (_ & _ & Qn).
  destruct (Qn fs Hq ltac:(lia)) as (Ln & Hn).
  destruct (app_send_frame_with_seq_frame CMD_ACK sq None 0 g
              eq_refl ltac:(lia)) as (_ & _ & Qa).
  destruct (Qa fs Hq ltac:(lia)) as (La & Ha).
  cbn [payload_bytes] in La, Ha.
  destruct (mode g) eqn:M; cbn [orb].
  - split; [intros [? _]; discriminate|].
    split; [intros _; split; [exact Ln | exact Hn] | exact Sn].
  - destruct (Z.eqb_spec (occurred (trigger g)) 0) as [O|O].
    + split; [intros [_ ?]; contradiction|].
      split; [intros _; split; [exact Ln | exact Hn] | exact Sn].
    + split; [intros _; split; [exact La | exact Ha]|].
      split; [intros [?|?]; [discriminate | contradiction] | exact Sa].
Qed.

Lemma request_buffered_data_reply_witness :
  let g := app_init (fun _ => 0) in
  let t :=
    set_trigger (set_occurred 1 (trigger g)) (set_mode MODE_TRIGGER g) in
  tx_holds
    (tx_buffer (app_handle_command CMD_REQUEST_BUFFERED_DATA 5 (fun _ => 0) 0 g))
    [[0xAA; 0x55; 6; 0; 0x91; 5; 0x02; 0x02; 0xBC; 0x78; 0x55; 0xAA]] /\
  tx_holds
    (tx_buffer (app_handle_command CMD_REQUEST_BUFFERED_DATA 6 (fun _ => 0) 0 t))
    [[0xAA; 0x55; 4; 0; 0x90; 6; 0xED; 0xB2; 0x55; 0xAA]].
Proof.
  intros g t. split.
  - destruct (request_buffered_data_reply 5 (fun _ => 0) 0 g []
                (app_init_tx_holds _) ltac:(vm_compute; discriminate))
      as (_ & N & _).
    exact (proj2 (N (or_introl eq_refl))).
  - destruct (request_buffered_data_reply 6 (fun _ => 0) 0 t []
                (app_init_tx_holds _) ltac:(vm_compute; discriminate))
      as (A & _).
    refine (proj2 (A (conj eq_refl _))). vm_compute. discriminate.
Defined.

(** ** Frames that reach the handler *)

Ltac mod_lia := Z.to_euclidean_division_equations; lia.

(** What [parseFrame] has copied when it returns 0 or -4: for an input
    of at least 10 bytes, the [inLen - 10] bytes between the sequence
    number and the checksum. *)
Lemma parseFrame_copied inBuf inLen o r o' l0 :
  parseFrame inBuf inLen o = (r, o') -> pPayloadLen o = Some l0 ->
  r = 0 \/ r = -4 -> 10 <= inLen ->
  pPayloadLen o' = Some (inLen - 10).
Proof.
  unfold parseFrame. intros E Ho Hr Hlen.
  destruct (inLen <? 8).
  { apply pair_equal_spec in E. destruct E as [<- _]. lia. }
  destruct (negb (inBuf 0 =? FRAME_HEAD_0) || negb (inBuf 1 =? FRAME_HEAD_1)).
  { apply pair_equal_spec in E. destruct E as [<- _]. lia. }
  destruct (negb (inBuf (inLen - 2) =? FRAME_TAIL_0)
            || negb (inBuf (inLen - 1) =? FRAME_TAIL_1)).
  { apply pair_equal_spec in E. destruct E as [<- _]. lia. }
  cbv zeta in E.
  pose proof (u16_range (Z.lor (inBuf 2) (Z.shiftl (inBuf 3) 8))) as R.
  remember (u16 (Z.lor (inBuf 2) (Z.shiftl (inBuf 3) 8))) as lf eqn:Elf.
  clear Elf.
  destruct (Z.eqb_spec (u16 (6 + lf)) inLen) as [El|El]; cbn [negb] in E.
  2:{ apply pair_equal_spec in E. destruct E as [<- _]. lia. }
  assert (Hp : u16 (lf - 4) = inLen - 10)
    by (unfold u16, is_u16 in *; mod_lia).
  rewrite Hp, Ho in E.
  destruct (negb _) in E; apply pair_equal_spec in E; destruct E as [_ <-];
    reflexivity.
Qed.

(** A frame that [parseFrame] rejects is ignored: [app_on_frame] sends
    no reply, not even a Nack, and leaves the state as it is.  The
    length must be one for which the payload copy, if it comes to it,
    stays inside the local array. *)
Lemma app_on_frame_rejected payload frame frameLen g :
  fst (parseFrame frame frameLen (mkParseOut 0 0 (Some payload) (Some 0)))
  <> 0 ->
  frameLen < 8 \/ 10 <= frameLen <= MAX_FRAME_SIZE + 10 ->
  app_on_frame payload frame frameLen g = Some g.
Proof.
  intros H Hlen. unfold app_on_frame.
  destruct (parseFrame frame frameLen _) as [ret o] eqn:E. cbn [fst] in H.
  assert (C : ((if (ret =? 0) || (ret =? -4)
                then match pPayloadLen o with
                     | Some payload_len => payload_len
                     | None => 0
                     end
                else 0) >? MAX_FRAME_SIZE) = false).
  { destruct (Z.eqb_spec ret 0) as [?|_]; [contradiction|]. cbn [orb].
    destruct (Z.eqb_spec ret (-4)) as [R4|_]; [|reflexivity].
    destruct Hlen as [Hs|Hl].
    - exfalso. unfold parseFrame in E.
      destruct (Z.ltb_spec frameLen 8) as [_|?]; [|lia].
      apply pair_equal_spec in E. destruct E as [E _]. lia.
    - rewrite (parseFrame_copied _ _ _ _ _ 0 E eq_refl (or_intror R4))
        by lia.
      destruct (Z.gtb_spec (frameLen - 10) MAX_FRAME_SIZE); [lia | reflexivity]. }
  rewrite C.
  destruct (Z.eqb_spec ret 0); [contradiction | reflexivity].
Qed.

(** X21.  A frame with one corrupted byte gets no answer.  Take a frame built
    by [buildFrame], with a payload that fits the handler's array of
    [MAX_FRAME_SIZE] bytes, and replace any one of its bytes by a
    different byte value: [app_on_frame] on the result stays inside its
    array and leaves the device state exactly as it was; in particular
    nothing is sent. *)
Theorem app_on_frame_ignores_corrupted_frame
    cmd sq payload payloadLen outBuf outBufLen f n k v local g :
  is_u8 cmd -> is_u8 sq -> payload_ok payload payloadLen ->
  0 <= payloadLen -> payloadLen <= MAX_FRAME_SIZE ->
  10 + payloadLen <= outBufLen -> outBufLen <= 65535 ->
  buildFrame cmd sq payload payloadLen outBuf outBufLen = (0, f, n) ->
  0 <= k < n -> is_u8 v -> v <> f k ->
  app_on_frame local (store f k v) n g = Some g.
Proof.
  intros Hc Hs Hp H0 Hmax Hfit Hcap Hb Hk Hv Hne.
  destruct (buildFrame_layout cmd sq payload payloadLen outBuf outBufLen)
    as (f' & Hb' & L & _); try assumption.
  rewrite Hb' in Hb. assert (f' = f) by congruence.
  assert (n = 10 + payloadLen) by congruence. subst f' n.
  apply app_on_frame_rejected; [|right; lia].
  rewrite (parseFrame_byte_error_layout cmd sq payload payloadLen)
    by (assumption || lia).
  destruct (k <? 2); [lia|]. destruct (k <? 4); [lia|].
  destruct (k <? 8 + payloadLen); lia.
Qed.

Lemma app_on_frame_ignores_corrupted_frame_witness :
  let F := snd (fst (buildFrame CMD_PING 7 None 0 (fun _ => 0) 64)) in
  let g := app_init (fun _ => 0) in
  app_on_frame (fun _ => 0) (store F 4 CMD_START_STREAM) 10 g = Some g.
Proof.
  intros F g.
  apply (app_on_frame_ignores_corrupted_frame CMD_PING 7 None 0 (fun _ => 0) 64
           F 10 4 CMD_START_STREAM (fun _ => 0) g);
    unfold is_u8, CMD_PING, CMD_START_STREAM, MAX_FRAME_SIZE;
    try lia; try reflexivity.
  vm_compute. discriminate.
Defined.

Lemma app_on_frame_built
    cmd sq payload payloadLen outBuf outBufLen f n m local g :
  is_u8 cmd -> is_u8 sq -> payload_ok payload payloadLen ->
  0 <= payloadLen -> 10 + payloadLen <= outBufLen -> outBufLen <= 65535 ->
  buildFrame cmd sq payload payloadLen outBuf outBufLen = (0, f, n) ->
  agree_upto m f n ->
  (payloadLen <= MAX_FRAME_SIZE ->
   exists p,
     (forall i, 0 <= i < payloadLen -> p i = payload_at payload i) /\
     app_on_frame local m n g
     = Some (app_handle_command cmd sq p payloadLen g)) /\
  (MAX_FRAME_SIZE < payloadLen -> app_on_frame local m n g = None).
Proof.
  intros Hc Hs Hp H0 Hfit Hcap Hb A.
  destruct (buildFrame_layout cmd sq payload payloadLen outBuf outBufLen)
    as (f' & Hb' & L & _); try assumption.
  rewrite Hb' in Hb. assert (f' = f) by congruence.
  assert (n = 10 + payloadLen) by congruence. subst f' n.
  pose proof (frame_layout_agree _ _ _ _ _ _ H0 A L) as Lm.
  unfold app_on_frame.
  rewrite (parseFrame_layout cmd sq payload payloadLen) by (assumption || lia).
  unfold parsed. cbn [pCmd pSeq pPayload pPayloadLen Z.eqb orb].
  destruct Lm as (_ & _ & _ & _ & _ & _ & Fp & _).
  destruct (Z.gtb_spec payloadLen MAX_FRAME_SIZE) as [G|G];
    (split; [intros Hx|intros Hx]); try lia; try reflexivity.
  destruct (Z.gtb_spec payloadLen 0) as [P|P].
  - eexists. split; [|reflexivity].
    intros i Hi. rewrite <- Fp by exact Hi. mem_cases. f_equal. lia.
  - exists local. split; [intros; lia | reflexivity].
Qed.

(** X22.  A frame built by [buildFrame] and passed to [app_on_frame] is
    handled as the command it carries, with its command id, its
    sequence number, its payload length and a payload buffer holding
    its payload bytes, as long as the payload fits the handler's local
    array of [MAX_FRAME_SIZE] bytes.  A longer payload is copied over
    the end of that array before anything is checked or handled. *)
Theorem app_on_frame_handles_built_frame
    cmd sq payload payloadLen outBuf outBufLen f n m local g :
  is_u8 cmd -> is_u8 sq -> payload_ok payload payloadLen ->
  0 <= payloadLen -> 10 + payloadLen <= outBufLen -> outBufLen <= 65535 ->
  buildFrame cmd sq payload payloadLen outBuf outBufLen = (0, f, n) ->
  agree_upto m f n ->
  (payloadLen <= MAX_FRAME_SIZE ->
   exists p,
     (forall i, 0 <= i < payloadLen -> p i = payload_at payload i) /\
     app_on_frame local m n g
     = Some (app_handle_command cmd sq p payloadLen g)) /\
  (MAX_FRAME_SIZE < payloadLen -> app_on_frame local m n g = None).
Proof.
  exact (app_on_frame_built cmd sq payload payloadLen outBuf outBufLen f n m
           local g).
Qed.

Lemma app_on_frame_handles_built_frame_witness :
  let F := snd (fst (buildFrame CMD_PING 7 None 0 (fun _ => 0) 64)) in
  let g := app_init (fun _ => 0) in
  exists p,
    app_on_frame (fun _ => 0) F 10 g
    = Some (app_handle_command CMD_PING 7 p 0 g).
Proof.
  intros F g.
  destruct (app_on_frame_handles_built_frame CMD_PING 7 None 0 (fun _ => 0) 64
              F 10 F (fun _ => 0) g) as (H & _);
    unfold is_u8, CMD_PING; try lia; try reflexivity.
  - intros i Hi. reflexivity.
  - destruct H as (p & _ & E); [unfold MAX_FRAME_SIZE; lia|].
    exists p. exact E.
Defined.

(** The extractor hands over frames of 8 and 9 bytes, for which the
    payload length of [parseFrame] wraps: such a frame with head, tail
    and length field in order makes [app_on_frame] copy more than 65000
    bytes into its array of [MAX_FRAME_SIZE]. *)
Example app_on_frame_eight_byte_frame_overruns g :
  app_on_frame (fun _ => 0)
    (of_list [0xAA; 0x55; 0x02; 0x00; 0xFF; 0xFF; 0x55; 0xAA]) 8 g = None.
Proof. vm_compute. reflexivity. Qed.

(** ** A trigger that never comes *)

Section Stalled.

Variable sample : Z -> Z -> Z.

Lemma trigger_stalled_tick t g :
  trigger_stalled g ->
  tx_log (app_periodic_task sample t g) = tx_log g /\
  trigger_stalled (app_periodic_task sample t g) /\
  status (app_periodic_task sample t g) = status g.
Proof.
  intros (M & O & S). unfold app_periodic_task. cbv zeta.
  set (g0 := if start_time g =? 0 then set_start_time t g else g).
  assert (F : tx_log g0 = tx_log g /\ trigger g0 = trigger g /\
              mode g0 = mode g /\ status g0 = status g).
  { subst g0. destruct (start_time g =? 0); cbn; repeat split. }
  clearbody g0. destruct F as (L0 & T0 & M0 & S0).
  assert (St0 : trigger_stalled g0)
    by (unfold trigger_stalled; rewrite M0, T0; auto).
  destruct (status g0) eqn:Es; [rewrite <- S0; auto|].
  rewrite M0, M.
  rewrite check_trigger_idle by (rewrite T0; auto).
  rewrite send_trigger_data_idle by (rewrite T0; exact S).
  rewrite <- S0. auto.
Qed.

Lemma trigger_stalled_run ticks : forall g,
  trigger_stalled g ->
  run_trace sample ticks g = [] /\
  tx_log (run_ticks sample ticks g) = tx_log g /\
  trigger_stalled (run_ticks sample ticks g).
Proof.
  induction ticks as [|t ticks IH]; intros g H; [cbn; auto|].
  destruct (trigger_stalled_tick t g H) as (L & H' & _).
  cbn [run_trace run_ticks]. cbv zeta.
  rewrite (emitted_nil _ _ L). cbn [map app].
  destruct (IH _ H') as (E & L' & H'').
  split; [exact E|]. split; [congruence | exact H''].
Qed.

(** X23.  Stopping the stream in the middle of a burst disables the trigger.
    StopStream clears [sending] but not [occurred]; after StartStream the
    device is running in Trigger mode with a trigger on record and no
    burst under way, a state in which the periodic task sends nothing:
    whatever the ticks, no EventTriggered, DataPacket or
    BufferTransferComplete follows, and the state stays that way (until
    SetModeTrigger clears [occurred]). *)
Theorem trigger_stalls_after_stop_in_burst g ts N k sq1 p1 l1 sq2 p2 l2 :
  bursting ts N k g ->
  let g1 := app_handle_command CMD_STOP_STREAM sq1 p1 l1 g in
  let g2 := app_handle_command CMD_START_STREAM sq2 p2 l2 g1 in
  status g2 = STATUS_RUNNING /\ trigger_stalled g2 /\
  forall ticks,
    run_trace sample ticks g2 = [] /\
    tx_log (run_ticks sample ticks g2) = tx_log g2 /\
    trigger_stalled (run_ticks sample ticks g2).
Proof.
  intros (M & S & O & Sd & _) g1 g2.
  assert (E1 : exists fb tb lg,
            g1 = set_tx fb tb lg
                   (set_trigger (set_sending 0 (trigger g))
                      (set_status STATUS_STOPPED g))).
  { subst g1. unfold app_handle_command.
    change (CMD_STOP_STREAM =? CMD_PING) with false.
    change (CMD_STOP_STREAM =? CMD_GET_STATUS) with false.
    change (CMD_STOP_STREAM =? CMD_GET_DEVICE_INFO) with false.
    change (CMD_STOP_STREAM =? CMD_SET_MODE_CONTINUOUS) with false.
    change (CMD_STOP_STREAM =? CMD_SET_MODE_TRIGGER) with false.
    change (CMD_STOP_STREAM =? CMD_START_STREAM) with false.
    change (CMD_STOP_STREAM =? CMD_STOP_STREAM) with true.
    cbv iota zeta.
    destruct (app_send_frame_with_seq_log CMD_ACK sq1 None 0
                (set_trigger (set_sending 0 (trigger (set_status STATUS_STOPPED g)))
                   (set_status STATUS_STOPPED g)))
      as (fb & tb & oc & E).
    rewrite E. eauto. }
  destruct E1 as (fb1 & tb1 & lg1 & E1).
  assert (E2 : exists fb tb lg,
            g2 = set_tx fb tb lg
                   (set_last_data_send_time 0 (set_status STATUS_RUNNING g1))).
  { subst g2. unfold app_handle_command.
    change (CMD_START_STREAM =? CMD_PING) with false.
    change (CMD_START_STREAM =? CMD_GET_STATUS) with false.
    change (CMD_START_STREAM =? CMD_GET_DEVICE_INFO) with false.
    change (CMD_START_STREAM =? CMD_SET_MODE_CONTINUOUS) with false.
    change (CMD_START_STREAM =? CMD_SET_MODE_TRIGGER) with false.
    change (CMD_START_STREAM =? CMD_START_STREAM) with true.
    cbv iota zeta.
    destruct (app_send_frame_with_seq_log CMD_ACK sq2 None 0
                (set_last_data_send_time 0 (set_status STATUS_RUNNING g1)))
      as (fb & tb & oc & E).
    rewrite E. eauto. }
  destruct E2 as (fb2 & tb2 & lg2 & E2).
  clearbody g1 g2. subst g1.
  assert (St : trigger_stalled g2).
  { rewrite E2. unfold trigger_stalled. cbn. rewrite M, O.
    repeat split. discriminate. }
  split; [rewrite E2; reflexivity|]. split; [exact St|].
  intros ticks. apply trigger_stalled_run. exact St.
Qed.

End Stalled.

Lemma trigger_stalls_after_stop_in_burst_witness :
  let sample : Z -> Z -> Z := fun _ _ => 0 in
  let g0 :=
    app_handle_command CMD_START_STREAM 4 (fun _ => 0) 0
      (app_handle_command CMD_SET_MODE_TRIGGER 3 (fun _ => 0) 0
         (app_init (fun _ => 3))) in
  let g := run_ticks sample [1000; 5000; 5003; 5013] g0 in
  let g2 :=
    app_handle_command CMD_START_STREAM 6 (fun _ => 0) 0
      (app_handle_command CMD_STOP_STREAM 5 (fun _ => 0) 0 g) in
  run_trace sample [5023; 5033; 20000; 40000] g2 = [].
Proof.
  intros sample g0 g g2.
  destruct (trigger_stalls_after_stop_in_burst sample g 5003 8 2
              5 (fun _ => 0) 0 6 (fun _ => 0) 0) as (_ & _ & H).
  - vm_compute. repeat split; reflexivity.
  - exact (proj1 (H [5023; 5033; 20000; 40000])).
Defined.

(** ** Sequence numbers of unsolicited frames *)

Lemma step_numbered_nil g g' :
  is_u8 (seq_counter g) ->
  tx_log g' = tx_log g -> seq_counter g' = seq_counter g ->
  step_numbered g g' [].
Proof.
  intros Hu L S. unfold step_numbered, numbered.
  rewrite L, S, app_nil_r. cbn [length map seq Z.of_nat].
  rewrite Z.add_0_r, u8_small by exact Hu.
  repeat split; apply Hu.
Qed.

Lemma step_numbered_app g g1 g2 a b :
  step_numbered g g1 a -> step_numbered g1 g2 b ->
  step_numbered g g2 (a ++ b).
Proof.
  intros (La & (Ma & Sa) & Ua) (Lb & (Mb & Sb) & Ub).
  split; [rewrite Lb, La, app_assoc; reflexivity|].
  split; [|exact Ub].
  assert (I : forall x y, u8 (u8 x + y) = u8 (x + y))
    by (intros x y; unfold u8; apply Z.add_mod_idemp_l; lia).
  split.
  - rewrite map_app, length_app, seq_app, map_app, Ma, Mb. f_equal.
    rewrite (map_seq_from _ (length b) (0 + length a)).
    apply map_ext. intros i. rewrite Sa, I. f_equal. lia.
  - rewrite Sb, Sa, I, length_app. f_equal. lia.
Qed.

Lemma step_numbered_after g g1 g' evs :
  tx_log g' = tx_log g1 -> seq_counter g' = seq_counter g1 ->
  step_numbered g g1 evs -> step_numbered g g' evs.
Proof.
  intros L S (L1 & (M1 & S1) & U1).
  unfold step_numbered, numbered. rewrite L, S.
  split; [exact L1|]. split; [split; assumption | exact U1].
Qed.

Lemma step_numbered_before g g0 g' evs :
  tx_log g0 = tx_log g -> seq_counter g0 = seq_counter g ->
  step_numbered g0 g' evs -> step_numbered g g' evs.
Proof.
  intros L S (L1 & (M1 & S1) & U1).
  unfold step_numbered, numbered. rewrite <- L, <- S.
  split; [exact L1|]. split; [split; assumption | exact U1].
Qed.

Lemma app_send_frame_numbered cmd payload len g :
  is_u8 (seq_counter g) ->
  exists ev, step_numbered g (app_send_frame cmd payload len g) [ev].
Proof.
  intros Hu. unfold app_send_frame. cbv zeta.
  destruct (app_send_frame_with_seq_reply cmd (seq_counter g) payload len
              (set_seq_counter (u8 (seq_counter g + 1)) g))
    as (oc & L & _ & S & _).
  eexists. split; [exact L|].
  cbn [seq_counter set_seq_counter] in S.
  split; [|rewrite S; apply u8_range].
  unfold numbered. cbn [map length seq ev_seq Z.of_nat].
  rewrite Z.add_0_r, (u8_small (seq_counter g)) by exact Hu.
  split; [reflexivity|]. rewrite S. reflexivity.
Qed.

Section Numbered.

Variable sample : Z -> Z -> Z.

Lemma sample_loop_seq n : forall i ts off g,
  seq_counter (snd (sample_loop sample n i ts off g)) = seq_counter g.
Proof.
  induction n as [|n IH]; intros i ts off g; [reflexivity|].
  cbn [sample_loop]. unfold rand. cbv zeta. rewrite IH. reflexivity.
Qed.

Lemma channel_loop_seq n : forall ch m ts off g,
  seq_counter (snd (channel_loop sample n ch m ts off g)) = seq_counter g.
Proof.
  induction n as [|n IH]; intros ch m ts off g; [reflexivity|].
  cbn [channel_loop].
  destruct (negb _); [|apply IH].
  pose proof (sample_loop_seq (Z.to_nat SAMPLES_PER_PACKET) 0 ts off g) as E.
  destruct (sample_loop sample (Z.to_nat SAMPLES_PER_PACKET) 0 ts off g)
    as [off1 g1].
  cbn [snd] in E. rewrite IH. exact E.
Qed.

Lemma app_send_data_packet_numbered ts g :
  is_u8 (seq_counter g) ->
  exists ev, step_numbered g (app_send_data_packet sample ts g) [ev].
Proof.
  intros Hu. unfold app_send_data_packet. cbv zeta.
  match goal with
  | |- context [channel_loop sample ?n ?ch ?m ?t ?off ?g0] =>
      pose proof (channel_loop_seq n ch m t off g0) as S;
      destruct (channel_loop_effect sample n ch m t off g0) as (_ & L & _);
      destruct (channel_loop sample n ch m t off g0) as [off1 g1]
  end.
  cbn [snd] in S, L. rec_simpl_in S. rec_simpl_in L.
  destruct (app_send_frame_numbered CMD_DATA_PACKET (Some (data_payload g1))
              off1 g1) as (ev & H); [rewrite S; exact Hu|].
  exists ev. eapply step_numbered_before; eassumption.
Qed.

Lemma check_trigger_numbered t g :
  is_u8 (seq_counter g) ->
  exists evs, step_numbered g (check_trigger t g) evs.
Proof.
  intros Hu. unfold check_trigger.
  destruct (_ && _);
    [|exists []; apply step_numbered_nil; [exact Hu | reflexivity..]].
  unfold app_send_trigger_event. cbv zeta.
  match goal with
  | |- context [app_send_frame CMD_EVENT_TRIGGERED ?p 14 g] =>
      destruct (app_send_frame_numbered CMD_EVENT_TRIGGERED p 14 g Hu)
        as (ev & S);
      remember (app_send_frame CMD_EVENT_TRIGGERED p 14 g) as g1 eqn:Hg1 in *;
      clear Hg1
  end.
  exists [ev]. unfold rand.
  eapply step_numbered_after; [| |exact S]; rec_simpl; reflexivity.
Qed.

Lemma send_trigger_data_numbered t g :
  is_u8 (seq_counter g) ->
  exists evs, step_numbered g (send_trigger_data sample t g) evs.
Proof.
  intros Hu. unfold send_trigger_data.
  destruct (negb _);
    [|exists []; apply step_numbered_nil; [exact Hu | reflexivity..]].
  destruct (_ >=? _);
    [|exists []; apply step_numbered_nil; [exact Hu | reflexivity..]].
  destruct (_ <? _).
  - unfold app_send_trigger_data_packet. cbv zeta.
    match goal with
    | |- context [app_send_data_packet sample ?ts g] =>
        destruct (app_send_data_packet_numbered ts g Hu) as (ev & S);
        remember (app_send_data_packet sample ts g) as g1 eqn:Hg1 in *;
        clear Hg1
    end.
    exists [ev].
    eapply step_numbered_after; [| |exact S]; rec_simpl; reflexivity.
  - cbv zeta.
    destruct (app_send_frame_numbered CMD_BUFFER_TRANSFER_COMPLETE None 0 g Hu)
      as (ev & S).
    remember (app_send_frame CMD_BUFFER_TRANSFER_COMPLETE None 0 g) as g1
      eqn:Hg1 in *.
    clear Hg1.
    exists [ev]. unfold rand.
    eapply step_numbered_after; [| |exact S]; rec_simpl; reflexivity.
Qed.

Lemma app_periodic_task_numbered t g :
  is_u8 (seq_counter g) ->
  exists evs, step_numbered g (app_periodic_task sample t g) evs.
Proof.
  intros Hu. unfold app_periodic_task. cbv zeta.
  set (g0 := if start_time g =? 0 then set_start_time t g else g).
  assert (F : tx_log g0 = tx_log g /\ seq_counter g0 = seq_counter g).
  { subst g0. destruct (start_time g =? 0); rec_simpl; split; reflexivity. }
  clearbody g0. destruct F as (L0 & S0).
  assert (Hu0 : is_u8 (seq_counter g0)) by (rewrite S0; exact Hu).
  destruct (status g0);
    [exists []; apply step_numbered_nil; assumption|].
  destruct (mode g0).
  - destruct (_ >=? _);
      [|exists []; apply step_numbered_nil; assumption].
    destruct (app_send_data_packet_numbered t g0 Hu0) as (ev & S).
    remember (app_send_data_packet sample t g0) as g1 eqn:Hg1 in *.
    clear Hg1.
    exists [ev].
    eapply step_numbered_before; [exact L0 | exact S0 |].
    eapply step_numbered_after; [| |exact S]; rec_simpl; reflexivity.
  - destruct (check_trigger_numbered t g0 Hu0) as (a & Sa).
    destruct (send_trigger_data_numbered t (check_trigger t g0)) as (b & Sb).
    { destruct Sa as (_ & _ & U). exact U. }
    exists (a ++ b).
    eapply step_numbered_before; [exact L0 | exact S0 |].
    eapply step_numbered_app; eassumption.
Qed.

Lemma run_ticks_numbered ticks : forall g,
  is_u8 (seq_counter g) ->
  step_numbered g (run_ticks sample ticks g)
    (map snd (run_trace sample ticks g)).
Proof.
  induction ticks as [|t ticks IH]; intros g Hu.
  - cbn [run_ticks run_trace map]. apply step_numbered_nil;
      [exact Hu | reflexivity..].
  - cbn [run_ticks run_trace]. cbv zeta.
    destruct (app_periodic_task_numbered t g Hu) as (evs & S).
    remember (app_periodic_task sample t g) as g1 eqn:Hg1 in *. clear Hg1.
    pose proof S as (L & _ & U).
    rewrite (emitted_app _ _ evs L), map_app, map_snd_tagged.
    eapply step_numbered_app; [exact S|]. apply IH. exact U.
Qed.

(** X24.  The frames that the periodic task sends on its own (DataPacket,
    EventTriggered, BufferTransferComplete) are numbered consecutively
    modulo 256: over any ticks and in either mode, the [i]-th frame sent
    carries the sequence number [(seq_counter + i) mod 256], whether it
    was queued or dropped, and the counter ends at the next number. *)
Theorem unsolicited_frames_numbered ticks g :
  is_u8 (seq_counter g) ->
  numbered g (run_ticks sample ticks g) (map snd (run_trace sample ticks g)).
Proof.
  intros Hu. destruct (run_ticks_numbered ticks g Hu) as (_ & N & _).
  exact N.
Qed.

End Numbered.

Lemma unsolicited_frames_numbered_witness :
  let sample : Z -> Z -> Z := fun _ _ => 0 in
  let g :=
    app_handle_command CMD_START_STREAM 4 (fun _ => 0) 0
      (app_handle_command CMD_SET_MODE_TRIGGER 3 (fun _ => 0) 0
         (app_init (fun _ => 3))) in
  let ticks := [1000; 5000; 5003; 5013; 5023] in
  numbered g (run_ticks sample ticks g) (map snd (run_trace sample ticks g)).
Proof.
  intros sample g ticks.
  apply (unsolicited_frames_numbered sample ticks g).
  vm_compute. split; [discriminate | reflexivity].
Defined.

(** * Further properties: from the TX ring to the transport *)

Lemma tx_holds_nil_available t : tx_holds t [] -> tx_available t = 0.
Proof.
  intros [_ Hb]. rewrite <- tx_bytes_length. cbn [map concat] in Hb.
  rewrite Hb. reflexivity.
Qed.

Lemma process_tx_loop_drains {C : Type} (tr : transport_t C) fs :
  forall t ctx frame count fuel,
  tx_holds t fs ->
  Forall (fun f => 0 < Z.of_nat (length f) <= MAX_FRAME_SIZE) fs ->
  (forall c m n, fst (send tr c m n) = n) ->
  (length fs < fuel)%nat ->
  exists ms t' frame',
    Forall2 (fun m f => to_list m (Z.of_nat (length f)) = f) ms fs /\
    process_tx_loop fuel tr ctx t frame count
    = Some (send_all tr ctx ms fs, t', frame',
            count + Z.of_nat (length fs)) /\
    tx_holds t' [].
Proof.
  induction fs as [|f fs IH]; intros t ctx frame count fuel Hq Hf Hs Hfuel;
    (destruct fuel as [|fuel]; [cbn [length] in Hfuel; lia|]);
    cbn [process_tx_loop].
  - rewrite (dequeueTxFrame_idle t frame MAX_FRAME_SIZE (proj1 Hq))
      by (left; rewrite (tx_holds_nil_available t Hq); lia).
    change (0 >? 0) with false. cbv iota.
    exists [], t, frame. split; [constructor|]. split; [|exact Hq].
    cbn [length]. change (Z.of_nat 0) with 0. rewrite Z.add_0_r. reflexivity.
  - inversion Hf as [|? ? Hf1 Hf2]; subst.
    destruct (dequeueTxFrame_queue t f fs frame MAX_FRAME_SIZE Hq
                ltac:(unfold MAX_FRAME_SIZE; lia))
      as (t1 & out1 & E & Hq1 & Ho & _).
    rewrite E.
    replace (Z.of_nat (length f) >? 0) with true
      by (symmetry; apply Z.gtb_lt; lia).
    cbv iota.
    pose proof (Hs ctx out1 (Z.of_nat (length f))) as S1.
    destruct (send tr ctx out1 (Z.of_nat (length f))) as [sent1 ctx1] eqn:Es.
    cbn [fst] in S1. subst sent1. rewrite Z.eqb_refl. cbn [negb].
    destruct (IH t1 ctx1 out1 (count + 1) fuel Hq1 Hf2 Hs
                ltac:(cbn [length] in Hfuel; lia))
      as (ms & t' & frame' & F2 & Ep & Hq').
    exists (out1 :: ms), t', frame'. split; [|split; [|exact Hq']].
    + constructor; [|exact F2].
      unfold MAX_FRAME_SIZE in *.
      rewrite (Z.min_l (Z.of_nat (length f)) 8192) in Ho by (clear - Hf1; lia). rewrite Ho.
      apply firstn_all2. lia.
    + rewrite Ep. unfold send_all. cbn [combine fold_left fst snd length].
      rewrite Es. cbn [snd].
      replace (count + Z.of_nat (S (length fs)))
        with (count + 1 + Z.of_nat (length fs)) by lia.
      reflexivity.
Qed.

Lemma process_tx_loop_send_fails {C : Type} (tr : transport_t C) f fs
    t ctx frame count fuel :
  tx_holds t (f :: fs) ->
  0 < Z.of_nat (length f) <= MAX_FRAME_SIZE ->
  (forall m, fst (send tr ctx m (Z.of_nat (length f)))
             <> Z.of_nat (length f)) ->
  exists m t',
    to_list m (Z.of_nat (length f)) = f /\
    process_tx_loop (S fuel) tr ctx t frame count
    = Some (snd (send tr ctx m (Z.of_nat (length f))), t', m, count) /\
    tx_holds t' fs.
Proof.
  intros Hq Hl Hs. cbn [process_tx_loop].
  destruct (dequeueTxFrame_queue t f fs frame MAX_FRAME_SIZE Hq
              ltac:(unfold MAX_FRAME_SIZE; lia))
    as (t1 & out1 & E & Hq1 & Ho & _).
  rewrite E.
  replace (Z.of_nat (length f) >? 0) with true
    by (symmetry; apply Z.gtb_lt; lia).
  cbv iota.
  pose proof (Hs out1) as S1.
  destruct (send tr ctx out1 (Z.of_nat (length f))) as [sent1 ctx1] eqn:Es.
  cbn [fst] in S1.
  replace (sent1 =? Z.of_nat (length f)) with false
    by (symmetry; apply Z.eqb_neq; exact S1).
  cbn [negb]. exists out1, t1. split; [|split; [|exact Hq1]].
  - unfold MAX_FRAME_SIZE in *.
    rewrite (Z.min_l (Z.of_nat (length f)) 8192) in Ho by (clear - Hl; lia). rewrite Ho.
    apply firstn_all2. lia.
  - rewrite Es. reflexivity.
Qed.

(** The loop returns whatever the ring holds and whatever the transport
    answers: every pass that goes on has taken at least three bytes out
    of the ring. *)
Lemma process_tx_loop_returns {C : Type} (tr : transport_t C) :
  forall fuel t ctx frame count,
  tx_wf t -> (Z.to_nat (tx_available t) < fuel)%nat ->
  process_tx_loop fuel tr ctx t frame count <> None.
Proof.
  induction fuel as [|fuel IH]; intros t ctx frame count W Hfuel; [lia|].
  cbn [process_tx_loop].
  pose proof (tx_available_range t) as Ra.
  set (L := u16 (Z.lor (tx_buf t (tx_head t))
                   (Z.shiftl (tx_buf t ((tx_head t + 1) mod 65535)) 8))).
  destruct (Z_lt_ge_dec (tx_available t) 2) as [Hlt|Hge].
  { rewrite (dequeueTxFrame_idle t frame MAX_FRAME_SIZE W) by (left; exact Hlt).
    change (0 >? 0) with false. cbv iota. discriminate. }
  destruct (Z_lt_ge_dec (tx_available t - 2) L) as [Hl|Hl].
  { rewrite (dequeueTxFrame_idle t frame MAX_FRAME_SIZE W)
      by (right; exact Hl).
    change (0 >? 0) with false. cbv iota. discriminate. }
  destruct (dequeueTxFrame_cells t frame MAX_FRAME_SIZE W ltac:(lia)
              ltac:(fold L; lia) ltac:(unfold MAX_FRAME_SIZE; lia))
    as (out1 & E & _).
  fold L in E. rewrite E.
  destruct (L >? 0) eqn:HL; [|discriminate].
  apply Z.gtb_lt in HL.
  destruct (send tr ctx out1 L) as [sent1 ctx1].
  destruct (negb (sent1 =? L)); [discriminate|].
  apply IH.
  - destruct W as [Hh Ht]. split; [|exact Ht]. cbn [tx_head].
    unfold TX_BUFFER_SIZE. apply Z.mod_pos_bound. lia.
  - unfold tx_available at 1. cbn [tx_head tx_tail]. unfold TX_BUFFER_SIZE.
    destruct W as [Hh Ht]. unfold TX_BUFFER_SIZE in Hh, Ht.
    rewrite (ring_distance_after (tx_head t) (tx_tail t) (2 + L) Hh Ht)
      by (unfold tx_available, TX_BUFFER_SIZE in *; lia).
    unfold tx_available, TX_BUFFER_SIZE in *. lia.
Qed.

(** * Further properties of the simulated transport *)

Section TestQueue.

Import TestTransport.

Lemma queued_bytes_length ctx :
  length (queued_bytes ctx)
  = Z.to_nat ((rx_tail ctx - rx_head ctx) mod TEST_BUF_SIZE).
Proof. unfold queued_bytes. apply ring_slice_length. Qed.

Lemma queue_push ctx v :
  test_wf ctx ->
  Z.rem (rx_tail ctx + 1) TEST_BUF_SIZE <> rx_head ctx ->
  let ctx' :=
    mkTest (store (rx_queue ctx) (rx_tail ctx) v) (rx_head ctx)
      (Z.rem (rx_tail ctx + 1) TEST_BUF_SIZE) (connected ctx)
      (recv_calls ctx) (send_calls ctx) (sent ctx) in
  test_wf ctx' /\ queued_bytes ctx' = queued_bytes ctx ++ [v].
Proof.
  intros [Hh Ht] Hn ctx'. subst ctx'. unfold test_wf, queued_bytes.
  cbn [rx_queue rx_head rx_tail]. unfold TEST_BUF_SIZE in *.
  split; [split; [exact Hh | mod_lia]|].
  replace ((Z.rem (rx_tail ctx + 1) 4096 - rx_head ctx) mod 4096)
    with ((rx_tail ctx - rx_head ctx) mod 4096 + 1) by mod_lia.
  rewrite ring_slice_app by mod_lia. f_equal.
  - apply ring_slice_ext. intros k Hk. unfold store.
    destruct (Z.eqb_spec ((rx_head ctx + k) mod 4096) (rx_tail ctx)) as [E|E];
      [exfalso; mod_lia | reflexivity].
  - replace ((rx_head ctx + (rx_tail ctx - rx_head ctx) mod 4096) mod 4096)
      with (rx_tail ctx) by mod_lia.
    unfold ring_slice. change (Z.to_nat 1) with 1%nat. cbn [seq map].
    change (Z.of_nat 0) with 0. rewrite Z.add_0_r.
    rewrite Z.mod_small by lia. unfold store. rewrite Z.eqb_refl. reflexivity.
Qed.

Lemma queue_full ctx :
  test_wf ctx ->
  Z.rem (rx_tail ctx + 1) TEST_BUF_SIZE = rx_head ctx ->
  length (queued_bytes ctx) = 4095%nat.
Proof.
  intros [Hh Ht] Hn. rewrite queued_bytes_length. unfold TEST_BUF_SIZE in *.
  replace ((rx_tail ctx - rx_head ctx) mod 4096) with 4095 by mod_lia.
  reflexivity.
Qed.

Lemma queue_not_full ctx :
  test_wf ctx ->
  Z.rem (rx_tail ctx + 1) TEST_BUF_SIZE <> rx_head ctx ->
  (length (queued_bytes ctx) < 4095)%nat.
Proof.
  intros [Hh Ht] Hn. rewrite queued_bytes_length. unfold TEST_BUF_SIZE in *.
  assert (0 <= (rx_tail ctx - rx_head ctx) mod 4096 < 4095) by mod_lia. lia.
Qed.

Lemma queue_pop ctx :
  test_wf ctx -> rx_head ctx <> rx_tail ctx ->
  let ctx' :=
    mkTest (rx_queue ctx) (Z.rem (rx_head ctx + 1) TEST_BUF_SIZE)
      (rx_tail ctx) (connected ctx) (recv_calls ctx) (send_calls ctx)
      (sent ctx) in
  test_wf ctx' /\
  queued_bytes ctx = rx_queue ctx (rx_head ctx) :: queued_bytes ctx'.
Proof.
  intros [Hh Ht] Hn ctx'. subst ctx'. unfold test_wf, queued_bytes.
  cbn [rx_queue rx_head rx_tail]. unfold TEST_BUF_SIZE in *.
  split; [split; [mod_lia | exact Ht]|].
  replace ((rx_tail ctx - Z.rem (rx_head ctx + 1) 4096) mod 4096)
    with ((rx_tail ctx - rx_head ctx) mod 4096 - 1) by mod_lia.
  replace ((rx_tail ctx - rx_head ctx) mod 4096)
    with (1 + ((rx_tail ctx - rx_head ctx) mod 4096 - 1)) at 1 by lia.
  rewrite ring_slice_app by mod_lia.
  replace (Z.rem (rx_head ctx + 1) 4096) with ((rx_head ctx + 1) mod 4096)
    by mod_lia.
  unfold ring_slice at 1. change (Z.to_nat 1) with 1%nat. cbn [seq map app].
  change (Z.of_nat 0) with 0. rewrite Z.add_0_r.
  rewrite (Z.mod_small (rx_head ctx)) by lia. reflexivity.
Qed.

Lemma queue_empty ctx :
  rx_head ctx = rx_tail ctx -> queued_bytes ctx = [].
Proof.
  intros E. unfold queued_bytes. rewrite E, Z.sub_diag. reflexivity.
Qed.

Lemma inject_loop_spec data : forall n i ctx,
  test_wf ctx ->
  let ctx' := inject_loop n i data ctx in
  test_wf ctx' /\
  queued_bytes ctx'
  = queued_bytes ctx
    ++ firstn (4095 - length (queued_bytes ctx))
         (map (fun k => data (i + Z.of_nat k)) (seq 0 n)) /\
  rx_head ctx' = rx_head ctx /\ connected ctx' = connected ctx /\
  recv_calls ctx' = recv_calls ctx /\ send_calls ctx' = send_calls ctx /\
  sent ctx' = sent ctx.
Proof.
  induction n as [|n IH]; intros i ctx W ctx'; subst ctx'.
  - cbn [inject_loop seq map]. rewrite firstn_nil, app_nil_r.
    repeat split; try reflexivity; apply W.
  - cbn [inject_loop].
    destruct (Z.eqb_spec (Z.rem (rx_tail ctx + 1) TEST_BUF_SIZE) (rx_head ctx))
      as [E|E]; cbn [negb].
    + destruct (IH (i + 1) ctx W) as (W' & Q & R).
      rewrite (queue_full ctx W E) in Q |- *.
      change (4095 - 4095)%nat with 0%nat in Q |- *.
      rewrite firstn_O in Q |- *. split; [exact W'|]. split; [exact Q|exact R].
    + destruct (queue_push ctx (data i) W E) as [W1 Q1].
      pose proof (queue_not_full ctx W E) as NF.
      match type of W1 with test_wf ?c => set (ctx1 := c) in * end.
      destruct (IH (i + 1) ctx1 W1) as (W' & Q & Hh & Hc & Hr & Hs & Hl).
      split; [exact W'|]. split; [|repeat split; assumption].
      rewrite Q, Q1. rewrite length_app. cbn [length].
      rewrite <- app_assoc. f_equal.
      replace (4095 - length (queued_bytes ctx))%nat
        with (S (4095 - (length (queued_bytes ctx) + 1)))%nat by lia.
      cbn [seq map firstn app]. change (Z.of_nat 0) with 0.
      rewrite Z.add_0_r. f_equal. f_equal.
      rewrite <- seq_shift, map_map. apply map_ext. intros k.
      f_equal. lia.
Qed.

Lemma recv_loop_spec : forall n count buf ctx,
  test_wf ctx ->
  let k := Nat.min n (length (queued_bytes ctx)) in
  exists ctx' buf',
    recv_loop n count buf ctx = (count + Z.of_nat k, ctx', buf') /\
    test_wf ctx' /\
    queued_bytes ctx' = skipn k (queued_bytes ctx) /\
    (forall j, (j < k)%nat ->
       buf' (count + Z.of_nat j) = nth j (queued_bytes ctx) 0) /\
    (forall x, ~ (count <= x < count + Z.of_nat k) -> buf' x = buf x) /\
    rx_queue ctx' = rx_queue ctx /\ rx_tail ctx' = rx_tail ctx /\
    connected ctx' = connected ctx /\ recv_calls ctx' = recv_calls ctx /\
    send_calls ctx' = send_calls ctx /\ sent ctx' = sent ctx.
Proof.
  induction n as [|n IH]; intros count buf ctx W k; subst k.
  - cbn [recv_loop Nat.min]. exists ctx, buf.
    change (Z.of_nat 0) with 0. rewrite Z.add_0_r.
    repeat split; try reflexivity; try apply W.
    intros j Hj. lia.
  - cbn [recv_loop].
    destruct (Z.eqb_spec (rx_head ctx) (rx_tail ctx)) as [E|E]; cbn [negb].
    + exists ctx, buf. rewrite (queue_empty ctx E). cbn [length].
      rewrite Nat.min_0_r. change (Z.of_nat 0) with 0. rewrite Z.add_0_r.
      repeat split; try reflexivity; try apply W.
      intros j Hj. lia.
    + destruct (queue_pop ctx W E) as [W1 Q1].
      match type of W1 with test_wf ?c => set (ctx1 := c) in * end.
      destruct (IH (count + 1) (store buf count (rx_queue ctx (rx_head ctx)))
                  ctx1 W1)
        as (ctx' & buf' & Er & W' & Q & Hb & Ho & Hq & Ht & Hc & Hr & Hs & Hl).
      rewrite Q1. cbn [length Nat.min skipn].
      exists ctx', buf'. rewrite Er.
      split; [do 2 f_equal; lia|]. split; [exact W'|]. split; [exact Q|].
      split; [|split; [|repeat split; assumption]].
      * intros [|j] Hj.
        -- change (Z.of_nat 0) with 0. rewrite Z.add_0_r.
           rewrite Ho by lia. unfold store. rewrite Z.eqb_refl. reflexivity.
        -- cbn [nth]. rewrite <- Hb by lia. f_equal. lia.
      * intros x Hx. rewrite Ho by lia. unfold store.
        destruct (Z.eqb_spec x count) as [Ex|Ex]; [exfalso; lia | reflexivity].
Qed.

End TestQueue.

(** ** Draining the TX ring into the transport *)

(** X25.  When the TX ring holds the frames [fs], each of 1 to [MAX_FRAME_SIZE]
    bytes, and the transport's [send] always reports the full length,
    [app_process_tx_buffer] returns (with more fuel than frames) after
    calling [send] once per frame, oldest first, each time on a buffer
    that holds exactly the bytes of that frame; it leaves the TX ring
    empty and the rest of the application state as it was. *)
Theorem app_process_tx_buffer_sends_all {C : Type} (tr : transport_t C)
    ctx frame g fs fuel :
  tx_holds (tx_buffer g) fs ->
  Forall (fun f => 0 < Z.of_nat (length f) <= MAX_FRAME_SIZE) fs ->
  (forall c m n, fst (send tr c m n) = n) ->
  (length fs < fuel)%nat ->
  exists ms t',
    Forall2 (fun m f => to_list m (Z.of_nat (length f)) = f) ms fs /\
    app_process_tx_buffer fuel (Some tr) ctx frame g
    = Some (send_all tr ctx ms fs, set_tx_buffer t' g) /\
    tx_holds t' [].
Proof.
  intros Hq Hf Hs Hfuel.
  destruct (process_tx_loop_drains tr fs (tx_buffer g) ctx frame 0 fuel
              Hq Hf Hs Hfuel) as (ms & t' & frame' & F2 & E & Hq').
  exists ms, t'. split; [exact F2|]. split; [|exact Hq'].
  unfold app_process_tx_buffer. rewrite E. reflexivity.
Qed.

Lemma app_process_tx_buffer_sends_all_witness :
  let tr := TestTransport.transport_test_create (fun _ => 0) in
  let ctx := TestTransport.mkTest (fun _ => 0) 0 0 1 0 0 [] in
  let g :=
    app_handle_command CMD_PING 0 (fun _ => 0) 0 (app_init (fun _ => 0)) in
  let fs :=
    [frame_bytes CMD_PONG 0 [0xDD; 0xCC; 0xBB; 0xAA; 0x44; 0x33; 0x22; 0x11]] in
  exists ms t',
    Forall2 (fun m f => to_list m (Z.of_nat (length f)) = f) ms fs /\
    app_process_tx_buffer 2 (Some tr) ctx (fun _ => 0) g
    = Some (send_all tr ctx ms fs, set_tx_buffer t' g) /\
    tx_holds t' [].
Proof.
  intros tr ctx g fs.
  apply (app_process_tx_buffer_sends_all tr ctx (fun _ => 0) g fs 2).
  - exact (proj1 (proj2 (app_handle_command_ping (app_init (fun _ => 0)) 0
                           (fun _ => 0) 0 [] (app_init_tx_holds _)
                           ltac:(vm_compute; discriminate)))).
  - constructor; [|constructor].
    vm_compute. split; [reflexivity | discriminate].
  - intros c m n. reflexivity.
  - cbn [length fs]. lia.
Defined.

(** X26.  When [send] does not report the full length for the oldest queued
    frame, [app_process_tx_buffer] stops after that one call: the frame
    has left the TX ring and is not sent again, and the frames behind it
    stay queued in order. *)
Theorem app_process_tx_buffer_drops_failed_frame {C : Type}
    (tr : transport_t C) ctx frame g f fs fuel :
  tx_holds (tx_buffer g) (f :: fs) ->
  0 < Z.of_nat (length f) <= MAX_FRAME_SIZE ->
  (forall m, fst (send tr ctx m (Z.of_nat (length f)))
             <> Z.of_nat (length f)) ->
  exists m t',
    to_list m (Z.of_nat (length f)) = f /\
    app_process_tx_buffer (S fuel) (Some tr) ctx frame g
    = Some (snd (send tr ctx m (Z.of_nat (length f))), set_tx_buffer t' g) /\
    tx_holds t' fs.
Proof.
  intros Hq Hl Hs.
  destruct (process_tx_loop_send_fails tr f fs (tx_buffer g) ctx frame 0 fuel
              Hq Hl Hs) as (m & t' & Hm & E & Hq').
  exists m, t'. split; [exact Hm|]. split; [|exact Hq'].
  unfold app_process_tx_buffer. rewrite E. reflexivity.
Qed.

Lemma app_process_tx_buffer_drops_failed_frame_witness :
  let tr :=
    mkTransport unit (fun c => (0, c)) (fun c => (0, c))
      (fun c m _ => (0, c, m)) (fun c _ _ => (-1, c)) (fun c => c) in
  let g :=
    app_handle_command CMD_PING 0 (fun _ => 0) 0 (app_init (fun _ => 0)) in
  let f :=
    frame_bytes CMD_PONG 0 [0xDD; 0xCC; 0xBB; 0xAA; 0x44; 0x33; 0x22; 0x11] in
  exists m t',
    to_list m (Z.of_nat (length f)) = f /\
    app_process_tx_buffer 1 (Some tr) tt (fun _ => 0) g
    = Some (snd (send tr tt m (Z.of_nat (length f))), set_tx_buffer t' g) /\
    tx_holds t' [].
Proof.
  intros tr g f.
  apply (app_process_tx_buffer_drops_failed_frame tr tt (fun _ => 0) g f [] 0).
  - exact (proj1 (proj2 (app_handle_command_ping (app_init (fun _ => 0)) 0
                           (fun _ => 0) 0 [] (app_init_tx_holds _)
                           ltac:(vm_compute; discriminate)))).
  - vm_compute. split; [reflexivity | discriminate].
  - intros m. vm_compute. discriminate.
Defined.

(** X27.  [app_process_tx_buffer] returns whatever the TX ring holds and
    whatever the transport answers: with more fuel than bytes between
    the cursors the loop ends, since each pass that goes on has taken a
    record of at least three bytes out of the ring.  It changes nothing
    of the application but the TX ring, and without a transport not
    even that. *)
Theorem app_process_tx_buffer_returns {C : Type}
    (tr : option (transport_t C)) ctx frame g fuel :
  tx_wf (tx_buffer g) ->
  (Z.to_nat (tx_available (tx_buffer g)) < fuel)%nat ->
  exists ctx' t',
    app_process_tx_buffer fuel tr ctx frame g
    = Some (ctx', set_tx_buffer t' g) /\
    (tr = None -> ctx' = ctx /\ t' = tx_buffer g).
Proof.
  intros W Hfuel. unfold app_process_tx_buffer.
  destruct tr as [tr|].
  - pose proof (process_tx_loop_returns tr fuel (tx_buffer g) ctx frame 0
                  W Hfuel) as H.
    destruct (process_tx_loop fuel tr ctx (tx_buffer g) frame 0)
      as [[[[c t] m] n]|]; [|exfalso; apply H; reflexivity].
    exists c, t. split; [reflexivity | discriminate].
  - exists ctx, (tx_buffer g). split; [|intros _; split; reflexivity].
    destruct g; reflexivity.
Qed.

Lemma app_process_tx_buffer_returns_witness :
  exists ctx' t',
    app_process_tx_buffer 1
      (Some (TestTransport.transport_test_create (fun _ => 0)))
      (TestTransport.mkTest (fun _ => 0) 0 0 1 0 0 []) (fun _ => 0)
      (app_init (fun _ => 0))
    = Some (ctx', set_tx_buffer t' (app_init (fun _ => 0))).
Proof.
  destruct (app_process_tx_buffer_returns
              (Some (TestTransport.transport_test_create (fun _ => 0)))
              (TestTransport.mkTest (fun _ => 0) 0 0 1 0 0 []) (fun _ => 0)
              (app_init (fun _ => 0)) 1)
    as (ctx' & t' & E & _).
  - unfold tx_wf, TX_BUFFER_SIZE. cbn. lia.
  - vm_compute. lia.
  - exists ctx', t'. exact E.
Defined.

(** ** The receive queue of the simulated transport *)

(** X28.  [test_inject_data] appends the bytes of [data] to the simulated
    receive queue, in order, up to a fill of 4095 bytes; the bytes that
    do not fit are left out without any sign to the caller. *)
Theorem test_inject_data_appends_or_drops data len ctx :
  TestTransport.test_wf ctx ->
  let ctx' := TestTransport.test_inject_data data len ctx in
  TestTransport.test_wf ctx' /\
  TestTransport.queued_bytes ctx'
  = TestTransport.queued_bytes ctx
    ++ firstn (4095 - length (TestTransport.queued_bytes ctx))
         (to_list data len).
Proof.
  intros W ctx'. subst ctx'. unfold TestTransport.test_inject_data.
  destruct (inject_loop_spec data (Z.to_nat len) 0 ctx W) as (W' & Q & _).
  split; [exact W'|]. rewrite Q. reflexivity.
Qed.

Lemma test_inject_data_appends_or_drops_witness :
  let ctx := TestTransport.mkTest (fun _ => 0) 4090 4093 1 0 0 [] in
  let ctx' := TestTransport.test_inject_data (of_list [7; 8; 9]) 3 ctx in
  TestTransport.test_wf ctx' /\
  TestTransport.queued_bytes ctx'
  = TestTransport.queued_bytes ctx
    ++ firstn (4095 - length (TestTransport.queued_bytes ctx))
         (to_list (of_list [7; 8; 9]) 3).
Proof.
  intros ctx.
  apply (test_inject_data_appends_or_drops (of_list [7; 8; 9]) 3 ctx).
  unfold TestTransport.test_wf, TestTransport.TEST_BUF_SIZE. cbn. lia.
Defined.

(** X29.  [test_recv] takes the oldest [min len queued] bytes out of the
    simulated receive queue: it returns that count, stores the bytes at
    the start of [buf] in order, leaves the rest of [buf] alone and the
    remaining bytes queued, and counts the call only when it got a
    byte. *)
Theorem test_recv_pops ctx buf len :
  TestTransport.test_wf ctx ->
  let k := Nat.min (Z.to_nat len) (length (TestTransport.queued_bytes ctx)) in
  exists ctx' buf',
    TestTransport.test_recv ctx buf len = (Z.of_nat k, ctx', buf') /\
    to_list buf' (Z.of_nat k) = firstn k (TestTransport.queued_bytes ctx) /\
    TestTransport.queued_bytes ctx' = skipn k (TestTransport.queued_bytes ctx) /\
    TestTransport.test_wf ctx' /\
    (forall x, ~ (0 <= x < Z.of_nat k) -> buf' x = buf x) /\
    TestTransport.recv_calls ctx'
    = TestTransport.recv_calls ctx + (if (0 <? k)%nat then 1 else 0).
Proof.
  intros W k.
  destruct (recv_loop_spec (Z.to_nat len) 0 buf ctx W)
    as (ctx1 & buf1 & E & W1 & Q & Hb & Ho & _ & _ & _ & Hr & _).
  fold k in E, Q, Hb, Ho. rewrite Z.add_0_l in E.
  unfold TestTransport.test_recv. rewrite E.
  eexists. exists buf1. split; [reflexivity|].
  split; [|split; [|split; [|split]]].
  - apply (nth_ext _ _ 0 0).
    + rewrite to_list_length, length_firstn. lia.
    + intros j Hj. rewrite to_list_length in Hj.
      rewrite to_list_nth by exact Hj.
      rewrite nth_firstn.
      replace (j <? k)%nat with true by (symmetry; apply Nat.ltb_lt; lia).
      rewrite <- (Hb j) by lia. reflexivity.
  - destruct (Z.of_nat k >? 0); exact Q.
  - destruct (Z.of_nat k >? 0); exact W1.
  - intros x Hx. apply Ho. lia.
  - destruct k as [|k'].
    + change (Z.of_nat 0 >? 0) with false. cbv iota.
      rewrite Hr. change (0 <? 0)%nat with false. cbv iota. lia.
    + replace (Z.of_nat (S k') >? 0) with true
        by (symmetry; apply Z.gtb_lt; lia).
      cbv iota. cbn [TestTransport.recv_calls]. rewrite Hr.
      change (0 <? S k')%nat with true. reflexivity.
Qed.

Lemma test_recv_pops_witness :
  let ctx :=
    TestTransport.test_inject_data (of_list [7; 8; 9]) 3
      (TestTransport.mkTest (fun _ => 0) 4094 4094 1 0 0 []) in
  exists ctx' buf',
    TestTransport.test_recv ctx (fun _ => 0) 2 = (2, ctx', buf') /\
    to_list buf' 2 = [7; 8] /\
    TestTransport.queued_bytes ctx' = [9].
Proof.
  intros ctx.
  assert (W : TestTransport.test_wf ctx)
    by (vm_compute; repeat split; discriminate).
  destruct (test_recv_pops ctx (fun _ => 0) 2 W)
    as (ctx' & buf' & E & B & Q & _).
  exists ctx', buf'. split; [exact E|]. split; [exact B | exact Q].
Defined.

(** * Further properties: one pass of the main loop *)

Lemma to_list_agree a b n :
  to_list a n = to_list b n -> agree_upto a b n.
Proof.
  intros E i Hi.
  rewrite <- (Z2Nat.id i) by lia.
  rewrite <- (to_list_nth a n (Z.to_nat i) 0) by lia.
  rewrite <- (to_list_nth b n (Z.to_nat i) 0) by lia.
  rewrite E. reflexivity.
Qed.

(** The frames that [buildFrame] makes are frames for the extractor. *)
Lemma frame_bytes_framed cmd sq payload :
  Z.of_nat (length payload) <= 8182 ->
  framed (frame_bytes cmd sq payload) /\
  Z.of_nat (length (frame_bytes cmd sq payload))
  = 10 + Z.of_nat (length payload).
Proof.
  intros Hl. unfold frame_bytes.
  destruct (buildFrame_layout_present cmd sq (Some (of_list payload))
              (Z.of_nat (length payload)) (fun _ => 0) 65535 I
              ltac:(lia) ltac:(lia) ltac:(lia))
    as (f & -> & L & _).
  set (len := Z.of_nat (length payload)) in *.
  destruct L as (L0 & L1 & L2 & L3 & _).
  assert (Hlen : Z.of_nat (length (to_list f (10 + len))) = 10 + len)
    by (rewrite to_list_length; lia).
  split; [|exact Hlen].
  unfold framed, declared_size. rewrite Hlen.
  rewrite !to_list_nth by lia.
  change (Z.of_nat 0) with 0. change (Z.of_nat 1) with 1.
  change (Z.of_nat 2) with 2. change (Z.of_nat 3) with 3.
  rewrite L0, L1, L2, L3.
  rewrite (join_bytes (len + 4)) by (unfold is_u16; lia).
  rewrite u16_small by lia.
  unfold MIN_FRAME_LEN, MAX_FRAME_SIZE.
  repeat split; try reflexivity; lia.
Qed.

Lemma process_tx_loop_single {C : Type} (tr : transport_t C) f t ctx frame
    count fuel :
  tx_holds t [f] -> 0 < Z.of_nat (length f) <= MAX_FRAME_SIZE ->
  (2 <= fuel)%nat ->
  exists m t' count',
    to_list m (Z.of_nat (length f)) = f /\
    process_tx_loop fuel tr ctx t frame count
    = Some (snd (send tr ctx m (Z.of_nat (length f))), t', m, count') /\
    tx_holds t' [].
Proof.
  intros Hq Hl Hfuel.
  destruct fuel as [|[|fuel]]; [lia | lia |].
  cbn [process_tx_loop].
  destruct (dequeueTxFrame_queue t f [] frame MAX_FRAME_SIZE Hq
              ltac:(unfold MAX_FRAME_SIZE; lia))
    as (t1 & out1 & E & Hq1 & Ho & _).
  rewrite E.
  replace (Z.of_nat (length f) >? 0) with true
    by (symmetry; apply Z.gtb_lt; lia).
  cbv iota.
  assert (Hm : to_list out1 (Z.of_nat (length f)) = f).
  { unfold MAX_FRAME_SIZE in *.
    rewrite (Z.min_l (Z.of_nat (length f)) 8192) in Ho by (clear - Hl; lia).
    rewrite Ho. apply firstn_all2. lia. }
  destruct (send tr ctx out1 (Z.of_nat (length f))) as [sent1 ctx1] eqn:Es.
  destruct (negb (sent1 =? Z.of_nat (length f))).
  - exists out1, t1, count. rewrite Es. cbn [snd].
    split; [exact Hm|]. split; [reflexivity | exact Hq1].
  - rewrite (dequeueTxFrame_idle t1 out1 MAX_FRAME_SIZE (proj1 Hq1))
      by (left; rewrite (tx_holds_nil_available t1 Hq1); lia).
    change (0 >? 0) with false. cbv iota.
    exists out1, t1, (count + 1). rewrite Es. cbn [snd].
    split; [exact Hm|]. split; [reflexivity | exact Hq1].
Qed.

(** The frame handler neither reads nor writes the RX ring: handling a
    frame and replacing the ring can be done in either order.  This is
    what lets [main_loop_body] take the ring out of the application
    state while the drain loop runs. *)
Lemma app_send_frame_with_seq_set_rx_buffer cmd sq payload len r g :
  app_send_frame_with_seq cmd sq payload len (set_rx_buffer r g)
  = set_rx_buffer r (app_send_frame_with_seq cmd sq payload len g).
Proof.
  unfold app_send_frame_with_seq.
  change (tx_frame_buf (set_rx_buffer r g)) with (tx_frame_buf g).
  change (tx_buffer (set_rx_buffer r g)) with (tx_buffer g).
  change (tx_log (set_rx_buffer r g)) with (tx_log g).
  destruct (buildFrame cmd sq payload len (tx_frame_buf g) TX_FRAME_BUF_SIZE)
    as [[ret fb] n].
  destruct (ret =? 0); [|reflexivity].
  destruct (enqueueTxFrame (tx_buffer g) fb n) as [e tb].
  destruct (e =? 0); reflexivity.
Qed.

Lemma configure_loop_set_rx_buffer payload payload_len r : forall n offset g,
  configure_loop n offset payload payload_len (set_rx_buffer r g)
  = set_rx_buffer r (configure_loop n offset payload payload_len g).
Proof.
  induction n as [|n IH]; intros offset g; [reflexivity|].
  cbn [configure_loop].
  destruct (offset + 6 <=? payload_len); [|reflexivity].
  change (num_channels (set_rx_buffer r g)) with (num_channels g).
  destruct (payload offset <? num_channels g).
  - rewrite <- IH. reflexivity.
  - apply IH.
Qed.

Lemma app_handle_command_set_rx_buffer cmd sq payload payload_len r g :
  app_handle_command cmd sq payload payload_len (set_rx_buffer r g)
  = set_rx_buffer r (app_handle_command cmd sq payload payload_len g).
Proof.
  unfold app_handle_command, rand. cbv beta iota zeta.
  repeat match goal with
         | |- context [if ?c =? ?d then _ else _] => destruct (c =? d)
         end;
    try (rewrite <- app_send_frame_with_seq_set_rx_buffer; reflexivity).
  - change (num_channels (set_rx_buffer r g)) with (num_channels g).
    destruct (device_info_loop _ _ _ _) as [info offset].
    apply app_send_frame_with_seq_set_rx_buffer.
  - destruct (payload_len <? 1).
    + apply app_send_frame_with_seq_set_rx_buffer.
    + rewrite <- app_send_frame_with_seq_set_rx_buffer.
      rewrite configure_loop_set_rx_buffer. reflexivity.
  - change (mode (set_rx_buffer r g)) with (mode g).
    change (trigger (set_rx_buffer r g)) with (trigger g).
    destruct (_ || _); apply app_send_frame_with_seq_set_rx_buffer.
Qed.

Lemma app_on_frame_set_rx_buffer local frame frameLen r g :
  app_on_frame local frame frameLen (set_rx_buffer r g)
  = option_map (set_rx_buffer r) (app_on_frame local frame frameLen g).
Proof.
  unfold app_on_frame.
  destruct (parseFrame frame frameLen (mkParseOut 0 0 (Some local) (Some 0)))
    as [ret o].
  destruct (_ >? MAX_FRAME_SIZE); [reflexivity|].
  destruct (ret =? 0); [|reflexivity].
  destruct (pPayload o); [|reflexivity].
  destruct (pPayloadLen o); [|reflexivity].
  cbn [option_map]. f_equal. apply app_handle_command_set_rx_buffer.
Qed.

Section MainLoopPass.

Variable sample : Z -> Z -> Z.

Lemma app_periodic_task_stopped now g :
  status g = STATUS_STOPPED ->
  let g' := app_periodic_task sample now g in
  tx_buffer g' = tx_buffer g /\ rx_buffer g' = rx_buffer g /\
  tx_log g' = tx_log g /\ status g' = STATUS_STOPPED.
Proof.
  intros Hs g'. subst g'. unfold app_periodic_task.
  destruct (start_time g =? 0).
  - change (status (set_start_time now g)) with (status g). rewrite Hs.
    repeat split; try reflexivity; exact Hs.
  - rewrite Hs. repeat split; try reflexivity; exact Hs.
Qed.

(** X30.  One pass of the main loop answers a Ping.  With both rings empty
    and streaming stopped, when [recv] delivers the ten bytes of a Ping
    frame, the pass returns (fuel 2 is enough) and goes on; it has called
    [send] once, on a buffer holding the 18 bytes of the Pong frame with
    the Ping's sequence number and the device id, and leaves both rings
    empty again, whatever [send] answered. *)
Theorem main_loop_answers_ping {C : Type} (tr : transport_t C) lc now st
    fuel sq ctx1 buf1 :
  let g := m_app st in
  let id := [0xDD; 0xCC; 0xBB; 0xAA; 0x44; 0x33; 0x22; 0x11] in
  rx_wf (rx_buffer g) -> rx_bytes (rx_buffer g) = [] ->
  tx_holds (tx_buffer g) [] ->
  status g = STATUS_STOPPED ->
  is_u8 sq ->
  recv tr (m_ctx st) (g_recv_raw_buf st) 4096 = (10, ctx1, buf1) ->
  to_list buf1 10 = frame_bytes CMD_PING sq [] ->
  (2 <= fuel)%nat ->
  exists m st',
    main_loop_body sample fuel tr lc now st = Some (true, st') /\
    to_list m 18 = frame_bytes CMD_PONG sq id /\
    m_ctx st' = snd (send tr ctx1 m 18) /\
    tx_log (m_app st') = tx_log g ++ [mkEvent CMD_PONG sq id (Queued 18)] /\
    tx_holds (tx_buffer (m_app st')) [] /\
    rx_wf (rx_buffer (m_app st')) /\ rx_bytes (rx_buffer (m_app st')) = [] /\
    status (m_app st') = STATUS_STOPPED.
Proof.
  intros g id W Hrx Hq Hst Hsq Hrecv Hbuf Hfuel.
  unfold main_loop_body. rewrite Hrecv.
  change (10 >? 0) with true. cbv iota. change (u16 10) with 10.
  fold g.
  (* the bytes go into the RX ring *)
  assert (Hav : rx_available (rx_buffer g) = 0)
    by (rewrite <- rx_bytes_length, Hrx; reflexivity).
  pose proof (rx_free_available (rx_buffer g) W) as Hfree.
  destruct (feedRxBuffer_bytes (rx_buffer g) buf1 10 W ltac:(lia))
    as (r1 & Ef & W1 & Hb1).
  rewrite Z.min_l in Ef, Hb1 by lia.
  rewrite Ef. rewrite Hrx, Hbuf in Hb1. cbn [app] in Hb1.
  (* the drain loop finds the frame and hands it to the handler *)
  destruct (frame_bytes_framed CMD_PING sq [] ltac:(cbn [length]; lia))
    as [Fr Flen].
  cbn [length] in Flen. change (10 + Z.of_nat 0) with 10 in Flen.
  destruct (tryParseFramesFromRx_stream (option app_context_t)
              (app_on_frame_callback (l_payload lc)) []
              [frame_bytes CMD_PING sq []]
              r1 (l_tempFrame lc) (l_frameLen lc) (Some g) fuel W1
              ltac:(cbn [concat]; rewrite !app_nil_r; exact Hb1)
              ltac:(constructor; [exact Fr | constructor])
              ltac:(cbn [length]; unfold MIN_FRAME_LEN; lia)
              ltac:(cbn [length]; lia))
    as (ms & r2 & F2 & Ep & W2 & Hb2).
  inversion F2 as [|m1 ? ms' ? Hm1 F2']; subst. inversion F2'; subst.
  rewrite Ep. cbn [combine fold_left fst snd app_on_frame_callback].
  rewrite Flen in Hm1 |- *.
  (* the handler decodes the Ping *)
  unfold frame_bytes in Hm1. cbn [length] in Hm1.
  change (Z.of_nat 0) with 0 in Hm1.
  destruct (buildFrame CMD_PING sq (Some (of_list [])) 0 (fun _ => 0) 65535)
    as [[ret f0] n0] eqn:Eb.
  destruct (buildFrame_layout_present CMD_PING sq (Some (of_list [])) 0
              (fun _ => 0) 65535 I ltac:(lia) ltac:(lia) ltac:(lia))
    as (f0' & Eb' & _).
  rewrite Eb in Eb'. assert (ret = 0) by congruence.
  assert (n0 = 10 + 0) by congruence. subst ret n0.
  change (10 + 0) with 10 in *.
  destruct (app_on_frame_built CMD_PING sq (Some (of_list [])) 0 (fun _ => 0)
              65535 f0 10 m1 (l_payload lc) g
              ltac:(unfold is_u8, CMD_PING; lia) Hsq
              ltac:(intros i Hi; lia) ltac:(lia) ltac:(lia) ltac:(lia)
              Eb (to_list_agree m1 f0 10 Hm1))
    as (Eh & _).
  destruct (Eh ltac:(unfold MAX_FRAME_SIZE; lia)) as (p & _ & Eh').
  rewrite Eh'. clear Eh Eh'.
  (* and queues the Pong *)
  pose proof (tx_free_available (tx_buffer g) (proj1 Hq)) as Htf.
  rewrite (tx_holds_nil_available _ Hq) in Htf.
  destruct (app_handle_command_ping g sq p 0 [] Hq ltac:(lia))
    as (Hlog & Hq1 & Se & _).
  cbn [app] in Hq1. fold id in Hlog, Hq1.
  set (g1 := app_handle_command CMD_PING sq p 0 g) in *.
  assert (Hst1 : status (set_rx_buffer r2 g1) = STATUS_STOPPED).
  { change (status (set_rx_buffer r2 g1)) with (status g1).
    destruct Se as (_ & S1 & _). rewrite S1. exact Hst. }
  destruct (app_periodic_task_stopped now (set_rx_buffer r2 g1) Hst1)
    as (Pt & Pr & Pl & Ps).
  set (g3 := app_periodic_task sample now (set_rx_buffer r2 g1)) in *.
  change (tx_buffer (set_rx_buffer r2 g1)) with (tx_buffer g1) in Pt.
  change (rx_buffer (set_rx_buffer r2 g1)) with r2 in Pr.
  change (tx_log (set_rx_buffer r2 g1)) with (tx_log g1) in Pl.
  (* which the send loop passes to the transport *)
  destruct (frame_bytes_framed CMD_PONG sq id ltac:(cbn [length id]; lia))
    as [_ Plen].
  cbn [length id] in Plen. change (10 + Z.of_nat 8) with 18 in Plen.
  rewrite <- Pt in Hq1.
  destruct (process_tx_loop_single tr (frame_bytes CMD_PONG sq id)
              (tx_buffer g3) ctx1 (l_frame lc) 0 fuel Hq1
              ltac:(rewrite Plen; unfold MAX_FRAME_SIZE; lia) Hfuel)
    as (m & t' & c' & Hm & El & Hq').
  rewrite Plen in Hm, El.
  unfold app_process_tx_buffer. rewrite El.
  exists m. eexists. split; [reflexivity|].
  cbn [m_ctx m_app].
  change (tx_log (set_tx_buffer t' g3)) with (tx_log g3).
  change (tx_buffer (set_tx_buffer t' g3)) with t'.
  change (rx_buffer (set_tx_buffer t' g3)) with (rx_buffer g3).
  change (status (set_tx_buffer t' g3)) with (status g3).
  rewrite Pl, Pr, Hlog.
  split; [exact Hm|]. split; [reflexivity|]. split; [reflexivity|].
  split; [exact Hq'|]. split; [exact W2|]. split; [exact Hb2 | exact Ps].
Qed.

End MainLoopPass.

Lemma main_loop_answers_ping_witness :
  let tr := TestTransport.transport_test_create (fun _ => 0) in
  let ctx0 :=
    snd (wait_connection tr
           (snd (init tr (TestTransport.mkTest (fun _ => 0) 0 0 0 0 0 [])))) in
  let st := mkMain ctx0 (app_init (fun _ => 0)) (fun _ => 0) 0 0 in
  let lc := mkLocals (fun _ => 0) 0 (fun _ => 0) (fun _ => 0) in
  exists st',
    main_loop_body (fun _ _ => 0) 2 tr lc 1000 st = Some (true, st') /\
    TestTransport.sent (m_ctx st')
    = [[0xAA; 0x55; 0x0C; 0x00; 0x81; 0x00; 0xDD; 0xCC; 0xBB; 0xAA; 0x44;
        0x33; 0x22; 0x11; 0xD9; 0xE3; 0x55; 0xAA]] /\
    TestTransport.send_calls (m_ctx st') = 1 /\
    tx_holds (tx_buffer (m_app st')) [].
Proof.
  intros tr ctx0 st lc.
  destruct (main_loop_answers_ping (fun _ _ => 0) tr lc 1000 st 2 0
              (snd (fst (recv tr ctx0 (fun _ => 0) 4096)))
              (snd (recv tr ctx0 (fun _ => 0) 4096)))
    as (m & st' & E & Hm & Hc & _ & Hq & _).
  - unfold rx_wf, RX_BUFFER_SIZE. cbn. lia.
  - vm_compute. reflexivity.
  - apply app_init_tx_holds.
  - reflexivity.
  - unfold is_u8. lia.
  - vm_compute. reflexivity.
  - vm_compute. reflexivity.
  - lia.
  - exists st'. split; [exact E|]. rewrite Hc.
    change (send tr) with TestTransport.test_send.
    unfold TestTransport.test_send.
    cbn [snd TestTransport.sent TestTransport.send_calls].
    rewrite Hm. split; [|split; [|exact Hq]]; vm_compute; reflexivity.
Defined.
